(** * N2NHU world generator: a shallow embedding and its verified properties

    The development follows the Python sources module by module:
    - [PyStr]         the string primitives the sources rely on
    - [Random]        Python's [random] module as a state monad over a tape of draws
    - [WorldModel]    world_model.py (records and enumerations)
    - [ThemeEngine]   theme_engine.py (keyword table and classifier)
    - [RoomGraph]     room_graph.py (connected room graph generator)
    - [Physics]       physics_templates.py (the twelve subsystem builders)
    - [SpriteFactory] sprite_factory.py
    - [Validation]    validation_engine.py (validator and round-trip verifier)
    - [Generator]     generator.py (the orchestrating pipeline)
    - [Ini]           what [configparser.RawConfigParser] holds of a file
    - [Repair]        create_world.py, the auto-repair pass of [main]

    Part II states and proves the properties, module by module; the facts
    about [generate], [classify], [validate], [verify], the pipeline, the
    repair pass, the physics builders and the sprite factory are in the
    modules whose names end in [Facts] or [Claims].

    Modelling conventions.
    - A Python [str] is a Rocq [string] (a byte sequence).  [lower] and [strip]
      are the ASCII versions of the Python methods.
    - An insertion-ordered Python [dict] whose order is observable is an
      association list with unique keys ([PyDict]); dictionaries used only as
      finite maps are [gmap]s.
    - Every use of the [random] module draws from an explicit tape ([Random.Rng]),
      so that "for every random outcome" is "for every tape".
    - Python floats are kept symbolic ([WorldModel.pyfloat]): the model records
      which float expression the source evaluates without evaluating it. *)

From Stdlib Require Import String Ascii List ZArith QArith Lia Bool Arith.
From stdpp Require Import base list strings gmap pretty relations.

Open Scope string_scope.
Open Scope list_scope.
Open Scope nat_scope.

(* ===================================================================== *)
(** ** Python string primitives                                           *)
(* ===================================================================== *)

Module PyStr.

(** [str.isspace] on ASCII: TAB..CR, FS..US and the blank. *)
Definition is_space (c : ascii) : bool :=
  let n := nat_of_ascii c in
  ((9 <=? n) && (n <=? 13)) || ((28 <=? n) && (n <=? 32)).

Fixpoint lstrip (s : string) : string :=
  match s with
  | EmptyString => EmptyString
  | String c s' => if is_space c then lstrip s' else s
  end.

Definition rev (s : string) : string :=
  string_of_list_ascii (List.rev (list_ascii_of_string s)).

Definition rstrip (s : string) : string := rev (lstrip (rev s)).

(** [s.strip()]: the white space stripped is that of [is_space]. *)
Definition strip (s : string) : string := rstrip (lstrip s).

Definition lower_char (c : ascii) : ascii :=
  let n := nat_of_ascii c in
  if (65 <=? n) && (n <=? 90) then ascii_of_nat (n + 32) else c.

Definition upper_char (c : ascii) : ascii :=
  let n := nat_of_ascii c in
  if (97 <=? n) && (n <=? 122) then ascii_of_nat (n - 32) else c.

Fixpoint map_chars (f : ascii -> ascii) (s : string) : string :=
  match s with
  | EmptyString => EmptyString
  | String c s' => String (f c) (map_chars f s')
  end.

(** [s.lower()] and [s.upper()] on ASCII text: the letters A..Z (a..z)
    change, every other character is kept. *)
Definition lower : string -> string := map_chars lower_char.
Definition upper : string -> string := map_chars upper_char.

(** [s.replace(c, r)] for a one-character pattern [c]. *)
Fixpoint replace_char (c : ascii) (r : string) (s : string) : string :=
  match s with
  | EmptyString => EmptyString
  | String x s' =>
      if Ascii.eqb x c then r +:+ replace_char c r s'
      else String x (replace_char c r s')
  end.

(** [sep.join(l)] *)
Fixpoint join (sep : string) (l : list string) : string :=
  match l with
  | [] => ""
  | [x] => x
  | x :: rest => x +:+ sep +:+ join sep rest
  end.

(** Truthiness of a string: [if s:] *)
Definition truthy (s : string) : bool := negb (String.eqb s "").

(** [s.startswith(p)] *)
Definition startswith (p s : string) : bool := String.prefix p s.

(** [s.split(c)] for a one-character separator: always at least one field. *)
Fixpoint split_aux (c : ascii) (cur : string) (s : string) : list string :=
  match s with
  | EmptyString => [rev cur]
  | String x s' =>
      if Ascii.eqb x c then rev cur :: split_aux c "" s'
      else split_aux c (String x cur) s'
  end.
Definition split (c : ascii) (s : string) : list string := split_aux c "" s.

(** [sub in s] for strings: substring test. *)
Fixpoint contains (sub s : string) : bool :=
  String.prefix sub s ||
  match s with
  | EmptyString => false
  | String _ s' => contains sub s'
  end.

Definition pct : ascii := "%"%char.

Definition starts_with_pct (s : string) : bool :=
  match s with
  | String c _ => Ascii.eqb c pct
  | EmptyString => false
  end.

(** [re.search(r'(?<!%)%(?!%)', s)]: is there a percent sign with no percent
    sign next to it?  [prev] tells whether the previous character was one. *)
Fixpoint has_bare_pct_from (prev : bool) (s : string) : bool :=
  match s with
  | EmptyString => false
  | String c s' =>
      if Ascii.eqb c pct
      then (negb prev && negb (starts_with_pct s')) || has_bare_pct_from true s'
      else has_bare_pct_from false s'
  end.
Definition has_bare_pct (s : string) : bool := has_bare_pct_from false s.

(** [re.sub(r'(?<!%)%(?!%)', '%%', s)]: the look-arounds read the original
    text, so only isolated percent signs are doubled. *)
Fixpoint escape_pct_from (prev : bool) (s : string) : string :=
  match s with
  | EmptyString => EmptyString
  | String c s' =>
      if Ascii.eqb c pct
      then if negb prev && negb (starts_with_pct s')
           then String pct (String pct (escape_pct_from true s'))
           else String c (escape_pct_from true s')
      else String c (escape_pct_from false s')
  end.

(** [str(n)] for a natural number. *)
Definition of_nat (n : nat) : string := pretty n.

(** [str(z)] for an integer. *)
Definition of_Z (z : Z) : string := pretty z.

End PyStr.

(* ===================================================================== *)
(** ** Insertion-ordered dictionaries                                     *)
(* ===================================================================== *)

(** A Python [dict] keeps its keys in insertion order, and assigning to an
    existing key keeps the key's position. *)
Module PyDict.

Definition t (V : Type) : Type := list (string * V).

Fixpoint get {V} (d : t V) (k : string) : option V :=
  match d with
  | [] => None
  | (k', v) :: rest => if String.eqb k' k then Some v else get rest k
  end.

Definition mem {V} (d : t V) (k : string) : bool :=
  match get d k with Some _ => true | None => false end.

(** [d[k] = v] *)
Fixpoint set {V} (d : t V) (k : string) (v : V) : t V :=
  match d with
  | [] => [(k, v)]
  | (k', v') :: rest =>
      if String.eqb k' k then (k', v) :: rest else (k', v') :: set rest k v
  end.

(** [d.update(e)] *)
Definition update {V} (d e : t V) : t V :=
  fold_left (fun acc kv => set acc (fst kv) (snd kv)) e d.

(** [del d[k]] when present; unchanged otherwise. *)
Definition remove {V} (d : t V) (k : string) : t V :=
  filter (fun kv => negb (String.eqb (fst kv) k)) d.

Definition keys {V} (d : t V) : list string := map fst d.
Definition values {V} (d : t V) : list V := map snd d.

End PyDict.

(* ===================================================================== *)
(** ** The [random] module                                                *)
(* ===================================================================== *)

Module Random.

(** The generator's future draws.  An exhausted tape keeps answering 0. *)
Definition Rng : Type := list nat.

(** The exceptions the modelled code can raise. *)
Inductive exn : Type := IndexError | KeyError | ValueError.

(** How a computation ends: with a value, with an exception, or not at
    all within the fuel of one of its loops. *)
Inductive result (A : Type) : Type :=
| Ok (a : A)
| Raise (e : exn)
| Diverge.
Arguments Ok {A} a.
Arguments Raise {A} e.
Arguments Diverge {A}.

Definition M (A : Type) : Type := Rng -> result A * Rng.

Definition ret {A} (a : A) : M A := fun g => (Ok a, g).

Definition bind {A B} (m : M A) (k : A -> M B) : M B :=
  fun g =>
    match m g with
    | (Ok a, g') => k a g'
    | (Raise e, g') => (Raise e, g')
    | (Diverge, g') => (Diverge, g')
    end.

Definition raise {A} (e : exn) : M A := fun g => (Raise e, g).
Definition diverge {A} : M A := fun g => (Diverge, g).

(** [try: m  except Exception as e: handler(e)] *)
Definition catch {A} (m : M A) (handler : exn -> M A) : M A :=
  fun g =>
    match m g with
    | (Raise e, g') => handler e g'
    | r => r
    end.

#[global] Instance M_ret : MRet M := @ret.
#[global] Instance M_bind : MBind M := fun A B k m => bind m k.

(** [random._randbelow(n)] for [n >= 1]: a number below [n]. *)
Definition randbelow (n : nat) : M nat :=
  fun g =>
    match g with
    | [] => (Ok 0, [])
    | x :: g' => (Ok (x mod n), g')
    end.

(** [x[i], x[j] = x[j], x[i]] *)
Definition swap {A} (x : list A) (i j : nat) : list A :=
  match x !! i, x !! j with
  | Some a, Some b => <[j := a]> (<[i := b]> x)
  | _, _ => x
  end.

(** The loop of [random.shuffle]:
    [for i in reversed(range(1, len(x))): j = randbelow(i + 1); swap]. *)
Fixpoint shuffle_from {A} (i : nat) (x : list A) : M (list A) :=
  match i with
  | 0 => mret x
  | S i' => j ← randbelow (S i); shuffle_from i' (swap x i j)
  end.

Definition shuffle {A} (x : list A) : M (list A) :=
  shuffle_from (length x - 1) x.

(** [random.randint(0, n - 1)] *)
Definition randint0 (n : nat) : M nat := randbelow n.

(** [seq[i]]: IndexError when out of range. *)
Definition index {A} (l : list A) (i : nat) : M A :=
  match l !! i with
  | Some a => mret a
  | None => raise IndexError
  end.

(** [seq[i]] for a Python integer index: a negative index counts from
    the end. *)
Definition py_index {A} (l : list A) (i : Z) : M A :=
  if (i <? 0)%Z
  then (if (Z.of_nat (length l) + i <? 0)%Z then raise IndexError
        else index l (Z.to_nat (Z.of_nat (length l) + i)))
  else index l (Z.to_nat i).

(** [d[k]]: KeyError when the key is absent. *)
Definition dict_get {V} (d : PyDict.t V) (k : string) : M V :=
  match PyDict.get d k with
  | Some v => mret v
  | None => raise KeyError
  end.

(** [random.choice(seq)]: IndexError on an empty sequence. *)
Definition choice {A} (l : list A) : M A :=
  match l with
  | [] => raise IndexError
  | _ => k ← randbelow (length l); index l k
  end.

(** [for x in l: st = step(st, x)] *)
Fixpoint for_each {S A : Type} (step : S -> A -> M S) (st : S) (l : list A) : M S :=
  match l with
  | [] => mret st
  | x :: rest => st' ← step st x; for_each step st' rest
  end.

End Random.

(* ===================================================================== *)
(** ** Breadth-first search                                               *)
(* ===================================================================== *)

(** The [while queue:] loop that room_graph.py and validation_engine.py
    both run over a [deque]: pop, skip a visited node, mark, push the
    neighbours not yet visited.  [reachable] is the visited set in visiting
    order.  [None]: the loop is still running when the fuel is spent. *)
Module Bfs.
Section run.
Context {K : Type} `{EqDecision K}.
Variable nbrs : K -> list K.

Fixpoint run (fuel : nat) (queue reachable : list K) : option (list K) :=
  match queue with
  | [] => Some reachable
  | current :: queue' =>
      match fuel with
      | 0 => None
      | S fuel' =>
          if bool_decide (current ∈ reachable) then run fuel' queue' reachable
          else
            let reachable' := reachable ++ [current] in
            let fresh := filter (fun n => n ∉ reachable') (nbrs current) in
            run fuel' (queue' ++ fresh) reachable'
      end
  end.

(** One more than the number of neighbour entries of the nodes of
    [universe]: every entry is pushed at most once, after the initial
    push. *)
Definition fuel_for (universe : list K) : nat :=
  S (sum_list ((fun x => length (nbrs x)) <$> universe)).
End run.
End Bfs.


(* ===================================================================== *)
(** ** Score dictionaries                                                 *)
(* ===================================================================== *)

(** The [scores] dictionaries of the two keyword classifiers: one entry per
    member of an enumeration, in declaration order. *)
Module PyScores.
Section scores.
Context {K : Type} `{EqDecision K}.

Definition t : Type := list (K * nat).

(** [{k: 0 for k in members}] *)
Definition init (members : list K) : t := map (fun k => (k, 0)) members.

(** [scores[k] += n] *)
Fixpoint bump (k : K) (n : nat) (scores : t) : t :=
  match scores with
  | [] => []
  | (k', m) :: rest =>
      if bool_decide (k' = k) then (k', m + n) :: rest
      else (k', m) :: bump k n rest
  end.

(** [max(scores, key=lambda k: scores[k])] continued from a current
    best: a later key wins only with a strictly greater value. *)
Fixpoint py_max_from (best : K * nat) (rest : t) : K * nat :=
  match rest with
  | [] => best
  | (k, n) :: rest' =>
      if snd best <? n then py_max_from (k, n) rest' else py_max_from best rest'
  end.

(** [max(scores, key=...)]: the first key, in the dictionary's order,
    whose value is the greatest; [None] for the ValueError on an empty
    dictionary. *)
Definition py_max (scores : t) : option (K * nat) :=
  match scores with
  | [] => None
  | b :: rest => Some (py_max_from b rest)
  end.
End scores.
End PyScores.

(* ===================================================================== *)
(** ** world_model.py                                                     *)
(* ===================================================================== *)

Module WorldModel.

(** A Python float expression, kept symbolic.  [FLit q] is the literal whose
    decimal value is [q]; the other constructors are the float operations
    the sources apply. *)
Inductive pyfloat : Type :=
| FLit (q : Q)
| FOfInt (z : Z)
| FAdd (a b : pyfloat)
| FMul (a b : pyfloat)
| FDiv (a b : pyfloat)
| FMin (a b : pyfloat)
| FRound (ndigits : Z) (a : pyfloat).

Inductive AIBehavior : Type :=
| AGGRESSIVE_PATROL | PATROL_BASIC | WILLFUL_BLINDNESS | NEUTRAL_NPC
| ALLY_SUPPORT | PASSIVE | INVESTIGATOR | LOGISTICS | MORAL_COMPASS
| COMMANDING | POMPOUS | ESCAPE_ARTIST.

Inductive SpriteRole : Type :=
| HERO | VILLAIN | NEUTRAL | BOSS | ALLY | GUARD.

Inductive PhysicsType : Type :=
| TEMPERATURE | ENERGY | LOCK_KEY | CRAFTING | TELEPORTATION | DISGUISE
| EXPLOSIVES | BRIBERY | MAGIC | MEDICAL | GROWTH | ALIEN_TECH.

(** Members in declaration order, the order in which Python iterates the
    enumeration. *)
Inductive WorldTheme : Type :=
| SCIFI | MILITARY | FANTASY | DOMESTIC | HORROR | ADVENTURE | SITCOM
| CRIME_SPY | DISCO | NIGHTCLUB | ORIGINAL.

#[global] Instance SpriteRole_eq_dec : EqDecision SpriteRole.
Proof. solve_decision. Defined.
#[global] Instance PhysicsType_eq_dec : EqDecision PhysicsType.
Proof. solve_decision. Defined.
#[global] Instance WorldTheme_eq_dec : EqDecision WorldTheme.
Proof. solve_decision. Defined.

(** [physics_type.value] *)
Definition PhysicsType_value (p : PhysicsType) : string :=
  match p with
  | TEMPERATURE => "temperature" | ENERGY => "energy"
  | LOCK_KEY => "lock_key" | CRAFTING => "crafting"
  | TELEPORTATION => "teleportation" | DISGUISE => "disguise"
  | EXPLOSIVES => "explosives" | BRIBERY => "bribery"
  | MAGIC => "magic" | MEDICAL => "medical"
  | GROWTH => "growth" | ALIEN_TECH => "alien_tech"
  end.

(** A value of a serialized section: text, or a float whose rendering is
    not computed. *)
Inductive IniVal : Type :=
| VStr (s : string)
| VFloat (f : pyfloat).

(** [str(b).lower()] *)
Definition str_bool_lower (b : bool) : string :=
  if b then "true" else "false".

Module Room.
Record t : Type := mk {
  room_id : string;
  name : string;
  description : string;
  exits : PyDict.t string;       (* direction -> room_id *)
  properties : PyDict.t string;
  is_start : bool
}.

Definition to_ini_section (r : t) : PyDict.t IniVal :=
  let d := [("name", VStr (name r)); ("description", VStr (description r))] in
  let d := PyDict.update d (map (fun kv => (fst kv, VStr (snd kv))) (exits r)) in
  let d := PyDict.update d (map (fun kv => (fst kv, VStr (snd kv))) (properties r)) in
  if is_start r then PyDict.set d "start" (VStr "true") else d.

Definition set_property (r : t) (k v : string) : t :=
  mk (room_id r) (name r) (description r) (exits r)
     (PyDict.set (properties r) k v) (is_start r).
End Room.

Module GameObject.
Record t : Type := mk {
  object_id : string;
  name : string;
  description : string;
  location : string;             (* room_id or container object_id *)
  takeable : bool;
  is_weapon : bool;
  damage : Z;
  is_consumable : bool;
  health_restore : Z;
  is_container : bool;
  is_wearable : bool;
  bribe_value : string;
  valid_verbs : list string;
  properties : PyDict.t string
}.

Definition to_ini_section (o : t) : PyDict.t IniVal :=
  let d := [("name", VStr (name o)); ("description", VStr (description o));
            ("location", VStr (location o));
            ("takeable", VStr (str_bool_lower (takeable o)))] in
  let d := if is_weapon o
           then PyDict.set (PyDict.set d "weapon" (VStr "true"))
                           "damage" (VStr (PyStr.of_Z (damage o)))
           else d in
  let d := if is_consumable o
           then PyDict.set (PyDict.set d "consumable" (VStr "true"))
                           "health_restore" (VStr (PyStr.of_Z (health_restore o)))
           else d in
  let d := if is_container o then PyDict.set d "container" (VStr "true") else d in
  let d := if is_wearable o
           then PyDict.set (PyDict.set d "wearable" (VStr "true"))
                           "worn" (VStr "false")
           else d in
  let d := if PyStr.truthy (bribe_value o)
           then PyDict.set d "bribe_value" (VStr (bribe_value o)) else d in
  let d := match valid_verbs o with
           | [] => d
           | vs => PyDict.set d "valid_verbs" (VStr (PyStr.join ", " vs))
           end in
  PyDict.update d (map (fun kv => (fst kv, VStr (snd kv))) (properties o)).
End GameObject.

Module Sprite.
Record t : Type := mk {
  sprite_id : string;
  name : string;
  description : string;
  health : Z;
  damage : Z;
  aggression : pyfloat;
  ai_behavior : string;
  spawn_rooms : list string;
  spawn_chance : pyfloat;
  loot_on_death : string;
  can_pickup : bool;
  role : SpriteRole;
  properties : PyDict.t string
}.

Definition to_ini_section (s : t) : PyDict.t IniVal :=
  let d := [("type", VStr "sprite"); ("name", VStr (name s));
            ("description", VStr (description s));
            ("health", VStr (PyStr.of_Z (health s)));
            ("damage", VStr (PyStr.of_Z (damage s)));
            ("aggression", VFloat (aggression s));
            ("ai_behavior", VStr (ai_behavior s));
            ("spawn_rooms", VStr (PyStr.join ", " (spawn_rooms s)));
            ("spawn_chance", VFloat (spawn_chance s));
            ("can_pickup", VStr (str_bool_lower (can_pickup s)));
            ("takeable", VStr "false")] in
  let d := if PyStr.truthy (loot_on_death s)
           then PyDict.set d "loot_on_death" (VStr (loot_on_death s)) else d in
  PyDict.update d (map (fun kv => (fst kv, VStr (snd kv))) (properties s)).
End Sprite.

Module Transformation.
Record t : Type := mk {
  transform_id : string;
  object_id : string;
  state : string;
  turns_required : Z;
  new_state : string;
  message : string;
  new_object_id : string;
  requires_object : string;
  requires_object_2 : string;
  location_property : string;
  new_location : string;
  properties : PyDict.t string
}.

Definition opt_key (d : PyDict.t IniVal) (k v : string) : PyDict.t IniVal :=
  if PyStr.truthy v then PyDict.set d k (VStr v) else d.

Definition to_ini_section (x : t) : PyDict.t IniVal :=
  let d := [("object_id", VStr (object_id x)); ("state", VStr (state x));
            ("turns_required", VStr (PyStr.of_Z (turns_required x)));
            ("new_state", VStr (new_state x));
            ("message", VStr (message x))] in
  let d := opt_key d "new_object_id" (new_object_id x) in
  let d := opt_key d "requires_object" (requires_object x) in
  let d := opt_key d "requires_object_2" (requires_object_2 x) in
  let d := opt_key d "location_has_property" (location_property x) in
  let d := opt_key d "new_location" (new_location x) in
  PyDict.update d (map (fun kv => (fst kv, VStr (snd kv))) (properties x)).
End Transformation.

Module CombatConfig.
Record t : Type := mk {
  base_damage : Z;
  weapon_multiplier : pyfloat;
  respawn_location : string;
  death_penalty : Z;
  friendly_fire : bool;
  damage_types : PyDict.t pyfloat
}.

(** The dataclass defaults; [CombatConfig(base_damage=b, respawn_location=r)]. *)
Definition make (b : Z) (r : string) : t :=
  mk b (FLit (10 # 10)) r 3%Z false
     [("slashing", FLit (10 # 10)); ("piercing", FLit (11 # 10));
      ("blunt", FLit (9 # 10)); ("explosive", FLit (20 # 10))].
End CombatConfig.

Module SDConfig.
Record t : Type := mk {
  host : string;
  port : Z;
  steps : Z;
  width : Z;
  height : Z;
  cfg : pyfloat;
  sampler : string;
  scene_suffix : string;
  negative_prompt : string;
  cache_images : bool
}.

(** [SDConfig(host=.., port=.., scene_suffix=.., negative_prompt=..)] *)
Definition make (h : string) (p : Z) (suffix negative : string) : t :=
  mk h p 25%Z 512%Z 512%Z (FLit (75 # 10)) "DPM++ 2M" suffix negative true.

Definition to_ini_sections (c : t) : PyDict.t (PyDict.t IniVal) :=
  [("settings",
    [("default_steps", VStr (PyStr.of_Z (steps c)));
     ("default_width", VStr (PyStr.of_Z (width c)));
     ("default_height", VStr (PyStr.of_Z (height c)));
     ("default_cfg", VFloat (cfg c));
     ("default_sampler", VStr (sampler c));
     ("cache_images", VStr (str_bool_lower (cache_images c)));
     ("image_format", VStr "jpg");
     ("image_quality", VStr "88")]);
   ("prompt_style",
    [("scene_suffix", VStr (scene_suffix c));
     ("negative_prompt", VStr (negative_prompt c))]);
   ("SD1",
    [("host", VStr (host c));
     ("port", VStr (PyStr.of_Z (port c)));
     ("weight", VStr "1");
     ("timeout", VStr "60");
     ("enabled", VStr "true")])].
End SDConfig.

Module WorldConfig.
Record t : Type := mk {
  world_name : string;
  theme : WorldTheme;
  rooms : PyDict.t Room.t;
  objects : PyDict.t GameObject.t;
  sprites : PyDict.t Sprite.t;
  transformations : PyDict.t Transformation.t;
  combat : CombatConfig.t;
  sd_config : SDConfig.t;
  physics_applied : list PhysicsType
}.

(** [WorldConfig(world_name=.., theme=..)] *)
Definition make (n : string) (th : WorldTheme) : t :=
  mk n th [] [] [] []
     (CombatConfig.make 10%Z "")
     (SDConfig.make "127.0.0.1" 7860%Z "" "")
     [].

Definition room_ids (w : t) : list string := PyDict.keys (rooms w).
Definition object_ids (w : t) : list string := PyDict.keys (objects w).
Definition sprite_ids (w : t) : list string := PyDict.keys (sprites w).

(** The [start_room] property: the first room flagged as start. *)
Definition start_room (w : t) : option string :=
  fst <$> List.find (fun kv => Room.is_start (snd kv)) (rooms w).

Definition with_rooms (w : t) (r : PyDict.t Room.t) : t :=
  mk (world_name w) (theme w) r (objects w) (sprites w) (transformations w)
     (combat w) (sd_config w) (physics_applied w).
Definition with_objects (w : t) (o : PyDict.t GameObject.t) : t :=
  mk (world_name w) (theme w) (rooms w) o (sprites w) (transformations w)
     (combat w) (sd_config w) (physics_applied w).
Definition with_sprites (w : t) (s : PyDict.t Sprite.t) : t :=
  mk (world_name w) (theme w) (rooms w) (objects w) s (transformations w)
     (combat w) (sd_config w) (physics_applied w).
Definition with_transformations (w : t) (x : PyDict.t Transformation.t) : t :=
  mk (world_name w) (theme w) (rooms w) (objects w) (sprites w) x
     (combat w) (sd_config w) (physics_applied w).
Definition with_combat (w : t) (c : CombatConfig.t) : t :=
  mk (world_name w) (theme w) (rooms w) (objects w) (sprites w)
     (transformations w) c (sd_config w) (physics_applied w).
Definition with_sd_config (w : t) (c : SDConfig.t) : t :=
  mk (world_name w) (theme w) (rooms w) (objects w) (sprites w)
     (transformations w) (combat w) c (physics_applied w).
Definition with_physics_applied (w : t) (p : list PhysicsType) : t :=
  mk (world_name w) (theme w) (rooms w) (objects w) (sprites w)
     (transformations w) (combat w) (sd_config w) p.
End WorldConfig.

End WorldModel.

(* ===================================================================== *)
(** ** theme_engine.py                                                    *)
(* ===================================================================== *)

Module ThemeEngine.
Import WorldModel.

Record ThemeDefaults : Type := {
  theme : WorldTheme;
  sd_scene_suffix : string;
  sd_negative_prompt : string;
  base_damage : Z;
  sprite_aggression_low : pyfloat;
  sprite_aggression_high : pyfloat;
  boss_health : Z;
  minion_health : Z;
  suggested_room_prefixes : list string;
  suggested_object_types : list string;
  default_physics : list PhysicsType;
  suggested_verbs_extra : list string;
  flavor_adjective : string;
  flavor_noun : string
}.

Definition THEME_KEYWORDS : list (WorldTheme * list string) :=
[
  (SCIFI,
    ["area 51"; "alien"; "space"; "star trek"; "galaxy"; "mars"; "ufo";
     "nasa"; "robot"; "android"; "scifi"; "sci-fi"; "stargate";
     "battlestar"; "moon"; "orbit"; "cosmic"; "nebula"; "federation";
     "empire"]);
  (MILITARY,
    ["mash"; "hogan"; "stalag"; "army"; "combat"; "war"; "military";
     "soldier"; "battalion"; "platoon"; "fort"; "barracks";
     "mission impossible"; "a-team"; "seal"; "ranger"; "special ops";
     "frontline"; "vietnam"; "korean"; "wwii"; "ww2"; "normandy"; "patrol"]);
  (FANTASY,
    ["hogwarts"; "wizard"; "dragon"; "medieval"; "castle"; "zork";
     "dungeon"; "magic"; "elf"; "dwarf"; "sword"; "quest"; "realm";
     "kingdom"; "sorcerer"; "witch"; "enchanted"; "fantasy"; "rpg";
     "adventure"; "hero"]);
  (DOMESTIC,
    ["barbie"; "full house"; "brady"; "family"; "home"; "house"; "suburb";
     "kitchen"; "cozy"; "domestic"; "sitcom"; "neighborhood"; "school";
     "mall"; "shop"; "bakery"; "cafe"; "dollhouse"; "dream house"]);
  (HORROR,
    ["haunted"; "halloween"; "dracula"; "vampire"; "zombie"; "horror";
     "ghost"; "dark"; "mansion"; "cemetery"; "asylum"; "cursed";
     "forbidden"; "cthulhu"; "evil"; "nightmare"; "terror"; "shadow";
     "silent hill"]);
  (ADVENTURE,
    ["indiana jones"; "pirate"; "jungle"; "explorer"; "treasure";
     "expedition"; "safari"; "island"; "temple"; "ruins"; "artifact";
     "archaeology"; "map"; "tomb"; "raiders"; "national treasure";
     "uncharted"]);
  (SITCOM,
    ["bewitched"; "i love lucy"; "gilligan"; "cheers"; "seinfeld";
     "friends"; "office"; "parks"; "frasier"; "taxi"; "mork";
     "three company"; "laverne"; "happy days"; "fonzie"; "sam malone";
     "norm"; "cliff"]);
  (DISCO,
    ["studio 54"; "disco"; "dance club"; "nightclub"; "dance floor";
     "saturday night fever"; "dance hall"; "roller rink"; "boogie"; "dj";
     "turntable"; "rave"; "club night"; "discotheque"]);
  (NIGHTCLUB,
    ["bar"; "nightclub"; "lounge"; "speakeasy"; "jazz club"; "cocktail";
     "vip lounge"; "rooftop bar"; "cabaret"; "burlesque"; "velvet rope";
     "bouncer"; "bartender"]);
  (CRIME_SPY,
    ["james bond"; "spy"; "agent"; "cia"; "mi6"; "fbi"; "detective";
     "noir"; "mystery"; "crime"; "heist"; "get smart"; "man from uncle";
     "magnum"; "columbo"; "sherlock"; "poirot"; "morse"; " hitman"])
].

Definition defaults_SCIFI : ThemeDefaults :=
  {| theme := SCIFI;
     sd_scene_suffix :=
       "classified military installation, alien technology, science "
       +:+ "fiction, cinematic lighting, photorealistic, highly "
       +:+ "detailed, atmospheric, dramatic shadows, 8k quality";
     sd_negative_prompt :=
       "blurry, low quality, distorted, fantasy, medieval, magic, "
       +:+ "dragons, swords, cartoon, anime, text, watermark, stock "
       +:+ "photo, logo, signature, fake text, alamy, shutterstock, "
       +:+ "getty, letters, cobblestone, torch, forest, dungeon";
     base_damage := 22%Z;
     sprite_aggression_low := (FLit (15 # 100));
     sprite_aggression_high := (FLit (75 # 100));
     boss_health := 150%Z;
     minion_health := 55%Z;
     suggested_room_prefixes :=
       ["Laboratory"; "Control Room"; "Hangar"; "Corridor";
        "Reactor Chamber"; "Observation Deck"; "Launch Bay";
        "Quarantine Zone"; "Archive Vault"; "Engineering Bay"];
     suggested_object_types :=
       ["energy_cell"; "scanner"; "access_card"; "data_pad";
        "plasma_rifle"; "alien_artifact"; "radiation_suit"];
     default_physics := [ENERGY; TELEPORTATION; ALIEN_TECH];
     suggested_verbs_extra :=
       ["scan"; "activate"; "insert"; "launch"; "program"];
     flavor_adjective := "classified";
     flavor_noun := "installation" |}.

Definition defaults_MILITARY : ThemeDefaults :=
  {| theme := MILITARY;
     sd_scene_suffix :=
       "military camp, wartime, soldiers, olive drab, cinematic, "
       +:+ "dramatic lighting, photorealistic, historical, war drama, "
       +:+ "gritty realistic";
     sd_negative_prompt :=
       "blurry, low quality, fantasy, aliens, futuristic, modern "
       +:+ "technology, cartoon, anime, text, watermark, stock photo, "
       +:+ "logo, signature, fake text, alamy, shutterstock, getty, "
       +:+ "letters, clean, pristine, comfortable, colorful";
     base_damage := 20%Z;
     sprite_aggression_low := (FLit (2 # 10));
     sprite_aggression_high := (FLit (8 # 10));
     boss_health := 120%Z;
     minion_health := 50%Z;
     suggested_room_prefixes :=
       ["Barracks"; "Command Post"; "Motor Pool"; "Mess Hall"; "Infirmary";
        "Armory"; "Briefing Room"; "Guard Post"; "Supply Depot";
        "Communications Center"];
     suggested_object_types :=
       ["rifle"; "ration"; "dog_tags"; "map"; "radio"; "explosive";
        "medkit"; "binoculars"; "uniform"];
     default_physics := [EXPLOSIVES; MEDICAL; DISGUISE];
     suggested_verbs_extra :=
       ["attack"; "radio"; "report"; "defuse"; "treat"];
     flavor_adjective := "battle-worn";
     flavor_noun := "outpost" |}.

Definition defaults_FANTASY : ThemeDefaults :=
  {| theme := FANTASY;
     sd_scene_suffix :=
       "fantasy RPG environment, medieval, atmospheric lighting, "
       +:+ "cinematic, detailed, stone walls, torchlight, mystical, "
       +:+ "high quality, dramatic";
     sd_negative_prompt :=
       "blurry, low quality, distorted, modern, futuristic, "
       +:+ "cartoon, anime, text, watermark, stock photo, logo, "
       +:+ "signature, fake text, alamy, shutterstock, getty, letters, "
       +:+ "alien, sci-fi";
     base_damage := 18%Z;
     sprite_aggression_low := (FLit (2 # 10));
     sprite_aggression_high := (FLit (7 # 10));
     boss_health := 130%Z;
     minion_health := 45%Z;
     suggested_room_prefixes :=
       ["Great Hall"; "Dungeon"; "Tower"; "Library"; "Chapel"; "Armory";
        "Throne Room"; "Garden"; "Crypt"; "Tavern"];
     suggested_object_types :=
       ["sword"; "scroll"; "potion"; "key"; "torch"; "spell_book";
        "amulet"; "gold_coins"; "lockpick"];
     default_physics := [MAGIC; LOCK_KEY; CRAFTING];
     suggested_verbs_extra :=
       ["cast"; "read"; "pray"; "enchant"; "forge"];
     flavor_adjective := "ancient";
     flavor_noun := "realm" |}.

Definition defaults_DOMESTIC : ThemeDefaults :=
  {| theme := DOMESTIC;
     sd_scene_suffix :=
       "bright cheerful interior, pastel colors, cozy home, soft "
       +:+ "lighting, photorealistic, detailed, warm atmosphere, "
       +:+ "inviting, lifestyle photography quality";
     sd_negative_prompt :=
       "blurry, low quality, dark, scary, violent, weapons, "
       +:+ "military, aliens, medieval, cartoon, anime, text, "
       +:+ "watermark, stock photo, logo, signature, fake text, alamy, "
       +:+ "shutterstock, getty, letters, gritty, dangerous";
     base_damage := 5%Z;
     sprite_aggression_low := (FLit (5 # 100));
     sprite_aggression_high := (FLit (2 # 10));
     boss_health := 60%Z;
     minion_health := 30%Z;
     suggested_room_prefixes :=
       ["Living Room"; "Kitchen"; "Bedroom"; "Backyard"; "Garage";
        "Basement"; "Attic"; "Dining Room"; "Fashion Studio"; "Dream Closet"];
     suggested_object_types :=
       ["fashion_item"; "food"; "gift"; "toy"; "phone"; "outfit";
        "accessory"; "recipe"; "photo"];
     default_physics := [CRAFTING; GROWTH];
     suggested_verbs_extra :=
       ["wear"; "cook"; "give"; "call"; "decorate"];
     flavor_adjective := "cheerful";
     flavor_noun := "home" |}.

Definition defaults_HORROR : ThemeDefaults :=
  {| theme := HORROR;
     sd_scene_suffix :=
       "horror, dark atmosphere, shadows, eerie lighting, "
       +:+ "photorealistic, detailed, fog, abandoned, decaying, "
       +:+ "cinematic horror, dramatic chiaroscuro";
     sd_negative_prompt :=
       "blurry, low quality, bright, cheerful, colorful, cartoon, "
       +:+ "anime, text, watermark, stock photo, logo, signature, fake "
       +:+ "text, alamy, shutterstock, getty, letters, modern, clean, "
       +:+ "comfortable, futuristic";
     base_damage := 25%Z;
     sprite_aggression_low := (FLit (3 # 10));
     sprite_aggression_high := (FLit (9 # 10));
     boss_health := 160%Z;
     minion_health := 60%Z;
     suggested_room_prefixes :=
       ["Foyer"; "Library"; "Cellar"; "Attic"; "Crypt"; "Laboratory";
        "Chapel"; "Ballroom"; "Servants Quarters"; "Hidden Room"];
     suggested_object_types :=
       ["candle"; "journal"; "crucifix"; "key"; "photograph";
        "ritual_item"; "weapon"; "potion"; "map"];
     default_physics := [LOCK_KEY; MAGIC; TEMPERATURE];
     suggested_verbs_extra :=
       ["hide"; "flee"; "investigate"; "banish"; "pray"];
     flavor_adjective := "cursed";
     flavor_noun := "darkness" |}.

Definition defaults_ADVENTURE : ThemeDefaults :=
  {| theme := ADVENTURE;
     sd_scene_suffix :=
       "adventure, exploration, jungle, ancient ruins, cinematic, "
       +:+ "dramatic lighting, photorealistic, detailed, atmospheric, "
       +:+ "discovery";
     sd_negative_prompt :=
       "blurry, low quality, modern, urban, sci-fi, cartoon, anime, "
       +:+ "text, watermark, stock photo, logo, signature, fake text, "
       +:+ "alamy, shutterstock, getty, letters, alien, fantasy magic";
     base_damage := 20%Z;
     sprite_aggression_low := (FLit (25 # 100));
     sprite_aggression_high := (FLit (75 # 100));
     boss_health := 140%Z;
     minion_health := 55%Z;
     suggested_room_prefixes :=
       ["Jungle Path"; "Ancient Temple"; "Treasure Chamber";
        "River Crossing"; "Village"; "Bazaar"; "Cave"; "Cliff Face";
        "Lost City"; "Hidden Passage"];
     suggested_object_types :=
       ["torch"; "map"; "rope"; "artifact"; "compass"; "journal"; "key";
        "gem"; "whip"; "explosives"];
     default_physics := [LOCK_KEY; EXPLOSIVES; CRAFTING];
     suggested_verbs_extra :=
       ["climb"; "dig"; "photograph"; "decipher"; "swing"];
     flavor_adjective := "ancient";
     flavor_noun := "ruins" |}.

Definition defaults_SITCOM : ThemeDefaults :=
  {| theme := SITCOM;
     sd_scene_suffix :=
       "sitcom set, warm interior lighting, 1960s 1970s style, "
       +:+ "photorealistic, detailed, cozy American home, television "
       +:+ "production quality, nostalgic";
     sd_negative_prompt :=
       "blurry, low quality, dark, scary, violent, military, alien, "
       +:+ "medieval, cartoon, anime, text, watermark, stock photo, "
       +:+ "logo, signature, fake text, alamy, shutterstock, getty, "
       +:+ "letters, gritty";
     base_damage := 8%Z;
     sprite_aggression_low := (FLit (5 # 100));
     sprite_aggression_high := (FLit (25 # 100));
     boss_health := 70%Z;
     minion_health := 35%Z;
     suggested_room_prefixes :=
       ["Living Room"; "Kitchen"; "Front Stoop"; "Diner"; "Office";
        "Apartment"; "Backyard"; "Garage"; "Neighbor's House"; "Town Square"];
     suggested_object_types :=
       ["prop"; "disguise"; "bribe_item"; "letter"; "phone"; "food";
        "costume"; "newspaper"];
     default_physics := [DISGUISE; BRIBERY];
     suggested_verbs_extra :=
       ["joke"; "disguise"; "scheme"; "confess"; "bribe"];
     flavor_adjective := "zany";
     flavor_noun := "neighborhood" |}.

Definition defaults_CRIME_SPY : ThemeDefaults :=
  {| theme := CRIME_SPY;
     sd_scene_suffix :=
       "spy thriller, noir, cinematic, dramatic shadows, "
       +:+ "photorealistic, detailed, atmospheric, 1960s aesthetic, "
       +:+ "tension, suspense, professional quality";
     sd_negative_prompt :=
       "blurry, low quality, fantasy, alien, medieval, cartoon, "
       +:+ "anime, text, watermark, stock photo, logo, signature, fake "
       +:+ "text, alamy, shutterstock, getty, letters, cheerful, "
       +:+ "colorful";
     base_damage := 22%Z;
     sprite_aggression_low := (FLit (3 # 10));
     sprite_aggression_high := (FLit (8 # 10));
     boss_health := 130%Z;
     minion_health := 60%Z;
     suggested_room_prefixes :=
       ["Safehouse"; "Embassy Ballroom"; "Control Room"; "Vault";
        "Interrogation Room"; "Rooftop"; "Casino Floor"; "Underground Lab";
        "Helipad"];
     suggested_object_types :=
       ["pistol"; "identity_papers"; "gadget"; "microfilm"; "cipher";
        "key"; "disguise"; "explosive"; "radio"];
     default_physics := [DISGUISE; LOCK_KEY; EXPLOSIVES];
     suggested_verbs_extra :=
       ["hack"; "decode"; "photograph"; "tail"; "interrogate"];
     flavor_adjective := "clandestine";
     flavor_noun := "operation" |}.

Definition defaults_DISCO : ThemeDefaults :=
  {| theme := DISCO;
     sd_scene_suffix :=
       "1970s disco club, dance floor, mirror ball, strobe lights, "
       +:+ "neon glow, polyester fashion, fog machine, cinematic, "
       +:+ "photorealistic, atmospheric, high energy, dramatic";
     sd_negative_prompt :=
       "blurry, low quality, daylight, outdoor, fantasy, military, "
       +:+ "cartoon, anime, text, watermark, stock photo, logo, "
       +:+ "signature, fake text, alamy, shutterstock, getty, letters, "
       +:+ "medieval, futuristic";
     base_damage := 10%Z;
     sprite_aggression_low := (FLit (5 # 100));
     sprite_aggression_high := (FLit (4 # 10));
     boss_health := 90%Z;
     minion_health := 40%Z;
     suggested_room_prefixes :=
       ["Dance Floor"; "VIP Lounge"; "DJ Booth"; "Bar"; "Backstage";
        "Coat Check"; "Balcony"; "Hidden Room"; "Entrance"; "Bathroom"];
     suggested_object_types :=
       ["disco_ball"; "vinyl_record"; "velvet_rope"; "champagne";
        "strobe_light"; "fog_machine"; "sequined_outfit"; "pass"];
     default_physics := [];
     suggested_verbs_extra :=
       ["dance"; "spin"; "schmooze"; "bribe"; "sneak"];
     flavor_adjective := "electric";
     flavor_noun := "dance floor" |}.

Definition defaults_NIGHTCLUB : ThemeDefaults :=
  {| theme := NIGHTCLUB;
     sd_scene_suffix :=
       "upscale nightclub, ambient lighting, moody atmosphere, "
       +:+ "cocktail lounge, neon signs, photorealistic, dramatic, "
       +:+ "high-end interior, cinematic quality";
     sd_negative_prompt :=
       "blurry, low quality, daylight, outdoor, fantasy, military, "
       +:+ "cartoon, anime, text, watermark, stock photo, logo, "
       +:+ "signature, fake text, alamy, shutterstock, getty, letters, "
       +:+ "medieval";
     base_damage := 12%Z;
     sprite_aggression_low := (FLit (1 # 10));
     sprite_aggression_high := (FLit (5 # 10));
     boss_health := 85%Z;
     minion_health := 40%Z;
     suggested_room_prefixes :=
       ["Main Bar"; "VIP Section"; "Dance Floor"; "Backstage"; "Rooftop";
        "Private Booth"; "Coat Check"; "Green Room"; "Entrance";
        "Back Office"];
     suggested_object_types :=
       ["cocktail"; "velvet_rope"; "id_scanner"; "guest_list";
        "cash_envelope"; "key_card"; "phone"; "drugs"];
     default_physics := [];
     suggested_verbs_extra :=
       ["order"; "schmooze"; "bribe"; "sneak"; "photograph"];
     flavor_adjective := "exclusive";
     flavor_noun := "venue" |}.

Definition defaults_ORIGINAL : ThemeDefaults :=
  {| theme := ORIGINAL;
     sd_scene_suffix :=
       "detailed environment, cinematic lighting, photorealistic, "
       +:+ "atmospheric, high quality, dramatic";
     sd_negative_prompt :=
       "blurry, low quality, distorted, ugly, cartoon, anime, text, "
       +:+ "watermark, stock photo, logo, signature, fake text, alamy, "
       +:+ "shutterstock, getty, letters";
     base_damage := 15%Z;
     sprite_aggression_low := (FLit (2 # 10));
     sprite_aggression_high := (FLit (6 # 10));
     boss_health := 100%Z;
     minion_health := 45%Z;
     suggested_room_prefixes :=
       ["Entrance"; "Main Hall"; "Side Room"; "Upper Level"; "Lower Level";
        "Outer Area"; "Inner Chamber"; "Hidden Area"; "Final Room"];
     suggested_object_types :=
       ["key"; "weapon"; "consumable"; "document"; "tool"];
     default_physics := [LOCK_KEY];
     suggested_verbs_extra :=
       [];
     flavor_adjective := "mysterious";
     flavor_noun := "place" |}.

(** [THEME_DEFAULTS[theme]]: every member of [WorldTheme] has an entry. *)
Definition THEME_DEFAULTS (t : WorldTheme) : ThemeDefaults :=
  match t with
  | SCIFI => defaults_SCIFI
  | MILITARY => defaults_MILITARY
  | FANTASY => defaults_FANTASY
  | DOMESTIC => defaults_DOMESTIC
  | HORROR => defaults_HORROR
  | ADVENTURE => defaults_ADVENTURE
  | SITCOM => defaults_SITCOM
  | CRIME_SPY => defaults_CRIME_SPY
  | DISCO => defaults_DISCO
  | NIGHTCLUB => defaults_NIGHTCLUB
  | ORIGINAL => defaults_ORIGINAL
  end.

(** [[a-z0-9]], the class of the two look-arounds. *)
Definition is_word_char (c : ascii) : bool :=
  let n := nat_of_ascii c in
  ((97 <=? n) && (n <=? 122)) || ((48 <=? n) && (n <=? 57)).

(** Does [kw] match at the head of [s], followed by no word character? *)
Fixpoint match_here (kw s : string) : bool :=
  match kw with
  | EmptyString =>
      match s with
      | EmptyString => true
      | String c _ => negb (is_word_char c)
      end
  | String k kw' =>
      match s with
      | EmptyString => false
      | String c s' => Ascii.eqb k c && match_here kw' s'
      end
  end.

(** [re.search(r'(?<![a-z0-9])' + re.escape(kw) + r'(?![a-z0-9])', s)];
    [prev_ok] tells that no word character stands just before [s]. *)
Fixpoint word_search_from (prev_ok : bool) (kw s : string) : bool :=
  (prev_ok && match_here kw s) ||
  match s with
  | EmptyString => false
  | String c s' => word_search_from (negb (is_word_char c)) kw s'
  end.

Definition word_search (kw s : string) : bool := word_search_from true kw s.

(** [list(WorldTheme)] *)
Definition all_themes : list WorldTheme :=
  [SCIFI; MILITARY; FANTASY; DOMESTIC; HORROR; ADVENTURE; SITCOM;
   CRIME_SPY; DISCO; NIGHTCLUB; ORIGINAL].

(** The [scores] dictionary, in insertion order. *)
Definition Scores : Type := @PyScores.t WorldTheme.

(** [{t: 0 for t in WorldTheme}] *)
Definition init_scores : Scores := PyScores.init all_themes.

(** [2 if len(kw) > 6 else 1] *)
Definition weight (kw : string) : nat :=
  if 6 <? String.length kw then 2 else 1.

(** The inner loop over one row of the table. *)
Definition score_row (name_lower : string) (scores : Scores)
    (row : WorldTheme * list string) : Scores :=
  fold_left
    (fun sc kw =>
       if word_search kw name_lower then PyScores.bump (fst row) (weight kw) sc else sc)
    (snd row) scores.

Definition final_scores (world_name : string) : Scores :=
  let name_lower := PyStr.strip (PyStr.lower world_name) in
  fold_left (score_row name_lower) THEME_KEYWORDS init_scores.

Definition classify (world_name : string) : WorldTheme :=
  match PyScores.py_max (final_scores world_name) with
  | Some (best_theme, n) => if n =? 0 then ORIGINAL else best_theme
  | None => ORIGINAL   (* [max] of an empty dictionary: never, the enumeration has members *)
  end.

Definition get_defaults (world_name : string) : ThemeDefaults :=
  THEME_DEFAULTS (classify world_name).

Definition get_defaults_for_theme (t : WorldTheme) : ThemeDefaults :=
  THEME_DEFAULTS t.

End ThemeEngine.

(* ===================================================================== *)
(** ** room_graph.py                                                      *)
(* ===================================================================== *)

Module RoomGraph.
Import WorldModel ThemeEngine Random.

(** The engine-valid direction pairs. *)
Definition DIRECTION_PAIRS : list (string * string) :=
  [("north", "south"); ("east", "west"); ("up", "down")].

(** [[d for pair in DIRECTION_PAIRS for d in pair]] *)
Definition ALL_DIRECTIONS : list string :=
  flat_map (fun pair => [fst pair; snd pair]) DIRECTION_PAIRS.

Definition _safe_id (name : string) : string :=
  PyStr.replace_char "." ""
    (PyStr.replace_char "," ""
      (PyStr.replace_char ")" ""
        (PyStr.replace_char "(" ""
          (PyStr.replace_char "/" "_"
            (PyStr.replace_char "-" "_"
              (PyStr.replace_char "'" ""
                (PyStr.replace_char " " "_" (PyStr.lower name)))))))).

Definition _escape_percent (text : string) : string :=
  PyStr.escape_pct_from false text.

(** An entry [(j, direction_from_i, direction_from_j)] of [adjacency[i]]. *)
Record edge : Type := Edge {
  nbr : nat;
  dir_out : string;
  dir_back : string
}.

#[global] Instance edge_eq_dec : EqDecision edge.
Proof. solve_decision. Defined.

(** [adjacency: Dict[int, List[Tuple[int, str, str]]]].  Every index below
    the room count is a key from the start, so the total lookup [!!!]
    stands for [adjacency[i]]. *)
Abbreviation Adj := (gmap nat (list edge)).

(** [{i: [] for i in range(room_count)}] *)
Definition init_adjacency (room_count : nat) : Adj :=
  fold_left (fun m i => <[i := []]> m) (seq 0 room_count) ∅.

(** [{d for (_, d, _) in adjacency[node]}] *)
Definition used_from (adjacency : Adj) (node : nat) : list string :=
  dir_out <$> (adjacency !!! node).

(** The loop over the shuffled pairs. *)
Fixpoint first_free (pairs : list (string * string)) (used_from_a used_from_b : list string)
    : option (string * string) :=
  match pairs with
  | [] => None
  | (d_a, d_b) :: rest =>
      if bool_decide (d_a ∉ used_from_a) && bool_decide (d_b ∉ used_from_b)
      then Some (d_a, d_b)
      else first_free rest used_from_a used_from_b
  end.

(** [None] stands for the pair [(None, None)]. *)
Definition _get_available_direction (adjacency : Adj) (node_a node_b : nat)
    : M (option (string * string)) :=
  pairs ← shuffle DIRECTION_PAIRS;
  mret (first_free pairs (used_from adjacency node_a) (used_from adjacency node_b)).

(** [adjacency[a].append(e)] *)
Definition append_edge (adjacency : Adj) (a : nat) (e : edge) : Adj :=
  <[a := (adjacency !!! a) ++ [e]]> adjacency.

(** [adjacency[a].append((b, d, r)); adjacency[b].append((a, r, d))] *)
Definition connect (adjacency : Adj) (a b : nat) (d r : string) : Adj :=
  append_edge (append_edge adjacency a (Edge b d r)) b (Edge a r d).

(** [for target in candidates: ... break]: attach [i] to the first candidate
    with a free direction pair; [None] when the loop ends without a break. *)
Fixpoint try_attach (adjacency : Adj) (i : nat) (candidates : list nat) : M (option Adj) :=
  match candidates with
  | [] => mret None
  | target :: rest =>
      dr ← _get_available_direction adjacency i target;
      match dr with
      | Some (direction, reverse) => mret (Some (connect adjacency i target direction reverse))
      | None => try_attach adjacency i rest
      end
  end.

(** [min(l, key=key)] continued from a current best: the first least element. *)
Fixpoint py_min_from (key : nat -> nat) (best : nat) (rest : list nat) : nat :=
  match rest with
  | [] => best
  | x :: rest' =>
      if key x <? key best then py_min_from key x rest' else py_min_from key best rest'
  end.

(** The [if not connected:] branch: reroute an edge of the most lightly
    connected candidate through [i]. *)
Definition reroute (adjacency : Adj) (i : nat) (candidates : list nat) : M Adj :=
  match candidates with
  | [] => raise ValueError   (* [min] of an empty list *)
  | c :: cs =>
      let lightest := py_min_from (fun n => length (adjacency !!! n)) c cs in
      match adjacency !!! lightest with
      | [] => mret adjacency
      | Edge old_j _ _ :: tail =>
          let adjacency := <[lightest := tail]> adjacency in
          let adjacency :=
            <[old_j := filter (fun e => nbr e ≠ lightest) (adjacency !!! old_j)]> adjacency in
          dr1 ← _get_available_direction adjacency lightest i;
          let adjacency :=
            match dr1 with
            | Some (d1, r1) => connect adjacency lightest i d1 r1
            | None => adjacency
            end in
          dr2 ← _get_available_direction adjacency i old_j;
          mret (match dr2 with
                | Some (d2, r2) => connect adjacency i old_j d2 r2
                | None => adjacency
                end)
      end
  end.

(** One round of the spanning-tree loop, on the pair
    [(adjacency, connected_indices)]. *)
Definition spanning_step (st : Adj * list nat) (i : nat) : M (Adj * list nat) :=
  let '(adjacency, connected_indices) := st in
  candidates ← shuffle connected_indices;
  r ← try_attach adjacency i candidates;
  adjacency ← match r with
              | Some adjacency' => mret adjacency'
              | None => reroute adjacency i candidates
              end;
  mret (adjacency, connected_indices ++ [i]).

(** [max(2, int(room_count * 0.3))].  For the room counts 3..100 the float
    product truncates to the integer quotient of [3 * room_count] by 10. *)
Definition bonus_count_of (room_count : nat) : nat :=
  Nat.max 2 (room_count * 3 / 10).

(** The [while added < bonus_count and attempts < bonus_count * 20] loop;
    [budget] is [bonus_count * 20 - attempts], one less at every round. *)
Fixpoint bonus_loop (budget : nat) (bonus_count added room_count : nat) (adjacency : Adj)
    : M Adj :=
  match budget with
  | 0 => mret adjacency
  | S budget' =>
      if added <? bonus_count then
        i ← randint0 room_count;
        j ← randint0 room_count;
        if i =? j then bonus_loop budget' bonus_count added room_count adjacency
        else if bool_decide (j ∈ (nbr <$> (adjacency !!! i)))
        then bonus_loop budget' bonus_count added room_count adjacency
        else
          dr ← _get_available_direction adjacency i j;
          match dr with
          | Some (direction, reverse) =>
              bonus_loop budget' bonus_count (S added) room_count
                         (connect adjacency i j direction reverse)
          | None => bonus_loop budget' bonus_count added room_count adjacency
          end
      else mret adjacency
  end.

(** The neighbours pushed by the connectivity check of step 5. *)
Definition neighbours (adjacency : Adj) (current : nat) : list nat :=
  nbr <$> (adjacency !!! current).

(** One round of the force-connect loop, on [(adjacency, reachable)]. *)
Definition force_connect_step (st : Adj * list nat) (idx : nat) : M (Adj * list nat) :=
  let '(adjacency, reachable) := st in
  reachable_list ← shuffle reachable;
  r ← try_attach adjacency idx reachable_list;
  mret (match r with
        | Some adjacency' => (adjacency', reachable ++ [idx])
        | None => (adjacency, reachable)
        end).

Definition generic : list string :=
  ["Chamber"; "Passage"; "Hall"; "Area"; "Zone";
   "Room"; "Space"; "Level"; "Section"; "Sector"].

(** [while len(prefixes) < count: prefixes.extend(generic)]; every round
    adds ten names, so [count] rounds are never all used. *)
Fixpoint pad_prefixes (fuel : nat) (prefixes : list string) (count : nat) : list string :=
  match fuel with
  | 0 => prefixes
  | S fuel' =>
      if length prefixes <? count
      then pad_prefixes fuel' (prefixes ++ generic) count
      else prefixes
  end.

(** [for i, name in enumerate(custom): if name.strip(): names[i] = name.strip()] *)
Fixpoint overlay (names custom : list string) : list string :=
  match names, custom with
  | n :: ns, c :: cs =>
      (if PyStr.truthy (PyStr.strip c) then PyStr.strip c else n) :: overlay ns cs
  | ns, [] => ns
  | [], _ => []
  end.

(** The "disambiguate duplicates" loop of [_generate_names]. *)
Fixpoint dedup_names (names : list string) (seen : gmap string nat) : list string :=
  match names with
  | [] => []
  | name :: rest =>
      match seen !! name with
      | Some k =>
          (name +:+ " " +:+ PyStr.of_nat (S k + 1))
            :: dedup_names rest (<[name := S k]> seen)
      | None => name :: dedup_names rest (<[name := 0]> seen)
      end
  end.

Definition _generate_names (count : nat) (theme : ThemeDefaults)
    (custom_names : option (list string)) : M (list string) :=
  let prefixes := pad_prefixes count (suggested_room_prefixes theme) count in
  prefixes ← shuffle prefixes;
  let names := take count prefixes in
  let names :=
    match custom_names with
    | Some custom => overlay names (take count custom)
    | None => names
    end in
  let names := <[0 := "Entrance"]> names in
  mret (dedup_names names ∅).

(** The "Generate IDs (deduplicated)" loop of [generate]. *)
Fixpoint dedup_ids (ids : list string) (seen_ids : gmap string nat) : list string :=
  match ids with
  | [] => []
  | id_ :: rest =>
      match seen_ids !! id_ with
      | Some k =>
          (id_ +:+ "_" +:+ PyStr.of_nat (S k)) :: dedup_ids rest (<[id_ := S k]> seen_ids)
      | None => id_ :: dedup_ids rest (<[id_ := 0]> seen_ids)
      end
  end.

Definition _generate_description (room_name : string) (theme : ThemeDefaults)
    (world_name : string) (exits : PyDict.t string) : M string :=
  let exit_list :=
    match exits with
    | [] => "none"
    | _ => PyStr.join ", " (PyDict.keys exits)
    end in
  let templates :=
    [ "The " +:+ room_name +:+ " of " +:+ world_name +:+ ". "
      +:+ "A " +:+ flavor_adjective theme +:+ " " +:+ flavor_noun theme
      +:+ " with an atmosphere that feels "
      +:+ "entirely in keeping with this place. Exits lead " +:+ exit_list +:+ ".";
      "You stand in the " +:+ room_name +:+ ". "
      +:+ "Everything here speaks to the " +:+ flavor_adjective theme
      +:+ " nature of " +:+ world_name +:+ ". "
      +:+ "The air carries traces of what this " +:+ flavor_noun theme
      +:+ " has witnessed. "
      +:+ "Exits: " +:+ exit_list +:+ ".";
      "The " +:+ room_name +:+ ". In the broader context of " +:+ world_name +:+ ", "
      +:+ "this space has its own particular character — " +:+ flavor_adjective theme
      +:+ " " +:+ "in ways that are immediately apparent. Passages lead "
      +:+ exit_list +:+ "." ] in
  choice templates.

(** The inner loop of step 6: only engine directions become keys. *)
Definition build_exits (ids : list string) (edges : list edge) : PyDict.t string :=
  fold_left
    (fun exits e =>
       if bool_decide (dir_out e ∈ ALL_DIRECTIONS)
       then PyDict.set exits (dir_out e) (default "" (ids !! nbr e))
       else exits)
    edges [].

Definition build_room (names ids : list string) (adjacency : Adj)
    (theme_defaults : ThemeDefaults) (world_name : string)
    (rooms : PyDict.t Room.t) (i : nat) : M (PyDict.t Room.t) :=
  let room_id := default "" (ids !! i) in
  let room_name := default "" (names !! i) in
  let exits := build_exits ids (adjacency !!! i) in
  description ← _generate_description room_name theme_defaults world_name exits;
  mret (PyDict.set rooms room_id
          (Room.mk room_id room_name (_escape_percent description) exits []
                   (bool_decide (i = 0)))).

(** [max(3, min(room_count, 100))] *)
Definition clamp_room_count (room_count : Z) : nat :=
  Z.to_nat (Z.max 3 (Z.min room_count 100)).

(** Steps 1 and 2: the names and the identifiers. *)
Definition names_and_ids (room_count : nat) (theme_defaults : ThemeDefaults)
    (custom_names : option (list string)) : M (list string * list string) :=
  names ← _generate_names room_count theme_defaults custom_names;
  mret (names, dedup_ids (_safe_id <$> names) ∅).

(** Steps 3 to 5: the adjacency after the spanning tree, the bonus
    connections and the force-connect safety net. *)
Definition build_adjacency (room_count : nat) : M Adj :=
  '(adjacency, _) ← for_each spanning_step (init_adjacency room_count, [0])
                             (seq 1 (room_count - 1));
  let bonus_count := bonus_count_of room_count in
  adjacency ← bonus_loop (bonus_count * 20) bonus_count 0 room_count adjacency;
  match Bfs.run (neighbours adjacency)
                (Bfs.fuel_for (neighbours adjacency) (seq 0 room_count)) [0] [] with
  | None => diverge
  | Some reachable =>
      let unreachable := filter (fun i => i ∉ reachable) (seq 0 room_count) in
      '(adjacency, _) ← for_each force_connect_step (adjacency, reachable) unreachable;
      mret adjacency
  end.

(** Step 6: the room records, keyed by identifier. *)
Definition build_rooms (room_count : nat) (names ids : list string) (adjacency : Adj)
    (theme_defaults : ThemeDefaults) (world_name : string) : M (PyDict.t Room.t) :=
  for_each (build_room names ids adjacency theme_defaults world_name) []
           (seq 0 room_count).

(** Steps 3 to 6, from the names and identifiers of steps 1 and 2. *)
Definition generate_from (room_count : nat) (names ids : list string)
    (theme_defaults : ThemeDefaults) (world_name : string)
    : M (PyDict.t Room.t) :=
  adjacency ← build_adjacency room_count;
  build_rooms room_count names ids adjacency theme_defaults world_name.

Definition generate (room_count : Z) (theme_defaults : ThemeDefaults)
    (world_name : string) (custom_names : option (list string))
    : M (PyDict.t Room.t) :=
  let room_count := clamp_room_count room_count in
  '(names, ids) ← names_and_ids room_count theme_defaults custom_names;
  generate_from room_count names ids theme_defaults world_name.

End RoomGraph.

(* ===================================================================== *)
(** ** physics_templates.py                                               *)
(* ===================================================================== *)

Module Physics.
Import WorldModel ThemeEngine Random.

Module PhysicsPackage.
Record t : Type := mk {
  physics_type : PhysicsType;
  display_name : string;
  description : string;
  emoji : string;
  objects : PyDict.t GameObject.t;
  transformations : PyDict.t Transformation.t
}.

(** [PhysicsPackage(physics_type=.., display_name=.., description=.., emoji=..)] *)
Definition make (p : PhysicsType) (n d e : string) : t := mk p n d e [] [].

(** [world.objects.update(self.objects)] and the two statements after it. *)
Definition inject (pkg : t) (world : WorldConfig.t) : WorldConfig.t :=
  let world :=
    WorldConfig.with_objects world
      (PyDict.update (WorldConfig.objects world) (objects pkg)) in
  let world :=
    WorldConfig.with_transformations world
      (PyDict.update (WorldConfig.transformations world) (transformations pkg)) in
  if bool_decide (physics_type pkg ∈ WorldConfig.physics_applied world)
  then world
  else WorldConfig.with_physics_applied world
         (WorldConfig.physics_applied world ++ [physics_type pkg]).
End PhysicsPackage.

(** [pkg.objects[k] = o] *)
Definition set_object (pkg : PhysicsPackage.t) (k : string) (o : GameObject.t)
    : PhysicsPackage.t :=
  PhysicsPackage.mk (PhysicsPackage.physics_type pkg) (PhysicsPackage.display_name pkg)
    (PhysicsPackage.description pkg) (PhysicsPackage.emoji pkg)
    (PyDict.set (PhysicsPackage.objects pkg) k o) (PhysicsPackage.transformations pkg).

(** [pkg.transformations[k] = x] *)
Definition set_transformation (pkg : PhysicsPackage.t) (k : string)
    (x : Transformation.t) : PhysicsPackage.t :=
  PhysicsPackage.mk (PhysicsPackage.physics_type pkg) (PhysicsPackage.display_name pkg)
    (PhysicsPackage.description pkg) (PhysicsPackage.emoji pkg)
    (PhysicsPackage.objects pkg) (PyDict.set (PhysicsPackage.transformations pkg) k x).

(** [if room in world.rooms: world.rooms[room].properties[k] = v]: the room
    record is updated in place. *)
Definition set_room_property (world : WorldConfig.t) (room k v : string)
    : WorldConfig.t :=
  match PyDict.get (WorldConfig.rooms world) room with
  | Some r =>
      WorldConfig.with_rooms world
        (PyDict.set (WorldConfig.rooms world) room (Room.set_property r k v))
  | None => world
  end.

Definition _first_room_id (world : WorldConfig.t) : M string :=
  match WorldConfig.start_room world with
  | Some rid => if PyStr.truthy rid then mret rid
                else py_index (PyDict.keys (WorldConfig.rooms world)) 0
  | None => py_index (PyDict.keys (WorldConfig.rooms world)) 0
  end.

Definition _random_room (world : WorldConfig.t) : M string :=
  choice (PyDict.keys (WorldConfig.rooms world)).

Definition _build_energy (world : WorldConfig.t) (theme : ThemeDefaults)
    : M (PhysicsPackage.t * WorldConfig.t) :=
  room ← _random_room world;
  let pkg := PhysicsPackage.make ENERGY "Energy Charging"
               "Objects charge in power zones over time" "⚡" in
  location ← _random_room world;
  let pkg := set_object pkg "power_cell_inert"
    (GameObject.mk "power_cell_inert" "inert power cell"
       ("A power cell in its inert state. It requires a power zone to "
        +:+ "become energized. Handle with care.")
       location true false 0 false 0 false false ""
       ["take"; "drop"; "examine"; "use"; "insert"] []) in
  let pkg := set_object pkg "power_cell_charged"
    (GameObject.mk "power_cell_charged" "charged power cell"
       ("A fully energized power cell, humming with contained power. "
        +:+ "It glows faintly and is warm to the touch.")
       "none" true false 0 false 0 false false ""
       ["take"; "drop"; "examine"; "use"; "insert"] []) in
  let pkg := set_transformation pkg "energy_charge"
    (Transformation.mk "energy_charge" "power_cell_inert" "normal" 5 "charged"
       ("The power cell begins to absorb energy from the zone. After "
        +:+ "several moments the humming intensifies and the cell glows "
        +:+ "with stored power. It is fully charged.")
       "power_cell_charged" "" "" "power_zone" "" []) in
  let world := set_room_property world room "power_zone" "true" in
  mret (pkg, world).

Definition _build_lock_key (world : WorldConfig.t) (theme : ThemeDefaults)
    : M (PhysicsPackage.t * WorldConfig.t) :=
  let room_ids := PyDict.keys (WorldConfig.rooms world) in
  locked_room ← py_index room_ids (Z.min 2 (Z.of_nat (length room_ids) - 1));
  let pkg := PhysicsPackage.make LOCK_KEY "Lock & Key"
               "Doors and containers require keys" "🔓" in
  location ← _random_room world;
  let pkg := set_object pkg "master_key"
    (GameObject.mk "master_key" "master key"
       ("A heavy key that opens the locked door. Someone left it here "
        +:+ "— either careless or confident that you would never find it.")
       location true false 0 false 0 false false ""
       ["take"; "drop"; "examine"; "use"] []) in
  let pkg := set_transformation pkg "door_unlocked"
    (Transformation.mk "door_unlocked" "master_key" "normal" 1 "used"
       ("The key fits. The lock disengages with a heavy clunk. The "
        +:+ "door swings open. Whatever was locked away is now accessible.")
       "" "" "" "" "" []) in
  let world := set_room_property world locked_room "locked" "true" in
  mret (pkg, world).

Definition _build_crafting (world : WorldConfig.t) (theme : ThemeDefaults)
    : M (PhysicsPackage.t * WorldConfig.t) :=
  let pkg := PhysicsPackage.make CRAFTING "Crafting / Combining"
               "Combine objects to create new ones" "🧪" in
  location ← _random_room world;
  let pkg := set_object pkg "ingredient_a"
    (GameObject.mk "ingredient_a" "component A"
       ("One half of a combination. Alone it does little. Combined "
        +:+ "with the right partner, it becomes something more.")
       location true false 0 false 0 false false ""
       ["take"; "drop"; "examine"; "use"] []) in
  location ← _random_room world;
  let pkg := set_object pkg "ingredient_b"
    (GameObject.mk "ingredient_b" "component B"
       ("The complementary component. There is a satisfaction in "
        +:+ "finding the thing that completes another thing.")
       location true false 0 false 0 false false ""
       ["take"; "drop"; "examine"; "use"] []) in
  let pkg := set_object pkg "crafted_result"
    (GameObject.mk "crafted_result" "combined item"
       ("The result of combining components A and B. Something new "
        +:+ "exists that did not exist before. This is the point of "
        +:+ "crafting.")
       "none" true false 0 true 30 false false ""
       ["take"; "drop"; "examine"; "use"] []) in
  let pkg := set_transformation pkg "craft_combine"
    (Transformation.mk "craft_combine" "ingredient_a" "normal" 1 "combined"
       ("You combine the two components. There is a moment of "
        +:+ "uncertainty and then — yes. The combined item exists. It is "
        +:+ "more than the sum of its parts.")
       "crafted_result" "ingredient_b" "" "" "" []) in
  mret (pkg, world).

Definition _build_explosives (world : WorldConfig.t) (theme : ThemeDefaults)
    : M (PhysicsPackage.t * WorldConfig.t) :=
  let pkg := PhysicsPackage.make EXPLOSIVES "Timed Explosives"
               "Place charges, arm, detonate" "💣" in
  location ← _random_room world;
  let pkg := set_object pkg "explosive_charge"
    (GameObject.mk "explosive_charge" "explosive charge"
       ("A shaped explosive charge. Treat with appropriate respect. "
        +:+ "Requires a detonator to activate. Place at the target, arm "
        +:+ "with the detonator, move to safe distance.")
       location true true 80 false 0 false false ""
       ["take"; "drop"; "examine"; "use"; "place"] []) in
  location ← _random_room world;
  let pkg := set_object pkg "detonator"
    (GameObject.mk "detonator" "detonator"
       ("A remote detonation device. Works at range. Press when clear "
        +:+ "of the blast radius.")
       location true false 0 false 0 false false ""
       ["take"; "drop"; "examine"; "use"] []) in
  let pkg := set_transformation pkg "arm_explosive"
    (Transformation.mk "arm_explosive" "explosive_charge" "placed" 1 "armed"
       ("You connect the detonator. A small LED blinks red. The charge "
        +:+ "is armed. Time to move.")
       "" "detonator" "" "" "" []) in
  let pkg := set_transformation pkg "detonate"
    (Transformation.mk "detonate" "explosive_charge" "armed" 3 "detonated"
       ("The explosion is larger than expected. The structural damage "
        +:+ "is extensive. The objective is achieved. Mission success.")
       "" "" "" "" "" []) in
  mret (pkg, world).

Definition _build_disguise (world : WorldConfig.t) (theme : ThemeDefaults)
    : M (PhysicsPackage.t * WorldConfig.t) :=
  let pkg := PhysicsPackage.make DISGUISE "Disguise System"
               "Wear disguises to change NPC reactions" "🎭" in
  location ← _random_room world;
  let pkg := set_object pkg "disguise_item"
    (GameObject.mk "disguise_item" "disguise"
       ("A convincing disguise. Put it on and the world sees someone "
        +:+ "different. Being someone else, even briefly, changes what is "
        +:+ "possible.")
       location true false 0 false 0 false true ""
       ["take"; "drop"; "examine"; "wear"; "use"] []) in
  let pkg := set_transformation pkg "wear_disguise"
    (Transformation.mk "wear_disguise" "disguise_item" "normal" 1 "wearing"
       ("You put on the disguise. You look in the nearest reflective "
        +:+ "surface and see someone else entirely. The transformation is "
        +:+ "complete. Act the part.")
       "" "" "" "" "" []) in
  mret (pkg, world).

Definition _build_bribery (world : WorldConfig.t) (theme : ThemeDefaults)
    : M (PhysicsPackage.t * WorldConfig.t) :=
  let pkg := PhysicsPackage.make BRIBERY "Bribery / Persuasion"
               "Items that neutralize hostile sprites" "🗝️" in
  location ← _random_room world;
  let pkg := set_object pkg "bribe_item"
    (GameObject.mk "bribe_item" "bribe"
       ("Something that everyone wants. Currency is fungible but "
        +:+ "desire is specific. This is the right currency for this "
        +:+ "particular situation.")
       location true false 0 true 0 false false "high"
       ["take"; "drop"; "examine"; "use"; "give"] []) in
  let pkg := set_transformation pkg "bribe_used"
    (Transformation.mk "bribe_used" "bribe_item" "normal" 1 "consumed"
       ("You offer the bribe. There is a moment — calculation behind "
        +:+ "their eyes — and then acceptance. They look away. You have "
        +:+ "purchased temporary blindness. Use it well.")
       "" "" "" "" "" []) in
  mret (pkg, world).

Definition _build_medical (world : WorldConfig.t) (theme : ThemeDefaults)
    : M (PhysicsPackage.t * WorldConfig.t) :=
  let pkg := PhysicsPackage.make MEDICAL "Medical System"
               "Heal wounded, perform procedures" "🏥" in
  location ← _random_room world;
  let pkg := set_object pkg "medical_kit"
    (GameObject.mk "medical_kit" "medical kit"
       ("A field medical kit containing the essentials. Not "
        +:+ "everything, but enough. In the right hands it is more "
        +:+ "powerful than any weapon here.")
       location true false 0 true 40 false false ""
       ["take"; "drop"; "examine"; "use"] []) in
  location ← _random_room world;
  let pkg := set_object pkg "advanced_medicine"
    (GameObject.mk "advanced_medicine" "advanced medicine"
       ("High-grade medical supplies. Requires skill to use correctly. "
        +:+ "In the right hands, recovers what seemed lost.")
       location true false 0 true 70 false false ""
       ["take"; "drop"; "examine"; "use"] []) in
  let pkg := set_transformation pkg "apply_treatment"
    (Transformation.mk "apply_treatment" "medical_kit" "normal" 2 "used"
       ("You apply the treatment with care and precision. The "
        +:+ "improvement is immediate. There is no more reliable "
        +:+ "satisfaction than healing working as intended.")
       "" "" "" "" "" []) in
  mret (pkg, world).

Definition _build_magic (world : WorldConfig.t) (theme : ThemeDefaults)
    : M (PhysicsPackage.t * WorldConfig.t) :=
  let pkg := PhysicsPackage.make MAGIC "Magic Casting"
               "Spell words transform rooms and objects" "✨" in
  location ← _random_room world;
  let pkg := set_object pkg "spell_scroll"
    (GameObject.mk "spell_scroll" "spell scroll"
       ("A scroll containing an incantation. The words are precise — "
        +:+ "power without precision is just noise. Read the words "
        +:+ "correctly and something changes.")
       location true false 0 false 0 false false ""
       ["take"; "drop"; "examine"; "read"; "cast"; "use"] []) in
  let pkg := set_object pkg "enchanted_item"
    (GameObject.mk "enchanted_item" "enchanted item"
       ("An object altered by magical means. It is the same object it "
        +:+ "was and also entirely different. Magic specializes in this "
        +:+ "kind of paradox.")
       "none" true false 0 false 0 false false ""
       ["take"; "drop"; "examine"; "use"] []) in
  let pkg := set_transformation pkg "cast_spell"
    (Transformation.mk "cast_spell" "spell_scroll" "normal" 1 "cast"
       ("The words of the incantation form and release. There is a "
        +:+ "moment where the laws of the world negotiate with the "
        +:+ "instruction you have just given them. The spell takes effect.")
       "enchanted_item" "" "" "" "" []) in
  mret (pkg, world).

Definition _build_teleportation (world : WorldConfig.t) (theme : ThemeDefaults)
    : M (PhysicsPackage.t * WorldConfig.t) :=
  let rooms := PyDict.keys (WorldConfig.rooms world) in
  dest_room ← (if 1 <? length rooms then py_index rooms (-1) else py_index rooms 0);
  let pkg := PhysicsPackage.make TELEPORTATION "Teleportation"
               "Portal devices transport players between locations" "🚀" in
  location ← _random_room world;
  let pkg := set_object pkg "portal_device"
    (GameObject.mk "portal_device" "portal device"
       ("A device that folds space. The destination is encoded in its "
        +:+ "configuration. Activate it and you are somewhere else. The "
        +:+ "transition is instantaneous and profoundly disorienting.")
       location true false 0 false 0 false false ""
       ["take"; "drop"; "examine"; "activate"; "use"] []) in
  dest ← dict_get (WorldConfig.rooms world) dest_room;
  let pkg := set_transformation pkg "teleport_activate"
    (Transformation.mk "teleport_activate" "portal_device" "normal" 1 "activated"
       ("You activate the device. Space folds. You are "
        +:+ "somewhere else entirely. You are in the "
        +:+ Room.name dest +:+ ".")
       "" "" "" "" dest_room []) in
  mret (pkg, world).

Definition _build_temperature (world : WorldConfig.t) (theme : ThemeDefaults)
    : M (PhysicsPackage.t * WorldConfig.t) :=
  let pkg := PhysicsPackage.make TEMPERATURE "Temperature Physics"
               "Water freezes, ice melts, temperature zones affect objects" "🧊" in
  location ← _random_room world;
  let pkg := set_object pkg "water_container"
    (GameObject.mk "water_container" "container of water"
       ("Water in a container. Its state depends entirely on "
        +:+ "temperature.")
       location true false 0 false 0 false false ""
       ["take"; "drop"; "examine"; "use"] []) in
  let pkg := set_object pkg "ice_block"
    (GameObject.mk "ice_block" "block of ice"
       ("Frozen water. In a cold zone it stays frozen. Elsewhere it "
        +:+ "will return to what it was.")
       "none" true false 0 false 0 false false ""
       ["take"; "drop"; "examine"; "use"] []) in
  let pkg := set_transformation pkg "water_freezes"
    (Transformation.mk "water_freezes" "water_container" "normal" 3 "frozen"
       ("The water in the container begins to crystallize. The "
        +:+ "temperature here is doing exactly what temperature does. The "
        +:+ "container now holds a solid block of ice.")
       "ice_block" "" "" "cold_zone" "" []) in
  let pkg := set_transformation pkg "ice_melts"
    (Transformation.mk "ice_melts" "ice_block" "frozen" 4 "normal"
       ("The ice block softens. Drops form. The solid becomes liquid "
        +:+ "again with the unhurried patience of physics doing what "
        +:+ "physics does.")
       "water_container" "" "" "warm_zone" "" []) in
  mret (pkg, world).

Definition _build_growth (world : WorldConfig.t) (theme : ThemeDefaults)
    : M (PhysicsPackage.t * WorldConfig.t) :=
  let pkg := PhysicsPackage.make GROWTH "Growth / Decay"
               "Plants grow, food spoils over time" "🌱" in
  location ← _random_room world;
  let pkg := set_object pkg "seed"
    (GameObject.mk "seed" "seed"
       ("A seed. Contains the complete instructions for becoming "
        +:+ "something much larger. Currently not using any of them.")
       location true false 0 false 0 false false ""
       ["take"; "drop"; "examine"; "plant"; "use"] []) in
  let pkg := set_object pkg "grown_plant"
    (GameObject.mk "grown_plant" "grown plant"
       ("The seed followed its instructions. It is now a plant. This "
        +:+ "is what seeds do when given time and a suitable location.")
       "none" true false 0 true 20 false false ""
       ["take"; "drop"; "examine"; "eat"; "use"] []) in
  let pkg := set_transformation pkg "seed_grows"
    (Transformation.mk "seed_grows" "seed" "planted" 8 "grown"
       ("The seed has grown. It took time — eight turns, to be precise "
        +:+ "— but the instructions encoded in the seed have been executed "
        +:+ "faithfully. A plant exists where there was none.")
       "grown_plant" "" "" "" "" []) in
  mret (pkg, world).

Definition _build_alien_tech (world : WorldConfig.t) (theme : ThemeDefaults)
    : M (PhysicsPackage.t * WorldConfig.t) :=
  let pkg := PhysicsPackage.make ALIEN_TECH "Alien Technology"
               "Scan and activate alien artifacts" "🛸" in
  location ← _random_room world;
  let pkg := set_object pkg "alien_artifact"
    (GameObject.mk "alien_artifact" "alien artifact"
       ("An object not made by human hands. The materials are "
        +:+ "unidentifiable. The purpose is unclear. The craftsmanship is "
        +:+ "either primitive or so advanced it looks primitive.")
       location true false 0 false 0 false false ""
       ["take"; "drop"; "examine"; "scan"; "activate"; "use"] []) in
  location ← _random_room world;
  let pkg := set_object pkg "scanner_device"
    (GameObject.mk "scanner_device" "scanner device"
       ("A scanning device that analyzes non-terrestrial objects. "
        +:+ "Point at artifact. Read output. Repeat until understanding "
        +:+ "approaches something resembling certainty.")
       location true false 0 false 0 false false ""
       ["take"; "drop"; "examine"; "scan"; "use"] []) in
  let pkg := set_object pkg "activated_artifact"
    (GameObject.mk "activated_artifact" "activated alien artifact"
       ("The artifact is doing something now. What it is doing is "
        +:+ "difficult to describe precisely. The effect is measurable "
        +:+ "even if the mechanism is not understood.")
       "none" true false 0 false 0 false false ""
       ["take"; "drop"; "examine"; "use"] []) in
  let pkg := set_transformation pkg "alien_scan"
    (Transformation.mk "alien_scan" "alien_artifact" "dormant" 2 "analyzed"
       ("The scanner reads the artifact. The output is a cascade of "
        +:+ "data that means something to someone who understands it. You "
        +:+ "understand enough to proceed to activation.")
       "" "scanner_device" "" "" "" []) in
  let pkg := set_transformation pkg "alien_activate"
    (Transformation.mk "alien_activate" "alien_artifact" "analyzed" 1 "active"
       ("The artifact activates. The change is immediate and "
        +:+ "unmistakable. You have caused something non-human to do what "
        +:+ "it was built to do. This feels significant.")
       "activated_artifact" "" "" "" "" []) in
  mret (pkg, world).

(** [builders.get(physics_type, self._build_lock_key)(world, theme)] *)
Definition get_package (physics_type : PhysicsType) (world : WorldConfig.t)
    (theme : ThemeDefaults) : M (PhysicsPackage.t * WorldConfig.t) :=
  match physics_type with
  | TEMPERATURE => _build_temperature world theme
  | ENERGY => _build_energy world theme
  | LOCK_KEY => _build_lock_key world theme
  | CRAFTING => _build_crafting world theme
  | TELEPORTATION => _build_teleportation world theme
  | DISGUISE => _build_disguise world theme
  | EXPLOSIVES => _build_explosives world theme
  | BRIBERY => _build_bribery world theme
  | MAGIC => _build_magic world theme
  | MEDICAL => _build_medical world theme
  | GROWTH => _build_growth world theme
  | ALIEN_TECH => _build_alien_tech world theme
  end.

End Physics.

(* ===================================================================== *)
(** ** sprite_factory.py                                                  *)
(* ===================================================================== *)

Module SpriteFactory.
Import WorldModel ThemeEngine Random.

Definition ROLE_KEYWORDS : list (SpriteRole * list string) :=
[
  (VILLAIN,
     ["villain"; "enemy"; "guard"; "soldier"; "officer"; "agent";
      "monster"; "demon"; "dragon"; "dark"; "evil"; "bad"; "boss";
      "commander"; "general"; "overlord"; "antagonist"; "gestapo"; "mib";
      "alien"; "troll"; "orc"; "zombie"; "vampire"]);
  (BOSS,
     ["boss"; "chief"; "leader"; "king"; "queen"; "emperor"; "overlord";
      "master"; "commander"; "colonel"; "general"; "admiral"; "director";
      "president"]);
  (ALLY,
     ["ally"; "friend"; "partner"; "companion"; "hero"; "helper"; "medic";
      "doctor"; "nurse"; "priest"; "father"; "chaplain"; "hawkeye"; "bj";
      "radar"; "mulcahy"; "hogan"; "newkirk"; "carter"; "lebeau"; "kinchloe"]);
  (NEUTRAL,
     ["clerk"; "shopkeeper"; "merchant"; "civilian"; "villager"; "butler";
      "maid"; "servant"; "cook"; "farmer"; "child"; "schultz"; "klink";
      "igor"; "klinger"; "winchester"; "margaret"; "potter"; "frank"]);
  (GUARD,
     ["guard"; "sentry"; "patrol"; "watchman"; "security"; "trooper";
      "private"; "grunt"])
].

(** [ROLE_BEHAVIOR.get(role, 'neutral_npc')]: every role has an entry. *)
Definition ROLE_BEHAVIOR (role : SpriteRole) : string :=
  match role with
  | HERO => "ally_support"
  | VILLAIN => "aggressive_patrol"
  | NEUTRAL => "neutral_npc"
  | BOSS => "aggressive_patrol"
  | ALLY => "ally_support"
  | GUARD => "patrol_basic"
  end.

Record Override : Type := {
  ov_aggression : pyfloat;
  ov_ai_behavior : string;
  ov_role : SpriteRole
}.

Definition KNOWN_CHARACTER_OVERRIDES : list (string * Override) :=
[
  ("schultz", Build_Override (FLit (5 # 100)) "willful_blindness" NEUTRAL);
  ("klink", Build_Override (FLit (1 # 10)) "pompous_bluster" NEUTRAL);
  ("burkhalter", Build_Override (FLit (3 # 10)) "pompous_authority" NEUTRAL);
  ("radar", Build_Override (FLit (5 # 100)) "logistics_genius" ALLY);
  ("klinger", Build_Override (FLit (1 # 10)) "escape_artist" NEUTRAL);
  ("hawkeye", Build_Override (FLit (1 # 10)) "ally_wit" ALLY);
  ("potter", Build_Override (FLit (15 # 100)) "commanding_fair" ALLY);
  ("margaret", Build_Override (FLit (4 # 10)) "regulation_authority" NEUTRAL);
  ("frank", Build_Override (FLit (65 # 100)) "regulation_enforcer" VILLAIN);
  ("winchester", Build_Override (FLit (2 # 10)) "pompous_bluster" NEUTRAL);
  ("mulcahy", Build_Override (FLit (5 # 100)) "moral_compass" ALLY);
  ("barbie", Build_Override (FLit (2 # 100)) "neutral_npc" NEUTRAL);
  ("ken", Build_Override (FLit (2 # 100)) "neutral_npc" NEUTRAL);
  ("skipper", Build_Override (FLit (1 # 100)) "neutral_npc" NEUTRAL);
  ("tabitha", Build_Override (FLit (5 # 100)) "magic_user" ALLY);
  ("samantha", Build_Override (FLit (5 # 100)) "magic_user" ALLY);
  ("darrin", Build_Override (FLit (1 # 10)) "neutral_npc" NEUTRAL)
].

(** [list(SpriteRole)] *)
Definition all_roles : list SpriteRole := [HERO; VILLAIN; NEUTRAL; BOSS; ALLY; GUARD].

Definition _make_id (name : string) : string :=
  PyStr.replace_char "-" "_"
    (PyStr.replace_char "'" ""
      (PyStr.replace_char " " "_" (PyStr.strip (PyStr.lower name))))
  +:+ "_template".

Definition _role_aggression (role : SpriteRole) (theme : ThemeDefaults) : pyfloat :=
  let lo := sprite_aggression_low theme in
  let hi := sprite_aggression_high theme in
  FRound 2
    match role with
    | HERO => lo
    | ALLY => lo
    | NEUTRAL => FMul lo (FLit (15 # 10))
    | GUARD => FDiv (FAdd lo hi) (FOfInt 2)
    | VILLAIN => hi
    | BOSS => FMin (FLit (95 # 100)) (FMul hi (FLit (11 # 10)))
    end.

(** The first override whose key is a substring of the name. *)
Definition find_override (name_lower : string) : option Override :=
  snd <$> List.find (fun kv => PyStr.contains (fst kv) name_lower)
                    KNOWN_CHARACTER_OVERRIDES.

Definition score_role_row (name_lower : string) (scores : @PyScores.t SpriteRole)
    (row : SpriteRole * list string) : @PyScores.t SpriteRole :=
  fold_left
    (fun sc kw => if PyStr.contains kw name_lower then PyScores.bump (fst row) 1 sc else sc)
    (snd row) scores.

Definition _classify (name : string) (theme : ThemeDefaults)
    : SpriteRole * string * pyfloat :=
  let name_lower := PyStr.strip (PyStr.lower name) in
  match find_override name_lower with
  | Some ov => (ov_role ov, ov_ai_behavior ov, ov_aggression ov)
  | None =>
      let scores :=
        fold_left (score_role_row name_lower) ROLE_KEYWORDS (PyScores.init all_roles) in
      let best :=
        match PyScores.py_max scores with
        | Some (best, n) => if n =? 0 then NEUTRAL else best
        | None => NEUTRAL   (* [max] of an empty dictionary: never *)
        end in
      (best, ROLE_BEHAVIOR best, _role_aggression best theme)
  end.

(** [int(x * c)] for an integer [x] and the decimal literal [num/10]: the
    literals used here (1.5, 1.3, 1.1, 0.9, 0.8, 0.4) are represented by
    floats at or above their decimal value, so the float product truncates
    to the rational one for every integer a float holds exactly. *)
Definition int_scaled (x : Z) (num : Z) : Z := Z.quot (x * num) 10.

Definition _calc_stats (role : SpriteRole) (theme : ThemeDefaults) : Z * Z :=
  match role with
  | BOSS => (boss_health theme, int_scaled (base_damage theme) 15)
  | ALLY | HERO => (int_scaled (minion_health theme) 13, int_scaled (base_damage theme) 8)
  | NEUTRAL => (int_scaled (minion_health theme) 9, int_scaled (base_damage theme) 4)
  | GUARD => (minion_health theme, int_scaled (base_damage theme) 11)
  | VILLAIN => (int_scaled (minion_health theme) 11, base_damage theme)
  end.

(** [list(dict.fromkeys(l))]: the first occurrence of every element. *)
Fixpoint fromkeys (seen l : list string) : list string :=
  match l with
  | [] => []
  | x :: rest =>
      if bool_decide (x ∈ seen) then fromkeys seen rest
      else x :: fromkeys (x :: seen) rest
  end.

Definition _assign_spawn_rooms (idx total : nat) (room_ids : list string) : list string :=
  match room_ids with
  | [] => []
  | _ =>
      let rooms_per := Nat.max 1 (length room_ids / Nat.max 1 total) in
      let start := (idx * rooms_per) mod length room_ids in
      let spawn :=
        (fun j => default "" (room_ids !! ((start + j) mod length room_ids)))
          <$> seq 0 (Nat.min 2 rooms_per) in
      fromkeys [] spawn
  end.

Definition _assign_loot (world : WorldConfig.t) (role : SpriteRole) : M string :=
  match WorldConfig.objects world with
  | [] => mret ""
  | objects =>
      let candidates :=
        fst <$> filter (fun kv => GameObject.takeable (snd kv) = true /\
                                  GameObject.location (snd kv) ≠ "none") objects in
      match candidates with
      | [] => mret ""
      | _ =>
          let weapon_or_food (oid : string) : bool :=
            match PyDict.get objects oid with
            | Some o => GameObject.is_weapon o || GameObject.is_consumable o
            | None => false
            end in
          let best := filter (fun oid => weapon_or_food oid = true) candidates in
          if bool_decide (role = BOSS) && negb (bool_decide (best = []))
          then choice best
          else choice candidates
      end
  end.

Definition _generate_description (name : string) (role : SpriteRole)
    (theme : ThemeDefaults) : string :=
  let desc :=
    match role with
    | HERO => "A central figure in this " +:+ flavor_adjective theme +:+ " world."
    | VILLAIN => "A hostile presence in this " +:+ flavor_noun theme +:+ "."
    | NEUTRAL => "A resident of this " +:+ flavor_adjective theme +:+ " "
                 +:+ flavor_noun theme +:+ "."
    | BOSS => "The most dangerous entity in this " +:+ flavor_noun theme +:+ "."
    | ALLY => "A trustworthy ally in this " +:+ flavor_adjective theme +:+ " world."
    | GUARD => "A patrol element in this " +:+ flavor_adjective theme +:+ " "
               +:+ flavor_noun theme +:+ "."
    end in
  name +:+ ". " +:+ desc.

(** One round of the loop of [generate_sprites]. *)
Definition sprite_step (total : nat) (theme : ThemeDefaults) (world : WorldConfig.t)
    (room_ids : list string) (sprites : PyDict.t Sprite.t) (ix : nat * string)
    : M (PyDict.t Sprite.t) :=
  let i := fst ix in
  let name := snd ix in
  if negb (PyStr.truthy (PyStr.strip name)) then mret sprites
  else
    let sprite_id := _make_id name in
    let sprite_id :=
      if PyDict.mem sprites sprite_id then sprite_id +:+ "_" +:+ PyStr.of_nat i
      else sprite_id in
    let '(role, behavior, aggression) := _classify name theme in
    let '(health, damage) := _calc_stats role theme in
    let spawn_rooms := _assign_spawn_rooms i total room_ids in
    loot ← _assign_loot world role;
    let description := _generate_description name role theme in
    mret (PyDict.set sprites sprite_id
            (Sprite.mk sprite_id (name +:+ " (template)") description health damage
               aggression behavior spawn_rooms
               (if bool_decide (role = ALLY) || bool_decide (role = NEUTRAL)
                then FLit (4 # 100) else FLit (6 # 100))
               loot (negb (bool_decide (role = BOSS))) role [])).

Definition generate_sprites (names : list string) (theme : ThemeDefaults)
    (world : WorldConfig.t) : M (PyDict.t Sprite.t) :=
  match names, WorldConfig.rooms world with
  | [], _ => mret []
  | _, [] => mret []
  | _, _ =>
      let room_ids := PyDict.keys (WorldConfig.rooms world) in
      for_each (sprite_step (length names) theme world room_ids) []
               (zip (seq 0 (length names)) names)
  end.

End SpriteFactory.

(* ===================================================================== *)
(** ** Parsed INI files                                                   *)
(* ===================================================================== *)

(** What [configparser.RawConfigParser] holds after reading a file: the
    options of the DEFAULT section and the named sections in file order.
    Option names are stored in lower case; every option name the sources
    look up is a lower-case literal. *)
Module Ini.

Record t : Type := mk {
  defaults : PyDict.t string;
  sects : PyDict.t (PyDict.t string)
}.

(** What [read] yields for a file that does not exist. *)
Definition empty : t := mk [] [].

(** [cfg.sections()] *)
Definition sections (c : t) : list string := PyDict.keys (sects c).

(** [cfg.has_option(section, option)]: the section's own options and the
    defaults; false for an unknown section. *)
Definition has_option (c : t) (section opt : string) : bool :=
  match PyDict.get (sects c) section with
  | Some opts => PyDict.mem opts opt || PyDict.mem (defaults c) opt
  | None => false
  end.

(** [cfg.get(section, option)]: the section's value, else the default;
    [None] stands for NoSectionError and NoOptionError. *)
Definition get (c : t) (section opt : string) : option string :=
  match PyDict.get (sects c) section with
  | Some opts =>
      match PyDict.get opts opt with
      | Some v => Some v
      | None => PyDict.get (defaults c) opt
      end
  | None => None
  end.

(** [cfg.remove_option(section, option)]: only the section's own option. *)
Definition remove_option (c : t) (section opt : string) : t :=
  match PyDict.get (sects c) section with
  | Some opts => mk (defaults c) (PyDict.set (sects c) section (PyDict.remove opts opt))
  | None => c
  end.

(** [cfg.set(section, option, value)] *)
Definition set (c : t) (section opt value : string) : t :=
  match PyDict.get (sects c) section with
  | Some opts => mk (defaults c) (PyDict.set (sects c) section (PyDict.set opts opt value))
  | None => c
  end.

(** [dict(cfg[section])]: the section's options over the defaults. *)
Definition section_dict (c : t) (section : string) : PyDict.t string :=
  match PyDict.get (sects c) section with
  | Some opts =>
      map (fun k => (k, default "" (get c section k)))
          (PyDict.keys (PyDict.update opts (defaults c)))
  | None => []
  end.

(** One section as [write] prints it: the header, one [key = value] line
    per option, and an empty line.  (A value holding a line break is
    continued on further lines of the file; the model keeps it in one.) *)
Definition render_section (name : string) (opts : PyDict.t string) : list string :=
  ("[" +:+ name +:+ "]") :: map (fun kv => fst kv +:+ " = " +:+ snd kv) opts ++ [""].

(** The lines [cfg.write(f)] prints. *)
Definition render (c : t) : list string :=
  (match defaults c with
   | [] => []
   | d => render_section "DEFAULT" d
   end)
  ++ flat_map (fun kv => render_section (fst kv) (snd kv)) (sects c).

End Ini.

(* ===================================================================== *)
(** ** validation_engine.py                                               *)
(* ===================================================================== *)

Module Validation.
Import WorldModel.

(** The messages of the two auditors.  The source formats each one into a
    string; the model keeps the check that produced it and its arguments. *)
Inductive Msg : Type :=
| ExitMissing (rid direction target : string)
| NoStartRoom
| MultipleStartRooms (starts : list string)
| Unreachable (rid : string)
| RoomMissingName (rid : string)
| RoomMissingDescription (rid : string)
| ObjectLocationMissing (oid location : string)
| ObjectLocationNotContainer (oid location : string)
| ObjectMissingName (oid : string)
| ObjectMissingDescription (oid : string)
| SpawnRoomMissing (sid room : string)
| NoSpawnRooms (sid : string)
| LootMissing (sid loot : string)
| SpriteMissingName (sid : string)
| TransformObjectMissing (tid oid : string)
| TransformNewObjectMissing (tid oid : string)
| TransformRequiresMissing (tid oid : string)
| TransformRequires2Missing (tid oid : string)
| TransformNewLocationMissing (tid room : string)
| RespawnMissing (room : string)
| SDSectionName (sec : string)
| SDCombinedUrl (sec : string)
| SDMissingHost (sec : string)
| SDMissingPort (sec : string)
| BarePercent (source section key : string)
| DuplicateId (id : string)
(* RoundTripVerifier *)
| FileMissing (name : string)
| ExitMissingAfterWrite (section direction target : string)
| ExitNotEngine (section direction : string)
| LocationMissingAfterWrite (section location : string)
| SpawnRoomMissingAfterWrite (section room : string)
| TransformRefMissingAfterWrite (section key value : string)
| SDSectionNameAfterWrite (sec : string)
| BarePercentAfterWrite (name : string) (line : nat)
(* WorldGenerator.generate *)
| PipelineError (e : Random.exn).

(** [errors] holds the messages passed to [add_error], [warnings] those
    passed to [add_warning]. *)
Record ValidationResult : Type := {
  errors : list Msg;
  warnings : list Msg
}.

(** [len(self.errors) == 0] *)
Definition is_valid (r : ValidationResult) : bool := length (errors r) =? 0.

(** [not s.strip()] *)
Definition blank (s : string) : bool := negb (PyStr.truthy (PyStr.strip s)).

(** 1: room exit references *)
Definition check_exits (world : WorldConfig.t) : list Msg :=
  let room_ids := WorldConfig.room_ids world in
  flat_map
    (fun kv =>
       flat_map
         (fun dt => if bool_decide (snd dt ∈ room_ids) then []
                    else [ExitMissing (fst kv) (fst dt) (snd dt)])
         (Room.exits (snd kv)))
    (WorldConfig.rooms world).

(** [[rid for rid, r in world.rooms.items() if r.is_start]] *)
Definition starts_of (world : WorldConfig.t) : list string :=
  fst <$> filter (fun kv => Room.is_start (snd kv) = true) (WorldConfig.rooms world).

(** 2: exactly one start room *)
Definition check_start (world : WorldConfig.t) : list Msg :=
  match starts_of world with
  | [] => [NoStartRoom]
  | [_] => []
  | starts => [MultipleStartRooms starts]
  end.

(** The targets pushed from [curr] by the search of check 3. *)
Definition exit_targets (world : WorldConfig.t) (curr : string) : list string :=
  match PyDict.get (WorldConfig.rooms world) curr with
  | Some room =>
      filter (fun t => t ∈ WorldConfig.room_ids world) (PyDict.values (Room.exits room))
  | None => []
  end.

(** 3: connectivity by breadth-first search.  [None]: the search is still
    running when its fuel is spent. *)
Definition check_reachable (world : WorldConfig.t) : option (list Msg) :=
  match starts_of world with
  | start :: _ =>
      if 1 <? length (WorldConfig.rooms world) then
        match Bfs.run (exit_targets world)
                      (Bfs.fuel_for (exit_targets world)
                                    (remove_dups (WorldConfig.room_ids world)))
                      [start] [] with
        | Some reachable =>
            Some ((fun rid => Unreachable rid)
                    <$> filter (fun rid => rid ∉ reachable) (WorldConfig.room_ids world))
        | None => None
        end
      else Some []
  | [] => Some []
  end.

(** 4: room name and description *)
Definition check_room_text (world : WorldConfig.t) : list Msg :=
  flat_map
    (fun kv =>
       (if blank (Room.name (snd kv)) then [RoomMissingName (fst kv)] else [])
       ++ (if blank (Room.description (snd kv)) then [RoomMissingDescription (fst kv)] else []))
    (WorldConfig.rooms world).

(** [loc and loc not in ('none', '')] *)
Definition real_location (loc : string) : bool :=
  PyStr.truthy loc && negb (String.eqb loc "none") && negb (String.eqb loc "").

(** 5: object locations *)
Definition check_object_locations (world : WorldConfig.t) : list Msg :=
  let room_ids := WorldConfig.room_ids world in
  let object_ids := WorldConfig.object_ids world in
  flat_map
    (fun kv =>
       let loc := GameObject.location (snd kv) in
       if real_location loc then
         if bool_decide (loc ∉ room_ids) && bool_decide (loc ∉ object_ids)
         then [ObjectLocationMissing (fst kv) loc]
         else if bool_decide (loc ∈ object_ids) then
           match PyDict.get (WorldConfig.objects world) loc with
           | Some container =>
               if GameObject.is_container container then []
               else [ObjectLocationNotContainer (fst kv) loc]
           | None => []
           end
         else []
       else [])
    (WorldConfig.objects world).

(** 6: object name and description *)
Definition check_object_text (world : WorldConfig.t) : list Msg :=
  flat_map
    (fun kv =>
       (if blank (GameObject.name (snd kv)) then [ObjectMissingName (fst kv)] else [])
       ++ (if blank (GameObject.description (snd kv))
           then [ObjectMissingDescription (fst kv)] else []))
    (WorldConfig.objects world).

(** 7: sprite spawn rooms, the errors *)
Definition check_spawn_rooms (world : WorldConfig.t) : list Msg :=
  let room_ids := WorldConfig.room_ids world in
  flat_map
    (fun kv =>
       flat_map
         (fun r => if bool_decide (r ∈ room_ids) then [] else [SpawnRoomMissing (fst kv) r])
         (Sprite.spawn_rooms (snd kv)))
    (WorldConfig.sprites world).

(** 7: sprite spawn rooms, the warnings *)
Definition warn_spawn_rooms (world : WorldConfig.t) : list Msg :=
  flat_map
    (fun kv =>
       match Sprite.spawn_rooms (snd kv) with
       | [] => [NoSpawnRooms (fst kv)]
       | _ => []
       end)
    (WorldConfig.sprites world).

(** [ref and ref not in ids] *)
Definition dangling (ref : string) (ids : list string) : bool :=
  PyStr.truthy ref && bool_decide (ref ∉ ids).

(** 8: sprite loot *)
Definition check_loot (world : WorldConfig.t) : list Msg :=
  flat_map
    (fun kv =>
       if dangling (Sprite.loot_on_death (snd kv)) (WorldConfig.object_ids world)
       then [LootMissing (fst kv) (Sprite.loot_on_death (snd kv))] else [])
    (WorldConfig.sprites world).

(** 9: sprite name *)
Definition check_sprite_name (world : WorldConfig.t) : list Msg :=
  flat_map
    (fun kv => if blank (Sprite.name (snd kv)) then [SpriteMissingName (fst kv)] else [])
    (WorldConfig.sprites world).

(** 10: transformation subject *)
Definition check_transform_object (world : WorldConfig.t) : list Msg :=
  flat_map
    (fun kv =>
       if bool_decide (Transformation.object_id (snd kv) ∈ WorldConfig.object_ids world)
       then [] else [TransformObjectMissing (fst kv) (Transformation.object_id (snd kv))])
    (WorldConfig.transformations world).

(** 11: transformation result *)
Definition check_transform_new_object (world : WorldConfig.t) : list Msg :=
  flat_map
    (fun kv =>
       if dangling (Transformation.new_object_id (snd kv)) (WorldConfig.object_ids world)
       then [TransformNewObjectMissing (fst kv) (Transformation.new_object_id (snd kv))]
       else [])
    (WorldConfig.transformations world).

(** 12: transformation prerequisites *)
Definition check_transform_requires (world : WorldConfig.t) : list Msg :=
  flat_map
    (fun kv =>
       (if dangling (Transformation.requires_object (snd kv)) (WorldConfig.object_ids world)
        then [TransformRequiresMissing (fst kv) (Transformation.requires_object (snd kv))]
        else [])
       ++ (if dangling (Transformation.requires_object_2 (snd kv))
                       (WorldConfig.object_ids world)
           then [TransformRequires2Missing (fst kv)
                   (Transformation.requires_object_2 (snd kv))]
           else []))
    (WorldConfig.transformations world).

(** 13: transformation destination *)
Definition check_transform_new_location (world : WorldConfig.t) : list Msg :=
  flat_map
    (fun kv =>
       if dangling (Transformation.new_location (snd kv)) (WorldConfig.room_ids world)
       then [TransformNewLocationMissing (fst kv) (Transformation.new_location (snd kv))]
       else [])
    (WorldConfig.transformations world).

(** 14: combat respawn *)
Definition check_respawn (world : WorldConfig.t) : list Msg :=
  let loc := CombatConfig.respawn_location (WorldConfig.combat world) in
  if dangling loc (WorldConfig.room_ids world) then [RespawnMissing loc] else [].

(** [sec not in ('settings', 'prompt_style')] *)
Definition sd_server_section (sec : string) : bool :=
  negb (String.eqb sec "settings") && negb (String.eqb sec "prompt_style").

(** 15: image-config section naming *)
Definition check_sd_names (world : WorldConfig.t) : list Msg :=
  flat_map
    (fun kv =>
       if sd_server_section (fst kv) && negb (PyStr.startswith "SD" (PyStr.upper (fst kv)))
       then [SDSectionName (fst kv)] else [])
    (SDConfig.to_ini_sections (WorldConfig.sd_config world)).

(** 16: image-config host and port kept apart *)
Definition check_sd_host_port (world : WorldConfig.t) : list Msg :=
  flat_map
    (fun kv =>
       if sd_server_section (fst kv) then
         (if PyDict.mem (snd kv) "url" then [SDCombinedUrl (fst kv)] else [])
         ++ (if PyDict.mem (snd kv) "host" then [] else [SDMissingHost (fst kv)])
         ++ (if PyDict.mem (snd kv) "port" then [] else [SDMissingPort (fst kv)])
       else [])
    (SDConfig.to_ini_sections (WorldConfig.sd_config world)).

(** [re.search(r'(?<!%)%(?!%)', str(value))]; the rendering of a float
    holds no percent sign. *)
Definition value_has_bare_pct (v : IniVal) : bool :=
  match v with
  | VStr s => PyStr.has_bare_pct s
  | VFloat _ => false
  end.

Definition check_pct (source section : string) (d : PyDict.t IniVal) : list Msg :=
  flat_map
    (fun kv => if value_has_bare_pct (snd kv) then [BarePercent source section (fst kv)]
               else [])
    d.

(** 17: bare percent signs *)
Definition check_percent (world : WorldConfig.t) : list Msg :=
  flat_map (fun kv => check_pct "rooms" (fst kv) (Room.to_ini_section (snd kv)))
           (WorldConfig.rooms world)
  ++ flat_map (fun kv => check_pct "objects" (fst kv) (GameObject.to_ini_section (snd kv)))
              (WorldConfig.objects world)
  ++ flat_map (fun kv => check_pct "sprites" (fst kv) (Sprite.to_ini_section (snd kv)))
              (WorldConfig.sprites world)
  ++ flat_map (fun kv => check_pct "transforms" (fst kv)
                           (Transformation.to_ini_section (snd kv)))
              (WorldConfig.transformations world).

(** The loop of check 18 over [all_ids]. *)
Fixpoint duplicate_ids (seen ids : list string) : list Msg :=
  match ids with
  | [] => []
  | id_ :: rest =>
      (if bool_decide (id_ ∈ seen) then [DuplicateId id_] else [])
      ++ duplicate_ids (id_ :: seen) rest
  end.

(** 18: duplicate identifiers across the record collections *)
Definition check_duplicates (world : WorldConfig.t) : list Msg :=
  duplicate_ids []
    (WorldConfig.room_ids world ++ WorldConfig.object_ids world
     ++ WorldConfig.sprite_ids world ++ PyDict.keys (WorldConfig.transformations world)).

(** [ValidationEngine.validate]: the checks in order, each appending to
    [result.errors].  Where Python iterates a [set] the model takes the
    order of the dictionary's keys. *)
Definition validate (world : WorldConfig.t) : option ValidationResult :=
  match check_reachable world with
  | None => None
  | Some unreachable =>
      Some {| errors :=
                check_exits world ++ check_start world ++ unreachable
                ++ check_room_text world ++ check_object_locations world
                ++ check_object_text world ++ check_spawn_rooms world
                ++ check_loot world ++ check_sprite_name world
                ++ check_transform_object world ++ check_transform_new_object world
                ++ check_transform_requires world ++ check_transform_new_location world
                ++ check_respawn world ++ check_sd_names world
                ++ check_sd_host_port world ++ check_percent world
                ++ check_duplicates world;
              warnings := warn_spawn_rooms world |}
  end.

(** *** RoundTripVerifier *)

Definition ENGINE_DIRECTIONS : list string :=
  ["north"; "south"; "east"; "west"; "up"; "down"].

Definition INVALID_FOR_ENGINE : list string :=
  ["northeast"; "northwest"; "southeast"; "southwest"; "enter"; "exit"].

(** One file of the output directory: what [configparser] reads from it
    and its lines. *)
Record File : Type := {
  parsed : Ini.t;
  lines : list string
}.

(** The six files of [filemap], in its order; [None]: the file does not
    exist. *)
Record Artifacts : Type := {
  rooms_ini : option File;
  objects_ini : option File;
  sprites_ini : option File;
  transformations_ini : option File;
  combat_ini : option File;
  sd_ini : option File
}.

Definition filemap (a : Artifacts) : list (string * option File) :=
  [("rooms", rooms_ini a); ("objects", objects_ini a); ("sprites", sprites_ini a);
   ("transformations", transformations_ini a); ("combat", combat_ini a);
   ("sd", sd_ini a)].

Definition missing_files (a : Artifacts) : list Msg :=
  flat_map (fun nf => match snd nf with
                      | None => [FileMissing (fst nf)]
                      | Some _ => []
                      end)
           (filemap a).

Definition verify_rooms (rooms_cfg : Ini.t) : list Msg :=
  let rooms := Ini.sections rooms_cfg in
  flat_map
    (fun s =>
       let d := Ini.section_dict rooms_cfg s in
       flat_map
         (fun dr => match PyDict.get d dr with
                    | Some target =>
                        if bool_decide (target ∈ rooms) then []
                        else [ExitMissingAfterWrite s dr target]
                    | None => []
                    end)
         ENGINE_DIRECTIONS
       ++ flat_map
            (fun dr => if PyDict.mem d dr then [ExitNotEngine s dr] else [])
            INVALID_FOR_ENGINE)
    rooms.

Definition verify_objects (rooms objects : list string) (objects_cfg : Ini.t) : list Msg :=
  flat_map
    (fun s =>
       let loc := default "" (PyDict.get (Ini.section_dict objects_cfg s) "location") in
       if real_location loc && bool_decide (loc ∉ rooms) && bool_decide (loc ∉ objects)
       then [LocationMissingAfterWrite s loc] else [])
    (Ini.sections objects_cfg).

(** [[x.strip() for x in raw.split(',') if x.strip()]] *)
Definition parse_list (raw : string) : list string :=
  PyStr.strip <$> filter (fun x => PyStr.truthy (PyStr.strip x) = true) (PyStr.split "," raw).

Definition verify_sprites (rooms : list string) (sprites_cfg : Ini.t) : list Msg :=
  flat_map
    (fun s =>
       let raw := default "" (PyDict.get (Ini.section_dict sprites_cfg s) "spawn_rooms") in
       flat_map
         (fun r => if bool_decide (r ∈ rooms) then [] else [SpawnRoomMissingAfterWrite s r])
         (parse_list raw))
    (Ini.sections sprites_cfg).

Definition verify_transformations (objects : list string) (cfg : Ini.t) : list Msg :=
  flat_map
    (fun s =>
       let d := Ini.section_dict cfg s in
       flat_map
         (fun key =>
            let val := default "" (PyDict.get d key) in
            if dangling val objects then [TransformRefMissingAfterWrite s key val] else [])
         ["object_id"; "new_object_id"; "requires_object"; "requires_object_2"])
    (Ini.sections cfg).

Definition verify_sd (cfg : Ini.t) : list Msg :=
  flat_map
    (fun sec => if negb (PyStr.startswith "SD" (PyStr.upper sec))
                then [SDSectionNameAfterWrite sec] else [])
    (filter (fun s => sd_server_section s = true) (Ini.sections cfg)).

(** [for i, line in enumerate(f, 1): ...] *)
Definition verify_lines (name : string) (ls : list string) : list Msg :=
  flat_map
    (fun il => if PyStr.has_bare_pct (snd il) then [BarePercentAfterWrite name (fst il)]
               else [])
    (zip (seq 1 (length ls)) ls).

(** [RoundTripVerifier.verify] on the files of the output directory. *)
Definition verify (a : Artifacts) : ValidationResult :=
  match rooms_ini a, objects_ini a, sprites_ini a,
        transformations_ini a, combat_ini a, sd_ini a with
  | Some fr, Some fo, Some fs, Some ft, Some fc, Some fd =>
      let rooms := Ini.sections (parsed fr) in
      let objects := Ini.sections (parsed fo) in
      {| errors :=
           verify_rooms (parsed fr)
           ++ verify_objects rooms objects (parsed fo)
           ++ verify_sprites rooms (parsed fs)
           ++ verify_transformations objects (parsed ft)
           ++ verify_sd (parsed fd)
           ++ verify_lines "rooms" (lines fr) ++ verify_lines "objects" (lines fo)
           ++ verify_lines "sprites" (lines fs)
           ++ verify_lines "transformations" (lines ft)
           ++ verify_lines "combat" (lines fc) ++ verify_lines "sd" (lines fd);
         warnings := [] |}
  | _, _, _, _, _, _ => {| errors := missing_files a; warnings := [] |}
  end.

End Validation.

(* ===================================================================== *)
(** ** generator.py                                                       *)
(* ===================================================================== *)

Module Generator.
Import WorldModel ThemeEngine Random Validation.

Record GeneratorRequest : Type := {
  world_name : string;
  character_names : list string;
  room_count : Z;
  physics_types : list PhysicsType;
  output_dir : string;
  custom_theme : option WorldTheme;
  sd_host : string;
  sd_port : Z;
  sd_scene_suffix : string;
  sd_negative_prompt : string;
  custom_room_names : list string;
  base_damage_override : option Z
}.

Record GeneratorResult : Type := {
  success : bool;
  world : option WorldConfig.t;
  written_files : PyDict.t string;
  validation_errors : list Msg;
  validation_warnings : list Msg;
  roundtrip_errors : list Msg;
  summary : string;
  theme_used : option WorldTheme
}.

(** [a or b] on strings *)
Definition str_or (a b : string) : string := if PyStr.truthy a then a else b.

(** [WorldConfig.summary] *)
Definition world_summary (w : WorldConfig.t) : string :=
  "Rooms:" +:+ PyStr.of_nat (length (WorldConfig.rooms w))
  +:+ "  Objects:" +:+ PyStr.of_nat (length (WorldConfig.objects w))
  +:+ "  Sprites:" +:+ PyStr.of_nat (length (WorldConfig.sprites w))
  +:+ "  Transforms:" +:+ PyStr.of_nat (length (WorldConfig.transformations w)).

(** [str([p.value for p in ps])]: the values hold no quote or escape. *)
Definition physics_repr (ps : list PhysicsType) : string :=
  "[" +:+ PyStr.join ", " ((fun p => "'" +:+ PhysicsType_value p +:+ "'") <$> ps) +:+ "]".

(** The rows of [starters]:
    (oid, name, is_weapon, is_consumable, is_container, damage,
     health_restore, verbs). *)
Definition starters (theme : ThemeDefaults)
    : list (string * string * bool * bool * bool * Z * Z * list string) :=
  [("starter_weapon",
    match suggested_object_types theme with
    | first :: _ => first
    | [] => "weapon"
    end,
    true, false, false, base_damage theme, 0%Z, []);
   ("starter_health", "health item", false, true, false, 0%Z, 35%Z,
    ["take"; "drop"; "examine"; "use"]);
   ("starter_key", "access key", false, false, false, 0%Z, 0%Z,
    ["take"; "drop"; "examine"; "use"]);
   ("starter_document", "important document", false, false, false, 0%Z, 0%Z,
    ["take"; "drop"; "examine"; "read"])].

Definition starter_object (theme : ThemeDefaults) (room_ids : list string) (i : nat)
    (row : string * string * bool * bool * bool * Z * Z * list string) : GameObject.t :=
  let '(oid, name, is_weapon, is_consumable, is_container, damage, health_restore, verbs) :=
    row in
  let location := default "" (room_ids !! (i mod length room_ids)) in
  let obj_verbs :=
    match verbs with
    | [] => ["take"; "drop"; "examine"; "use"]
    | _ => verbs
    end in
  let obj_verbs :=
    if is_weapon then ["take"; "drop"; "examine"; "use"; "attack"] else obj_verbs in
  GameObject.mk oid name
    ("A " +:+ name +:+ " found in this " +:+ flavor_adjective theme +:+ " world. "
     +:+ "It has a purpose here. Examine it carefully.")
    location true is_weapon damage is_consumable health_restore is_container
    false "" obj_verbs [].

Definition _build_starter_objects (theme : ThemeDefaults) (world : WorldConfig.t)
    : PyDict.t GameObject.t :=
  let room_ids := PyDict.keys (WorldConfig.rooms world) in
  match room_ids with
  | [] => []
  | _ =>
      fold_left
        (fun objects ir =>
           let o := starter_object theme room_ids (fst ir) (snd ir) in
           PyDict.set objects (GameObject.object_id o) o)
        (zip (seq 0 (length (starters theme))) (starters theme)) []
  end.

(** One round of the stage 5 loop. *)
Definition apply_physics (theme_defaults : ThemeDefaults) (world : WorldConfig.t)
    (physics_type : PhysicsType) : M WorldConfig.t :=
  '(package, world) ← Physics.get_package physics_type world theme_defaults;
  mret (Physics.PhysicsPackage.inject package world).

(** Stage 1 *)
Definition theme_defaults_of (req : GeneratorRequest) : ThemeDefaults :=
  match custom_theme req with
  | Some t => get_defaults_for_theme t
  | None => get_defaults (world_name req)
  end.

(** Stages 2 to 8: the world handed to the validator. *)
Definition build_world (req : GeneratorRequest) : M WorldConfig.t :=
  let theme_defaults := theme_defaults_of req in
  let world := WorldConfig.make (world_name req) (theme theme_defaults) in
  rooms ← RoomGraph.generate (room_count req) theme_defaults (world_name req)
            (match custom_room_names req with
             | [] => None
             | names => Some names
             end);
  let world := WorldConfig.with_rooms world rooms in
  let world := WorldConfig.with_objects world (_build_starter_objects theme_defaults world) in
  let physics_to_apply :=
    match physics_types req with
    | [] => default_physics theme_defaults
    | ps => ps
    end in
  world ← for_each (apply_physics theme_defaults) world physics_to_apply;
  world ← match character_names req with
          | [] => mret world
          | names =>
              sprites ← SpriteFactory.generate_sprites names theme_defaults world;
              mret (WorldConfig.with_sprites world sprites)
          end;
  let world :=
    WorldConfig.with_combat world
      (CombatConfig.make
         (match base_damage_override req with
          | Some b => if (b =? 0)%Z then base_damage theme_defaults else b
          | None => base_damage theme_defaults
          end)
         (default "" (WorldConfig.start_room world))) in
  let world :=
    WorldConfig.with_sd_config world
      (SDConfig.make (sd_host req) (sd_port req)
         (str_or (sd_scene_suffix req) (ThemeEngine.sd_scene_suffix theme_defaults))
         (str_or (sd_negative_prompt req)
                 (ThemeEngine.sd_negative_prompt theme_defaults))) in
  mret world.

(** The calls that reach the file system. *)
Inductive Call : Type :=
| CallWriteAll (w : WorldConfig.t) (dir : string)
| CallVerify (dir : string).

Section pipeline.
(** The state of the file system. *)
Variable FS : Type.

(** [INIWriter.write_all(world, output_dir)], of ini_writer.py, which is
    not among the sources: the map of written paths or an exception,
    and the file system it leaves. *)
Variable write_all : WorldConfig.t -> string -> FS -> (exn + PyDict.t string) * FS.

(** The six files of [output_dir] as [RoundTripVerifier.verify] reads
    them, or the exception [configparser] raises on a malformed file. *)
Variable load : string -> FS -> exn + Artifacts.

(** The file system and the record of the calls made on it. *)
Record Env : Type := {
  fs : FS;
  calls : list Call
}.

(** Stages 9 to 11.  An exception of stages 10 and 11 is returned with
    the environment it leaves behind. *)
Definition check_and_write (req : GeneratorRequest) (w : WorldConfig.t) (env : Env)
    : M ((exn + GeneratorResult) * Env) :=
  match validate w with
  | None => diverge
  | Some validation =>
      if negb (is_valid validation) then
        mret (inr {| success := false;
                     world := Some w;
                     written_files := [];
                     validation_errors := errors validation;
                     validation_warnings := warnings validation;
                     roundtrip_errors := [];
                     summary := world_summary w;
                     theme_used := Some (theme (theme_defaults_of req)) |},
              env)
      else
        let env := {| fs := fs env;
                      calls := calls env ++ [CallWriteAll w (output_dir req)] |} in
        match write_all w (output_dir req) (fs env) with
        | (inl e, fs') => mret (inl e, {| fs := fs'; calls := calls env |})
        | (inr written, fs') =>
            let env := {| fs := fs'; calls := calls env ++ [CallVerify (output_dir req)] |} in
            match load (output_dir req) fs' with
            | inl e => mret (inl e, env)
            | inr artifacts =>
                let rt_result := verify artifacts in
                mret (inr {| success := is_valid rt_result;
                             world := Some w;
                             written_files := written;
                             validation_errors := errors validation ++ errors rt_result;
                             validation_warnings :=
                               warnings validation ++ warnings rt_result;
                             roundtrip_errors := errors rt_result;
                             summary := world_summary w +:+ "  |  Physics: "
                                        +:+ physics_repr (WorldConfig.physics_applied w);
                             theme_used := Some (theme (theme_defaults_of req)) |},
                      env)
            end
        end
  end.

Definition _run_pipeline (req : GeneratorRequest) (env : Env)
    : M ((exn + GeneratorResult) * Env) :=
  w ← build_world req;
  check_and_write req w env.

(** The result of the [except Exception as e:] branch. *)
Definition pipeline_failure (e : exn) : GeneratorResult :=
  {| success := false;
     world := None;
     written_files := [];
     validation_errors := [PipelineError e];
     validation_warnings := [];
     roundtrip_errors := [];
     summary := "Generation failed with unexpected error.";
     theme_used := None |}.

Definition generate (req : GeneratorRequest) (env : Env) : M (GeneratorResult * Env) :=
  catch
    (r ← _run_pipeline req env;
     match r with
     | (inr res, env') => mret (res, env')
     | (inl e, env') => mret (pipeline_failure e, env')
     end)
    (fun e => mret (pipeline_failure e, env)).
End pipeline.

End Generator.

(* ===================================================================== *)
(** ** create_world.py: the matrix validation step of [main]              *)
(* ===================================================================== *)

Module Repair.
Import Random Validation.

Definition DIRECTIONS : list string :=
  ["north"; "south"; "east"; "west"; "up"; "down";
   "northeast"; "northwest"; "southeast"; "southwest"; "enter"; "exit"].

(** The body of the loop over [DIRECTIONS], on [(rooms_cfg, repaired)]. *)
Definition repair_exit (valid_rooms : list string) (section : string)
    (st : Ini.t * nat) (d : string) : Ini.t * nat :=
  if Ini.has_option (fst st) section d then
    match Ini.get (fst st) section d with
    | Some target =>
        if bool_decide (target ∉ valid_rooms)
        then (Ini.remove_option (fst st) section d, S (snd st))
        else st
    | None => st
    end
  else st.

(** The exits loop: [valid_rooms] and the list of sections are taken
    before the loop starts. *)
Definition repair_rooms (rooms_cfg : Ini.t) : Ini.t * nat :=
  let valid_rooms := Ini.sections rooms_cfg in
  fold_left
    (fun st section => fold_left (repair_exit valid_rooms section) DIRECTIONS st)
    (Ini.sections rooms_cfg) (rooms_cfg, 0).

(** ['entrance' if 'entrance' in valid else list(valid)[0]].  Python fixes
    no order for a set: [pick] selects the element that comes first, and
    [None] stands for the IndexError on an empty set. *)
Definition fallback_room (pick : nat) (valid_rooms : list string) : option string :=
  if bool_decide ("entrance" ∈ valid_rooms) then Some "entrance"
  else match valid_rooms with
       | [] => None
       | _ => valid_rooms !! (pick mod length valid_rooms)
       end.

(** The body of the object loop, on [(obj_cfg, obj_repaired)]. *)
Definition repair_object (pick : nat) (valid_rooms : list string)
    (st : exn + Ini.t * nat) (section : string) : exn + Ini.t * nat :=
  match st with
  | inl e => inl e
  | inr (cfg, n) =>
      if Ini.has_option cfg section "location" then
        match Ini.get cfg section "location" with
        | Some loc =>
            if real_location loc && bool_decide (loc ∉ valid_rooms) then
              match fallback_room pick valid_rooms with
              | Some fallback => inr (Ini.set cfg section "location" fallback, S n)
              | None => inl IndexError
              end
            else st
        | None => st
        end
      else st
  end.

Definition repair_objects (pick : nat) (valid_rooms : list string) (obj_cfg : Ini.t)
    : exn + Ini.t * nat :=
  fold_left (repair_object pick valid_rooms) (Ini.sections obj_cfg) (inr (obj_cfg, 0)).

(** The list [fixed] written for a sprite whose spawn list holds an
    unknown room; [None]: the list is left as it is. *)
Definition fixed_spawns (pick : nat) (valid_rooms : list string) (raw : string)
    : exn + option (list string) :=
  let rooms_list := parse_list raw in
  let valid_spawns := filter (fun r => r ∈ valid_rooms) rooms_list in
  if length valid_spawns <? length rooms_list then
    match fallback_room pick valid_rooms with
    | Some fallback =>
        inr (Some (match valid_spawns with
                   | [] => [fallback]
                   | _ => valid_spawns
                   end))
    | None => inl IndexError
    end
  else inr None.

(** The body of the sprite loop, on [(spr_cfg, spr_repaired)]. *)
Definition repair_sprite (pick : nat) (valid_rooms : list string)
    (st : exn + Ini.t * nat) (section : string) : exn + Ini.t * nat :=
  match st with
  | inl e => inl e
  | inr (cfg, n) =>
      if Ini.has_option cfg section "spawn_rooms" then
        match Ini.get cfg section "spawn_rooms" with
        | Some raw =>
            match fixed_spawns pick valid_rooms raw with
            | inl e => inl e
            | inr (Some fixed) =>
                inr (Ini.set cfg section "spawn_rooms" (PyStr.join ", " fixed), S n)
            | inr None => st
            end
        | None => st
        end
      else st
  end.

Definition repair_sprites (pick : nat) (valid_rooms : list string) (spr_cfg : Ini.t)
    : exn + Ini.t * nat :=
  fold_left (repair_sprite pick valid_rooms) (Ini.sections spr_cfg) (inr (spr_cfg, 0)).

(** [cfg.read(path)]: a file that does not exist is skipped. *)
Definition read (f : option File) : Ini.t :=
  match f with
  | Some file => parsed file
  | None => Ini.empty
  end.

(** The file a repaired configuration is written to: two comment lines,
    an empty line and the configuration.  The verifier that runs next
    reads the configuration back. *)
Definition rewritten (title world_name : string) (repaired : nat) (what : string)
    (cfg : Ini.t) : File :=
  {| parsed := cfg;
     lines := ["# " +:+ title +:+ " - " +:+ world_name;
               "# Auto-repaired by Matrix Validator: " +:+ PyStr.of_nat repaired
               +:+ " " +:+ what;
               ""]
              ++ Ini.render cfg |}.

Definition with_rooms_ini (a : Artifacts) (f : File) : Artifacts :=
  {| rooms_ini := Some f; objects_ini := objects_ini a; sprites_ini := sprites_ini a;
     transformations_ini := transformations_ini a; combat_ini := combat_ini a;
     sd_ini := sd_ini a |}.
Definition with_objects_ini (a : Artifacts) (f : File) : Artifacts :=
  {| rooms_ini := rooms_ini a; objects_ini := Some f; sprites_ini := sprites_ini a;
     transformations_ini := transformations_ini a; combat_ini := combat_ini a;
     sd_ini := sd_ini a |}.
Definition with_sprites_ini (a : Artifacts) (f : File) : Artifacts :=
  {| rooms_ini := rooms_ini a; objects_ini := objects_ini a; sprites_ini := Some f;
     transformations_ini := transformations_ini a; combat_ini := combat_ini a;
     sd_ini := sd_ini a |}.

(** The [else:] branch of step 5 up to the re-check: the files after the
    repair, and the exception that ended it early, if any. *)
Definition auto_repair (world_name : string) (pick : nat) (a : Artifacts)
    : Artifacts * option exn :=
  let '(rooms_cfg, repaired) := repair_rooms (read (rooms_ini a)) in
  let a := if 0 <? repaired
           then with_rooms_ini a (rewritten "Room Definitions" world_name repaired
                                            "broken exits removed" rooms_cfg)
           else a in
  let valid_rooms_objs := Ini.sections rooms_cfg in
  match repair_objects pick valid_rooms_objs (read (objects_ini a)) with
  | inl e => (a, Some e)
  | inr (obj_cfg, obj_repaired) =>
      let a := if 0 <? obj_repaired
               then with_objects_ini a (rewritten "Object Definitions" world_name
                                                  obj_repaired "locations fixed" obj_cfg)
               else a in
      match repair_sprites pick valid_rooms_objs (read (sprites_ini a)) with
      | inl e => (a, Some e)
      | inr (spr_cfg, spr_repaired) =>
          let a := if 0 <? spr_repaired
                   then with_sprites_ini a (rewritten "Sprite Definitions" world_name
                                                      spr_repaired "spawn rooms fixed"
                                                      spr_cfg)
                   else a in
          (a, None)
      end
  end.


End Repair.

(* ===================================================================== *)
(** * Part II: properties                                                 *)
(* ===================================================================== *)

(* --------------------------------------------------------------------- *)
(** ** Facts about the random monad and the breadth-first search *)
(* --------------------------------------------------------------------- *)

Module RandomFacts.
Import Random.

(** [post m P]: whatever the tape, [m] returns a value, and the value
    satisfies [P]. *)
Definition post {A} (m : M A) (P : A -> Prop) : Prop :=
  forall g, exists a, fst (m g) = Ok a /\ P a.

Lemma post_ret {A} (a : A) (P : A -> Prop) : P a -> post (mret a) P.
Proof. intros H g. exists a. split; [reflexivity|exact H]. Qed.

Lemma post_bind {A B} (m : M A) (k : A -> M B) (P : A -> Prop) (Q : B -> Prop) :
  post m P -> (forall a, P a -> post (k a) Q) -> post (m ≫= k) Q.
Proof.
  intros Hm Hk g. unfold mbind, M_bind, bind.
  destruct (Hm g) as (a & Ha & HP). destruct (m g) as [r g']. simpl in Ha. subst r.
  apply Hk, HP.
Qed.

Lemma post_mono {A} (m : M A) (P Q : A -> Prop) :
  post m P -> (forall a, P a -> Q a) -> post m Q.
Proof. intros H HPQ g. destruct (H g) as (a & Ha & HP). eauto. Qed.

Lemma post_and {A} (m : M A) (P Q : A -> Prop) :
  post m P -> post m Q -> post m (fun a => P a /\ Q a).
Proof.
  intros HP HQ g. destruct (HP g) as (a & Ha & Hp). destruct (HQ g) as (b & Hb & Hq).
  exists a. rewrite Ha in Hb. injection Hb as <-. auto.
Qed.

(** Reading a postcondition off one run. *)
Lemma post_run {A} (m : M A) (P : A -> Prop) g r :
  post m P -> fst (m g) = r -> exists a, r = Ok a /\ P a.
Proof. intros H <-. apply H. Qed.

Lemma randbelow_lt n : 0 < n -> post (randbelow n) (fun k => k < n).
Proof.
  intros Hn [|x g]; simpl; eexists; (split; [reflexivity|]); [lia|].
  apply Nat.mod_upper_bound. lia.
Qed.

Lemma randbelow_ok n : post (randbelow n) (fun _ => True).
Proof. intros [|x g]; simpl; eauto.
Qed.

Lemma index_ok {A} (l : list A) i :
  i < length l -> post (index l i) (fun a => l !! i = Some a).
Proof.
  intros Hi. unfold index. destruct (lookup_lt_is_Some_2 l i Hi) as [a Ha].
  rewrite Ha. now apply post_ret.
Qed.

Lemma choice_ok {A} (l : list A) :
  l ≠ [] -> post (choice l) (fun a => a ∈ l).
Proof.
  intros Hne. unfold choice. destruct l as [|x l]; [contradiction|].
  eapply post_bind; [apply randbelow_lt; simpl; lia|]. intros k Hk.
  eapply post_mono; [apply index_ok, Hk|]. intros a Ha.
  eapply list_elem_of_lookup_2, Ha.
Qed.

(** The index map of a swap. *)
Definition transp (i j k : nat) : nat :=
  if decide (k = i) then j else if decide (k = j) then i else k.

Lemma transp_invol i j k : transp i j (transp i j k) = k.
Proof. unfold transp. repeat case_decide; congruence. Qed.

Lemma swap_lookup {A} (x : list A) i j k :
  i < length x -> j < length x -> swap x i j !! k = x !! transp i j k.
Proof.
  intros Hi Hj. unfold swap.
  destruct (lookup_lt_is_Some_2 x i Hi) as [a Ha].
  destruct (lookup_lt_is_Some_2 x j Hj) as [b Hb].
  rewrite Ha, Hb. unfold transp.
  destruct (decide (k = j)) as [->|Hkj].
  - rewrite list_lookup_insert_eq by (rewrite length_insert; lia).
    case_decide; congruence.
  - rewrite list_lookup_insert_ne by congruence.
    destruct (decide (k = i)) as [->|Hki].
    + rewrite list_lookup_insert_eq by lia. congruence.
    + rewrite list_lookup_insert_ne by congruence. reflexivity.
Qed.

Lemma swap_length {A} (x : list A) i j : length (swap x i j) = length x.
Proof.
  unfold swap. destruct (x !! i), (x !! j); try reflexivity.
  now rewrite !length_insert.
Qed.

Lemma swap_elem_of {A} (x : list A) i j a : a ∈ swap x i j <-> a ∈ x.
Proof.
  destruct (decide (i < length x)) as [Hi|Hi].
  2:{ unfold swap. rewrite (lookup_ge_None_2 x i) by lia. reflexivity. }
  destruct (decide (j < length x)) as [Hj|Hj].
  2:{ unfold swap. rewrite (lookup_ge_None_2 x j) by lia.
      destruct (x !! i); reflexivity. }
  rewrite !list_elem_of_lookup. split; intros [k Hk].
  - exists (transp i j k). now rewrite <- swap_lookup.
  - exists (transp i j k). rewrite swap_lookup, transp_invol by assumption. exact Hk.
Qed.

Lemma shuffle_from_spec {A} (i : nat) (x : list A) :
  post (shuffle_from i x)
       (fun y => length y = length x /\ forall a, a ∈ y <-> a ∈ x).
Proof.
  revert x. induction i as [|i IH]; intros x; simpl.
  - apply post_ret. tauto.
  - eapply post_bind; [apply randbelow_ok|]. intros j _.
    eapply post_mono; [apply IH|]. intros y [Hl Hy]. split.
    + now rewrite Hl, swap_length.
    + intros a. now rewrite Hy, swap_elem_of.
Qed.

Lemma shuffle_spec {A} (x : list A) :
  post (shuffle x) (fun y => length y = length x /\ forall a, a ∈ y <-> a ∈ x).
Proof. apply shuffle_from_spec. Qed.

(** An invariant rule for [for_each] over a range of indices. *)
Lemma post_for_each_seq {S} (step : S -> nat -> M S) (Inv : nat -> S -> Prop) :
  forall len a st,
    (forall i s, a <= i < a + len -> Inv i s -> post (step s i) (Inv (Datatypes.S i))) ->
    Inv a st ->
    post (for_each step st (seq a len)) (Inv (a + len)).
Proof.
  induction len as [|len IH]; intros a st Hstep H0; simpl.
  - apply post_ret. now rewrite Nat.add_0_r.
  - eapply post_bind; [apply Hstep; [lia|exact H0]|].
    intros s' Hs'. replace (a + Datatypes.S len) with (Datatypes.S a + len) by lia.
    apply IH; [|exact Hs']. intros i s Hi. apply Hstep. lia.
Qed.

(** An invariant rule for [for_each] over any list. *)
Lemma post_for_each {S A} (step : S -> A -> M S) (Inv : S -> Prop) (l : list A) :
  forall st,
    (forall x s, x ∈ l -> Inv s -> post (step s x) Inv) ->
    Inv st -> post (for_each step st l) Inv.
Proof.
  induction l as [|x l IH]; intros st Hstep H0; simpl.
  - now apply post_ret.
  - eapply post_bind; [apply Hstep; [left|exact H0]|].
    intros s' Hs'. apply IH; [|exact Hs']. intros y s Hy. apply Hstep. now right.
Qed.
End RandomFacts.

Module BfsFacts.
Section facts.
Context {K : Type} `{EqDecision K}.
Variable nbrs : K -> list K.

(** The neighbour entries of the nodes of [l] not yet visited. *)
Definition pending (reachable l : list K) : nat :=
  sum_list ((fun x => if bool_decide (x ∈ reachable) then 0
                      else length (nbrs x)) <$> l).

Lemma pending_cons reachable x l :
  pending reachable (x :: l)
  = (if bool_decide (x ∈ reachable) then 0 else length (nbrs x))
    + pending reachable l.
Proof. reflexivity. Qed.

Lemma pending_nil_reachable l :
  pending [] l = sum_list ((fun x => length (nbrs x)) <$> l).
Proof.
  induction l as [|x l IH]; [reflexivity|].
  rewrite pending_cons, IH, fmap_cons. cbn [sum_list].
  rewrite bool_decide_eq_false_2; [reflexivity|]. inversion 1.
Qed.

Lemma visited_after_iff (reachable : list K) c x :
  x ≠ c -> (x ∈ reachable ++ [c] <-> x ∈ reachable).
Proof.
  intros Hne. rewrite elem_of_app, list_elem_of_singleton. tauto.
Qed.

Lemma pending_visit_absent reachable c l :
  c ∉ l -> pending (reachable ++ [c]) l = pending reachable l.
Proof.
  induction l as [|x l IH]; intros Hc; [reflexivity|].
  rewrite not_elem_of_cons in Hc. destruct Hc as [Hcx Hcl].
  rewrite !pending_cons, IH by assumption. f_equal.
  rewrite (bool_decide_ext (x ∈ reachable ++ [c]) (x ∈ reachable));
    [reflexivity|]. apply visited_after_iff. congruence.
Qed.

(** Visiting a node of the universe takes its entries out of the count. *)
Lemma pending_visit reachable c l :
  NoDup l -> c ∈ l -> c ∉ reachable ->
  pending (reachable ++ [c]) l + length (nbrs c) = pending reachable l.
Proof.
  induction l as [|x l IH]; intros Hnd Hc Hr; [inversion Hc|].
  apply NoDup_cons in Hnd as [Hx Hnd]. rewrite !pending_cons.
  apply elem_of_cons in Hc as [->|Hc].
  - rewrite pending_visit_absent by assumption.
    rewrite bool_decide_eq_true_2
      by (rewrite elem_of_app, list_elem_of_singleton; now right).
    rewrite bool_decide_eq_false_2 by assumption. lia.
  - specialize (IH Hnd Hc Hr).
    assert (Hne : x ≠ c) by (intros ->; contradiction).
    rewrite (bool_decide_ext (x ∈ reachable ++ [c]) (x ∈ reachable))
      by (now apply visited_after_iff).
    lia.
Qed.

Variable universe : list K.
Hypothesis universe_nodup : NoDup universe.
Hypothesis universe_closed :
  forall x, x ∈ universe -> forall y, y ∈ nbrs x -> y ∈ universe.

Lemma run_within_fuel :
  forall fuel queue reachable,
    (forall x, x ∈ queue -> x ∈ universe) ->
    (forall x, x ∈ reachable -> x ∈ universe) ->
    length queue + pending reachable universe <= fuel ->
    exists r, Bfs.run nbrs fuel queue reachable = Some r /\
              forall x, x ∈ r -> x ∈ universe.
Proof.
  induction fuel as [|fuel IH]; intros queue reachable Hq Hr Hfuel.
  - destruct queue as [|c q]; simpl in *; [|lia]. exists reachable. auto.
  - destruct queue as [|c q]; simpl in *; [exists reachable; auto|].
    assert (Hc : c ∈ universe) by (apply Hq; left).
    case_bool_decide as Hin.
    + apply IH; [intros x Hx; apply Hq; now right|assumption|lia].
    + pose proof (pending_visit reachable c universe universe_nodup Hc Hin) as Hp.
      apply IH.
      * intros x. rewrite elem_of_app. intros [Hx|Hx]; [apply Hq; now right|].
        apply list_elem_of_filter in Hx as [_ Hx].
        eapply universe_closed; eassumption.
      * intros x. rewrite elem_of_app, list_elem_of_singleton.
        intros [Hx| ->]; [now apply Hr|assumption].
      * rewrite length_app.
        pose proof (length_filter (fun x => x ∉ reachable ++ [c]) (nbrs c)). lia.
Qed.

(** The search from a node of the universe ends within [fuel_for]. *)
Lemma run_total start :
  start ∈ universe ->
  exists r, Bfs.run nbrs (Bfs.fuel_for nbrs universe) [start] [] = Some r /\
            forall x, x ∈ r -> x ∈ universe.
Proof.
  intros Hs. apply run_within_fuel.
  - intros x Hx. apply list_elem_of_singleton in Hx. now subst.
  - intros x Hx. inversion Hx.
  - unfold Bfs.fuel_for. rewrite pending_nil_reachable. simpl. lia.
Qed.
End facts.
End BfsFacts.

(* --------------------------------------------------------------------- *)
(** ** room_graph.py: the adjacency structure *)
(* --------------------------------------------------------------------- *)

Module RoomGraphFacts.
Import WorldModel ThemeEngine Random RandomFacts RoomGraph.

(** *** The graph invariant *)

(** One exit step in the adjacency. *)
Definition adj_step (adjacency : Adj) (a b : nat) : Prop :=
  b ∈ (nbr <$> (adjacency !!! a)).

(** Reachability by following adjacency entries. *)
Definition adj_reach (adjacency : Adj) : nat -> nat -> Prop := rtc (adj_step adjacency).

Definition firsts : list string := fst <$> DIRECTION_PAIRS.
Definition seconds : list string := snd <$> DIRECTION_PAIRS.

(** The direction paired with [d] on its axis. *)
Definition opposite (d : string) : string :=
  if String.eqb d "north" then "south"
  else if String.eqb d "south" then "north"
  else if String.eqb d "east" then "west"
  else if String.eqb d "west" then "east"
  else if String.eqb d "up" then "down"
  else if String.eqb d "down" then "up"
  else d.

Record well_formed (n : nat) (adjacency : Adj) : Prop := {
  wf_bound : forall i e, e ∈ adjacency !!! i -> i < n /\ nbr e < n;
  wf_sym : forall i e, e ∈ adjacency !!! i ->
             Edge i (dir_back e) (dir_out e) ∈ adjacency !!! (nbr e);
  wf_pair : forall i e, e ∈ adjacency !!! i ->
             (dir_out e, dir_back e) ∈ DIRECTION_PAIRS \/
             (dir_back e, dir_out e) ∈ DIRECTION_PAIRS;
  wf_nodup : forall i, NoDup (used_from adjacency i)
}.

Lemma init_adjacency_lookup n k : init_adjacency n !!! k = [].
Proof.
  unfold init_adjacency.
  assert (H : forall l (m : Adj), m !!! k = [] ->
              fold_left (fun m i => <[i := []]> m) l m !!! k = []).
  { induction l as [|x l IH]; intros m Hm; simpl; [exact Hm|].
    apply IH. rewrite lookup_total_insert. case_decide; [reflexivity|exact Hm]. }
  apply H. rewrite lookup_total_empty. reflexivity.
Qed.

Lemma well_formed_init n : well_formed n (init_adjacency n).
Proof.
  split; intros i; try intros e He; try (rewrite init_adjacency_lookup in He; inversion He).
  unfold used_from. rewrite init_adjacency_lookup. constructor.
Qed.

Lemma append_edge_lookup adjacency a e k :
  append_edge adjacency a e !!! k =
  adjacency !!! k ++ (if decide (a = k) then [e] else []).
Proof.
  unfold append_edge. rewrite lookup_total_insert.
  case_decide; subst; [reflexivity|now rewrite app_nil_r].
Qed.

Lemma connect_lookup adjacency a b d r k :
  connect adjacency a b d r !!! k =
  adjacency !!! k ++ (if decide (a = k) then [Edge b d r] else [])
                  ++ (if decide (b = k) then [Edge a r d] else []).
Proof.
  unfold connect. rewrite !append_edge_lookup. now rewrite <- app_assoc.
Qed.

Lemma elem_of_connect adjacency a b d r k e :
  e ∈ connect adjacency a b d r !!! k <->
  e ∈ adjacency !!! k \/ (k = a /\ e = Edge b d r) \/ (k = b /\ e = Edge a r d).
Proof.
  rewrite connect_lookup, !elem_of_app.
  repeat case_decide; subst; rewrite ?list_elem_of_singleton, ?elem_of_nil;
  intuition congruence.
Qed.

Lemma used_from_connect adjacency a b d r k :
  used_from (connect adjacency a b d r) k =
  used_from adjacency k ++ (if decide (a = k) then [d] else [])
                        ++ (if decide (b = k) then [r] else []).
Proof.
  unfold used_from. rewrite connect_lookup, !fmap_app.
  repeat case_decide; reflexivity.
Qed.

Lemma pair_distinct d r : (d, r) ∈ DIRECTION_PAIRS -> d ≠ r.
Proof.
  unfold DIRECTION_PAIRS. rewrite !elem_of_cons, elem_of_nil.
  intros [H|[H|[H|[]]]]; injection H as -> ->; discriminate.
Qed.

Lemma pair_first_second d r :
  (d, r) ∈ DIRECTION_PAIRS -> d ∈ firsts /\ r ∈ seconds.
Proof.
  intros H. split.
  - apply (list_elem_of_fmap_2 fst) in H. exact H.
  - apply (list_elem_of_fmap_2 snd) in H. exact H.
Qed.

Lemma firsts_seconds_disjoint d : d ∈ firsts -> d ∈ seconds -> False.
Proof.
  unfold firsts, seconds, DIRECTION_PAIRS. simpl.
  rewrite !elem_of_cons, !elem_of_nil.
  intros [->|[->|[->|[]]]] [H|[H|[H|[]]]]; discriminate.
Qed.

(** Adding a mutual pair of entries over free directions keeps the invariant. *)
Lemma well_formed_connect n adjacency a b d r :
  well_formed n adjacency ->
  a < n -> b < n ->
  (d, r) ∈ DIRECTION_PAIRS ->
  d ∉ used_from adjacency a ->
  r ∉ used_from adjacency b ->
  well_formed n (connect adjacency a b d r).
Proof.
  intros [Hb Hs Hp Hn] Ha Hlt Hpair Hd Hr.
  pose proof (pair_distinct _ _ Hpair) as Hne.
  split.
  - intros i e. rewrite elem_of_connect.
    intros [He|[[-> ->]|[-> ->]]]; simpl; eauto.
  - intros i e. rewrite elem_of_connect.
    intros [He|[[-> ->]|[-> ->]]]; simpl; rewrite elem_of_connect; eauto.
  - intros i e. rewrite elem_of_connect.
    intros [He|[[-> ->]|[-> ->]]]; simpl; eauto.
  - intros i. rewrite used_from_connect. specialize (Hn i).
    destruct (decide (a = i)) as [->|Hai], (decide (b = i)) as [->|Hbi];
      rewrite ?app_nil_r; try exact Hn.
    + simpl. apply NoDup_app. split; [exact Hn|]. split.
      * intros x Hx. rewrite elem_of_cons, list_elem_of_singleton.
        intros [->| ->]; contradiction.
      * apply NoDup_cons. split; [|apply NoDup_singleton].
        rewrite list_elem_of_singleton. exact Hne.
    + simpl. apply NoDup_app. split; [exact Hn|]. split; [|apply NoDup_singleton].
      intros x Hx. rewrite list_elem_of_singleton. intros ->. contradiction.
    + simpl. apply NoDup_app. split; [exact Hn|]. split; [|apply NoDup_singleton].
      intros x Hx. rewrite list_elem_of_singleton. intros ->. contradiction.
Qed.

Lemma adj_step_connect_mono adjacency a b d r x y :
  adj_step adjacency x y -> adj_step (connect adjacency a b d r) x y.
Proof.
  unfold adj_step. rewrite !list_elem_of_fmap.
  intros (e & -> & He). exists e. split; [reflexivity|].
  apply elem_of_connect. now left.
Qed.

Lemma adj_reach_connect_mono adjacency a b d r x y :
  adj_reach adjacency x y -> adj_reach (connect adjacency a b d r) x y.
Proof.
  intros H. induction H as [|x y z Hxy _ IH]; [constructor|].
  econstructor; [|exact IH]. now apply adj_step_connect_mono.
Qed.

Lemma adj_step_connect_new adjacency a b d r :
  adj_step (connect adjacency a b d r) b a.
Proof.
  unfold adj_step. apply list_elem_of_fmap. exists (Edge a r d). split; [reflexivity|].
  apply elem_of_connect. right. right. split; reflexivity.
Qed.

Lemma adj_reach_connect_new adjacency a b d r x :
  adj_reach adjacency x b -> adj_reach (connect adjacency a b d r) x a.
Proof.
  intros H. eapply rtc_r; [apply adj_reach_connect_mono, H|].
  apply adj_step_connect_new.
Qed.

(** *** Choosing a direction pair *)

Lemma first_free_Some pairs ua ub d r :
  first_free pairs ua ub = Some (d, r) ->
  (d, r) ∈ pairs /\ (d ∉ ua) /\ (r ∉ ub).
Proof.
  induction pairs as [|[da db] rest IH]; simpl; [discriminate|].
  destruct (bool_decide (da ∉ ua)) eqn:Ea; simpl.
  - destruct (bool_decide (db ∉ ub)) eqn:Eb; simpl.
    + intros [= -> ->]. apply bool_decide_eq_true in Ea, Eb.
      split; [left|split; assumption].
    + intros H. apply IH in H as (H1 & H2 & H3). split; [now right|split; assumption].
  - intros H. apply IH in H as (H1 & H2 & H3). split; [now right|split; assumption].
Qed.

Lemma first_free_None pairs ua ub d r :
  first_free pairs ua ub = None -> (d, r) ∈ pairs -> d ∈ ua \/ r ∈ ub.
Proof.
  induction pairs as [|[da db] rest IH]; simpl; intros H Hin.
  - inversion Hin.
  - destruct (bool_decide (da ∉ ua)) eqn:Ea; simpl in H.
    + destruct (bool_decide (db ∉ ub)) eqn:Eb; simpl in H; [discriminate|].
      apply elem_of_cons in Hin as [[= -> ->]|Hin]; [|now apply IH].
      apply bool_decide_eq_false in Eb. right.
      destruct (decide (db ∈ ub)); [assumption|contradiction].
    + apply elem_of_cons in Hin as [[= -> ->]|Hin]; [|now apply IH].
      apply bool_decide_eq_false in Ea. left.
      destruct (decide (da ∈ ua)); [assumption|contradiction].
Qed.

(** What [_get_available_direction] returns: a pair of the table, free on
    both sides; and nothing only when every pair is taken on some side. *)
Definition available_spec (adjacency : Adj) (a b : nat) (dr : option (string * string)) : Prop :=
  match dr with
  | Some (d, r) =>
      (d, r) ∈ DIRECTION_PAIRS /\ (d ∉ used_from adjacency a) /\ (r ∉ used_from adjacency b)
  | None =>
      forall d r, (d, r) ∈ DIRECTION_PAIRS ->
                  d ∈ used_from adjacency a \/ r ∈ used_from adjacency b
  end.

Lemma get_available_direction_spec adjacency a b :
  post (_get_available_direction adjacency a b) (available_spec adjacency a b).
Proof.
  unfold _get_available_direction.
  eapply post_bind; [apply shuffle_spec|]. intros pairs [_ Hmem].
  apply post_ret. unfold available_spec.
  destruct (first_free pairs _ _) as [[d r]|] eqn:E.
  - apply first_free_Some in E as (H1 & H2 & H3). rewrite Hmem in H1. auto.
  - intros d r Hin. eapply first_free_None; [exact E|]. now apply Hmem.
Qed.

(** What [try_attach] returns. *)
Definition attach_spec (adjacency : Adj) (i : nat) (candidates : list nat)
    (res : option Adj) : Prop :=
  match res with
  | Some adjacency' =>
      exists t d r, t ∈ candidates /\ (d, r) ∈ DIRECTION_PAIRS /\
                    (d ∉ used_from adjacency i) /\ (r ∉ used_from adjacency t) /\
                    adjacency' = connect adjacency i t d r
  | None =>
      forall t d r, t ∈ candidates -> (d, r) ∈ DIRECTION_PAIRS ->
                    d ∈ used_from adjacency i \/ r ∈ used_from adjacency t
  end.

Lemma try_attach_spec adjacency i candidates :
  post (try_attach adjacency i candidates) (attach_spec adjacency i candidates).
Proof.
  induction candidates as [|t rest IH]; simpl.
  - apply post_ret. simpl. intros t d r Ht. inversion Ht.
  - eapply post_bind; [apply get_available_direction_spec|].
    intros [[d r]|] Hdr; simpl in Hdr.
    + apply post_ret. simpl. exists t, d, r. destruct Hdr as (H1 & H2 & H3).
      repeat split; try assumption. left.
    + eapply post_mono; [apply IH|]. intros [adj'|]; simpl.
      * intros (t' & d & r & Ht' & H). exists t', d, r. split; [now right|exact H].
      * intros H t' d r Ht' Hin. apply elem_of_cons in Ht' as [->|Ht']; eauto.
Qed.
End RoomGraphFacts.

(* --------------------------------------------------------------------- *)
(** ** room_graph.py: the spanning tree, the bonus edges and the repair pass *)
(* --------------------------------------------------------------------- *)

Module RoomGraphFacts2.
Import WorldModel ThemeEngine Random RandomFacts RoomGraph RoomGraphFacts.

(** *** The spanning tree *)

(** The state before room [i] is attached: rooms below [i] are linked to
    room 0, the others are untouched, and the room attached last has used
    a first component of a pair only, so that it still offers a slot. *)
Definition span_inv (n i : nat) (st : Adj * list nat) : Prop :=
  well_formed n (fst st) /\
  snd st = seq 0 i /\
  (forall k, i <= k -> fst st !!! k = []) /\
  (forall k, k < i -> adj_reach (fst st) 0 k) /\
  (forall d, d ∈ used_from (fst st) (i - 1) -> d ∈ firsts).

Lemma span_inv_init n : span_inv n 1 (init_adjacency n, [0]).
Proof.
  unfold span_inv. simpl. split_and!.
  - apply well_formed_init.
  - reflexivity.
  - intros k _. apply init_adjacency_lookup.
  - intros k Hk. replace k with 0 by lia. constructor.
  - intros d. unfold used_from. rewrite init_adjacency_lookup. inversion 1.
Qed.

Lemma span_inv_attach n i adjacency t d r :
  1 <= i < n ->
  span_inv n i (adjacency, seq 0 i) ->
  t ∈ seq 0 i ->
  (d, r) ∈ DIRECTION_PAIRS ->
  d ∉ used_from adjacency i ->
  r ∉ used_from adjacency t ->
  span_inv n (S i) (connect adjacency i t d r, seq 0 i ++ [i]).
Proof.
  intros Hi (Hwf & _ & Hempty & Hreach & Hlast) Ht Hpair Hd Hr. simpl in *.
  apply elem_of_seq in Ht.
  unfold span_inv. cbn [fst snd]. split_and!.
  - apply well_formed_connect; try assumption; lia.
  - now rewrite seq_S.
  - intros k Hk. rewrite connect_lookup, Hempty by lia.
    repeat case_decide; try lia. reflexivity.
  - intros k Hk. destruct (decide (k = i)) as [->|Hne].
    + apply adj_reach_connect_new. apply Hreach. lia.
    + apply adj_reach_connect_mono. apply Hreach. lia.
  - intros x. replace (S i - 1) with i by lia.
    rewrite used_from_connect. unfold used_from at 1. rewrite Hempty by lia.
    rewrite decide_True by reflexivity. rewrite decide_False by lia.
    simpl. rewrite list_elem_of_singleton. intros ->.
    now apply pair_first_second in Hpair.
Qed.

(** Under the invariant some candidate has a free slot, so the loop over
    the candidates always breaks. *)
Lemma span_inv_slot n i adjacency candidates :
  1 <= i ->
  span_inv n i (adjacency, seq 0 i) ->
  (forall a, a ∈ candidates <-> a ∈ seq 0 i) ->
  attach_spec adjacency i candidates None -> False.
Proof.
  intros Hi (_ & _ & Hempty & _ & Hlast) Hmem Hnone. simpl in *.
  destruct (Hnone (i - 1) "north" "south") as [H|H].
  - apply Hmem, elem_of_seq. lia.
  - unfold DIRECTION_PAIRS. left.
  - unfold used_from in H. rewrite Hempty in H by lia. inversion H.
  - apply Hlast in H. unfold firsts, DIRECTION_PAIRS in H. simpl in H.
    rewrite !elem_of_cons, elem_of_nil in H.
    destruct H as [H|[H|[H|[]]]]; discriminate.
Qed.

Lemma spanning_step_inv n i st :
  1 <= i < n -> span_inv n i st -> post (spanning_step st i) (span_inv n (S i)).
Proof.
  intros Hi Hinv. destruct st as [adjacency ci].
  assert (Hci : ci = seq 0 i) by apply Hinv. subst ci.
  unfold spanning_step.
  eapply post_bind; [apply shuffle_spec|]. intros candidates [_ Hmem].
  eapply post_bind; [apply try_attach_spec|]. intros [adjacency'|] Hres.
  - destruct Hres as (t & d & r & Ht & Hpair & Hd & Hr & ->).
    eapply (post_bind _ _ (fun a => a = connect adjacency i t d r));
      [apply post_ret; reflexivity|]. intros a ->.
    apply post_ret. apply span_inv_attach; try assumption. now apply Hmem.
  - exfalso.
    apply (span_inv_slot n i adjacency candidates); [lia|exact Hinv|exact Hmem|exact Hres].
Qed.

(** The graph the later stages work on: the invariant, with every room
    linked to room 0. *)
Definition graph_ok (n : nat) (adjacency : Adj) : Prop :=
  well_formed n adjacency /\ forall k, k < n -> adj_reach adjacency 0 k.

Lemma spanning_tree_ok n :
  1 <= n ->
  post (for_each spanning_step (init_adjacency n, [0]) (seq 1 (n - 1)))
       (fun st => graph_ok n (fst st)).
Proof.
  intros Hn.
  eapply post_mono.
  - apply (post_for_each_seq spanning_step (span_inv n) (n - 1) 1).
    + intros i s Hi. apply spanning_step_inv. lia.
    + apply span_inv_init.
  - intros st (Hwf & _ & _ & Hreach & _). replace (1 + (n - 1)) with n in Hreach by lia.
    split; assumption.
Qed.

Lemma graph_ok_connect n adjacency a b d r :
  graph_ok n adjacency ->
  a < n -> b < n ->
  (d, r) ∈ DIRECTION_PAIRS ->
  d ∉ used_from adjacency a ->
  r ∉ used_from adjacency b ->
  graph_ok n (connect adjacency a b d r).
Proof.
  intros [Hwf Hreach] Ha Hb Hp Hd Hr. split.
  - now apply well_formed_connect.
  - intros k Hk. apply adj_reach_connect_mono, Hreach, Hk.
Qed.

(** *** The bonus connections *)

Lemma bonus_loop_ok n budget :
  forall bonus_count added adjacency,
    0 < n -> graph_ok n adjacency ->
    post (bonus_loop budget bonus_count added n adjacency) (graph_ok n).
Proof.
  induction budget as [|budget IH]; intros bc added adjacency Hn Hok; simpl.
  - now apply post_ret.
  - destruct (added <? bc); [|now apply post_ret].
    eapply post_bind; [apply randbelow_lt, Hn|]. intros i Hi.
    eapply post_bind; [apply randbelow_lt, Hn|]. intros j Hj.
    destruct (i =? j); [now apply IH|].
    destruct (bool_decide _); [now apply IH|].
    eapply post_bind; [apply get_available_direction_spec|].
    intros [[d r]|] Hdr; simpl in Hdr; [|now apply IH].
    destruct Hdr as (Hp & Hd & Hr). apply IH; [exact Hn|].
    now apply graph_ok_connect.
Qed.

(** *** The connectivity check ends within its fuel *)

Lemma bfs_total n adjacency :
  1 <= n -> well_formed n adjacency ->
  exists r, Bfs.run (neighbours adjacency)
              (Bfs.fuel_for (neighbours adjacency) (seq 0 n)) [0] [] = Some r /\
            forall x, x ∈ r -> x < n.
Proof.
  intros Hn Hwf.
  destruct (BfsFacts.run_total (neighbours adjacency) (seq 0 n) (NoDup_seq 0 n))
    with (start := 0) as (r & Hr & Hin).
  - intros x _ y Hy. apply list_elem_of_fmap in Hy as (e & -> & He).
    apply (wf_bound _ _ Hwf) in He. apply elem_of_seq. lia.
  - apply elem_of_seq. lia.
  - exists r. split; [exact Hr|]. intros x Hx. apply Hin, elem_of_seq in Hx. lia.
Qed.

(** *** The force-connect safety net *)

Definition force_inv (n : nat) (st : Adj * list nat) : Prop :=
  graph_ok n (fst st) /\ forall x, x ∈ snd st -> x < n.

Lemma force_connect_step_inv n st idx :
  idx < n -> force_inv n st -> post (force_connect_step st idx) (force_inv n).
Proof.
  intros Hidx [Hok Hr]. destruct st as [adjacency reachable]. simpl in *.
  unfold force_connect_step.
  eapply post_bind; [apply shuffle_spec|]. intros rl [_ Hmem].
  eapply post_bind; [apply try_attach_spec|]. intros [adjacency'|] Hres.
  - destruct Hres as (t & d & r & Ht & Hpair & Hd & Hr' & ->).
    apply post_ret. split; simpl.
    + apply graph_ok_connect; try assumption. apply Hr, Hmem, Ht.
    + intros x. rewrite elem_of_app, list_elem_of_singleton.
      intros [Hx| ->]; [now apply Hr|assumption].
  - apply post_ret. split; assumption.
Qed.

(** *** Steps 3 to 5 together *)

Theorem build_adjacency_ok n :
  1 <= n ->
  post (build_adjacency n)
       (graph_ok n).
Proof.
  intros Hn. unfold build_adjacency.
  eapply post_bind; [apply spanning_tree_ok, Hn|]. intros [adjacency ci] Hok.
  simpl in Hok.
  eapply post_bind; [apply bonus_loop_ok; [lia|exact Hok]|].
  intros adjacency' Hok'.
  destruct (bfs_total n adjacency' Hn (proj1 Hok')) as (reachable & -> & Hr).
  eapply post_bind.
  - apply (post_for_each force_connect_step (force_inv n)).
    + intros idx s Hidx. apply force_connect_step_inv.
      apply list_elem_of_filter in Hidx as [_ Hidx].
      apply elem_of_seq in Hidx. lia.
    + split; assumption.
  - intros [adjacency'' reachable'] [Hok'' _]. apply post_ret. exact Hok''.
Qed.
End RoomGraphFacts2.

(* --------------------------------------------------------------------- *)
(** ** room_graph.py: from the adjacency to the room records *)
(* --------------------------------------------------------------------- *)

Module PyDictFacts.
Import PyDict.

Lemma eqb_decide (a b : string) : String.eqb a b = bool_decide (a = b).
Proof.
  destruct (String.eqb_spec a b) as [->|Hne].
  - now rewrite bool_decide_eq_true_2.
  - now rewrite bool_decide_eq_false_2.
Qed.

Lemma get_set {V} (d : t V) k v q :
  get (set d k v) q = if decide (k = q) then Some v else get d q.
Proof.
  induction d as [|[k' v'] d IH]; simpl.
  - rewrite eqb_decide. case_bool_decide; case_decide; congruence.
  - rewrite (eqb_decide k' k). case_bool_decide as Hk; simpl.
    + subst k'. rewrite eqb_decide.
      case_bool_decide; case_decide; congruence.
    + rewrite IH, eqb_decide.
      case_bool_decide; case_decide; congruence.
Qed.

Lemma get_set_eq {V} (d : t V) k v : get (set d k v) k = Some v.
Proof. rewrite get_set. now rewrite decide_True. Qed.

Lemma get_set_ne {V} (d : t V) k v q : k ≠ q -> get (set d k v) q = get d q.
Proof. intros. rewrite get_set. now rewrite decide_False. Qed.

Lemma elem_of_keys {V} (d : t V) k : k ∈ keys d <-> is_Some (get d k).
Proof.
  unfold keys. induction d as [|[k' v'] d IH]; simpl.
  - split; [inversion 1|intros [? [=]]].
  - rewrite elem_of_cons, IH, eqb_decide.
    case_bool_decide; split; intros; eauto; try tauto.
    destruct H0; [congruence|assumption].
Qed.

Lemma get_Some_elem_of {V} (d : t V) k v : get d k = Some v -> (k, v) ∈ d.
Proof.
  induction d as [|[k' v'] d IH]; simpl; [discriminate|].
  rewrite eqb_decide. case_bool_decide.
  - intros [= ->]. subst. left.
  - intros H'. right. auto.
Qed.

Lemma elem_of_get {V} (d : t V) k v : (k, v) ∈ d -> is_Some (get d k).
Proof.
  intros H. apply elem_of_keys. unfold keys.
  apply (list_elem_of_fmap_2 fst) in H. exact H.
Qed.

Lemma keys_set {V} (d : t V) k v :
  keys (set d k v) = if mem d k then keys d else keys d ++ [k].
Proof.
  unfold mem, keys. induction d as [|[k' v'] d IH]; simpl; [reflexivity|].
  rewrite eqb_decide. case_bool_decide; simpl; [reflexivity|].
  rewrite IH. destruct (get d k); reflexivity.
Qed.
End PyDictFacts.

Module RoomGraphFacts3.
Import WorldModel ThemeEngine Random RandomFacts RoomGraph RoomGraphFacts RoomGraphFacts2.
Import PyDictFacts.

(** *** Step 6: from adjacency entries to exits *)

(** [ids[i]] *)
Definition id_at (ids : list string) (i : nat) : string := default "" (ids !! i).

(** The [exits] dictionary of the record built for index [i]. *)
Definition exits_of (ids : list string) (adjacency : Adj) (i : nat) : PyDict.t string :=
  build_exits ids (adjacency !!! i).

Definition exit_step (ids : list string) (exits : PyDict.t string) (e : edge)
    : PyDict.t string :=
  if bool_decide (dir_out e ∈ ALL_DIRECTIONS)
  then PyDict.set exits (dir_out e) (default "" (ids !! nbr e))
  else exits.

Lemma build_exits_fold ids edges :
  build_exits ids edges = fold_left (exit_step ids) edges [].
Proof. reflexivity. Qed.

Lemma exits_fold_keys ids edges : forall acc k,
  k ∈ PyDict.keys (fold_left (exit_step ids) edges acc) ->
  k ∈ PyDict.keys acc \/ k ∈ ALL_DIRECTIONS.
Proof.
  induction edges as [|e edges IH]; intros acc k; simpl; [tauto|].
  intros H. apply IH in H as [H|H]; [|now right].
  unfold exit_step in H. case_bool_decide as Hd; [|now left].
  rewrite keys_set in H. destruct (PyDict.mem acc (dir_out e)); [now left|].
  apply elem_of_app in H as [H|H]; [now left|].
  apply list_elem_of_singleton in H as ->. now right.
Qed.

Lemma exits_fold_get ids edges : forall acc d v,
  PyDict.get (fold_left (exit_step ids) edges acc) d = Some v ->
  PyDict.get acc d = Some v \/
  exists e, e ∈ edges /\ dir_out e = d /\ v = id_at ids (nbr e) /\ d ∈ ALL_DIRECTIONS.
Proof.
  induction edges as [|e edges IH]; intros acc d v; simpl; [tauto|].
  intros H. apply IH in H as [H|(e' & He' & H)].
  - unfold exit_step in H. case_bool_decide as Hd; [|now left].
    rewrite get_set in H. case_decide as Heq; [|now left].
    injection H as <-. right. exists e. subst d. repeat split; [left|assumption].
  - right. exists e'. split; [now right|exact H].
Qed.

Lemma exits_fold_keep ids edges : forall acc d,
  d ∉ (dir_out <$> edges) ->
  PyDict.get (fold_left (exit_step ids) edges acc) d = PyDict.get acc d.
Proof.
  induction edges as [|e edges IH]; intros acc d Hd; simpl; [reflexivity|].
  rewrite fmap_cons, not_elem_of_cons in Hd. destruct Hd as [Hne Hd].
  rewrite IH by assumption. unfold exit_step. case_bool_decide; [|reflexivity].
  now rewrite get_set_ne.
Qed.

Lemma exits_fold_hit ids edges : forall acc e,
  NoDup (dir_out <$> edges) ->
  e ∈ edges ->
  dir_out e ∈ ALL_DIRECTIONS ->
  PyDict.get (fold_left (exit_step ids) edges acc) (dir_out e)
  = Some (id_at ids (nbr e)).
Proof.
  induction edges as [|e0 edges IH]; intros acc e Hnd He Hd; [inversion He|].
  rewrite fmap_cons in Hnd. apply NoDup_cons in Hnd as [Hfresh Hnd]. simpl.
  apply elem_of_cons in He as [->|He].
  - rewrite exits_fold_keep by assumption.
    unfold exit_step. rewrite bool_decide_eq_true_2 by assumption.
    apply get_set_eq.
  - now apply IH.
Qed.

Lemma pair_directions d r :
  (d, r) ∈ DIRECTION_PAIRS ->
  d ∈ ALL_DIRECTIONS /\ r ∈ ALL_DIRECTIONS /\ r = opposite d /\ d = opposite r.
Proof.
  unfold DIRECTION_PAIRS. rewrite !elem_of_cons, elem_of_nil.
  intros [H|[H|[H|[]]]]; injection H as -> ->;
    (split; [|split; [|split; reflexivity]]);
    unfold ALL_DIRECTIONS, DIRECTION_PAIRS; simpl;
    rewrite !elem_of_cons; tauto.
Qed.

Lemma wf_edge_directions n adjacency i e :
  well_formed n adjacency -> e ∈ adjacency !!! i ->
  dir_out e ∈ ALL_DIRECTIONS /\ dir_back e ∈ ALL_DIRECTIONS /\
  dir_back e = opposite (dir_out e).
Proof.
  intros Hwf He. destruct (wf_pair _ _ Hwf _ _ He) as [H|H];
    apply pair_directions in H; tauto.
Qed.

(** Every adjacency entry becomes an exit of its room. *)
Lemma exits_of_edge n ids adjacency i e :
  well_formed n adjacency -> e ∈ adjacency !!! i ->
  PyDict.get (exits_of ids adjacency i) (dir_out e) = Some (id_at ids (nbr e)).
Proof.
  intros Hwf He. unfold exits_of. rewrite build_exits_fold.
  apply exits_fold_hit; [apply (wf_nodup _ _ Hwf)|assumption|].
  eapply wf_edge_directions; eassumption.
Qed.

(** Every exit of a room comes from one of its adjacency entries. *)
Lemma exits_of_inv ids adjacency i d v :
  PyDict.get (exits_of ids adjacency i) d = Some v ->
  exists e, e ∈ adjacency !!! i /\ dir_out e = d /\ v = id_at ids (nbr e).
Proof.
  unfold exits_of. rewrite build_exits_fold. intros H.
  apply exits_fold_get in H as [H|(e & He & H1 & H2 & _)]; [discriminate|].
  eauto.
Qed.

Lemma exits_of_keys ids adjacency i k :
  k ∈ PyDict.keys (exits_of ids adjacency i) -> k ∈ ALL_DIRECTIONS.
Proof.
  unfold exits_of. rewrite build_exits_fold. intros H.
  apply exits_fold_keys in H as [H|H]; [inversion H|exact H].
Qed.

(** *** The room dictionary *)

(** What the dictionary holds after the records of the indices below [k]
    were stored: every record stems from an index, and an index whose
    identifier is not reused later still owns its record. *)
Definition rooms_inv (ids : list string) (adjacency : Adj) (k : nat)
    (rooms : PyDict.t Room.t) : Prop :=
  (forall id room, PyDict.get rooms id = Some room ->
     exists i, i < k /\ id = id_at ids i /\ Room.room_id room = id /\
               Room.exits room = exits_of ids adjacency i) /\
  (forall i, i < k -> is_Some (PyDict.get rooms (id_at ids i))) /\
  (forall i, i < k ->
     (forall j, i < j < k -> id_at ids j ≠ id_at ids i) ->
     exists room, PyDict.get rooms (id_at ids i) = Some room /\
                  Room.exits room = exits_of ids adjacency i /\
                  Room.is_start room = bool_decide (i = 0)).

Lemma generate_description_ok room_name td wn exits :
  post (_generate_description room_name td wn exits) (fun _ => True).
Proof.
  unfold _generate_description.
  eapply post_mono; [apply choice_ok; discriminate|]. auto.
Qed.

Lemma build_room_inv names ids adjacency td wn k rooms :
  rooms_inv ids adjacency k rooms ->
  post (build_room names ids adjacency td wn rooms k) (rooms_inv ids adjacency (S k)).
Proof.
  intros (HA & HB & HC). unfold build_room.
  eapply post_bind; [apply generate_description_ok|]. intros description _.
  apply post_ret. fold (id_at ids k). fold (exits_of ids adjacency k).
  unfold rooms_inv. split_and!.
  - intros id room. rewrite get_set. case_decide as Heq.
    + intros [= <-]. exists k. simpl. split_and!; [lia|now symmetry|assumption|reflexivity].
    + intros H. destruct (HA _ _ H) as (i & Hi & H'). exists i. split; [lia|exact H'].
  - intros i Hi. rewrite get_set. case_decide; [eauto|]. apply HB.
    destruct (decide (i = k)) as [->|]; [congruence|lia].
  - intros i Hi Hlast. destruct (decide (i = k)) as [->|Hne].
    + rewrite get_set_eq. eexists. split; [reflexivity|]. simpl. auto.
    + rewrite get_set_ne by (apply Hlast; lia).
      apply HC; [lia|]. intros j Hj. apply Hlast. lia.
Qed.

Lemma build_rooms_inv n names ids adjacency td wn :
  post (build_rooms n names ids adjacency td wn) (rooms_inv ids adjacency n).
Proof.
  unfold build_rooms.
  apply (post_for_each_seq (build_room names ids adjacency td wn)
                           (rooms_inv ids adjacency) n 0).
  - intros i s _. apply build_room_inv.
  - unfold rooms_inv. split_and!.
    + intros id room [=].
    + intros i Hi. lia.
    + intros i Hi. lia.
Qed.
End RoomGraphFacts3.

(* --------------------------------------------------------------------- *)
(** ** room_graph.py: names, identifiers and reachability in the room map *)
(* --------------------------------------------------------------------- *)

Module RoomGraphFacts4.
Import WorldModel ThemeEngine Random RandomFacts RoomGraph.
Import RoomGraphFacts RoomGraphFacts2 RoomGraphFacts3 PyDictFacts.

(** *** Names and identifiers *)

Lemma pad_prefixes_length fuel : forall prefixes count,
  count <= length prefixes + 10 * fuel ->
  count <= length (pad_prefixes fuel prefixes count).
Proof.
  induction fuel as [|fuel IH]; intros prefixes count H; simpl.
  - lia.
  - destruct (length prefixes <? count) eqn:E.
    + apply IH. rewrite length_app. simpl. lia.
    + apply Nat.ltb_ge in E. exact E.
Qed.

Lemma overlay_length names : forall custom,
  length (overlay names custom) = length names.
Proof.
  induction names as [|n names IH]; intros [|c custom]; simpl; auto.
Qed.

Lemma dedup_names_length names : forall seen,
  length (dedup_names names seen) = length names.
Proof.
  induction names as [|n names IH]; intros seen; simpl; [reflexivity|].
  destruct (seen !! n); simpl; now rewrite IH.
Qed.

Lemma dedup_ids_length ids : forall seen,
  length (dedup_ids ids seen) = length ids.
Proof.
  induction ids as [|n ids IH]; intros seen; simpl; [reflexivity|].
  destruct (seen !! n); simpl; now rewrite IH.
Qed.

Lemma names_and_ids_length n td cn :
  post (names_and_ids n td cn)
       (fun p => length (fst p) = n /\ length (snd p) = n).
Proof.
  unfold names_and_ids, _generate_names.
  eapply post_bind.
  - eapply post_bind; [apply shuffle_spec|]. intros prefixes [Hlen _].
    apply (post_ret _ (fun names => length names = n)).
    rewrite dedup_names_length, length_insert.
    assert (Ht : length (take n prefixes) = n).
    { rewrite length_take, Hlen.
      pose proof (pad_prefixes_length n (suggested_room_prefixes td) n). lia. }
    destruct cn as [custom|]; [rewrite overlay_length|]; exact Ht.
  - intros names Hn. apply post_ret. simpl.
    split; [exact Hn|]. now rewrite dedup_ids_length, length_fmap.
Qed.

Lemma clamp_room_count_bounds rc : 3 <= clamp_room_count rc <= 100.
Proof. unfold clamp_room_count. lia. Qed.

(** *** Rooms and reachability by exits *)

(** One step along an exit of the room dictionary. *)
Definition room_step (rooms : PyDict.t Room.t) (a b : string) : Prop :=
  exists room d, PyDict.get rooms a = Some room /\
                 PyDict.get (Room.exits room) d = Some b.

Definition room_reach (rooms : PyDict.t Room.t) : string -> string -> Prop :=
  rtc (room_step rooms).

Lemma nodup_id_at ids i j :
  NoDup ids -> i < length ids -> j < length ids -> i ≠ j -> id_at ids i ≠ id_at ids j.
Proof.
  intros Hnd Hi Hj Hne Heq. unfold id_at in Heq.
  destruct (lookup_lt_is_Some_2 ids i Hi) as [x Hx].
  destruct (lookup_lt_is_Some_2 ids j Hj) as [y Hy].
  rewrite Hx, Hy in Heq. simpl in Heq. subst y.
  apply Hne. eapply NoDup_lookup; eassumption.
Qed.

(** With pairwise distinct identifiers every index owns its record. *)
Lemma rooms_inv_distinct n ids adjacency rooms i :
  rooms_inv ids adjacency n rooms ->
  NoDup ids -> length ids = n -> i < n ->
  exists room, PyDict.get rooms (id_at ids i) = Some room /\
               Room.exits room = exits_of ids adjacency i.
Proof.
  intros (_ & _ & HC) Hnd Hlen Hi.
  destruct (HC i Hi) as (room & H1 & H2 & _).
  - intros j Hj. apply nodup_id_at; try assumption; lia.
  - eauto.
Qed.

Lemma room_step_of_adj_step n ids adjacency rooms a b :
  well_formed n adjacency ->
  rooms_inv ids adjacency n rooms ->
  NoDup ids -> length ids = n ->
  adj_step adjacency a b ->
  room_step rooms (id_at ids a) (id_at ids b).
Proof.
  intros Hwf Hinv Hnd Hlen Hstep.
  apply list_elem_of_fmap in Hstep as (e & -> & He).
  destruct (wf_bound _ _ Hwf _ _ He) as [Ha _].
  destruct (rooms_inv_distinct n ids adjacency rooms a Hinv Hnd Hlen Ha)
    as (room & Hroom & Hexits).
  exists room, (dir_out e). split; [exact Hroom|].
  rewrite Hexits. eapply exits_of_edge; eassumption.
Qed.

Lemma room_reach_of_adj_reach n ids adjacency rooms a b :
  well_formed n adjacency ->
  rooms_inv ids adjacency n rooms ->
  NoDup ids -> length ids = n ->
  adj_reach adjacency a b ->
  room_reach rooms (id_at ids a) (id_at ids b).
Proof.
  intros Hwf Hinv Hnd Hlen H. induction H as [|x y z Hxy _ IH]; [constructor|].
  econstructor; [|exact IH]. eapply room_step_of_adj_step; eassumption.
Qed.

(** Steps 3 to 6 always return a dictionary whose records stem from the
    adjacency of a connected, well-formed graph. *)
Lemma generate_from_spec n names ids td wn :
  1 <= n ->
  post (generate_from n names ids td wn)
       (fun rooms => exists adjacency,
                   graph_ok n adjacency /\ rooms_inv ids adjacency n rooms).
Proof.
  intros Hn. unfold generate_from.
  eapply post_bind; [apply build_adjacency_ok, Hn|].
  intros adjacency Hok.
  eapply post_mono; [apply build_rooms_inv|]. intros rooms Hinv. eauto.
Qed.

(** The dictionary is fully connected whenever the identifiers are
    pairwise distinct. *)
Theorem generate_from_connected n names ids td wn :
  1 <= n -> length ids = n -> NoDup ids ->
  post (generate_from n names ids td wn)
       (fun rooms =>
          (forall id, id ∈ PyDict.keys rooms <-> id ∈ ids) /\
          forall id, id ∈ PyDict.keys rooms -> room_reach rooms (id_at ids 0) id).
Proof.
  intros Hn Hlen Hnd.
  eapply post_mono; [apply generate_from_spec, Hn|].
  intros rooms (adjacency & [Hwf Hreach] & Hinv).
  assert (Hkeys : forall id, id ∈ PyDict.keys rooms -> exists i, i < n /\ id = id_at ids i).
  { intros id Hid. apply elem_of_keys in Hid as [room Hroom].
    destruct Hinv as (HA & _). destruct (HA _ _ Hroom) as (i & Hi & -> & _). eauto. }
  split.
  - intros id. split.
    + intros Hid. destruct (Hkeys id Hid) as (i & Hi & ->).
      unfold id_at. destruct (lookup_lt_is_Some_2 ids i) as [x Hx]; [lia|].
      rewrite Hx. simpl. eapply list_elem_of_lookup_2, Hx.
    + intros Hid. apply list_elem_of_lookup in Hid as [i Hi].
      apply elem_of_keys. destruct Hinv as (_ & HB & _).
      specialize (HB i). unfold id_at in HB. rewrite Hi in HB. apply HB.
      apply lookup_lt_Some in Hi. lia.
  - intros id Hid. destruct (Hkeys id Hid) as (i & Hi & ->).
    eapply room_reach_of_adj_reach; try eassumption. now apply Hreach.
Qed.

End RoomGraphFacts4.

(* --------------------------------------------------------------------- *)
(** ** room_graph.py: what [generate] returns *)
(* --------------------------------------------------------------------- *)

Module PyDictFacts2.
Import PyDict PyDictFacts.

Lemma mem_false_not_key {V} (d : t V) k : mem d k = false -> k ∉ keys d.
Proof.
  unfold mem. intros H Hin. apply elem_of_keys in Hin as [v Hv].
  rewrite Hv in H. discriminate.
Qed.

Lemma set_keys_nodup {V} (d : t V) k v : NoDup (keys d) -> NoDup (keys (set d k v)).
Proof.
  intros Hnd. rewrite keys_set. destruct (mem d k) eqn:E; [exact Hnd|].
  apply NoDup_app. split; [exact Hnd|]. split; [|apply NoDup_singleton].
  intros x Hx. rewrite list_elem_of_singleton. intros ->.
  now apply mem_false_not_key in E.
Qed.

Lemma elem_of_get_nodup {V} (d : t V) k v :
  NoDup (keys d) -> (k, v) ∈ d -> get d k = Some v.
Proof.
  unfold keys. induction d as [|[k' v'] d IH]; simpl; intros Hnd Hin; [inversion Hin|].
  apply NoDup_cons in Hnd as [Hk' Hnd].
  rewrite eqb_decide. apply elem_of_cons in Hin as [[= -> ->]|Hin].
  - now rewrite bool_decide_eq_true_2.
  - rewrite bool_decide_eq_false_2; [now apply IH|].
    intros ->. apply Hk'. apply (list_elem_of_fmap_2 fst) in Hin. exact Hin.
Qed.

Lemma get_in_values {V} (d : t V) k v : get d k = Some v -> v ∈ values d.
Proof.
  intros H. apply get_Some_elem_of in H.
  apply (list_elem_of_fmap_2 snd) in H. exact H.
Qed.
End PyDictFacts2.

Module RoomGraphFacts5.
Import WorldModel ThemeEngine Random RandomFacts RoomGraph.
Import RoomGraphFacts RoomGraphFacts2 RoomGraphFacts3 RoomGraphFacts4.
Import PyDictFacts PyDictFacts2.

Lemma build_rooms_nodup n names ids adjacency td wn :
  post (build_rooms n names ids adjacency td wn) (fun rooms => NoDup (PyDict.keys rooms)).
Proof.
  unfold build_rooms. apply post_for_each.
  - intros i s _ Hs. unfold build_room.
    eapply post_bind; [apply generate_description_ok|]. intros description _.
    apply post_ret. now apply set_keys_nodup.
  - constructor.
Qed.

(** A dictionary with as many entries as there are identifiers tells that
    the identifiers are pairwise distinct. *)
Lemma full_size_distinct n ids adjacency rooms :
  rooms_inv ids adjacency n rooms ->
  NoDup (PyDict.keys rooms) ->
  length ids = n -> length rooms = n -> NoDup ids.
Proof.
  intros (HA & _) Hnd Hlen Hsize.
  assert (Hsub : PyDict.keys rooms ⊆+ ids).
  { apply NoDup_submseteq; [exact Hnd|]. intros id Hid.
    apply elem_of_keys in Hid as [room Hroom].
    destruct (HA _ _ Hroom) as (i & Hi & -> & _). unfold id_at.
    destruct (lookup_lt_is_Some_2 ids i) as [x Hx]; [lia|]. rewrite Hx. simpl.
    eapply list_elem_of_lookup_2, Hx. }
  apply submseteq_length_Permutation in Hsub.
  - now rewrite <- Hsub.
  - unfold PyDict.keys. rewrite length_map. lia.
Qed.

(** The whole of [generate] in terms of its two halves. *)
Lemma generate_post rc td wn cn (Q : PyDict.t Room.t -> Prop) :
  (forall names ids,
     length ids = clamp_room_count rc ->
     post (generate_from (clamp_room_count rc) names ids td wn) Q) ->
  post (generate rc td wn cn) Q.
Proof.
  intros H. unfold generate.
  eapply post_bind; [apply names_and_ids_length|].
  intros [names ids] [_ Hids]. simpl in Hids. now apply H.
Qed.

Lemma generate_from_full n names ids td wn :
  1 <= n -> length ids = n ->
  post (generate_from n names ids td wn)
       (fun rooms => exists adjacency,
                       graph_ok n adjacency /\ rooms_inv ids adjacency n rooms /\
                       NoDup (PyDict.keys rooms)).
Proof.
  intros Hn Hlen. unfold generate_from.
  eapply post_bind; [apply build_adjacency_ok, Hn|]. intros adjacency Hok.
  eapply post_mono.
  - apply post_and; [apply build_rooms_inv|apply build_rooms_nodup].
  - intros rooms [Hinv Hnd]. eauto.
Qed.

(** [generate] always returns. *)
Theorem generate_returns rc td wn cn :
  post (generate rc td wn cn) (fun _ => True).
Proof.
  apply generate_post. intros names ids Hlen.
  eapply post_mono; [apply generate_from_full; [|exact Hlen]|auto].
  pose proof (clamp_room_count_bounds rc). lia.
Qed.

(** The identifier of room 0. *)
Lemma names_and_ids_entrance n td cn :
  1 <= n ->
  post (names_and_ids n td cn) (fun p => snd p !! 0 = Some "entrance").
Proof.
  intros Hn. unfold names_and_ids, _generate_names.
  eapply post_bind.
  - eapply post_bind; [apply shuffle_spec|]. intros prefixes [Hlen _].
    apply (post_ret _ (fun names => names !! 0 = Some "Entrance")).
    set (names0 := match cn with
                   | Some custom => overlay (take n prefixes) (take n custom)
                   | None => take n prefixes
                   end).
    assert (Hl : 0 < length names0).
    { assert (Ht : length (take n prefixes) = n).
      { rewrite length_take, Hlen.
        pose proof (pad_prefixes_length n (suggested_room_prefixes td) n). lia. }
      unfold names0. destruct cn; [rewrite overlay_length|]; lia. }
    destruct names0 as [|x rest]; [simpl in Hl; lia|]. reflexivity.
  - intros names Hn0. apply post_ret. simpl.
    destruct names as [|x rest]; [discriminate|]. injection Hn0 as ->. reflexivity.
Qed.

(** With as many rooms as requested, every room of the dictionary is
    reachable from room 0 by following exits. *)
Theorem generate_connected_at_full_size rc td wn cn :
  post (generate rc td wn cn)
       (fun rooms =>
          length rooms = clamp_room_count rc ->
          forall id, id ∈ PyDict.keys rooms -> room_reach rooms "entrance" id).
Proof.
  pose proof (clamp_room_count_bounds rc) as Hb.
  unfold generate.
  eapply post_bind.
  { apply post_and; [apply names_and_ids_length|apply names_and_ids_entrance; lia]. }
  intros [names ids] [[_ Hlen] H0]. simpl in Hlen, H0.
  eapply post_mono; [apply generate_from_full; [lia|exact Hlen]|].
  intros rooms (adjacency & [Hwf Hreach] & Hinv & Hnd) Hsize id Hid.
  assert (Hids : NoDup ids) by (eapply full_size_distinct; eassumption).
  apply elem_of_keys in Hid as [room Hroom].
  destruct Hinv as (HA & HB & HC). destruct (HA _ _ Hroom) as (i & Hi & -> & _).
  replace "entrance" with (id_at ids 0) by (unfold id_at; now rewrite H0).
  eapply room_reach_of_adj_reach; try eassumption.
  - split_and!; assumption.
  - now apply Hreach.
Qed.
End RoomGraphFacts5.

(* --------------------------------------------------------------------- *)
(** ** room_graph.py: the claims *)
(* --------------------------------------------------------------------- *)

Module RoomGraphClaims.
Import WorldModel ThemeEngine Random RandomFacts RoomGraph.
Import RoomGraphFacts RoomGraphFacts2 RoomGraphFacts3 RoomGraphFacts4 RoomGraphFacts5.
Import PyDictFacts PyDictFacts2.

(** *** A set of rooms that exits never leave *)

(** Every exit of every room of [S] leads into [S]. *)
Definition closed_under (rooms : PyDict.t Room.t) (S : list string) : bool :=
  forallb
    (fun x => match PyDict.get rooms x with
              | Some room =>
                  forallb (fun t => bool_decide (t ∈ S)) (PyDict.values (Room.exits room))
              | None => true
              end)
    S.

Lemma closed_under_step rooms S x y :
  closed_under rooms S = true -> x ∈ S -> room_step rooms x y -> y ∈ S.
Proof.
  intros Hc Hx (room & d & Hroom & Hd).
  unfold closed_under in Hc. rewrite forallb_forall in Hc.
  specialize (Hc x). rewrite <- list_elem_of_In in Hc. specialize (Hc Hx).
  rewrite Hroom, forallb_forall in Hc.
  apply get_in_values in Hd. specialize (Hc y).
  rewrite <- list_elem_of_In in Hc. specialize (Hc Hd).
  now apply bool_decide_eq_true in Hc.
Qed.

Lemma closed_under_reach rooms S x y :
  closed_under rooms S = true -> x ∈ S -> room_reach rooms x y -> y ∈ S.
Proof.
  intros Hc Hx H. induction H as [|x y z Hxy _ IH]; [exact Hx|].
  apply IH. eapply closed_under_step; eassumption.
Qed.

(** *** The identifier collision *)

(** Custom names whose identifiers collide: "a" is suffixed to "a_1", the
    identifier that "a 1" gets next. *)
Definition colliding_names : list string := [""; "A"; "a"; "a 1"; "B"].

(** Draws under which room 4 is attached to room 2 alone and no bonus
    connection is made. *)
Definition colliding_tape : Rng := repeat 0 17 ++ [3; 0; 1].

Definition colliding_rooms : PyDict.t Room.t :=
  match fst (generate 5 defaults_ORIGINAL "W" (Some colliding_names) colliding_tape) with
  | Ok rooms => rooms
  | _ => []
  end.

(** C9 (the code departs from the claim): with the custom names "", "A",
    "a", "a 1", "B" the identifiers of rooms 2 and 3 are both "a_1", and
    the returned dictionary holds four rooms, not the five requested. *)
Theorem ids_collide_on_custom_names :
  fst (names_and_ids (clamp_room_count 5) defaults_ORIGINAL (Some colliding_names)
                     colliding_tape)
  = Ok (["Entrance"; "A"; "a"; "a 1"; "B"], ["entrance"; "a"; "a_1"; "a_1"; "b"])
  /\ ~ NoDup ["entrance"; "a"; "a_1"; "a_1"; "b"]
  /\ PyDict.keys colliding_rooms = ["entrance"; "a"; "a_1"; "b"]
  /\ length colliding_rooms <> clamp_room_count 5.
Proof.
  split; [vm_compute; reflexivity|]. split.
  - intros H. apply NoDup_cons in H as [_ H]. apply NoDup_cons in H as [_ H].
    apply NoDup_cons in H as [H _]. apply H. left.
  - split; [vm_compute; reflexivity|]. vm_compute. discriminate.
Qed.

(** C1 (the code departs from the claim): on the same input, with room 4
    attached to room 2, the record of room 2 is overwritten by that of
    room 3 and no exit of the returned dictionary leads to room "b". *)
Theorem generate_disconnected_on_collision :
  exists rooms,
    fst (generate 5 defaults_ORIGINAL "W" (Some colliding_names) colliding_tape) = Ok rooms
    /\ "b" ∈ PyDict.keys rooms
    /\ ~ room_reach rooms "entrance" "b".
Proof.
  exists colliding_rooms. split; [vm_compute; reflexivity|]. split.
  - vm_compute. apply list_elem_of_In. simpl. tauto.
  - intros H.
    apply (closed_under_reach colliding_rooms ["entrance"; "a"; "a_1"]) in H.
    + rewrite !elem_of_cons, elem_of_nil in H.
      destruct H as [H|[H|[H|[]]]]; discriminate.
    + vm_compute. reflexivity.
    + left.
Qed.

(** *** Mutual, direction-paired exits *)

(** Every entry [(b, d, r)] of [adjacency[a]] has the opposite direction
    of [d] as [r] and the entry [(a, r, d)] in [adjacency[b]]; in the
    records built from the adjacency, an exit [d] of room [a] to room [b]
    is answered by the exit [opposite d] of room [b] to room [a]; and so
    it is in the returned dictionary when it holds one record per
    requested room. *)
Lemma exits_mutual_in_adjacency (rc : Z) (td : ThemeDefaults) (wn : string)
    (cn : option (list string)) :
  let n := clamp_room_count rc in
  post (build_adjacency n)
       (fun adjacency =>
          (forall a e, e ∈ adjacency !!! a ->
             dir_out e ∈ ALL_DIRECTIONS /\
             dir_back e = opposite (dir_out e) /\
             Edge a (dir_back e) (dir_out e) ∈ adjacency !!! (nbr e)) /\
          (forall ids a d v,
             PyDict.get (exits_of ids adjacency a) d = Some v ->
             exists b, b < n /\ v = id_at ids b /\
                       PyDict.get (exits_of ids adjacency b) (opposite d)
                       = Some (id_at ids a)))
  /\ post (generate rc td wn cn)
       (fun rooms =>
          length rooms = n ->
          forall A B d roomA,
            PyDict.get rooms A = Some roomA ->
            PyDict.get (Room.exits roomA) d = Some B ->
            exists roomB, PyDict.get rooms B = Some roomB /\
                          PyDict.get (Room.exits roomB) (opposite d) = Some A).
Proof.
  intros n. pose proof (clamp_room_count_bounds rc) as Hb. fold n in Hb.
  assert (Hrec : forall adjacency ids a d v,
             well_formed n adjacency ->
             PyDict.get (exits_of ids adjacency a) d = Some v ->
             exists b, b < n /\ v = id_at ids b /\
                       Edge b d (opposite d) ∈ adjacency !!! a /\
                       PyDict.get (exits_of ids adjacency b) (opposite d)
                       = Some (id_at ids a)).
  { intros adjacency ids a d v Hwf Hget.
    apply exits_of_inv in Hget as (e & He & <- & ->).
    destruct (wf_edge_directions _ _ _ _ Hwf He) as (_ & _ & Hopp).
    exists (nbr e). split; [now apply (wf_bound _ _ Hwf) in He|].
    split; [reflexivity|]. split.
    - rewrite <- Hopp. now destruct e.
    - rewrite <- Hopp.
      apply (exits_of_edge n ids adjacency (nbr e) (Edge a (dir_back e) (dir_out e)) Hwf).
      now apply (wf_sym _ _ Hwf). }
  split.
  - eapply post_mono; [apply build_adjacency_ok; lia|].
    intros adjacency [Hwf _]. split.
    + intros a e He. destruct (wf_edge_directions _ _ _ _ Hwf He) as (H1 & _ & H3).
      split_and!; [assumption|assumption|now apply (wf_sym _ _ Hwf)].
    + intros ids a d v Hget.
      destruct (Hrec adjacency ids a d v Hwf Hget) as (b & H1 & H2 & _ & H4). eauto.
  - apply generate_post. intros names ids Hlen. fold n in Hlen.
    eapply post_mono; [apply generate_from_full; [lia|exact Hlen]|].
    intros rooms (adjacency & [Hwf _] & Hinv & Hnd) Hsize A B d roomA HA Hd.
    assert (Hids : NoDup ids) by (eapply full_size_distinct; eassumption).
    destruct (proj1 Hinv _ _ HA) as (a & Ha & -> & _ & Hexits).
    rewrite Hexits in Hd.
    destruct (Hrec adjacency ids a d B Hwf Hd) as (b & Hb' & -> & _ & Hback).
    destruct (rooms_inv_distinct n ids adjacency rooms b Hinv Hids Hlen Hb')
      as (roomB & HB & HexB).
    exists roomB. split; [exact HB|]. now rewrite HexB.
Qed.

(** C10 (the code departs from the claim): on the colliding names the
    record of room 3 replaces the record of room 2 under the identifier
    "a_1".  In the returned dictionary room "b" has the exit east to
    "a_1", and room "a_1" has no exit west at all, so none back to "b";
    likewise room "a" has the exit west to "a_1" and "a_1" has no exit
    east. *)
Theorem exits_not_mutual_on_collision :
  exists rooms room_b room_a room_a1,
    fst (generate 5 defaults_ORIGINAL "W" (Some colliding_names) colliding_tape)
    = Ok rooms /\
    PyDict.get rooms "b" = Some room_b /\
    PyDict.get rooms "a" = Some room_a /\
    PyDict.get rooms "a_1" = Some room_a1 /\
    PyDict.get (Room.exits room_b) "east" = Some "a_1" /\
    opposite "east" = "west" /\
    PyDict.get (Room.exits room_a1) "west" = None /\
    PyDict.get (Room.exits room_a) "west" = Some "a_1" /\
    opposite "west" = "east" /\
    PyDict.get (Room.exits room_a1) "east" = None.
Proof.
  assert (H : exists rooms,
             fst (generate 5 defaults_ORIGINAL "W" (Some colliding_names) colliding_tape)
             = Ok rooms /\
             (Room.exits <$> PyDict.get rooms "b") = Some [("east", "a_1")] /\
             (Room.exits <$> PyDict.get rooms "a")
             = Some [("east", "entrance"); ("west", "a_1"); ("down", "a_1")] /\
             (Room.exits <$> PyDict.get rooms "a_1") = Some [("up", "a")]).
  { eexists. split; [vm_compute; reflexivity|]. split_and!; vm_compute; reflexivity. }
  destruct H as (rooms & Hrun & Hb & Ha & Ha1).
  destruct (PyDict.get rooms "b") as [room_b|] eqn:Eb; [|discriminate].
  destruct (PyDict.get rooms "a") as [room_a|] eqn:Ea; [|discriminate].
  destruct (PyDict.get rooms "a_1") as [room_a1|] eqn:Ea1; [|discriminate].
  injection Hb as Hb. injection Ha as Ha. injection Ha1 as Ha1.
  exists rooms, room_b, room_a, room_a1.
  rewrite Hb, Ha, Ha1. split_and!; reflexivity || assumption.
Qed.

(** The keys of every [exits] dictionary are engine directions. *)
Lemma generate_exit_labels rc td wn cn :
  post (generate rc td wn cn)
       (fun rooms =>
          forall id room, (id, room) ∈ rooms ->
          forall k, k ∈ PyDict.keys (Room.exits room) ->
                    k ∈ Validation.ENGINE_DIRECTIONS).
Proof.
  pose proof (clamp_room_count_bounds rc) as Hb.
  apply generate_post. intros names ids Hlen.
  eapply post_mono; [apply generate_from_full; [lia|exact Hlen]|].
  intros rooms (adjacency & _ & Hinv & Hnd) id room Hin k Hk.
  apply elem_of_get_nodup in Hin; [|exact Hnd].
  destruct (proj1 Hinv _ _ Hin) as (i & _ & _ & _ & Hexits).
  rewrite Hexits in Hk. apply exits_of_keys in Hk. exact Hk.
Qed.
End RoomGraphClaims.

(* --------------------------------------------------------------------- *)
(** ** theme_engine.py: classification *)
(* --------------------------------------------------------------------- *)

Module PyScoresFacts.
Section facts.
Context {K : Type} `{EqDecision K}.
Implicit Types (sc : list (K * nat)) (k : K).

(** [scores[k]] *)
Fixpoint value sc k : nat :=
  match sc with
  | [] => 0
  | (k', n) :: rest => if bool_decide (k' = k) then n else value rest k
  end.

Lemma bump_keys k n sc :
  fst <$> (PyScores.bump k n sc : list (K * nat)) = fst <$> sc.
Proof.
  induction sc as [|[k' m] sc IH]; [reflexivity|].
  cbn [PyScores.bump]. case_bool_decide; [reflexivity|].
  rewrite !fmap_cons. now rewrite IH.
Qed.

Lemma value_bump k n sc k' :
  k ∈ (fst <$> sc) ->
  value (PyScores.bump k n sc) k' = value sc k' + (if bool_decide (k = k') then n else 0).
Proof.
  induction sc as [|[k0 m] sc IH]; simpl; intros Hin; [inversion Hin|].
  destruct (decide (k0 = k)) as [->|Hne].
  - rewrite bool_decide_eq_true_2 by reflexivity. simpl.
    case_bool_decide; lia.
  - rewrite (bool_decide_eq_false_2 (k0 = k)) by assumption. simpl.
    apply elem_of_cons in Hin as [Hin|Hin]; [congruence|].
    rewrite IH by assumption.
    destruct (decide (k0 = k')) as [->|Hne'].
    + rewrite !bool_decide_eq_true_2 by reflexivity.
      rewrite bool_decide_eq_false_2 by congruence. lia.
    + now rewrite !(bool_decide_eq_false_2 (k0 = k')) by assumption.
Qed.

Lemma value_init members k : value (PyScores.init members) k = 0.
Proof.
  unfold PyScores.init. induction members as [|m members IH]; simpl; [reflexivity|].
  case_bool_decide; [reflexivity|exact IH].
Qed.

Lemma init_keys (members : list K) :
  fst <$> (PyScores.init members : list (K * nat)) = members.
Proof.
  unfold PyScores.init. induction members as [|m members IH]; simpl; [reflexivity|].
  f_equal. exact IH.
Qed.

(** A dictionary is the table of its values over its keys. *)
Lemma scores_as_table sc :
  NoDup (fst <$> sc) -> sc = (fun k => (k, value sc k)) <$> (fst <$> sc).
Proof.
  induction sc as [|[k n] sc IH]; simpl; intros Hnd; [reflexivity|].
  apply NoDup_cons in Hnd as [Hk Hnd].
  rewrite bool_decide_eq_true_2 by reflexivity. f_equal.
  rewrite IH at 1 by assumption.
  apply list_fmap_ext. intros i k' Hk'.
  rewrite bool_decide_eq_false_2; [reflexivity|].
  intros ->. apply Hk. eapply list_elem_of_lookup_2, Hk'.
Qed.

(** [max] over a table: the winner follows keys with strictly smaller
    values and precedes keys with values that are not greater. *)
Lemma py_max_from_table (f : K -> nat) (rest : list K) :
  forall pre b mid,
    (forall k, k ∈ pre -> f k < f b) ->
    (forall k, k ∈ mid -> f k <= f b) ->
    exists l1 w l2,
      PyScores.py_max_from (b, f b) ((fun k => (k, f k)) <$> rest) = (w, f w) /\
      pre ++ b :: mid ++ rest = l1 ++ w :: l2 /\
      (forall k, k ∈ l1 -> f k < f w) /\
      (forall k, k ∈ l2 -> f k <= f w).
Proof.
  induction rest as [|x rest IH]; intros pre b mid Hpre Hmid.
  - exists pre, b, mid. rewrite app_nil_r. split_and!; auto.
  - rewrite fmap_cons. cbn [PyScores.py_max_from snd].
    destruct (f b <? f x) eqn:E.
    + apply Nat.ltb_lt in E.
      destruct (IH (pre ++ b :: mid) x []) as (l1 & w & l2 & H1 & H2 & H3 & H4).
      { intros k. rewrite elem_of_app, elem_of_cons.
        intros [Hk|[->|Hk]]; [specialize (Hpre k Hk)|idtac|specialize (Hmid k Hk)]; lia. }
      { intros k Hk. inversion Hk. }
      exists l1, w, l2. split; [exact H1|]. split; [|auto].
      rewrite <- H2. rewrite <- app_assoc. reflexivity.
    + apply Nat.ltb_ge in E.
      destruct (IH pre b (mid ++ [x])) as (l1 & w & l2 & H1 & H2 & H3 & H4).
      { exact Hpre. }
      { intros k. rewrite elem_of_app, list_elem_of_singleton.
        intros [Hk| ->]; [now apply Hmid|exact E]. }
      exists l1, w, l2. split; [exact H1|]. split; [|auto].
      rewrite <- H2. rewrite <- app_assoc. reflexivity.
Qed.

Lemma py_max_table (f : K -> nat) (members : list K) :
  members <> [] ->
  exists l1 w l2,
    PyScores.py_max ((fun k => (k, f k)) <$> members) = Some (w, f w) /\
    members = l1 ++ w :: l2 /\
    (forall k, k ∈ l1 -> f k < f w) /\
    (forall k, k ∈ l2 -> f k <= f w).
Proof.
  destruct members as [|b rest]; [congruence|]. intros _.
  destruct (py_max_from_table f rest [] b []) as (l1 & w & l2 & H1 & H2 & H3 & H4).
  - intros k Hk. inversion Hk.
  - intros k Hk. inversion Hk.
  - exists l1, w, l2. rewrite fmap_cons. cbn [PyScores.py_max].
    rewrite H1. split_and!; auto.
Qed.
End facts.
End PyScoresFacts.

Module ThemeFacts.
Import WorldModel ThemeEngine PyScoresFacts.

(** The points of one table row: every whole-word hit counts 2 for a
    keyword longer than 6 characters, 1 otherwise. *)
Definition row_points (name_lower : string) (row : WorldTheme * list string) : nat :=
  sum_list ((fun kw => if word_search kw name_lower then weight kw else 0) <$> snd row).

(** The total of a tag: the points of its rows. *)
Definition score (world_name : string) (t : WorldTheme) : nat :=
  sum_list ((fun row => if bool_decide (fst row = t)
                        then row_points (PyStr.strip (PyStr.lower world_name)) row else 0)
              <$> THEME_KEYWORDS).

(** The rule the keyword table would give: the first tag of the table,
    in the order of its rows, among those with the greatest total. *)
Definition table_order : list WorldTheme := fst <$> THEME_KEYWORDS.

Definition classify_by_table_order (world_name : string) : WorldTheme :=
  match PyScores.py_max ((fun t => (t, score world_name t)) <$> table_order) with
  | Some (best_theme, n) => if n =? 0 then ORIGINAL else best_theme
  | None => ORIGINAL
  end.

Lemma sum_list_cons x l : sum_list (x :: l) = x + sum_list l.
Proof. reflexivity. Qed.

Lemma score_keywords_value name_lower t kws : forall (sc : list (WorldTheme * nat)) t',
  t ∈ (fst <$> sc) ->
  value (fold_left
           (fun sc kw =>
              if word_search kw name_lower then PyScores.bump t (weight kw) sc else sc)
           kws sc) t'
  = value sc t'
    + (if bool_decide (t = t')
       then sum_list ((fun kw => if word_search kw name_lower then weight kw else 0) <$> kws)
       else 0)
  /\ fst <$> (fold_left
                (fun sc kw =>
                   if word_search kw name_lower then PyScores.bump t (weight kw) sc else sc)
                kws sc) = fst <$> sc.
Proof.
  induction kws as [|kw kws IH]; intros sc t' Hin.
  - cbn. split; [|reflexivity]. case_bool_decide; lia.
  - cbn [fold_left]. rewrite fmap_cons, sum_list_cons.
    destruct (word_search kw name_lower); cbv iota.
    + destruct (IH (PyScores.bump t (weight kw) sc) t') as [H1 H2].
      { now rewrite bump_keys. }
      rewrite H1, H2, bump_keys, value_bump by assumption.
      split; [|reflexivity]. case_bool_decide; lia.
    + destruct (IH sc t' Hin) as [H1 H2]. rewrite H1, H2. split; [|reflexivity].
      case_bool_decide; lia.
Qed.

Lemma score_rows_value name_lower rows : forall (sc : list (WorldTheme * nat)) t',
  (forall row, row ∈ rows -> fst row ∈ (fst <$> sc)) ->
  value (fold_left (score_row name_lower) rows sc) t'
  = value sc t'
    + sum_list ((fun row => if bool_decide (fst row = t')
                            then row_points name_lower row else 0) <$> rows)
  /\ fst <$> (fold_left (score_row name_lower) rows sc : list (WorldTheme * nat))
     = fst <$> sc.
Proof.
  induction rows as [|row rows IH]; intros sc t' Hin.
  - cbn. split; [lia|reflexivity].
  - cbn [fold_left]. rewrite fmap_cons, sum_list_cons.
    destruct (score_keywords_value name_lower (fst row) (snd row) sc t') as [H1 H2].
    { apply Hin. left. }
    fold (score_row name_lower sc row) in H1, H2.
    destruct (IH (score_row name_lower sc row) t') as [H3 H4].
    { intros r Hr. rewrite H2. apply Hin. now right. }
    rewrite H3, H4, H1, H2. split; [|reflexivity].
    unfold row_points. case_bool_decide; lia.
Qed.

Lemma all_themes_complete t : t ∈ all_themes.
Proof.
  apply list_elem_of_In. destruct t; simpl; tauto.
Qed.

(** After the scoring loops the dictionary is the table of the totals. *)
Lemma final_scores_table world_name :
  final_scores world_name = (fun t => (t, score world_name t)) <$> all_themes.
Proof.
  unfold final_scores.
  set (nl := PyStr.strip (PyStr.lower world_name)).
  destruct (score_rows_value nl THEME_KEYWORDS init_scores SCIFI) as [_ Hkeys].
  { intros row _. unfold init_scores. rewrite init_keys. apply all_themes_complete. }
  unfold init_scores in Hkeys. rewrite init_keys in Hkeys.
  rewrite (scores_as_table (fold_left (score_row nl) THEME_KEYWORDS init_scores)).
  - unfold init_scores. rewrite Hkeys. apply list_fmap_ext. intros i t Ht. f_equal.
    destruct (score_rows_value nl THEME_KEYWORDS (PyScores.init all_themes) t) as [Hv _].
    { intros row _. rewrite init_keys. apply all_themes_complete. }
    rewrite Hv, value_init. reflexivity.
  - unfold init_scores. rewrite Hkeys. unfold all_themes.
    apply NoDup_ListNoDup. repeat (constructor; [simpl; intuition discriminate|]).
    constructor.
Qed.

(** C4, as amended: classification is a total function; every whole-word
    keyword hit scores 2 points for a keyword longer than 6 characters and
    1 point otherwise; the tag returned has the highest total; among tags
    with the highest total the one declared first in the [WorldTheme]
    enumeration is returned (crime_spy before disco and nightclub, not the
    order of the rows of the keyword table); and "original" is returned
    when no keyword matches. *)
Theorem classify_first_enum_member_with_highest_total (world_name : string) :
  ((forall t, score world_name t = 0) /\ classify world_name = ORIGINAL)
  \/ (exists earlier later,
        all_themes = earlier ++ classify world_name :: later /\
        0 < score world_name (classify world_name) /\
        (forall t, t ∈ earlier -> score world_name t < score world_name (classify world_name)) /\
        (forall t, t ∈ later -> score world_name t <= score world_name (classify world_name))).
Proof.
  unfold classify. rewrite final_scores_table.
  destruct (py_max_table (score world_name) all_themes) as (l1 & w & l2 & H1 & H2 & H3 & H4);
    [discriminate|].
  rewrite H1. destruct (score world_name w =? 0) eqn:E.
  - left. apply Nat.eqb_eq in E. split; [|reflexivity].
    intros t. pose proof (all_themes_complete t) as Hin.
    rewrite H2 in Hin. apply elem_of_app in Hin as [Hin|Hin].
    + specialize (H3 t Hin). lia.
    + apply elem_of_cons in Hin as [->|Hin]; [exact E|]. specialize (H4 t Hin). lia.
  - right. apply Nat.eqb_neq in E. exists l1, l2. split_and!; auto. lia.
Qed.

(** C4, the claim as stated fails: in "spy disco" the tags disco and
    crime_spy both total 1 point, the highest; disco comes first in the
    keyword table, and [classify] returns crime_spy. *)
Lemma classify_tie_not_in_table_order :
  classify "spy disco" = CRIME_SPY
  /\ classify_by_table_order "spy disco" = DISCO
  /\ score "spy disco" DISCO = 1
  /\ score "spy disco" CRIME_SPY = 1
  /\ classify "spy disco" <> classify_by_table_order "spy disco".
Proof.
  assert (H1 : classify "spy disco" = CRIME_SPY) by (vm_compute; reflexivity).
  assert (H2 : classify_by_table_order "spy disco" = DISCO) by (vm_compute; reflexivity).
  split_and!; [exact H1|exact H2|vm_compute; reflexivity|vm_compute; reflexivity|].
  rewrite H1, H2. discriminate.
Qed.
End ThemeFacts.

(* --------------------------------------------------------------------- *)
(** ** validation_engine.py: the validator *)
(* --------------------------------------------------------------------- *)

Module ValidationFacts.
Import WorldModel Validation PyDictFacts PyDictFacts2.

Lemma elem_of_flat_map {A B} (f : A -> list B) (l : list A) (x : B) :
  x ∈ flat_map f l <-> exists y, y ∈ l /\ x ∈ f y.
Proof.
  rewrite list_elem_of_In, in_flat_map. split; intros (y & H1 & H2); exists y.
  - now rewrite !list_elem_of_In.
  - now rewrite <- !list_elem_of_In.
Qed.

(** *** The validator always returns *)

Lemma starts_are_rooms world start :
  start ∈ starts_of world -> start ∈ WorldConfig.room_ids world.
Proof.
  unfold starts_of, WorldConfig.room_ids, PyDict.keys.
  intros H. apply list_elem_of_fmap in H as (kv & -> & Hkv).
  apply list_elem_of_filter in Hkv as [_ Hkv].
  now apply list_elem_of_fmap_2.
Qed.

Lemma exit_targets_are_rooms world x y :
  y ∈ exit_targets world x -> y ∈ WorldConfig.room_ids world.
Proof.
  unfold exit_targets. destruct (PyDict.get _ x); [|inversion 1].
  intros H. now apply list_elem_of_filter in H as [H _].
Qed.

Lemma check_reachable_total world : is_Some (check_reachable world).
Proof.
  unfold check_reachable. destruct (starts_of world) as [|start rest] eqn:E; [eauto|].
  destruct (1 <? length (WorldConfig.rooms world)); [|eauto].
  destruct (BfsFacts.run_total (exit_targets world)
              (remove_dups (WorldConfig.room_ids world))
              (NoDup_remove_dups _)) with (start := start) as (r & Hr & _).
  - intros x _ y Hy. apply elem_of_remove_dups. eapply exit_targets_are_rooms, Hy.
  - apply elem_of_remove_dups, starts_are_rooms. rewrite E. left.
  - rewrite Hr. eauto.
Qed.

Theorem validate_total world : is_Some (validate world).
Proof.
  unfold validate. destruct (check_reachable_total world) as [u ->]. eauto.
Qed.

(** *** Which check issues which message *)

Ltac msg_cases :=
  repeat match goal with
    | H : _ ∈ _ ++ _ |- _ => apply elem_of_app in H as [H|H]
    | H : _ ∈ flat_map _ _ |- _ => apply elem_of_flat_map in H as (? & ? & H)
    | H : _ ∈ [] |- _ => inversion H
    | H : _ ∈ [_] |- _ => apply list_elem_of_singleton in H
    | H : _ ∈ (if ?c then _ else _) |- _ => destruct c eqn:?
    | H : _ ∈ (match ?c with _ => _ end) |- _ => destruct c eqn:?
    | H : _ ∈ _ <$> _ |- _ => apply list_elem_of_fmap in H as (? & ? & H)
    end.

(** The messages about spawn rooms. *)
Definition spawn_msg (m : Msg) : bool :=
  match m with
  | SpawnRoomMissing _ _ | NoSpawnRooms _ => true
  | _ => false
  end.

Lemma check_reachable_msgs world u m :
  check_reachable world = Some u -> m ∈ u -> spawn_msg m = false.
Proof.
  unfold check_reachable. intros H Hm.
  destruct (starts_of world); [injection H as <-; inversion Hm|].
  destruct (1 <? _); [|injection H as <-; inversion Hm].
  destruct (Bfs.run _ _ _ _); [|discriminate]. injection H as <-.
  apply list_elem_of_fmap in Hm as (x & -> & _). reflexivity.
Qed.

(** No check but the seventh issues a message about spawn rooms. *)
Lemma errors_spawn_msg world r m :
  validate world = Some r -> m ∈ errors r -> spawn_msg m = true ->
  m ∈ check_spawn_rooms world.
Proof.
  unfold validate. destruct (check_reachable world) as [u|] eqn:Eu; [|discriminate].
  intros [= <-] Hm Hs. cbn [errors] in Hm.
  repeat (apply elem_of_app in Hm as [Hm|Hm]); try exact Hm;
    try (rewrite (check_reachable_msgs world u m Eu Hm) in Hs; discriminate);
    try (unfold check_exits, check_start, check_room_text, check_object_locations,
           check_object_text, check_loot, check_sprite_name, check_transform_object,
           check_transform_new_object, check_transform_requires,
           check_transform_new_location, check_respawn, check_sd_names,
           check_sd_host_port, check_percent, check_pct in Hm;
         msg_cases; subst; discriminate).
  unfold check_duplicates in Hm. exfalso. revert Hm Hs. clear.
  generalize (@nil string).
  generalize (WorldConfig.room_ids world ++ WorldConfig.object_ids world ++
              WorldConfig.sprite_ids world ++
              PyDict.keys (WorldConfig.transformations world)).
  intros ids. induction ids as [|x ids IH]; intros seen Hm Hs; simpl in Hm.
  - inversion Hm.
  - apply elem_of_app in Hm as [Hm|Hm]; [|eauto].
    msg_cases; subst; discriminate.
Qed.

Lemma elem_of_check_spawn_rooms world m :
  m ∈ check_spawn_rooms world <->
  exists sid sprite room,
    (sid, sprite) ∈ WorldConfig.sprites world /\
    room ∈ Sprite.spawn_rooms sprite /\
    (room ∉ WorldConfig.room_ids world) /\
    m = SpawnRoomMissing sid room.
Proof.
  unfold check_spawn_rooms. rewrite elem_of_flat_map. split.
  - intros ([sid sprite] & Hin & Hm). apply elem_of_flat_map in Hm as (room & Hr & Hm).
    simpl in *. case_bool_decide; [inversion Hm|].
    apply list_elem_of_singleton in Hm. eauto 8.
  - intros (sid & sprite & room & Hin & Hr & Hnot & ->).
    exists (sid, sprite). split; [exact Hin|]. apply elem_of_flat_map.
    exists room. split; [exact Hr|]. simpl.
    rewrite bool_decide_eq_false_2 by assumption. left.
Qed.

Lemma elem_of_warn_spawn_rooms world m :
  m ∈ warn_spawn_rooms world <->
  exists sid sprite,
    (sid, sprite) ∈ WorldConfig.sprites world /\
    Sprite.spawn_rooms sprite = [] /\ m = NoSpawnRooms sid.
Proof.
  unfold warn_spawn_rooms. rewrite elem_of_flat_map. split.
  - intros ([sid sprite] & Hin & Hm). simpl in Hm.
    destruct (Sprite.spawn_rooms sprite) eqn:E; [|inversion Hm].
    apply list_elem_of_singleton in Hm. eauto 6.
  - intros (sid & sprite & Hin & He & ->). exists (sid, sprite).
    split; [exact Hin|]. simpl. rewrite He. left.
Qed.

Lemma is_valid_iff r : is_valid r = true <-> errors r = [].
Proof.
  unfold is_valid. rewrite Nat.eqb_eq. destruct (errors r); simpl; split; congruence.
Qed.
End ValidationFacts.

(* --------------------------------------------------------------------- *)
(** ** generator.py: the pipeline *)
(* --------------------------------------------------------------------- *)

Module GeneratorFacts.
Import WorldModel ThemeEngine Random RandomFacts Validation ValidationFacts Generator.

Section pipeline.
Variable FS : Type.
Variable write_all : WorldConfig.t -> string -> FS -> (exn + PyDict.t string) * FS.
Variable load : string -> FS -> exn + Artifacts.

(** The result of stage 9 on an invalid world. *)
Definition failed_result (req : GeneratorRequest) (w : WorldConfig.t)
    (r : ValidationResult) : GeneratorResult :=
  {| success := false;
     world := Some w;
     written_files := [];
     validation_errors := errors r;
     validation_warnings := warnings r;
     roundtrip_errors := [];
     summary := world_summary w;
     theme_used := Some (theme (theme_defaults_of req)) |}.

Lemma check_and_write_invalid req w r env g :
  validate w = Some r -> errors r <> [] ->
  check_and_write FS write_all load req w env g
  = (Ok (inr (failed_result req w r), env), g).
Proof.
  intros Hv He. unfold check_and_write. rewrite Hv.
  assert (Hi : is_valid r = false).
  { destruct (is_valid r) eqn:E; [|reflexivity]. now apply is_valid_iff in E. }
  rewrite Hi. reflexivity.
Qed.

Lemma check_and_write_valid req w r env g :
  validate w = Some r -> errors r = [] ->
  exists out env',
    check_and_write FS write_all load req w env g = (Ok (out, env'), g) /\
    CallWriteAll w (output_dir req) ∈ calls FS env'.
Proof.
  intros Hv He. unfold check_and_write. rewrite Hv.
  apply is_valid_iff in He. rewrite He. simpl.
  destruct (write_all w (output_dir req) (fs FS env)) as [[e|written] fs'].
  - eexists _, _. split; [reflexivity|]. simpl. set_solver.
  - destruct (load (output_dir req) fs') as [e|artifacts].
    + eexists _, _. split; [reflexivity|]. simpl. set_solver.
    + eexists _, _. split; [reflexivity|]. simpl. set_solver.
Qed.
End pipeline.

(** C8: the validator classifies a character with an empty spawn-room
    list as a warning, never an error; a world is valid exactly when the
    error list is empty; and with an empty error list the pipeline goes on
    to the writer whatever the warnings are. *)
Theorem empty_spawn_list_warns_and_never_blocks (w : WorldConfig.t) :
  exists r,
    validate w = Some r /\
    (forall sid sprite,
       (sid, sprite) ∈ WorldConfig.sprites w -> Sprite.spawn_rooms sprite = [] ->
       NoSpawnRooms sid ∈ warnings r) /\
    (forall sid, NoSpawnRooms sid ∉ errors r) /\
    (forall sid room,
       SpawnRoomMissing sid room ∈ errors r ->
       exists sprite, (sid, sprite) ∈ WorldConfig.sprites w /\
                      room ∈ Sprite.spawn_rooms sprite /\
                      room ∉ WorldConfig.room_ids w) /\
    (is_valid r = true <-> errors r = []) /\
    (forall FS write_all load req env g,
       errors r = [] ->
       exists out env',
         check_and_write FS write_all load req w env g = (Ok (out, env'), g) /\
         CallWriteAll w (output_dir req) ∈ calls FS env').
Proof.
  destruct (validate_total w) as [r Hr]. exists r. split; [exact Hr|]. split_and!.
  - intros sid sprite Hin He.
    assert (Hw : warnings r = warn_spawn_rooms w).
    { unfold validate in Hr. destruct (check_reachable w); [|discriminate].
      now injection Hr as <-. }
    rewrite Hw. apply elem_of_warn_spawn_rooms. eauto.
  - intros sid Hin.
    apply (errors_spawn_msg w r _ Hr) in Hin; [|reflexivity].
    apply elem_of_check_spawn_rooms in Hin as (? & ? & ? & _ & _ & _ & [=]).
  - intros sid room Hin.
    apply (errors_spawn_msg w r _ Hr) in Hin; [|reflexivity].
    apply elem_of_check_spawn_rooms in Hin as (sid' & sprite & room' & H1 & H2 & H3 & [= -> ->]).
    eauto.
  - apply is_valid_iff.
  - intros FS write_all load req env g He.
    eapply check_and_write_valid; eassumption.
Qed.

(** C2: if the pre-write validator reports at least one error on the
    world built by stages 1 to 8, [generate] returns a failed result that
    carries the validator's whole error list and an empty map of written
    files, and leaves the environment as it was: the file system is
    untouched and no call to the writer is recorded. *)
Theorem validation_errors_fail_closed
    (FS : Type)
    (write_all : WorldConfig.t -> string -> FS -> (exn + PyDict.t string) * FS)
    (load : string -> FS -> exn + Artifacts)
    (req : GeneratorRequest) (env : Env FS) (g g1 : Rng)
    (w : WorldConfig.t) (r : ValidationResult) :
  build_world req g = (Ok w, g1) ->
  validate w = Some r ->
  errors r <> [] ->
  exists res,
    generate FS write_all load req env g = (Ok (res, env), g1) /\
    success res = false /\
    validation_errors res = errors r /\
    validation_warnings res = warnings r /\
    written_files res = [] /\
    world res = Some w.
Proof.
  intros Hb Hv He. exists (failed_result req w r).
  split; [|repeat split].
  unfold generate, catch, _run_pipeline, mbind, M_bind, bind.
  rewrite Hb. rewrite (check_and_write_invalid FS write_all load req w r env g1 Hv He).
  reflexivity.
Qed.
End GeneratorFacts.

(* --------------------------------------------------------------------- *)
(** ** create_world.py: the auto-repair pass *)
(* --------------------------------------------------------------------- *)

Module IniFacts.
Import PyDictFacts PyDictFacts2.












End IniFacts.

Module RepairFacts.
Import Random Validation Repair IniFacts PyDictFacts PyDictFacts2.

(** *** Exits *)







(** *** The fallback room *)


(** *** Object locations *)





(** *** Spawn rooms *)







(** *** The pass on three broken files *)

(** A rooms file with an exit to a room that does not exist, an object in
    a room that does not exist, and a sprite with one known and one unknown
    spawn room. *)
Definition broken_files : Artifacts :=
  let file cfg := Some {| parsed := cfg; lines := [] |} in
  {| rooms_ini :=
       file (Ini.mk [] [("entrance", [("north", "hall"); ("east", "nowhere")]);
                        ("hall", [("south", "entrance")])]);
     objects_ini := file (Ini.mk [] [("key", [("location", "void")])]);
     sprites_ini := file (Ini.mk [] [("igor", [("spawn_rooms", "hall, limbo")])]);
     transformations_ini := file Ini.empty;
     combat_ini := file Ini.empty;
     sd_ini := file Ini.empty |}.

Example auto_repair_broken_files :
  let a := fst (auto_repair "W" 0 broken_files) in
  Ini.sects (read (rooms_ini a))
  = [("entrance", [("north", "hall")]); ("hall", [("south", "entrance")])] /\
  Ini.sects (read (objects_ini a)) = [("key", [("location", "entrance")])] /\
  Ini.sects (read (sprites_ini a)) = [("igor", [("spawn_rooms", "hall")])] /\
  snd (auto_repair "W" 0 broken_files) = None.
Proof. vm_compute. split_and!; reflexivity. Qed.

End RepairFacts.

(* --------------------------------------------------------------------- *)
(** ** validation_engine.py: the round-trip verifier *)
(* --------------------------------------------------------------------- *)

Module VerifierFacts.
Import WorldModel Random RandomFacts Validation ValidationFacts.

Lemma verify_rooms_flags cfg s dr :
  s ∈ Ini.sections cfg ->
  dr ∈ INVALID_FOR_ENGINE ->
  PyDict.mem (Ini.section_dict cfg s) dr = true ->
  ExitNotEngine s dr ∈ verify_rooms cfg.
Proof.
  intros Hs Hdr Hmem. unfold verify_rooms.
  apply elem_of_flat_map. exists s. split; [exact Hs|].
  apply elem_of_app. right.
  apply elem_of_flat_map. exists dr. split; [exact Hdr|].
  rewrite Hmem. apply list_elem_of_singleton. reflexivity.
Qed.

Lemma missing_files_nil a :
  missing_files a = [] ->
  exists fr fo fs ft fc fd,
    rooms_ini a = Some fr /\ objects_ini a = Some fo /\ sprites_ini a = Some fs /\
    transformations_ini a = Some ft /\ combat_ini a = Some fc /\ sd_ini a = Some fd.
Proof.
  unfold missing_files, filemap. destruct a as [[?|] [?|] [?|] [?|] [?|] [?|]];
    simpl; try discriminate. intros _. do 6 eexists. split_and!; reflexivity.
Qed.

Lemma verify_missing a :
  missing_files a <> [] -> errors (verify a) = missing_files a.
Proof.
  unfold verify. destruct a as [[?|] [?|] [?|] [?|] [?|] [?|]]; simpl; try reflexivity.
  intros H. now contradiction H.
Qed.

Lemma verify_flags a fr s dr :
  rooms_ini a = Some fr ->
  s ∈ Ini.sections (parsed fr) ->
  dr ∈ INVALID_FOR_ENGINE ->
  PyDict.mem (Ini.section_dict (parsed fr) s) dr = true ->
  is_valid (verify a) = false /\
  (missing_files a = [] -> ExitNotEngine s dr ∈ errors (verify a)).
Proof.
  intros Hfr Hs Hdr Hmem.
  assert (Hflag : missing_files a = [] -> ExitNotEngine s dr ∈ errors (verify a)).
  { intros Hnil. apply missing_files_nil in Hnil
      as (fr' & fo & fs & ft & fc & fd & E1 & E2 & E3 & E4 & E5 & E6).
    unfold verify. rewrite E1, E2, E3, E4, E5, E6. cbn [errors].
    apply elem_of_app. left. rewrite Hfr in E1. injection E1 as <-.
    now apply verify_rooms_flags. }
  split; [|exact Hflag].
  destruct (is_valid (verify a)) eqn:Ev; [|reflexivity].
  apply is_valid_iff in Ev.
  destruct (missing_files a) as [|m ms] eqn:Em.
  - specialize (Hflag eq_refl). rewrite Ev in Hflag. now apply elem_of_nil in Hflag.
  - rewrite verify_missing in Ev by (rewrite Em; discriminate). congruence.
Qed.

(** What [verify] reports as a label the engine does not read is one of
    the six labels of [INVALID_FOR_ENGINE], a key of the section named. *)
Lemma verify_rooms_not_engine_inv cfg s dr :
  ExitNotEngine s dr ∈ verify_rooms cfg ->
  s ∈ Ini.sections cfg /\ dr ∈ INVALID_FOR_ENGINE /\
  PyDict.mem (Ini.section_dict cfg s) dr = true.
Proof.
  unfold verify_rooms. intros H.
  apply elem_of_flat_map in H as (s' & Hs & H).
  apply elem_of_app in H as [H|H].
  - apply elem_of_flat_map in H as (d & _ & H).
    destruct (PyDict.get _ d) as [target|]; [|now apply elem_of_nil in H].
    case_bool_decide; [now apply elem_of_nil in H|].
    apply list_elem_of_singleton in H. discriminate.
  - apply elem_of_flat_map in H as (d & Hd & H).
    destruct (PyDict.mem _ d) eqn:Em; [|now apply elem_of_nil in H].
    apply list_elem_of_singleton in H. injection H as -> ->. auto.
Qed.

Lemma verify_lines_not_engine name ls s dr : ExitNotEngine s dr ∉ verify_lines name ls.
Proof.
  unfold verify_lines. intros H. apply elem_of_flat_map in H as (il & _ & H).
  destruct (PyStr.has_bare_pct _); [|now apply elem_of_nil in H].
  apply list_elem_of_singleton in H. discriminate.
Qed.

Lemma verify_not_engine_listed a s dr :
  ExitNotEngine s dr ∈ errors (verify a) ->
  dr ∈ INVALID_FOR_ENGINE /\
  exists fr, rooms_ini a = Some fr /\ s ∈ Ini.sections (parsed fr) /\
             PyDict.mem (Ini.section_dict (parsed fr) s) dr = true.
Proof.
  intros H.
  destruct (missing_files a) as [|m ms] eqn:Em.
  - apply missing_files_nil in Em
      as (fr & fo & fs & ft & fc & fd & E1 & E2 & E3 & E4 & E5 & E6).
    unfold verify in H. rewrite E1, E2, E3, E4, E5, E6 in H. cbn [errors] in H.
    apply elem_of_app in H as [H|H].
    { apply verify_rooms_not_engine_inv in H as (Hs & Hdr & Hmem). eauto. }
    exfalso.
    apply elem_of_app in H as [H|H].
    { unfold verify_objects in H. apply elem_of_flat_map in H as (x & _ & H).
      destruct (_ && _ && _); [|now apply elem_of_nil in H].
      apply list_elem_of_singleton in H. discriminate. }
    apply elem_of_app in H as [H|H].
    { unfold verify_sprites in H. apply elem_of_flat_map in H as (x & _ & H).
      apply elem_of_flat_map in H as (r & _ & H).
      case_bool_decide; [now apply elem_of_nil in H|].
      apply list_elem_of_singleton in H. discriminate. }
    apply elem_of_app in H as [H|H].
    { unfold verify_transformations in H. apply elem_of_flat_map in H as (x & _ & H).
      apply elem_of_flat_map in H as (k & _ & H).
      destruct (dangling _ _); [|now apply elem_of_nil in H].
      apply list_elem_of_singleton in H. discriminate. }
    apply elem_of_app in H as [H|H].
    { unfold verify_sd in H. apply elem_of_flat_map in H as (x & _ & H).
      destruct (negb _); [|now apply elem_of_nil in H].
      apply list_elem_of_singleton in H. discriminate. }
    repeat (apply elem_of_app in H as [H|H]; [now apply verify_lines_not_engine in H|]).
    now apply verify_lines_not_engine in H.
  - rewrite verify_missing in H by (rewrite Em; discriminate).
    unfold missing_files in H. apply elem_of_flat_map in H as (nf & _ & H).
    destruct (snd nf); [now apply elem_of_nil in H|].
    apply list_elem_of_singleton in H. discriminate.
Qed.

(** Six files of which the rooms file has an exit labelled northeast. *)
Definition diagonal_files : Artifacts :=
  let file cfg := Some {| parsed := cfg; lines := [] |} in
  {| rooms_ini := file (Ini.mk [] [("a", [("northeast", "b")]); ("b", [])]);
     objects_ini := file Ini.empty;
     sprites_ini := file Ini.empty;
     transformations_ini := file Ini.empty;
     combat_ini := file Ini.empty;
     sd_ini := file Ini.empty |}.

Example verify_diagonal_files :
  ExitNotEngine "a" "northeast" ∈ errors (verify diagonal_files) /\
  is_valid (verify diagonal_files) = false.
Proof.
  split; [|vm_compute; reflexivity].
  apply (verify_flags diagonal_files {| parsed := Ini.mk [] [("a", [("northeast", "b")]); ("b", [])];
                                        lines := [] |} "a" "northeast");
    [reflexivity|left| |reflexivity|reflexivity].
  unfold INVALID_FOR_ENGINE. left.
Qed.

(** Six files as [configparser] writes them, of which the rooms file
    joins its two rooms by the exits ne and sw; the other five have no
    section. *)
Definition abbreviated_rooms : Ini.t :=
  Ini.mk [] [("a", [("ne", "b")]); ("b", [("sw", "a")])].

Definition abbreviated_files : Artifacts :=
  let file cfg := Some {| parsed := cfg; lines := Ini.render cfg |} in
  {| rooms_ini := file abbreviated_rooms;
     objects_ini := file Ini.empty;
     sprites_ini := file Ini.empty;
     transformations_ini := file Ini.empty;
     combat_ini := file Ini.empty;
     sd_ini := file Ini.empty |}.

(** C5, the claim as stated fails: the rooms file of [abbreviated_files]
    gives room a the exit ne and room b the exit sw; neither label is one
    of the six the engine reads, and [verify] reports no error: it looks
    for the six labels of [INVALID_FOR_ENGINE] only. *)
Lemma verify_passes_unlisted_labels :
  PyDict.get (Ini.section_dict abbreviated_rooms "a") "ne" = Some "b" /\
  PyDict.get (Ini.section_dict abbreviated_rooms "b") "sw" = Some "a" /\
  "ne" ∉ ENGINE_DIRECTIONS /\ "sw" ∉ ENGINE_DIRECTIONS /\
  (lines <$> rooms_ini abbreviated_files) = Some ["[a]"; "ne = b"; ""; "[b]"; "sw = a"; ""] /\
  errors (verify abbreviated_files) = [] /\
  is_valid (verify abbreviated_files) = true.
Proof.
  assert (Hne : forall x, x ∈ ENGINE_DIRECTIONS ->
                          bool_decide (x ∈ ["ne"; "sw"]) = false).
  { intros x Hx. unfold ENGINE_DIRECTIONS in Hx.
    repeat (apply elem_of_cons in Hx as [->|Hx]; [reflexivity|]).
    now apply elem_of_nil in Hx. }
  split_and!; try (vm_compute; reflexivity).
  - intros H. now apply Hne in H.
  - intros H. now apply Hne in H.
Qed.

(** C5: every exits mapping the room graph generator returns has its keys
    among north, south, east, west, up and down, whatever the arguments
    and the random draws; and the round-trip verifier never passes a set
    of files whose rooms file has a section with one of the keys
    northeast, northwest, southeast, southwest, enter, exit: when the six
    files exist it reports that section and that key.  These six are the
    only labels it reports as not read by the engine: a report names one
    of them, found as a key of the section it names. *)
Theorem exits_engine_directions_only :
  RoomGraph.ALL_DIRECTIONS = ENGINE_DIRECTIONS /\
  (forall rc td wn cn,
     post (RoomGraph.generate rc td wn cn)
          (fun rooms =>
             forall id room, (id, room) ∈ rooms ->
             forall k, k ∈ PyDict.keys (Room.exits room) -> k ∈ ENGINE_DIRECTIONS)) /\
  (forall a fr s dr,
     rooms_ini a = Some fr ->
     s ∈ Ini.sections (parsed fr) ->
     dr ∈ INVALID_FOR_ENGINE ->
     PyDict.mem (Ini.section_dict (parsed fr) s) dr = true ->
     is_valid (verify a) = false /\
     (missing_files a = [] -> ExitNotEngine s dr ∈ errors (verify a))) /\
  (forall a s dr,
     ExitNotEngine s dr ∈ errors (verify a) ->
     dr ∈ INVALID_FOR_ENGINE /\
     exists fr, rooms_ini a = Some fr /\ s ∈ Ini.sections (parsed fr) /\
                PyDict.mem (Ini.section_dict (parsed fr) s) dr = true).
Proof.
  split_and!.
  - reflexivity.
  - apply RoomGraphClaims.generate_exit_labels.
  - apply verify_flags.
  - apply verify_not_engine_listed.
Qed.
End VerifierFacts.

(* --------------------------------------------------------------------- *)
(** ** generator.py: a failing request *)
(* --------------------------------------------------------------------- *)

Module GeneratorExamples.
Import WorldModel ThemeEngine Random Validation Generator.

(** A request for five rooms named so that two identifiers collide. *)
Definition colliding_request : GeneratorRequest :=
  {| world_name := "W"; character_names := ["Igor"]; room_count := 5;
     physics_types := []; output_dir := "./generated_world"; custom_theme := None;
     sd_host := "127.0.0.1"; sd_port := 7860; sd_scene_suffix := "";
     sd_negative_prompt := "";
     custom_room_names := RoomGraphClaims.colliding_names;
     base_damage_override := None |}.

(** A writer that records nothing and a loader that finds nothing. *)
Definition no_write (w : WorldConfig.t) (dir : string) (fs : unit)
    : (exn + PyDict.t string) * unit := (inr [], fs).
Definition no_load (dir : string) (fs : unit) : exn + Artifacts := inl IndexError.

(** The world stages 1 to 8 build for that request on the tape that
    makes the collision show. *)
Definition colliding_world : WorldConfig.t :=
  match fst (build_world colliding_request RoomGraphClaims.colliding_tape) with
  | Ok w => w
  | _ => WorldConfig.make "" ORIGINAL
  end.

(** On that request the validator finds room "b" unreachable, and
    [generate] fails without a call to the writer. *)
Lemma validation_errors_fail_closed_witness :
  build_world colliding_request RoomGraphClaims.colliding_tape = (Ok colliding_world, []) /\
  validate colliding_world = Some {| errors := [Unreachable "b"]; warnings := [] |} /\
  exists res,
    generate unit no_write no_load colliding_request {| fs := tt; calls := [] |}
             RoomGraphClaims.colliding_tape
    = (Ok (res, {| fs := tt; calls := [] |}), []) /\
    success res = false /\
    validation_errors res = [Unreachable "b"] /\
    validation_warnings res = [] /\
    written_files res = [] /\
    world res = Some colliding_world.
Proof.
  split; [vm_compute; reflexivity|].
  split; [vm_compute; reflexivity|].
  apply (GeneratorFacts.validation_errors_fail_closed
           unit no_write no_load colliding_request {| fs := tt; calls := [] |}
           RoomGraphClaims.colliding_tape [] colliding_world
           {| errors := [Unreachable "b"]; warnings := [] |}).
  - vm_compute; reflexivity.
  - vm_compute; reflexivity.
  - simpl; discriminate.
Defined.
End GeneratorExamples.

(* --------------------------------------------------------------------- *)
(** ** physics_templates.py: cross-references *)
(* --------------------------------------------------------------------- *)

Module PyDictFacts3.
Import PyDictFacts PyDictFacts2.

Lemma elem_of_set {V} (d : PyDict.t V) k v k' v' :
  (k', v') ∈ PyDict.set d k v -> (k', v') ∈ d \/ (k' = k /\ v' = v).
Proof.
  induction d as [|[q x] d IH]; simpl.
  - intros H. apply list_elem_of_singleton in H as [= -> ->]. now right.
  - rewrite eqb_decide. case_bool_decide as Hq.
    + subst q. intros H. apply elem_of_cons in H as [[= -> ->]|H]; [now right|].
      left. now right.
    + intros H. apply elem_of_cons in H as [[= -> ->]|H]; [left; now left|].
      destruct (IH H) as [H'|H']; [left; now right|now right].
Qed.

Lemma keys_set_incl {V} (d : PyDict.t V) k v q :
  q ∈ PyDict.keys d -> q ∈ PyDict.keys (PyDict.set d k v).
Proof.
  rewrite keys_set. destruct (PyDict.mem d k); [auto|].
  intros H. apply elem_of_app. now left.
Qed.

Lemma elem_of_update {V} (e d : PyDict.t V) k v :
  (k, v) ∈ PyDict.update d e -> (k, v) ∈ d \/ (k, v) ∈ e.
Proof.
  unfold PyDict.update. revert d. induction e as [|[q x] e IH]; intros d; simpl.
  - now left.
  - intros H. destruct (IH _ H) as [H'|H'].
    + apply elem_of_set in H' as [H'|[-> ->]]; [now left|right; now left].
    + right. now right.
Qed.

Lemma keys_update_l {V} (e d : PyDict.t V) q :
  q ∈ PyDict.keys d -> q ∈ PyDict.keys (PyDict.update d e).
Proof.
  unfold PyDict.update. revert d. induction e as [|[k x] e IH]; intros d; simpl; [auto|].
  intros H. apply IH. now apply keys_set_incl.
Qed.

Lemma keys_set_key {V} (d : PyDict.t V) k v : k ∈ PyDict.keys (PyDict.set d k v).
Proof.
  rewrite keys_set. destruct (PyDict.mem d k) eqn:E.
  - unfold PyDict.mem in E. destruct (PyDict.get d k) eqn:G; [|discriminate].
    apply elem_of_keys. rewrite G. eauto.
  - apply elem_of_app. right. now left.
Qed.

Lemma keys_update_r {V} (e d : PyDict.t V) q :
  q ∈ PyDict.keys e -> q ∈ PyDict.keys (PyDict.update d e).
Proof.
  unfold PyDict.update. revert d. induction e as [|[k x] e IH]; intros d; simpl.
  - intros H. now apply elem_of_nil in H.
  - intros H. apply elem_of_cons in H as [->|H]; [|now apply IH].
    apply (keys_update_l e). apply keys_set_key.
Qed.
End PyDictFacts3.

Module PhysicsFacts.
Import WorldModel ThemeEngine Random RandomFacts Physics Validation ValidationFacts.
Import PyDictFacts PyDictFacts2 PyDictFacts3.

(** *** Cross-references *)

(** [ref] is empty or one of [ids]: the negation of the validator's
    [dangling]. *)
Definition ref_ok (ids : list string) (ref : string) : Prop :=
  PyStr.truthy ref = true -> ref ∈ ids.

(** The location of an object is no room at all ("none" or empty), a room
    of [rooms] or a container of [objs]. *)
Definition object_ok (rooms objs : list string) (o : GameObject.t) : Prop :=
  real_location (GameObject.location o) = true ->
  GameObject.location o ∈ rooms \/ GameObject.location o ∈ objs.

(** Subject, result and the two prerequisites of a transformation are
    among [objs], its destination among [rooms]. *)
Definition transformation_ok (rooms objs : list string) (x : Transformation.t) : Prop :=
  Transformation.object_id x ∈ objs /\
  ref_ok objs (Transformation.new_object_id x) /\
  ref_ok objs (Transformation.requires_object x) /\
  ref_ok objs (Transformation.requires_object_2 x) /\
  ref_ok rooms (Transformation.new_location x).

(** Every cross-reference of the package points at an object of the
    package or at a room of [rooms]. *)
Definition closed (rooms : list string) (pkg : PhysicsPackage.t) : Prop :=
  let objs := PyDict.keys (PhysicsPackage.objects pkg) in
  Forall (object_ok rooms objs) (PyDict.values (PhysicsPackage.objects pkg)) /\
  Forall (transformation_ok rooms objs) (PyDict.values (PhysicsPackage.transformations pkg)).

(** No object and no transformation of the world has an unresolved
    reference. *)
Definition resolved (w : WorldConfig.t) : Prop :=
  Forall (object_ok (WorldConfig.room_ids w) (WorldConfig.object_ids w))
         (PyDict.values (WorldConfig.objects w)) /\
  Forall (transformation_ok (WorldConfig.room_ids w) (WorldConfig.object_ids w))
         (PyDict.values (WorldConfig.transformations w)).

Lemma ref_ok_mono ids ids' ref :
  (forall x, x ∈ ids -> x ∈ ids') -> ref_ok ids ref -> ref_ok ids' ref.
Proof. unfold ref_ok. auto. Qed.

Lemma object_ok_mono rooms objs objs' o :
  (forall x, x ∈ objs -> x ∈ objs') -> object_ok rooms objs o -> object_ok rooms objs' o.
Proof. unfold object_ok. intros Hsub H Hreal. destruct (H Hreal); auto. Qed.

Lemma transformation_ok_mono rooms objs objs' x :
  (forall x, x ∈ objs -> x ∈ objs') ->
  transformation_ok rooms objs x -> transformation_ok rooms objs' x.
Proof.
  unfold transformation_ok. intros Hsub (H1 & H2 & H3 & H4 & H5).
  split_and!; eauto using ref_ok_mono.
Qed.

Lemma Forall_values_update {V} (P : V -> Prop) (d e : PyDict.t V) :
  Forall P (PyDict.values d) -> Forall P (PyDict.values e) ->
  Forall P (PyDict.values (PyDict.update d e)).
Proof.
  unfold PyDict.values. rewrite !Forall_forall. intros Hd He v Hv.
  apply list_elem_of_fmap in Hv as ([k v'] & -> & Hin). simpl.
  apply elem_of_update in Hin as [Hin|Hin].
  - apply Hd. apply list_elem_of_fmap. now exists (k, v').
  - apply He. apply list_elem_of_fmap. now exists (k, v').
Qed.

(** *** Injection *)

Lemma inject_rooms pkg w :
  WorldConfig.rooms (PhysicsPackage.inject pkg w) = WorldConfig.rooms w.
Proof. unfold PhysicsPackage.inject. now case_bool_decide. Qed.

Lemma inject_objects pkg w :
  WorldConfig.objects (PhysicsPackage.inject pkg w)
  = PyDict.update (WorldConfig.objects w) (PhysicsPackage.objects pkg).
Proof. unfold PhysicsPackage.inject. now case_bool_decide. Qed.

Lemma inject_transformations pkg w :
  WorldConfig.transformations (PhysicsPackage.inject pkg w)
  = PyDict.update (WorldConfig.transformations w) (PhysicsPackage.transformations pkg).
Proof. unfold PhysicsPackage.inject. now case_bool_decide. Qed.

Lemma inject_resolved pkg w :
  closed (WorldConfig.room_ids w) pkg -> resolved w ->
  resolved (PhysicsPackage.inject pkg w).
Proof.
  intros [Ho Hx] [Hwo Hwx]. unfold resolved, WorldConfig.room_ids, WorldConfig.object_ids.
  rewrite inject_rooms, inject_objects, inject_transformations.
  split; apply Forall_values_update.
  - eapply Forall_impl; [exact Hwo|]. intros o. apply object_ok_mono, keys_update_l.
  - eapply Forall_impl; [exact Ho|]. intros o. apply object_ok_mono, keys_update_r.
  - eapply Forall_impl; [exact Hwx|]. intros o. apply transformation_ok_mono, keys_update_l.
  - eapply Forall_impl; [exact Hx|]. intros o. apply transformation_ok_mono, keys_update_r.
Qed.

(** *** What the validator makes of a resolved world *)

Lemma flat_map_nil {A B} (f : A -> list B) (l : list A) :
  (forall x, x ∈ l -> f x = []) -> flat_map f l = [].
Proof.
  induction l as [|x l IH]; intros H; simpl; [reflexivity|].
  rewrite (H x) by left. apply IH. intros y Hy. apply H. now right.
Qed.

Lemma not_dangling ids ref : ref_ok ids ref -> dangling ref ids = false.
Proof.
  unfold ref_ok, dangling. destruct (PyStr.truthy ref); [|reflexivity].
  intros H. simpl. apply bool_decide_eq_false. intros Hn. now apply Hn, H.
Qed.

Lemma resolved_transformation w kv :
  resolved w -> kv ∈ WorldConfig.transformations w ->
  transformation_ok (WorldConfig.room_ids w) (WorldConfig.object_ids w) (snd kv).
Proof.
  intros [_ H] Hin. rewrite Forall_forall in H. apply H.
  unfold PyDict.values. apply list_elem_of_fmap. now exists kv.
Qed.

Lemma resolved_validates w :
  resolved w ->
  check_transform_object w = [] /\
  check_transform_new_object w = [] /\
  check_transform_requires w = [] /\
  check_transform_new_location w = [] /\
  forall oid loc, ObjectLocationMissing oid loc ∉ check_object_locations w.
Proof.
  intros Hres. split_and!.
  - apply flat_map_nil. intros kv Hkv.
    destruct (resolved_transformation w kv Hres Hkv) as (H & _).
    now rewrite bool_decide_eq_true_2.
  - apply flat_map_nil. intros kv Hkv.
    destruct (resolved_transformation w kv Hres Hkv) as (_ & H & _).
    now rewrite not_dangling.
  - apply flat_map_nil. intros kv Hkv.
    destruct (resolved_transformation w kv Hres Hkv) as (_ & _ & H1 & H2 & _).
    now rewrite !not_dangling.
  - apply flat_map_nil. intros kv Hkv.
    destruct (resolved_transformation w kv Hres Hkv) as (_ & _ & _ & _ & H).
    now rewrite not_dangling.
  - intros oid loc Hin. unfold check_object_locations in Hin.
    apply elem_of_flat_map in Hin as (kv & Hkv & Hin).
    destruct Hres as [Ho _]. rewrite Forall_forall in Ho.
    assert (Hok : object_ok (WorldConfig.room_ids w) (WorldConfig.object_ids w) (snd kv)).
    { apply Ho. unfold PyDict.values. apply list_elem_of_fmap. now exists kv. }
    cbv zeta in Hin.
    destruct (real_location (GameObject.location (snd kv))) eqn:Hreal;
      [|now apply elem_of_nil in Hin].
    specialize (Hok Hreal).
    destruct (bool_decide (GameObject.location kv.2 ∉ WorldConfig.room_ids w)
              && bool_decide (GameObject.location kv.2 ∉ WorldConfig.object_ids w)) eqn:E.
    + apply andb_true_iff in E as [E1 E2].
      apply bool_decide_eq_true in E1, E2. destruct Hok; contradiction.
    + case_bool_decide; [|now apply elem_of_nil in Hin].
      destruct (PyDict.get (WorldConfig.objects w) (GameObject.location kv.2));
        [|now apply elem_of_nil in Hin].
      destruct (GameObject.is_container _); [now apply elem_of_nil in Hin|].
      apply list_elem_of_singleton in Hin. discriminate.
Qed.
End PhysicsFacts.

(* --------------------------------------------------------------------- *)
(** ** physics_templates.py: the twelve builders *)
(* --------------------------------------------------------------------- *)

Module PhysicsBuilders.
Import WorldModel ThemeEngine Random RandomFacts Physics Validation ValidationFacts.
Import PyDictFacts PyDictFacts2 PyDictFacts3 PhysicsFacts.

(** *** Picking a room *)

Lemma random_room_ok w :
  WorldConfig.rooms w <> [] ->
  post (_random_room w) (fun r => r ∈ WorldConfig.room_ids w).
Proof.
  intros Hne. apply choice_ok. unfold WorldConfig.room_ids, PyDict.keys.
  destruct (WorldConfig.rooms w); [contradiction|done].
Qed.

Lemma py_index_ok {A} (l : list A) (i : Z) :
  (- Z.of_nat (length l) <= i < Z.of_nat (length l))%Z ->
  post (py_index l i) (fun a => a ∈ l).
Proof.
  intros Hi. unfold py_index. destruct (i <? 0)%Z eqn:Eneg.
  - apply Z.ltb_lt in Eneg.
    destruct (Z.of_nat (length l) + i <? 0)%Z eqn:E; [apply Z.ltb_lt in E; lia|].
    eapply post_mono; [apply index_ok; lia|]. intros a Ha.
    eapply list_elem_of_lookup_2, Ha.
  - apply Z.ltb_ge in Eneg.
    eapply post_mono; [apply index_ok; lia|]. intros a Ha.
    eapply list_elem_of_lookup_2, Ha.
Qed.

Lemma room_ids_length w :
  WorldConfig.rooms w <> [] -> 0 < length (PyDict.keys (WorldConfig.rooms w)).
Proof.
  unfold PyDict.keys. destruct (WorldConfig.rooms w); [contradiction|simpl; lia].
Qed.

Lemma locked_room_ok w :
  WorldConfig.rooms w <> [] ->
  post (py_index (PyDict.keys (WorldConfig.rooms w))
                 (Z.min 2 (Z.of_nat (length (PyDict.keys (WorldConfig.rooms w))) - 1)))
       (fun r => r ∈ WorldConfig.room_ids w).
Proof.
  intros Hne. apply room_ids_length in Hne. unfold WorldConfig.room_ids.
  apply py_index_ok. lia.
Qed.

Lemma dest_room_ok w :
  WorldConfig.rooms w <> [] ->
  post (if 1 <? length (PyDict.keys (WorldConfig.rooms w))
        then py_index (PyDict.keys (WorldConfig.rooms w)) (-1)
        else py_index (PyDict.keys (WorldConfig.rooms w)) 0)
       (fun r => r ∈ WorldConfig.room_ids w).
Proof.
  intros Hne. apply room_ids_length in Hne. unfold WorldConfig.room_ids.
  destruct (1 <? _); apply py_index_ok; lia.
Qed.

Lemma dict_get_ok {V} (d : PyDict.t V) k :
  k ∈ PyDict.keys d -> post (dict_get d k) (fun _ => True).
Proof.
  intros Hk. apply elem_of_keys in Hk as [v Hv]. unfold dict_get. rewrite Hv.
  now apply post_ret.
Qed.

(** *** Room properties *)

Lemma set_room_property_spec w room k v :
  WorldConfig.room_ids (set_room_property w room k v) = WorldConfig.room_ids w /\
  WorldConfig.objects (set_room_property w room k v) = WorldConfig.objects w /\
  WorldConfig.transformations (set_room_property w room k v)
  = WorldConfig.transformations w.
Proof.
  unfold set_room_property, WorldConfig.room_ids.
  destruct (PyDict.get (WorldConfig.rooms w) room) eqn:E; [|auto].
  simpl. split_and!; try reflexivity.
  rewrite keys_set. unfold PyDict.mem. now rewrite E.
Qed.

(** What a builder owes: a closed package, and a world that differs from
    the one it was given in room properties only. *)
Definition built (w : WorldConfig.t) (r : PhysicsPackage.t * WorldConfig.t) : Prop :=
  closed (WorldConfig.room_ids w) (fst r) /\
  WorldConfig.room_ids (snd r) = WorldConfig.room_ids w /\
  WorldConfig.objects (snd r) = WorldConfig.objects w /\
  WorldConfig.transformations (snd r) = WorldConfig.transformations w.

Ltac pick_room :=
  first [ apply random_room_ok; assumption
        | apply locked_room_ok; assumption
        | apply dest_room_ok; assumption
        | apply dict_get_ok; assumption ].

Ltac in_literal :=
  repeat first [ apply list_elem_of_here | apply list_elem_of_further ].

Ltac location_ok :=
  let H := fresh in
  intros H;
  first [ left; assumption
        | right; solve [in_literal]
        | vm_compute in H; discriminate H ].

Ltac reference_ok :=
  let H := fresh in
  intros H;
  first [ assumption
        | solve [in_literal]
        | vm_compute in H; discriminate H ].

Ltac world_unchanged :=
  first [ reflexivity | apply set_room_property_spec ].

Ltac each :=
  repeat (lazymatch goal with
          | |- Forall _ (_ :: _) => apply Forall_cons_2
          | |- Forall _ [] => apply Forall_nil_2
          end).

Ltac builder :=
  cbv zeta;
  repeat (lazymatch goal with
          | |- post (_ ≫= _) _ => eapply post_bind; [pick_room|intros ? ?]
          end);
  apply post_ret;
  unfold built, closed; cbn [fst snd];
  split_and!;
  [ cbn; each; unfold object_ok; cbn [GameObject.location]; location_ok
  | cbn; each; unfold transformation_ok;
    cbn [Transformation.object_id Transformation.new_object_id
         Transformation.requires_object Transformation.requires_object_2
         Transformation.new_location];
    (split_and!; [solve [in_literal]|unfold ref_ok; reference_ok..])
  | world_unchanged | world_unchanged | world_unchanged ].

Section builders.
Variable w : WorldConfig.t.
Variable theme : ThemeDefaults.
Hypothesis Hne : WorldConfig.rooms w <> [].

Lemma build_energy_ok : post (_build_energy w theme) (built w).
Proof. unfold _build_energy. builder. Qed.

Lemma build_lock_key_ok : post (_build_lock_key w theme) (built w).
Proof. unfold _build_lock_key. builder. Qed.

Lemma build_crafting_ok : post (_build_crafting w theme) (built w).
Proof. unfold _build_crafting. builder. Qed.

Lemma build_teleportation_ok : post (_build_teleportation w theme) (built w).
Proof. unfold _build_teleportation. builder. Qed.

Lemma build_temperature_ok : post (_build_temperature w theme) (built w).
Proof. unfold _build_temperature. builder. Qed.

Lemma build_disguise_ok : post (_build_disguise w theme) (built w).
Proof. unfold _build_disguise. builder. Qed.

Lemma build_explosives_ok : post (_build_explosives w theme) (built w).
Proof. unfold _build_explosives. builder. Qed.

Lemma build_bribery_ok : post (_build_bribery w theme) (built w).
Proof. unfold _build_bribery. builder. Qed.

Lemma build_magic_ok : post (_build_magic w theme) (built w).
Proof. unfold _build_magic. builder. Qed.

Lemma build_medical_ok : post (_build_medical w theme) (built w).
Proof. unfold _build_medical. builder. Qed.

Lemma build_growth_ok : post (_build_growth w theme) (built w).
Proof. unfold _build_growth. builder. Qed.

Lemma build_alien_tech_ok : post (_build_alien_tech w theme) (built w).
Proof. unfold _build_alien_tech. builder. Qed.
End builders.
End PhysicsBuilders.

(* --------------------------------------------------------------------- *)
(** ** physics_templates.py: the claim *)
(* --------------------------------------------------------------------- *)

Module PhysicsClaims.
Import WorldModel ThemeEngine Random RandomFacts Physics Validation ValidationFacts.
Import PhysicsFacts PhysicsBuilders.

Lemma get_package_built t w theme :
  WorldConfig.rooms w <> [] -> post (get_package t w theme) (built w).
Proof.
  intros Hne. destruct t; simpl.
  - now apply build_temperature_ok.
  - now apply build_energy_ok.
  - now apply build_lock_key_ok.
  - now apply build_crafting_ok.
  - now apply build_teleportation_ok.
  - now apply build_disguise_ok.
  - now apply build_explosives_ok.
  - now apply build_bribery_ok.
  - now apply build_magic_ok.
  - now apply build_medical_ok.
  - now apply build_growth_ok.
  - now apply build_alien_tech_ok.
Qed.

Lemma built_inject_resolved w r :
  built w r -> resolved w -> resolved (PhysicsPackage.inject (fst r) (snd r)).
Proof.
  intros (Hc & Hr & Ho & Hx) [H1 H2]. apply inject_resolved.
  - now rewrite Hr.
  - unfold resolved, WorldConfig.object_ids. now rewrite Hr, Ho, Hx.
Qed.

(** The validator's reference checks on objects and transformations find
    nothing missing. *)
Definition no_missing_reference (w : WorldConfig.t) : Prop :=
  check_transform_object w = [] /\
  check_transform_new_object w = [] /\
  check_transform_requires w = [] /\
  check_transform_new_location w = [] /\
  forall oid loc, ObjectLocationMissing oid loc ∉ check_object_locations w.

(** A world of one room and nothing else. *)
Definition one_room_world : WorldConfig.t :=
  WorldConfig.with_rooms (WorldConfig.make "W" ORIGINAL)
    [("entrance", Room.mk "entrance" "Entrance" "The way in." [] [] true)].

(** C6: in a world that has a room, each of the twelve builders returns,
    whatever the random draws, a package in which every object location
    is "none", a room of the world or an object of the package, and every
    transformation has its subject, result and prerequisites among the
    objects of the package and its destination among the rooms of the
    world; the builder changes room properties only.  If the world had no
    unresolved reference, it has none after the package is injected, and
    the validator's reference checks on it find nothing missing; the same
    holds for one round of the generator's physics loop. *)
Theorem physics_packages_closed (t : PhysicsType) (w : WorldConfig.t)
    (theme : ThemeDefaults) :
  WorldConfig.rooms w <> [] ->
  post (get_package t w theme)
       (fun r =>
          closed (WorldConfig.room_ids w) (fst r) /\
          WorldConfig.room_ids (snd r) = WorldConfig.room_ids w /\
          WorldConfig.objects (snd r) = WorldConfig.objects w /\
          WorldConfig.transformations (snd r) = WorldConfig.transformations w /\
          (resolved w ->
           resolved (PhysicsPackage.inject (fst r) (snd r)) /\
           no_missing_reference (PhysicsPackage.inject (fst r) (snd r)))) /\
  post (Generator.apply_physics theme w t)
       (fun w' => resolved w -> resolved w' /\ no_missing_reference w').
Proof.
  intros Hne. split.
  - eapply post_mono; [apply get_package_built, Hne|].
    intros r Hb. pose proof Hb as (Hc & Hr & Ho & Hx). split_and!; try assumption.
    intros Hres. pose proof (built_inject_resolved w r Hb Hres) as H.
    split; [exact H|]. now apply resolved_validates.
  - unfold Generator.apply_physics.
    eapply post_bind; [apply get_package_built, Hne|].
    intros [pkg w'] Hb. apply post_ret. intros Hres.
    pose proof (built_inject_resolved w (pkg, w') Hb Hres) as H.
    split; [exact H|]. now apply resolved_validates.
Qed.

(** The teleportation package in the one-room world. *)
Lemma physics_packages_closed_witness :
  WorldConfig.rooms one_room_world <> [] /\
  resolved one_room_world /\
  post (get_package TELEPORTATION one_room_world defaults_ORIGINAL)
       (fun r =>
          closed (WorldConfig.room_ids one_room_world) (fst r) /\
          WorldConfig.room_ids (snd r) = WorldConfig.room_ids one_room_world /\
          WorldConfig.objects (snd r) = WorldConfig.objects one_room_world /\
          WorldConfig.transformations (snd r)
          = WorldConfig.transformations one_room_world /\
          (resolved one_room_world ->
           resolved (PhysicsPackage.inject (fst r) (snd r)) /\
           no_missing_reference (PhysicsPackage.inject (fst r) (snd r)))) /\
  post (Generator.apply_physics defaults_ORIGINAL one_room_world TELEPORTATION)
       (fun w' => resolved one_room_world -> resolved w' /\ no_missing_reference w').
Proof.
  split; [simpl; discriminate|].
  split; [split; simpl; constructor|].
  apply (physics_packages_closed TELEPORTATION one_room_world defaults_ORIGINAL).
  simpl; discriminate.
Defined.
End PhysicsClaims.

(* --------------------------------------------------------------------- *)
(** ** sprite_factory.py: spawn rooms *)
(* --------------------------------------------------------------------- *)

Module SpriteFacts.
Import WorldModel ThemeEngine Random RandomFacts SpriteFactory.
Import PyDictFacts PyDictFacts2 PyDictFacts3.

(** *** [dict.fromkeys] *)

Lemma fromkeys_incl seen l x : x ∈ fromkeys seen l -> x ∈ l.
Proof.
  revert seen. induction l as [|y l IH]; intros seen; simpl; [auto|].
  case_bool_decide.
  - intros H'. right. eapply IH, H'.
  - intros H'. apply elem_of_cons in H' as [->|H']; [left|right; eapply IH, H'].
Qed.

Lemma fromkeys_length seen l : length (fromkeys seen l) <= length l.
Proof.
  revert seen. induction l as [|y l IH]; intros seen; simpl; [lia|].
  case_bool_decide; simpl.
  - specialize (IH seen). lia.
  - specialize (IH (y :: seen)). lia.
Qed.

Lemma fromkeys_first x l : 1 <= length (fromkeys [] (x :: l)).
Proof.
  cbn [fromkeys]. case_bool_decide as H; [now apply elem_of_nil in H|simpl; lia].
Qed.

(** *** Spawn rooms *)

(** One or two rooms, each a room of [room_ids]. *)
Definition spawn_ok (room_ids spawn : list string) : Prop :=
  1 <= length spawn <= 2 /\ forall r, r ∈ spawn -> r ∈ room_ids.

Lemma assign_spawn_rooms_ok idx total room_ids :
  room_ids <> [] -> spawn_ok room_ids (_assign_spawn_rooms idx total room_ids).
Proof.
  intros Hne. unfold _assign_spawn_rooms.
  destruct room_ids as [|r0 rest] eqn:E; [contradiction|]. rewrite <- E.
  assert (Hlen : 0 < length room_ids) by (rewrite E; simpl; lia).
  clear E Hne.
  set (rooms_per := Nat.max 1 (length room_ids / Nat.max 1 total)).
  set (start := (idx * rooms_per) mod length room_ids).
  set (pick := fun j => default "" (room_ids !! ((start + j) mod length room_ids))).
  assert (Hpick : forall j, pick j ∈ room_ids).
  { intros j. unfold pick.
    destruct (lookup_lt_is_Some_2 room_ids ((start + j) mod length room_ids)) as [r Hr].
    - apply Nat.mod_upper_bound. lia.
    - rewrite Hr. simpl. eapply list_elem_of_lookup_2, Hr. }
  assert (Hn : 1 <= Nat.min 2 rooms_per <= 2) by (unfold rooms_per; lia).
  split.
  - split.
    + destruct (Nat.min 2 rooms_per) as [|n] eqn:En; [lia|].
      cbn [seq fmap list_fmap]. apply fromkeys_first.
    + etransitivity; [apply fromkeys_length|]. rewrite length_fmap, length_seq. lia.
  - intros r Hr. apply fromkeys_incl in Hr.
    apply list_elem_of_fmap in Hr as (j & -> & _). apply Hpick.
Qed.

(** *** Loot *)

Lemma assign_loot_ok world role : post (_assign_loot world role) (fun _ => True).
Proof.
  unfold _assign_loot. destruct (WorldConfig.objects world) as [|o objects] eqn:Eo;
    [now apply post_ret|].
  cbv zeta.
  destruct (fst <$> filter _ (o :: objects)) as [|c cs] eqn:Ec; [now apply post_ret|].
  destruct (bool_decide (role = BOSS) && negb (bool_decide (_ = []))) eqn:Eb.
  - apply andb_true_iff in Eb as [_ Eb]. apply negb_true_iff in Eb.
    apply bool_decide_eq_false in Eb.
    eapply post_mono; [apply choice_ok, Eb|]. auto.
  - eapply post_mono; [apply choice_ok; discriminate|]. auto.
Qed.
End SpriteFacts.

(* ===================================================================== *)
(** * Part III: further properties of the code *)
(* ===================================================================== *)

(* --------------------------------------------------------------------- *)
(** ** Strings: character-wise facts *)
(* --------------------------------------------------------------------- *)

Module PyStrFacts.
Import PyStr.

(** Every character of the string passes the test. *)
Fixpoint all_chars (p : ascii -> bool) (s : string) : bool :=
  match s with
  | EmptyString => true
  | String c s' => p c && all_chars p s'
  end.

Definition is_digit (c : ascii) : bool :=
  (48 <=? nat_of_ascii c) && (nat_of_ascii c <=? 57).

Lemma all_chars_app p a b : all_chars p (a +:+ b) = all_chars p a && all_chars p b.
Proof.
  induction a as [|c a IH]; [reflexivity|].
  change (String c a +:+ b) with (String c (a +:+ b)). cbn [all_chars].
  rewrite IH. now rewrite andb_assoc.
Qed.

Lemma all_chars_impl (p q : ascii -> bool) s :
  (forall c, p c = true -> q c = true) -> all_chars p s = true -> all_chars q s = true.
Proof.
  intros Hpq. induction s as [|c s IH]; simpl; [auto|].
  intros H. apply andb_true_iff in H as [H1 H2]. rewrite (Hpq c H1). simpl. auto.
Qed.

(** A statement about every character, settled by running through the
    256 of them. *)
Lemma forall_ascii (p : ascii -> bool) :
  forallb p (ascii_of_nat <$> seq 0 256) = true -> forall c, p c = true.
Proof.
  intros H c. rewrite forallb_forall in H. apply H.
  apply list_elem_of_In, list_elem_of_fmap. exists (nat_of_ascii c). split.
  - now rewrite ascii_nat_embedding.
  - apply elem_of_seq. pose proof (nat_ascii_bounded c). lia.
Qed.

Lemma pretty_N_char_digit x : (x < 10)%N -> is_digit (pretty_N_char x) = true.
Proof.
  intros _. unfold pretty_N_char. repeat case_match; reflexivity.
Qed.

Lemma pretty_N_go_digits x : forall s,
  all_chars is_digit s = true -> all_chars is_digit (pretty_N_go x s) = true.
Proof.
  induction (N.lt_wf_0 x) as [x _ IH]. intros s Hs.
  destruct (decide (x = 0)%N) as [->|Hx]; [now rewrite pretty_N_go_0|].
  rewrite pretty_N_go_step by lia. apply IH.
  - apply N.div_lt; lia.
  - simpl. rewrite Hs, pretty_N_char_digit; [reflexivity|]. apply N.mod_lt. lia.
Qed.

Lemma pretty_N_go_nonempty x : forall s, s <> "" -> pretty_N_go x s <> "".
Proof.
  induction (N.lt_wf_0 x) as [x _ IH]. intros s Hs.
  destruct (decide (x = 0)%N) as [->|Hx]; [now rewrite pretty_N_go_0|].
  rewrite pretty_N_go_step by lia. apply IH; [apply N.div_lt; lia|discriminate].
Qed.

(** [str(n)] is a non-empty string of digits. *)
Lemma of_nat_digits n : all_chars is_digit (of_nat n) = true.
Proof.
  unfold of_nat, pretty, pretty_nat, pretty, pretty_N.
  case_decide; [reflexivity|]. now apply pretty_N_go_digits.
Qed.

Lemma of_nat_nonempty n : of_nat n <> "".
Proof.
  unfold of_nat, pretty, pretty_nat, pretty, pretty_N.
  case_decide as H; [discriminate|].
  rewrite pretty_N_go_step by lia. apply pretty_N_go_nonempty. discriminate.
Qed.

Lemma of_nat_inj n m : of_nat n = of_nat m -> n = m.
Proof. apply pretty_nat_inj. Qed.

(** *** Character-wise functions *)

Lemma append_cons (x : ascii) (a b : string) : String x a +:+ b = String x (a +:+ b).
Proof. reflexivity. Qed.

Lemma append_nil_l (a : string) : "" +:+ a = a.
Proof. reflexivity. Qed.

Lemma map_chars_app f a b : map_chars f (a +:+ b) = map_chars f a +:+ map_chars f b.
Proof.
  induction a as [|c a IH]; [reflexivity|].
  rewrite append_cons. cbn [map_chars]. now rewrite IH.
Qed.

Lemma append_assoc (a b c : string) : (a +:+ b) +:+ c = a +:+ (b +:+ c).
Proof. induction a as [|x a IH]; [reflexivity|]. now rewrite !append_cons, IH. Qed.


Lemma replace_char_app c r a b :
  replace_char c r (a +:+ b) = replace_char c r a +:+ replace_char c r b.
Proof.
  induction a as [|x a IH]; [reflexivity|].
  rewrite append_cons. cbn [replace_char].
  destruct (Ascii.eqb x c); rewrite IH; [symmetry; apply append_assoc|reflexivity].
Qed.

Lemma all_chars_id p s : all_chars p s = true -> forall f,
  (forall c, p c = true -> f c = c) -> map_chars f s = s.
Proof.
  induction s as [|c s IH]; simpl; [reflexivity|].
  intros H f Hf. apply andb_true_iff in H as [H1 H2].
  now rewrite (Hf c H1), (IH H2 f Hf).
Qed.

Lemma replace_char_absent c r s :
  all_chars (fun x => negb (Ascii.eqb x c)) s = true -> replace_char c r s = s.
Proof.
  induction s as [|x s IH]; simpl; [reflexivity|].
  intros H. apply andb_true_iff in H as [H1 H2].
  apply negb_true_iff in H1. rewrite H1. now rewrite IH.
Qed.

(** *** Percent signs *)

Lemma escape_pct_starts s :
  starts_with_pct (escape_pct_from true s) = starts_with_pct s.
Proof.
  destruct s as [|c s]; simpl; [reflexivity|].
  destruct (Ascii.eqb c pct) eqn:Ec; simpl; exact Ec.
Qed.

Lemma escape_pct_no_bare s : forall prev,
  has_bare_pct_from prev (escape_pct_from prev s) = false.
Proof.
  induction s as [|c s IH]; intros prev; [reflexivity|].
  cbn [escape_pct_from].
  destruct (Ascii.eqb c pct) eqn:Ec.
  - destruct (negb prev && negb (starts_with_pct s)) eqn:Eb.
    + apply andb_true_iff in Eb as [Hp _]. apply negb_true_iff in Hp. subst prev.
      cbn [has_bare_pct_from starts_with_pct]. rewrite Ascii.eqb_refl.
      cbn [negb andb orb]. apply IH.
    + cbn [has_bare_pct_from]. rewrite Ec, IH, orb_false_r, escape_pct_starts.
      exact Eb.
  - cbn [has_bare_pct_from]. rewrite Ec. apply IH.
Qed.

Lemma escape_pct_clean s : forall prev,
  has_bare_pct_from prev s = false -> escape_pct_from prev s = s.
Proof.
  induction s as [|c s IH]; intros prev; simpl; [reflexivity|].
  destruct (Ascii.eqb c pct) eqn:Ec.
  - intros H. apply orb_false_iff in H as [H1 H2]. rewrite H1. now rewrite IH.
  - intros H. now rewrite IH.
Qed.
End PyStrFacts.

(* --------------------------------------------------------------------- *)
(** ** Strings: blank texts and percent signs *)
(* --------------------------------------------------------------------- *)

Module TextFacts.
Import PyStr PyStrFacts.

(** *** Blank strings *)

Lemma all_chars_forallb p s : all_chars p s = forallb p (list_ascii_of_string s).
Proof. induction s as [|c s IH]; simpl; [reflexivity|]. now rewrite IH. Qed.

Lemma forallb_rev {A} (p : A -> bool) (l : list A) : forallb p (List.rev l) = forallb p l.
Proof.
  induction l as [|x l IH]; simpl; [reflexivity|].
  rewrite forallb_app, IH. simpl. rewrite andb_true_r. apply andb_comm.
Qed.

Lemma all_chars_rev p s : all_chars p (rev s) = all_chars p s.
Proof.
  unfold rev. rewrite !all_chars_forallb, list_ascii_of_string_of_list_ascii.
  apply forallb_rev.
Qed.

Lemma all_chars_lstrip s : all_chars is_space (lstrip s) = all_chars is_space s.
Proof.
  induction s as [|c s IH]; [reflexivity|]. cbn [lstrip].
  destruct (is_space c) eqn:E; [|reflexivity]. cbn [all_chars]. now rewrite E, IH.
Qed.

Lemma lstrip_empty s : lstrip s = "" <-> all_chars is_space s = true.
Proof.
  induction s as [|c s IH]; [easy|]. cbn [lstrip all_chars].
  destruct (is_space c); [exact IH|]. simpl. split; discriminate.
Qed.

Lemma rev_empty s : rev s = "" <-> s = "".
Proof.
  split; [|now intros ->]. unfold rev. intros H.
  destruct s as [|c s]; [reflexivity|]. exfalso.
  cbn [list_ascii_of_string List.rev] in H.
  destruct (List.rev (list_ascii_of_string s)); discriminate H.
Qed.

Lemma all_chars_strip s : all_chars is_space (strip s) = all_chars is_space s.
Proof.
  unfold strip, rstrip. now rewrite all_chars_rev, all_chars_lstrip, all_chars_rev, all_chars_lstrip.
Qed.

(** [s.strip()] is empty exactly when [s] holds nothing but white space. *)
Lemma strip_empty s : strip s = "" <-> all_chars is_space s = true.
Proof.
  unfold strip, rstrip. rewrite rev_empty, lstrip_empty, all_chars_rev, all_chars_lstrip.
  reflexivity.
Qed.

Lemma truthy_false s : truthy s = false <-> s = "".
Proof.
  unfold truthy. rewrite negb_false_iff. apply String.eqb_eq.
Qed.

Lemma truthy_true s : truthy s = true <-> s <> "".
Proof.
  unfold truthy. rewrite negb_true_iff. apply String.eqb_neq.
Qed.

Lemma truthy_strip s : truthy (strip s) = negb (all_chars is_space s).
Proof.
  destruct (all_chars is_space s) eqn:E; simpl.
  - apply truthy_false, strip_empty, E.
  - apply truthy_true. intros H. apply strip_empty in H. congruence.
Qed.

(** *** Percent signs *)

Definition not_pct (c : ascii) : bool := negb (Ascii.eqb c pct).

(** A text without any percent sign. *)
Definition no_pct (s : string) : bool := all_chars not_pct s.

Lemma no_pct_from s : forall prev, no_pct s = true -> has_bare_pct_from prev s = false.
Proof.
  induction s as [|c s IH]; intros prev; [reflexivity|].
  unfold no_pct. cbn [all_chars has_bare_pct_from]. intros H.
  apply andb_true_iff in H as [Hc Hs]. unfold not_pct in Hc.
  apply negb_true_iff in Hc. rewrite Hc. now apply IH.
Qed.

Lemma no_pct_no_bare s : no_pct s = true -> has_bare_pct s = false.
Proof. apply no_pct_from. Qed.

Lemma no_pct_app a b : no_pct (a +:+ b) = no_pct a && no_pct b.
Proof. apply all_chars_app. Qed.

Lemma starts_with_pct_app s t :
  starts_with_pct t = false -> starts_with_pct (s +:+ t) = starts_with_pct s.
Proof. destruct s as [|c s]; [rewrite append_nil_l; now intros ->|reflexivity]. Qed.

(** Appending a text that has no percent sign keeps the bare percent
    signs as they are. *)
Lemma bare_pct_app_tail s t : forall prev,
  no_pct t = true ->
  has_bare_pct_from prev (s +:+ t) = has_bare_pct_from prev s.
Proof.
  intros prev Ht. revert prev. induction s as [|c s IH]; intros prev.
  - rewrite append_nil_l. now apply no_pct_from.
  - rewrite append_cons. cbn [has_bare_pct_from]. rewrite !IH.
    rewrite starts_with_pct_app; [reflexivity|].
    destruct t as [|x t]; [reflexivity|]. unfold no_pct in Ht. cbn in Ht.
    apply andb_true_iff in Ht as [Hx _]. unfold not_pct in Hx.
    now apply negb_true_iff in Hx.
Qed.

(** Prepending a text that has no percent sign does the same. *)
Lemma bare_pct_app_head s t : forall prev,
  no_pct s = true -> s <> "" ->
  has_bare_pct_from prev (s +:+ t) = has_bare_pct t.
Proof.
  induction s as [|c s IH]; intros prev Hs Hne; [contradiction|].
  rewrite append_cons. unfold no_pct in Hs. cbn [all_chars] in Hs.
  apply andb_true_iff in Hs as [Hc Hs]. unfold not_pct in Hc. apply negb_true_iff in Hc.
  cbn [has_bare_pct_from]. rewrite Hc.
  destruct s as [|c' s]; [now rewrite append_nil_l|].
  now apply IH.
Qed.

Lemma digit_not_pct c : is_digit c = true -> not_pct c = true.
Proof.
  intros H.
  assert (Hall : forall x, implb (is_digit x) (not_pct x) = true)
    by (apply forall_ascii; vm_compute; reflexivity).
  specialize (Hall c). now rewrite H in Hall.
Qed.

Lemma of_nat_no_pct n : no_pct (of_nat n) = true.
Proof. eapply all_chars_impl; [apply digit_not_pct|apply of_nat_digits]. Qed.

Lemma of_Z_no_pct z : no_pct (of_Z z) = true.
Proof.
  unfold of_Z, pretty, pretty_Z.
  assert (HN : forall n : N, no_pct (pretty n) = true).
  { intros n. unfold pretty, pretty_N. case_decide; [reflexivity|].
    eapply all_chars_impl; [apply digit_not_pct|]. now apply pretty_N_go_digits. }
  destruct z as [|p|p]; [reflexivity|exact (HN (N.pos p))|].
  rewrite no_pct_app. exact (HN (N.pos p)).
Qed.

Lemma join_no_pct sep l :
  no_pct sep = true -> Forall (fun s => no_pct s = true) l -> no_pct (join sep l) = true.
Proof.
  intros Hsep. induction 1 as [|x l Hx Hl IH]; [reflexivity|].
  cbn [join]. destruct l as [|y l]; [exact Hx|].
  rewrite !no_pct_app, Hx, Hsep. exact IH.
Qed.


(** [not s.strip()] holds exactly for the strings of white space. *)
Lemma blank_spaces s : Validation.blank s = all_chars is_space s.
Proof. unfold Validation.blank. now rewrite truthy_strip, negb_involutive. Qed.

Lemma blank_app a b : Validation.blank (a +:+ b) = Validation.blank a && Validation.blank b.
Proof. rewrite !blank_spaces. apply all_chars_app. Qed.
End TextFacts.

(* --------------------------------------------------------------------- *)
(** ** room_graph.py: identifiers and descriptions *)
(* --------------------------------------------------------------------- *)

Module RoomGraphText.
Import WorldModel ThemeEngine Random RandomFacts RoomGraph PyStr PyStrFacts.

(** *** [_escape_percent] *)

(** [_escape_percent] leaves no percent sign that the validator's pattern
    [(?<!%)%(?!%)] would find, changes nothing in a text that has none,
    and so does nothing when applied a second time. *)
Theorem escape_percent_no_bare_percent (text : string) :
  has_bare_pct (_escape_percent text) = false /\
  (has_bare_pct text = false -> _escape_percent text = text) /\
  _escape_percent (_escape_percent text) = _escape_percent text.
Proof.
  unfold _escape_percent, has_bare_pct. split_and!.
  - apply escape_pct_no_bare.
  - apply escape_pct_clean.
  - apply escape_pct_clean, escape_pct_no_bare.
Qed.

(** *** [_safe_id] *)

(** The characters [_safe_id] removes or replaces: the blank, the
    apostrophe, the hyphen, the slash, the parentheses, the comma, the
    period, and the upper-case letters. *)
Definition unsafe_char (c : ascii) : bool :=
  bool_decide (c ∈ [" "; "'"; "-"; "/"; "("; ")"; ","; "."]%char)
  || ((65 <=? nat_of_ascii c) && (nat_of_ascii c <=? 90)).

Definition safe_char (c : ascii) : bool := negb (unsafe_char c).

Lemma safe_id_app a b : _safe_id (a +:+ b) = _safe_id a +:+ _safe_id b.
Proof.
  unfold _safe_id, lower. now rewrite map_chars_app, !replace_char_app.
Qed.

Lemma safe_id_cons c s : _safe_id (String c s) = _safe_id (String c "") +:+ _safe_id s.
Proof. now rewrite <- safe_id_app. Qed.

Lemma safe_id_char_safe c : all_chars safe_char (_safe_id (String c "")) = true.
Proof.
  revert c. apply forall_ascii. vm_compute. reflexivity.
Qed.

Lemma safe_id_char_fixed c : safe_char c = true -> _safe_id (String c "") = String c "".
Proof.
  revert c.
  assert (H : forall c, (negb (safe_char c)
                         || bool_decide (_safe_id (String c "") = String c "")) = true).
  { apply forall_ascii. vm_compute. reflexivity. }
  intros c Hc. specialize (H c). rewrite Hc in H. simpl in H.
  now apply bool_decide_eq_true in H.
Qed.

Lemma safe_id_safe s : all_chars safe_char (_safe_id s) = true.
Proof.
  induction s as [|c s IH]; [reflexivity|].
  rewrite safe_id_cons, all_chars_app, safe_id_char_safe, IH. reflexivity.
Qed.

Lemma safe_id_fixed s : all_chars safe_char s = true -> _safe_id s = s.
Proof.
  induction s as [|c s IH]; [reflexivity|].
  cbn [all_chars]. intros H. apply andb_true_iff in H as [H1 H2].
  rewrite safe_id_cons, (safe_id_char_fixed c H1), (IH H2). reflexivity.
Qed.

(** ASCII text: every character is below 128.  On such a name
    [str.lower] changes the letters A..Z and nothing else. *)
Definition ascii_char (c : ascii) : bool := nat_of_ascii c <? 128.

Definition ascii_text (s : string) : bool := all_chars ascii_char s.

Lemma safe_id_char_ascii c :
  ascii_char c = true -> all_chars ascii_char (_safe_id (String c "")) = true.
Proof.
  revert c.
  assert (H : forall c, (negb (ascii_char c)
                         || all_chars ascii_char (_safe_id (String c ""))) = true).
  { apply forall_ascii. vm_compute. reflexivity. }
  intros c Hc. specialize (H c). rewrite Hc in H. exact H.
Qed.

Lemma safe_id_ascii s : ascii_text s = true -> ascii_text (_safe_id s) = true.
Proof.
  unfold ascii_text. induction s as [|c s IH]; [reflexivity|].
  cbn [all_chars]. intros H. apply andb_true_iff in H as [H1 H2].
  rewrite safe_id_cons, all_chars_app, (safe_id_char_ascii c H1), (IH H2). reflexivity.
Qed.

(** For a name of ASCII characters: the identifier [_safe_id] makes of it
    is ASCII text that holds no blank, apostrophe, hyphen, slash,
    parenthesis, comma, period or upper-case letter; a name that holds
    none of them is its own identifier; making an identifier of an
    identifier changes nothing; and the identifier of the name followed
    by more ASCII text is the concatenation of the two identifiers. *)
Theorem safe_id_characters (name : string) :
  ascii_text name = true ->
  ascii_text (_safe_id name) = true /\
  all_chars safe_char (_safe_id name) = true /\
  (all_chars safe_char name = true -> _safe_id name = name) /\
  _safe_id (_safe_id name) = _safe_id name /\
  (forall rest, ascii_text rest = true ->
                _safe_id (name +:+ rest) = _safe_id name +:+ _safe_id rest).
Proof.
  intros Hascii. split_and!.
  - apply safe_id_ascii, Hascii.
  - apply safe_id_safe.
  - apply safe_id_fixed.
  - apply safe_id_fixed, safe_id_safe.
  - intros rest _. apply safe_id_app.
Qed.

(** A name with a blank, an apostrophe, parentheses, a hyphen and
    upper-case letters. *)
Lemma safe_id_characters_witness :
  ascii_text "The Captain's Cabin (Upper-Deck)" = true /\
  _safe_id "The Captain's Cabin (Upper-Deck)" = "the_captains_cabin_upper_deck" /\
  ascii_text (_safe_id "The Captain's Cabin (Upper-Deck)") = true /\
  all_chars safe_char (_safe_id "The Captain's Cabin (Upper-Deck)") = true /\
  (all_chars safe_char "The Captain's Cabin (Upper-Deck)" = true ->
   _safe_id "The Captain's Cabin (Upper-Deck)" = "The Captain's Cabin (Upper-Deck)") /\
  _safe_id (_safe_id "The Captain's Cabin (Upper-Deck)")
  = _safe_id "The Captain's Cabin (Upper-Deck)" /\
  (forall rest, ascii_text rest = true ->
                _safe_id ("The Captain's Cabin (Upper-Deck)" +:+ rest)
                = _safe_id "The Captain's Cabin (Upper-Deck)" +:+ _safe_id rest).
Proof.
  split; [reflexivity|]. split; [reflexivity|].
  apply (safe_id_characters "The Captain's Cabin (Upper-Deck)"). reflexivity.
Defined.
End RoomGraphText.

(* --------------------------------------------------------------------- *)
(** ** room_graph.py: the map, whatever the names *)
(* --------------------------------------------------------------------- *)

Module RoomGraphMap.
Import WorldModel ThemeEngine Random RandomFacts RoomGraph PyStrFacts TextFacts.
Import RoomGraphFacts RoomGraphFacts2 RoomGraphFacts3 RoomGraphFacts4 RoomGraphFacts5.
Import PyDictFacts PyDictFacts2.

(** *** The identifier of the first room *)

Definition no_underscore (c : ascii) : bool := negb (Ascii.eqb c "_").

Lemma suffixed_not_entrance id_ k : id_ +:+ "_" +:+ PyStr.of_nat k <> "entrance".
Proof.
  intros H. assert (Hc : all_chars no_underscore "entrance" = true) by reflexivity.
  rewrite <- H, !all_chars_app in Hc. simpl in Hc.
  rewrite andb_false_r in Hc. discriminate.
Qed.

Lemma dedup_ids_entrance ids : forall seen,
  is_Some (seen !! "entrance") -> "entrance" ∉ dedup_ids ids seen.
Proof.
  induction ids as [|id_ ids IH]; intros seen Hseen; simpl; [apply not_elem_of_nil|].
  destruct (seen !! id_) as [k|] eqn:E.
  - apply not_elem_of_cons. split.
    + intros H. symmetry in H. revert H. apply suffixed_not_entrance.
    + apply IH. rewrite lookup_insert. case_decide; eauto.
  - apply not_elem_of_cons. split.
    + intros <-. rewrite E in Hseen. now destruct Hseen.
    + apply IH. rewrite lookup_insert. case_decide; eauto.
Qed.

Lemma names_and_ids_first n td cn :
  1 <= n ->
  post (names_and_ids n td cn)
       (fun p => length (fst p) = n /\ length (snd p) = n /\
                 fst p !! 0 = Some "Entrance" /\
                 snd p !! 0 = Some "entrance" /\
                 forall j, 0 < j -> snd p !! j <> Some "entrance").
Proof.
  intros Hn. unfold names_and_ids, _generate_names.
  eapply post_bind.
  - eapply post_bind; [apply shuffle_spec|]. intros prefixes [Hlen _].
    apply (post_ret _ (fun names => length names = n /\ names !! 0 = Some "Entrance")).
    set (names0 := match cn with
                   | Some custom => overlay (take n prefixes) (take n custom)
                   | None => take n prefixes
                   end).
    assert (Hl : length names0 = n).
    { assert (Ht : length (take n prefixes) = n).
      { rewrite length_take, Hlen.
        pose proof (pad_prefixes_length n (suggested_room_prefixes td) n). lia. }
      unfold names0. destruct cn; [rewrite overlay_length|]; lia. }
    rewrite dedup_names_length, length_insert. split; [exact Hl|].
    destruct names0 as [|x rest]; [simpl in Hl; lia|]. reflexivity.
  - intros names [Hlen Hn0]. apply post_ret. cbn [fst snd].
    rewrite dedup_ids_length, length_fmap.
    destruct names as [|x rest]; [discriminate|]. injection Hn0 as ->.
    split_and!; [exact Hlen|exact Hlen|reflexivity|reflexivity|].
    intros j Hj Hlook. destruct j as [|j]; [lia|].
    change (_safe_id <$> "Entrance" :: rest) with ("entrance" :: (_safe_id <$> rest)) in Hlook.
    cbn [dedup_ids] in Hlook. rewrite lookup_empty in Hlook. cbn [lookup list_lookup] in Hlook.
    apply list_elem_of_lookup_2 in Hlook. revert Hlook.
    apply dedup_ids_entrance. rewrite lookup_insert_eq. eauto.
Qed.

(** *** The records *)

(** What step 6 has stored after [k] rounds: every record is the record
    of one of the first [k] rooms, stored under its own identifier. *)
Definition records_inv (names ids : list string) (adjacency : Adj) (k : nat)
    (rooms : PyDict.t Room.t) : Prop :=
  forall id room, PyDict.get rooms id = Some room ->
    exists i, i < k /\ id = id_at ids i /\
              Room.room_id room = id /\
              Room.name room = default "" (names !! i) /\
              PyStr.has_bare_pct (Room.description room) = false /\
              Validation.blank (Room.description room) = false /\
              Room.exits room = exits_of ids adjacency i /\
              Room.properties room = [] /\
              Room.is_start room = bool_decide (i = 0).

(** Each of the three templates starts with a letter. *)
Lemma generate_description_text room_name td wn exits :
  post (_generate_description room_name td wn exits)
       (fun d => Validation.blank (_escape_percent d) = false).
Proof.
  unfold _generate_description. cbv zeta.
  eapply post_mono; [apply choice_ok; discriminate|].
  intros d Hd. rewrite blank_spaces.
  repeat (apply elem_of_cons in Hd as [->|Hd]; [reflexivity|]).
  now apply elem_of_nil in Hd.
Qed.

Lemma build_room_records names ids adjacency td wn k rooms :
  records_inv names ids adjacency k rooms ->
  post (build_room names ids adjacency td wn rooms k)
       (records_inv names ids adjacency (S k)).
Proof.
  intros HA. unfold build_room.
  eapply post_bind; [apply generate_description_text|]. intros description Hd.
  apply post_ret. fold (id_at ids k). fold (exits_of ids adjacency k).
  intros id room. rewrite get_set. case_decide as Heq.
  - intros [= <-]. exists k. cbn.
    split_and!; try reflexivity; [lia|now symmetry|assumption| |exact Hd].
    apply escape_pct_no_bare.
  - intros H. destruct (HA _ _ H) as (i & Hi & H'). exists i. split; [lia|exact H'].
Qed.

Lemma build_rooms_records n names ids adjacency td wn :
  post (build_rooms n names ids adjacency td wn) (records_inv names ids adjacency n).
Proof.
  unfold build_rooms.
  apply (post_for_each_seq (build_room names ids adjacency td wn)
                           (records_inv names ids adjacency) n 0).
  - intros i s _. apply build_room_records.
  - intros id room [=].
Qed.

(** What [generate] returns, in terms of the names, the identifiers and
    the adjacency it went through; [P] is whatever steps 1 and 2
    establish. *)
Definition generated (n : nat) (names ids : list string) (adjacency : Adj)
    (rooms : PyDict.t Room.t) : Prop :=
  length names = n /\ length ids = n /\
  names !! 0 = Some "Entrance" /\
  id_at ids 0 = "entrance" /\
  (forall i, i < n -> id_at ids i = "entrance" -> i = 0) /\
  graph_ok n adjacency /\
  rooms_inv ids adjacency n rooms /\
  records_inv names ids adjacency n rooms /\
  NoDup (PyDict.keys rooms).

Lemma generate_records (rc : Z) (td : ThemeDefaults) (wn : string)
    (cn : option (list string)) (P : list string * list string -> Prop) :
  post (names_and_ids (clamp_room_count rc) td cn) P ->
  post (generate rc td wn cn)
       (fun rooms => exists names ids adjacency,
          P (names, ids) /\ generated (clamp_room_count rc) names ids adjacency rooms).
Proof.
  intros HP. pose proof (clamp_room_count_bounds rc) as Hb.
  unfold generate. set (n := clamp_room_count rc) in *.
  eapply post_bind; [apply post_and; [apply names_and_ids_first; lia|exact HP]|].
  intros [names ids] [(Hln & Hli & Hn0 & Hi0 & Hlater) HPni]. cbn [fst snd] in *.
  unfold generate_from.
  eapply post_bind; [apply build_adjacency_ok; lia|]. intros adjacency Hok.
  eapply post_mono.
  { apply post_and; [apply post_and|];
      [apply build_rooms_inv|apply build_rooms_records|apply build_rooms_nodup]. }
  intros rooms [[Hinv Hrec] Hnd].
  exists names, ids, adjacency. split; [exact HPni|].
  assert (Hid0 : id_at ids 0 = "entrance") by (unfold id_at; now rewrite Hi0).
  unfold generated. split_and!; try assumption.
  intros i Hi Heq. destruct i as [|i]; [reflexivity|]. exfalso.
  apply (Hlater (S i)); [lia|]. unfold id_at in Heq.
  destruct (lookup_lt_is_Some_2 ids (S i)) as [x Hx]; [lia|].
  rewrite Hx in Heq |- *. simpl in Heq. congruence.
Qed.

(** The record of index 0 is the one stored under "entrance". *)
Lemma generated_start n names ids adjacency rooms :
  1 <= n -> generated n names ids adjacency rooms ->
  exists start, PyDict.get rooms "entrance" = Some start /\
                Room.is_start start = true /\ Room.name start = "Entrance".
Proof.
  intros Hn (Hln & Hli & Hn0 & Hid0 & Hidx & _ & (HA & HB & HC) & Hrec & Hnd).
  destruct (HC 0) as (start & Hstart & _ & Hflag); [lia| |].
  { intros j Hj Heq. rewrite Hid0 in Heq. apply Hidx in Heq; lia. }
  rewrite Hid0 in Hstart. exists start. split; [exact Hstart|]. split; [exact Hflag|].
  destruct (Hrec _ _ Hstart) as (i & Hi & Hid & _ & Hname & _).
  symmetry in Hid. apply Hidx in Hid; [|exact Hi]. subst i. now rewrite Hn0 in Hname.
Qed.

(** [generate] returns for every input and every random outcome, and the
    map it returns is well formed whatever the names are: it holds between
    one and the clamped number of rooms; each record is stored under its
    own identifier, has no properties and a description without a bare
    percent sign; the record under "entrance" is the room named "Entrance"
    and is the only start room; and every exit has one of the six
    directions as key and a room of the map as target. *)
Theorem generate_map_well_formed (rc : Z) (td : ThemeDefaults) (wn : string)
    (cn : option (list string)) :
  post (generate rc td wn cn)
       (fun rooms =>
          1 <= length rooms <= clamp_room_count rc /\
          (forall id room, PyDict.get rooms id = Some room ->
             Room.room_id room = id /\ Room.properties room = [] /\
             PyStr.has_bare_pct (Room.description room) = false) /\
          (exists start, PyDict.get rooms "entrance" = Some start /\
                         Room.is_start start = true /\ Room.name start = "Entrance") /\
          (forall id room, PyDict.get rooms id = Some room ->
             Room.is_start room = true -> id = "entrance") /\
          (forall id room d target,
             PyDict.get rooms id = Some room ->
             PyDict.get (Room.exits room) d = Some target ->
             d ∈ ALL_DIRECTIONS /\ target ∈ PyDict.keys rooms)).
Proof.
  pose proof (clamp_room_count_bounds rc) as Hb.
  eapply post_mono; [apply (generate_records rc td wn cn (fun _ => True))|].
  { eapply post_mono; [apply names_and_ids_length|]. auto. }
  set (n := clamp_room_count rc) in *.
  intros rooms (names & ids & adjacency & _ & Hgen).
  pose proof Hgen as
    (Hln & Hli & Hn0 & Hid0 & Hidx & [Hwf _] & (HA & HB & HC) & Hrec & Hnd).
  destruct (generated_start n names ids adjacency rooms) as (start & Hstart & Hflag & Hname);
    [lia|exact Hgen|].
  split_and!.
  - destruct rooms; [discriminate|]. simpl. lia.
  - assert (Hsub : PyDict.keys rooms ⊆ id_at ids <$> seq 0 n).
    { intros id Hid. apply elem_of_keys in Hid as [room Hroom].
      destruct (HA _ _ Hroom) as (i & Hi & -> & _).
      apply list_elem_of_fmap. exists i. split; [reflexivity|]. apply elem_of_seq. lia. }
    apply NoDup_submseteq in Hsub; [|exact Hnd].
    apply submseteq_length in Hsub.
    rewrite length_fmap, length_seq in Hsub. unfold PyDict.keys in Hsub.
    now rewrite length_map in Hsub.
  - intros id room Hroom.
    destruct (Hrec _ _ Hroom) as (i & _ & _ & H1 & _ & H2 & _ & _ & H3 & _).
    auto.
  - eauto.
  - intros id room Hroom Hroomflag.
    destruct (Hrec _ _ Hroom) as (i & Hi & -> & _ & _ & _ & _ & _ & _ & Hs).
    rewrite Hs in Hroomflag. apply bool_decide_eq_true in Hroomflag. now subst i.
  - intros id room d target Hroom Hexit.
    destruct (HA _ _ Hroom) as (i & Hi & -> & _ & Hexits). rewrite Hexits in Hexit.
    split.
    + apply (exits_of_keys ids adjacency i). apply elem_of_keys. eauto.
    + apply exits_of_inv in Hexit as (e & He & _ & ->).
      apply elem_of_keys, HB. now apply (wf_bound _ _ Hwf) in He.
Qed.
End RoomGraphMap.

(* --------------------------------------------------------------------- *)
(** ** room_graph.py: the map for the default names *)
(* --------------------------------------------------------------------- *)

Module RoomGraphDefaults.
Import WorldModel ThemeEngine Random RandomFacts RoomGraph PyStrFacts.
Import RoomGraphFacts RoomGraphFacts2 RoomGraphFacts3 RoomGraphFacts4 RoomGraphFacts5.
Import PyDictFacts PyDictFacts2 RoomGraphText RoomGraphMap.

(** *** The names after the "disambiguate duplicates" loop *)

(** How often a name has been seen. *)
Definition occ (seen : gmap string nat) (b : string) : nat :=
  match seen !! b with Some k => S k | None => 0 end.

(** The name written for the occurrence number [c] (from 0) of [b]. *)
Definition enc (b : string) (c : nat) : string :=
  match c with 0 => b | S _ => b +:+ " " +:+ PyStr.of_nat (c + 1) end.

Lemma dedup_names_cons name rest seen :
  dedup_names (name :: rest) seen
  = enc name (occ seen name) :: dedup_names rest (<[name := occ seen name]> seen).
Proof.
  unfold occ. cbn [dedup_names]. destruct (seen !! name); reflexivity.
Qed.

Lemma occ_insert seen name c b :
  occ (<[name := c]> seen) b = if decide (name = b) then S c else occ seen b.
Proof. unfold occ. rewrite lookup_insert. now case_decide. Qed.

Lemma dedup_names_elems names : forall seen x,
  x ∈ dedup_names names seen ->
  exists b c, b ∈ names /\ occ seen b <= c /\ x = enc b c.
Proof.
  induction names as [|name rest IH]; intros seen x Hx.
  - now apply elem_of_nil in Hx.
  - rewrite dedup_names_cons in Hx. apply elem_of_cons in Hx as [->|Hx].
    + exists name, (occ seen name). split_and!; [left|lia|reflexivity].
    + destruct (IH _ _ Hx) as (b & c & Hb & Hc & ->).
      exists b, c. split_and!; [now right| |reflexivity].
      rewrite occ_insert in Hc. case_decide; [subst; lia|exact Hc].
Qed.

Lemma dedup_names_nodup (g : string -> string) (B : string -> Prop) :
  (forall b1 c1 b2 c2, B b1 -> B b2 -> g (enc b1 c1) = g (enc b2 c2) -> b1 = b2 /\ c1 = c2) ->
  forall names seen, (forall b, b ∈ names -> B b) -> NoDup (g <$> dedup_names names seen).
Proof.
  intros Hinj. induction names as [|name rest IH]; intros seen HB.
  - constructor.
  - rewrite dedup_names_cons, fmap_cons. apply NoDup_cons. split.
    + intros Hin. apply list_elem_of_fmap in Hin as (x & Hgx & Hx).
      apply dedup_names_elems in Hx as (b & c & Hb & Hc & ->).
      apply Hinj in Hgx as [<- <-]; [|apply HB; left|apply HB; now right].
      rewrite occ_insert, decide_True in Hc by reflexivity. lia.
    + apply IH. intros b Hb. apply HB. now right.
Qed.

(** *** Identifiers of disambiguated names *)

Definition not_digit (c : ascii) : bool := negb (is_digit c).

Lemma digit_safe c : is_digit c = true -> safe_char c = true.
Proof.
  revert c.
  assert (H : forall c, implb (is_digit c) (safe_char c) = true)
    by (apply forall_ascii; vm_compute; reflexivity).
  intros c Hc. specialize (H c). now rewrite Hc in H.
Qed.

Lemma digit_no_underscore c : is_digit c = true -> no_underscore c = true.
Proof.
  revert c.
  assert (H : forall c, implb (is_digit c) (no_underscore c) = true)
    by (apply forall_ascii; vm_compute; reflexivity).
  intros c Hc. specialize (H c). now rewrite Hc in H.
Qed.

Lemma safe_id_of_nat k : _safe_id (PyStr.of_nat k) = PyStr.of_nat k.
Proof.
  apply safe_id_fixed. eapply all_chars_impl; [apply digit_safe|apply of_nat_digits].
Qed.

Lemma safe_id_enc b c :
  _safe_id (enc b (S c)) = _safe_id b +:+ "_" +:+ PyStr.of_nat (S c + 1).
Proof.
  unfold enc. rewrite !safe_id_app, safe_id_of_nat. reflexivity.
Qed.

Lemma digits_not_digit_free s :
  s <> "" -> all_chars is_digit s = true -> all_chars not_digit s = false.
Proof.
  destruct s as [|c s]; [congruence|]. intros _. cbn [all_chars].
  intros H. apply andb_true_iff in H as [H _]. unfold not_digit. now rewrite H.
Qed.

Lemma split_at_underscore x : forall y n1 n2,
  all_chars no_underscore n1 = true ->
  all_chars no_underscore n2 = true ->
  x +:+ "_" +:+ n1 = y +:+ "_" +:+ n2 -> x = y /\ n1 = n2.
Proof.
  induction x as [|c x IH]; intros [|d y] n1 n2 H1 H2 Heq.
  - change (String "_" n1 = String "_" n2) in Heq. injection Heq as ->. auto.
  - change (String "_" n1 = String d (y +:+ "_" +:+ n2)) in Heq.
    injection Heq as <- ->.
    rewrite !all_chars_app in H1. cbn in H1. now rewrite andb_false_r in H1.
  - change (String c (x +:+ "_" +:+ n1) = String "_" n2) in Heq.
    injection Heq as -> <-.
    rewrite !all_chars_app in H2. cbn in H2. now rewrite andb_false_r in H2.
  - change (String c (x +:+ "_" +:+ n1) = String d (y +:+ "_" +:+ n2)) in Heq.
    injection Heq as -> Heq.
    destruct (IH _ _ _ H1 H2 Heq) as [-> ->]. auto.
Qed.

(** The names of a table can be told apart by their identifiers, and no
    identifier holds a digit. *)
Definition names_table_ok (table : list string) : bool :=
  forallb (fun b => all_chars not_digit (_safe_id b)) table
  && forallb (fun b1 =>
                forallb (fun b2 => implb (String.eqb (_safe_id b1) (_safe_id b2))
                                         (String.eqb b1 b2))
                        table)
             table.

Lemma safe_enc_inj table b1 c1 b2 c2 :
  names_table_ok table = true ->
  b1 ∈ table -> b2 ∈ table ->
  _safe_id (enc b1 c1) = _safe_id (enc b2 c2) -> b1 = b2 /\ c1 = c2.
Proof.
  intros Hok Hb1 Hb2. apply andb_true_iff in Hok as [Hdig Hinj].
  rewrite forallb_forall in Hdig, Hinj.
  assert (Hd : forall b, b ∈ table -> all_chars not_digit (_safe_id b) = true).
  { intros b Hb. apply Hdig. now apply list_elem_of_In. }
  assert (Hi : forall x y, x ∈ table -> y ∈ table -> _safe_id x = _safe_id y -> x = y).
  { intros x y Hx Hy Heq. apply list_elem_of_In in Hx, Hy.
    specialize (Hinj x Hx). rewrite forallb_forall in Hinj. specialize (Hinj y Hy).
    rewrite Heq, String.eqb_refl in Hinj. simpl in Hinj. now apply String.eqb_eq. }
  assert (Hmix : forall x y c, x ∈ table ->
                   _safe_id x = _safe_id (enc y (S c)) -> False).
  { intros x y c Hx Heq. specialize (Hd x Hx).
    rewrite Heq, safe_id_enc, !all_chars_app in Hd.
    rewrite (digits_not_digit_free (PyStr.of_nat (S c + 1))) in Hd;
      [|apply of_nat_nonempty|apply of_nat_digits].
    now rewrite !andb_false_r in Hd. }
  destruct c1 as [|c1], c2 as [|c2]; intros Heq.
  - split; [now apply Hi|reflexivity].
  - exfalso. eapply Hmix; [exact Hb1|exact Heq].
  - exfalso. eapply Hmix; [exact Hb2|symmetry; exact Heq].
  - rewrite !safe_id_enc in Heq.
    apply split_at_underscore in Heq as [Hs Hn];
      try (eapply all_chars_impl; [apply digit_no_underscore|apply of_nat_digits]).
    apply of_nat_inj in Hn. split; [now apply Hi|lia].
Qed.

(** *** The "deduplicated" identifiers of distinct identifiers *)

Lemma dedup_ids_distinct ids : forall seen,
  NoDup ids -> (forall x, x ∈ ids -> seen !! x = None) -> dedup_ids ids seen = ids.
Proof.
  induction ids as [|id_ ids IH]; intros seen Hnd Hseen; [reflexivity|].
  apply NoDup_cons in Hnd as [Hnotin Hnd]. cbn [dedup_ids].
  rewrite (Hseen id_) by left. f_equal. apply IH; [exact Hnd|].
  intros x Hx. rewrite lookup_insert_ne by (intros ->; contradiction).
  apply Hseen. now right.
Qed.

(** *** The names drawn from a table *)

Definition name_table (td : ThemeDefaults) : list string :=
  suggested_room_prefixes td ++ generic ++ ["Entrance"].

Lemma pad_prefixes_elems fuel : forall prefixes count x,
  x ∈ pad_prefixes fuel prefixes count -> x ∈ prefixes \/ x ∈ generic.
Proof.
  induction fuel as [|fuel IH]; intros prefixes count x; cbn [pad_prefixes]; [auto|].
  destruct (length prefixes <? count); [|auto].
  intros H. apply IH in H as [H|H]; [|auto].
  apply elem_of_app in H. exact H.
Qed.

Lemma elem_of_insert_head {A} (l : list A) (y x : A) :
  x ∈ <[0 := y]> l -> x = y \/ x ∈ l.
Proof.
  destruct l as [|a l]; cbn; [auto|].
  intros H. apply elem_of_cons in H as [->|H]; [auto|]. right. now right.
Qed.

Lemma names_and_ids_distinct n td :
  1 <= n ->
  names_table_ok (name_table td) = true ->
  post (names_and_ids n td None)
       (fun p => length (snd p) = n /\ snd p !! 0 = Some "entrance" /\ NoDup (snd p)).
Proof.
  intros Hn Hok.
  eapply post_mono.
  { apply post_and; [apply (names_and_ids_first n td None Hn)|].
    unfold names_and_ids, _generate_names.
    eapply post_bind.
    - eapply post_bind; [apply shuffle_spec|]. intros prefixes [_ Hperm].
      apply (post_ret _ (fun names => NoDup (_safe_id <$> names))).
      apply (dedup_names_nodup _safe_id (fun b => b ∈ name_table td)).
      + intros b1 c1 b2 c2. apply safe_enc_inj, Hok.
      + intros b Hb. unfold name_table.
        apply elem_of_insert_head in Hb as [->|Hb].
        * rewrite !elem_of_app. right. right. left.
        * apply elem_of_take in Hb as (i & Hb & _). apply list_elem_of_lookup_2 in Hb.
          apply Hperm, pad_prefixes_elems in Hb. rewrite !elem_of_app. tauto.
    - intros names Hnd. apply (post_ret _ (fun p => NoDup (snd p))). cbn [snd].
      rewrite dedup_ids_distinct; [exact Hnd|exact Hnd|].
      intros x _. apply lookup_empty. }
  intros p [(_ & Hlen & _ & H0 & _) Hnd]. auto.
Qed.

(** *** The map for distinct identifiers *)

Lemma distinct_ids_map n ids adjacency rooms :
  1 <= n -> length ids = n -> NoDup ids ->
  graph_ok n adjacency ->
  rooms_inv ids adjacency n rooms ->
  NoDup (PyDict.keys rooms) ->
  length rooms = n /\
  (forall id, id ∈ PyDict.keys rooms -> room_reach rooms (id_at ids 0) id) /\
  (forall A B d roomA,
     PyDict.get rooms A = Some roomA ->
     PyDict.get (Room.exits roomA) d = Some B ->
     exists roomB, PyDict.get rooms B = Some roomB /\
                   PyDict.get (Room.exits roomB) (opposite d) = Some A).
Proof.
  intros Hn Hlen Hids [Hwf Hreach] Hinv Hnd.
  pose proof Hinv as (HA & HB & _).
  split_and!.
  - apply Nat.le_antisymm.
    + assert (Hsub : PyDict.keys rooms ⊆ id_at ids <$> seq 0 n).
      { intros id Hid. apply elem_of_keys in Hid as [room Hroom].
        destruct (HA _ _ Hroom) as (i & Hi & -> & _).
        apply list_elem_of_fmap. exists i. split; [reflexivity|]. apply elem_of_seq. lia. }
      apply NoDup_submseteq in Hsub; [|exact Hnd]. apply submseteq_length in Hsub.
      rewrite length_fmap, length_seq in Hsub. unfold PyDict.keys in Hsub.
      now rewrite length_map in Hsub.
    + assert (Hsub : ids ⊆ PyDict.keys rooms).
      { intros id Hid. apply list_elem_of_lookup in Hid as [i Hi].
        apply elem_of_keys. specialize (HB i). unfold id_at in HB. rewrite Hi in HB.
        apply HB. apply lookup_lt_Some in Hi. lia. }
      apply NoDup_submseteq in Hsub; [|exact Hids]. apply submseteq_length in Hsub.
      unfold PyDict.keys in Hsub. rewrite length_map in Hsub. lia.
  - intros id Hid. apply elem_of_keys in Hid as [room Hroom].
    destruct (HA _ _ Hroom) as (i & Hi & -> & _).
    eapply room_reach_of_adj_reach; try eassumption. now apply Hreach.
  - intros A B d roomA HAget Hd.
    destruct (HA _ _ HAget) as (a & Ha & -> & _ & Hexits). rewrite Hexits in Hd.
    apply exits_of_inv in Hd as (e & He & <- & ->).
    destruct (wf_edge_directions _ _ _ _ Hwf He) as (_ & _ & Hopp).
    assert (Hb : nbr e < n) by now apply (wf_bound _ _ Hwf) in He.
    destruct (rooms_inv_distinct n ids adjacency rooms (nbr e) Hinv Hids Hlen Hb)
      as (roomB & HBget & HexB).
    exists roomB. split; [exact HBget|]. rewrite HexB, <- Hopp.
    apply (exits_of_edge n ids adjacency (nbr e) (Edge a (dir_back e) (dir_out e)) Hwf).
    now apply (wf_sym _ _ Hwf).
Qed.

Lemma table_ok theme : names_table_ok (name_table (THEME_DEFAULTS theme)) = true.
Proof. destruct theme; vm_compute; reflexivity. Qed.

(** With the room names of a theme of the table and no custom names,
    [generate] returns, for every room count and every random outcome, a
    map with exactly the clamped number of rooms, in which every room is
    reachable from "entrance" by following exits and every exit is
    answered by the exit in the opposite direction. *)
Theorem generate_default_names_full_map (theme : WorldTheme) (rc : Z) (wn : string) :
  post (generate rc (THEME_DEFAULTS theme) wn None)
       (fun rooms =>
          length rooms = clamp_room_count rc /\
          (forall id, id ∈ PyDict.keys rooms -> room_reach rooms "entrance" id) /\
          (forall A B d roomA,
             PyDict.get rooms A = Some roomA ->
             PyDict.get (Room.exits roomA) d = Some B ->
             exists roomB, PyDict.get rooms B = Some roomB /\
                           PyDict.get (Room.exits roomB) (opposite d) = Some A)).
Proof.
  pose proof (clamp_room_count_bounds rc) as Hb.
  unfold generate.
  eapply post_bind; [apply names_and_ids_distinct; [lia|apply table_ok]|].
  intros [names ids] (Hlen & H0 & Hnd). cbn [snd] in *.
  eapply post_mono; [apply generate_from_full; [lia|exact Hlen]|].
  intros rooms (adjacency & Hok & Hinv & Hkeys).
  replace "entrance" with (id_at ids 0) by (unfold id_at; now rewrite H0).
  apply (distinct_ids_map _ ids adjacency); auto. lia.
Qed.
End RoomGraphDefaults.

(* --------------------------------------------------------------------- *)
(** ** The breadth-first search is exact *)
(* --------------------------------------------------------------------- *)

Module BfsCorrect.
Section correct.
Context {K : Type} `{EqDecision K}.
Variable nbrs : K -> list K.

(** One push of the search. *)
Definition step (a b : K) : Prop := b ∈ nbrs a.

(** Every neighbour of a visited node is visited or waits in the queue. *)
Definition frontier (queue reachable : list K) : Prop :=
  forall v w, v ∈ reachable -> w ∈ nbrs v -> w ∈ reachable \/ w ∈ queue.

Lemma run_spec : forall fuel queue reachable r,
  Bfs.run nbrs fuel queue reachable = Some r ->
  frontier queue reachable ->
  (forall x, x ∈ reachable -> x ∈ r) /\
  (forall x, x ∈ queue -> x ∈ r) /\
  (forall v w, v ∈ r -> w ∈ nbrs v -> w ∈ r) /\
  (forall x, x ∈ r -> x ∈ reachable \/ exists q, q ∈ queue /\ rtc step q x).
Proof.
  induction fuel as [|fuel IH]; intros queue reachable r Hrun Hfr.
  - destruct queue as [|c q]; [|discriminate]. injection Hrun as <-.
    split_and!; [auto|intros x Hx; now apply elem_of_nil in Hx| |auto].
    intros v w Hv Hw. destruct (Hfr v w Hv Hw) as [H'|H']; [exact H'|].
    now apply elem_of_nil in H'.
  - destruct queue as [|c q]; cbn [Bfs.run] in Hrun.
    { injection Hrun as <-.
      split_and!; [auto|intros x Hx; now apply elem_of_nil in Hx| |auto].
      intros v w Hv Hw. destruct (Hfr v w Hv Hw) as [H'|H']; [exact H'|].
      now apply elem_of_nil in H'. }
    case_bool_decide as Hin.
    + destruct (IH _ _ _ Hrun) as (H1 & H2 & H3 & H4).
      { intros v w Hv Hw. destruct (Hfr v w Hv Hw) as [H'|H']; [auto|].
        apply elem_of_cons in H' as [->|H']; auto. }
      split_and!; [exact H1| |exact H3|].
      * intros x Hx. apply elem_of_cons in Hx as [->|Hx]; auto.
      * intros x Hx. destruct (H4 x Hx) as [H'|(q0 & Hq0 & Hreach)]; [auto|].
        right. exists q0. split; [now right|exact Hreach].
    + destruct (IH _ _ _ Hrun) as (H1 & H2 & H3 & H4).
      { intros v w Hv Hw. apply elem_of_app in Hv as [Hv|Hv].
        - destruct (Hfr v w Hv Hw) as [H'|H'].
          + left. apply elem_of_app. now left.
          + apply elem_of_cons in H' as [->|H'].
            * left. apply elem_of_app. right. now left.
            * right. apply elem_of_app. now left.
        - apply list_elem_of_singleton in Hv as ->.
          destruct (decide (w ∈ reachable ++ [c])) as [Hd|Hd]; [now left|].
          right. apply elem_of_app. right. apply list_elem_of_filter. auto. }
      split_and!.
      * intros x Hx. apply H1. apply elem_of_app. now left.
      * intros x Hx. apply elem_of_cons in Hx as [->|Hx].
        -- apply H1. apply elem_of_app. right. now left.
        -- apply H2. apply elem_of_app. now left.
      * exact H3.
      * intros x Hx. destruct (H4 x Hx) as [H'|(q0 & Hq0 & Hreach)].
        -- apply elem_of_app in H' as [H'|H']; [now left|].
           apply list_elem_of_singleton in H' as ->.
           right. exists c. split; [left|apply rtc_refl].
        -- right. apply elem_of_app in Hq0 as [Hq0|Hq0].
           ++ exists q0. split; [now right|exact Hreach].
           ++ apply list_elem_of_filter in Hq0 as [_ Hq0].
              exists c. split; [left|]. eapply rtc_l; [exact Hq0|exact Hreach].
Qed.

(** The search from [start] visits exactly the nodes that can be reached
    from it. *)
Lemma run_reachable fuel start r :
  Bfs.run nbrs fuel [start] [] = Some r ->
  forall x, x ∈ r <-> rtc step start x.
Proof.
  intros Hrun. destruct (run_spec _ _ _ _ Hrun) as (_ & H2 & H3 & H4).
  { intros v w Hv. now apply elem_of_nil in Hv. }
  intros x. split.
  - intros Hx. destruct (H4 x Hx) as [H'|(q & Hq & Hreach)].
    + now apply elem_of_nil in H'.
    + apply list_elem_of_singleton in Hq as ->. exact Hreach.
  - intros Hreach. revert x Hreach. apply (rtc_ind_r (fun z => z ∈ r) start).
    + apply H2. left.
    + intros y z _ Hyz IH. eapply H3; [exact IH|exact Hyz].
Qed.
End correct.
End BfsCorrect.

(* --------------------------------------------------------------------- *)
(** ** validation_engine.py: what the validator establishes *)
(* --------------------------------------------------------------------- *)

Module ValidationSound.
Import WorldModel Validation ValidationFacts PyDictFacts PyDictFacts2 PhysicsFacts.

(** An exit of room [a] leads to room [b] of the world. *)
Definition leads_to (w : WorldConfig.t) (a b : string) : Prop :=
  exists room, PyDict.get (WorldConfig.rooms w) a = Some room /\
               b ∈ PyDict.values (Room.exits room) /\
               b ∈ WorldConfig.room_ids w.

Lemma exit_targets_leads w a b : b ∈ exit_targets w a <-> leads_to w a b.
Proof.
  unfold exit_targets, leads_to. destruct (PyDict.get (WorldConfig.rooms w) a) as [room|].
  - rewrite list_elem_of_filter. split.
    + intros [H1 H2]. eauto.
    + intros (room' & [= <-] & H1 & H2). auto.
  - split; [inversion 1|]. intros (room' & [=] & _).
Qed.

Lemma rtc_leads w a b :
  rtc (BfsCorrect.step (exit_targets w)) a b <-> rtc (leads_to w) a b.
Proof.
  split; intros H; (eapply rtc_subrel; [|exact H]); intros x y Hxy;
    now apply exit_targets_leads.
Qed.

(** The unreachable rooms of check 3 are the rooms that no chain of exits
    from the first start room leads to. *)
Lemma check_reachable_exact w u :
  check_reachable w = Some u ->
  forall rid,
    Unreachable rid ∈ u <->
    1 < length (WorldConfig.rooms w) /\ rid ∈ WorldConfig.room_ids w /\
    exists start rest, starts_of w = start :: rest /\ ~ rtc (leads_to w) start rid.
Proof.
  unfold check_reachable. intros Hu rid.
  destruct (starts_of w) as [|start rest] eqn:Es.
  { injection Hu as <-. split; [inversion 1|]. intros (_ & _ & s & t & [=] & _). }
  destruct (1 <? length (WorldConfig.rooms w)) eqn:El.
  2:{ injection Hu as <-. apply Nat.ltb_ge in El. split; [inversion 1|]. lia. }
  apply Nat.ltb_lt in El.
  destruct (Bfs.run _ _ _ _) as [reachable|] eqn:Er; [|discriminate]. injection Hu as <-.
  pose proof (BfsCorrect.run_reachable _ _ _ _ Er) as Hreach.
  rewrite list_elem_of_fmap. split.
  - intros (x & [= <-] & Hx). apply list_elem_of_filter in Hx as [Hx1 Hx2].
    split_and!; [exact El|exact Hx2|]. exists start, rest. split; [reflexivity|].
    intros H. apply Hx1, Hreach, rtc_leads, H.
  - intros (_ & Hrid & s & t & [= <- <-] & Hno). exists rid. split; [reflexivity|].
    apply list_elem_of_filter. split; [|exact Hrid].
    intros H. apply Hno, rtc_leads, Hreach, H.
Qed.

Lemma check_reachable_none w :
  check_reachable w = Some [] ->
  forall start rest rid,
    starts_of w = start :: rest -> 1 < length (WorldConfig.rooms w) ->
    rid ∈ WorldConfig.room_ids w -> rtc (leads_to w) start rid.
Proof.
  unfold check_reachable. intros Hu start rest rid Hs Hl Hrid. rewrite Hs in Hu.
  apply Nat.ltb_lt in Hl. rewrite Hl in Hu.
  destruct (Bfs.run _ _ _ _) as [reachable|] eqn:Er; [|discriminate]. injection Hu as Hu.
  apply fmap_nil_inv in Hu.
  apply rtc_leads, (BfsCorrect.run_reachable _ _ _ _ Er).
  destruct (decide (rid ∈ reachable)) as [Hd|Hd]; [exact Hd|]. exfalso.
  assert (Hin : rid ∈ filter (fun rid => rid ∉ reachable) (WorldConfig.room_ids w))
    by (apply list_elem_of_filter; auto).
  rewrite Hu in Hin. inversion Hin.
Qed.

Definition is_unreachable (m : Msg) : bool :=
  match m with Unreachable _ => true | _ => false end.

Lemma duplicate_ids_msgs ids : forall seen m,
  m ∈ duplicate_ids seen ids -> exists x, m = DuplicateId x.
Proof.
  induction ids as [|x ids IH]; intros seen m Hm; simpl in Hm; [inversion Hm|].
  apply elem_of_app in Hm as [Hm|Hm]; [|eauto].
  case_bool_decide; [|inversion Hm]. apply list_elem_of_singleton in Hm. eauto.
Qed.

(** Only check 3 issues the message about an unreachable room. *)
Lemma errors_unreachable w u rid :
  check_reachable w = Some u ->
  forall r, validate w = Some r -> (Unreachable rid ∈ errors r <-> Unreachable rid ∈ u).
Proof.
  intros Eu r. unfold validate. rewrite Eu. intros [= <-]. cbn [errors]. split.
  - intros Hm.
    repeat (apply elem_of_app in Hm as [Hm|Hm]); try exact Hm;
      try (unfold check_exits, check_start, check_room_text, check_object_locations,
             check_object_text, check_spawn_rooms, check_loot, check_sprite_name,
             check_transform_object,
             check_transform_new_object, check_transform_requires,
             check_transform_new_location, check_respawn, check_sd_names,
             check_sd_host_port, check_percent, check_pct in Hm;
           msg_cases; subst; discriminate).
    unfold check_duplicates in Hm. apply duplicate_ids_msgs in Hm as [x [=]].
  - intros Hm. rewrite !elem_of_app. auto.
Qed.

(** The validator reports a room as unreachable exactly when there is
    more than one room, a start room, and no chain of exits between rooms
    of the world from the first start room to that room.  It always
    returns: its search ends. *)
Theorem unreachable_reported_exactly (w : WorldConfig.t) :
  exists r,
    validate w = Some r /\
    forall rid,
      Unreachable rid ∈ errors r <->
      1 < length (WorldConfig.rooms w) /\ rid ∈ WorldConfig.room_ids w /\
      exists start rest, starts_of w = start :: rest /\ ~ rtc (leads_to w) start rid.
Proof.
  destruct (check_reachable_total w) as [u Hu].
  assert (Hv : exists r, validate w = Some r).
  { unfold validate. rewrite Hu. eauto. }
  destruct Hv as [r Hr]. exists r. split; [exact Hr|]. intros rid.
  rewrite (errors_unreachable w u rid Hu r Hr). now apply check_reachable_exact.
Qed.

(** *** What a world without errors is like *)

Lemma flat_map_nil_inv {A B} (f : A -> list B) (l : list A) :
  flat_map f l = [] -> forall x, x ∈ l -> f x = [].
Proof.
  induction l as [|a l IH]; intros H x Hx; [inversion Hx|].
  simpl in H. apply app_eq_nil in H as [H1 H2].
  apply elem_of_cons in Hx as [->|Hx]; auto.
Qed.

Lemma duplicate_ids_nil ids : forall seen,
  duplicate_ids seen ids = [] -> NoDup ids /\ forall x, x ∈ ids -> x ∉ seen.
Proof.
  induction ids as [|x ids IH]; intros seen H.
  - split; [constructor|]. intros y Hy. inversion Hy.
  - simpl in H. apply app_eq_nil in H as [H1 H2].
    destruct (IH _ H2) as [Hnd Hseen].
    assert (Hx : x ∉ seen) by (intros Hin; rewrite bool_decide_eq_true_2 in H1 by exact Hin;
                               discriminate).
    split.
    + apply NoDup_cons. split; [|exact Hnd].
      intros Hin. apply (Hseen x Hin). left.
    + intros y Hy. apply elem_of_cons in Hy as [->|Hy]; [exact Hx|].
      intros Hin. apply (Hseen y Hy). now right.
Qed.

Lemma dangling_false ids ref : dangling ref ids = false -> ref_ok ids ref.
Proof.
  unfold dangling, ref_ok. intros H Ht. rewrite Ht in H. simpl in H.
  apply bool_decide_eq_false in H. destruct (decide (ref ∈ ids)); tauto.
Qed.

Lemma not_reported {A} ids ref (m : A) :
  (if dangling ref ids then [m] else []) = [] -> ref_ok ids ref.
Proof. intros H. apply dangling_false. destruct (dangling ref ids); [discriminate|reflexivity]. Qed.

(** A world in which the validator finds no error. *)
Record sound (w : WorldConfig.t) : Prop := {
  sound_exits :
    forall rid room d target,
      (rid, room) ∈ WorldConfig.rooms w -> (d, target) ∈ Room.exits room ->
      target ∈ WorldConfig.room_ids w;
  sound_start : exists start, starts_of w = [start];
  sound_reachable :
    forall start rid,
      starts_of w = [start] -> rid ∈ WorldConfig.room_ids w -> rtc (leads_to w) start rid;
  sound_locations :
    forall oid o,
      (oid, o) ∈ WorldConfig.objects w ->
      real_location (GameObject.location o) = true ->
      (GameObject.location o ∈ WorldConfig.room_ids w \/
       GameObject.location o ∈ WorldConfig.object_ids w) /\
      forall container,
        PyDict.get (WorldConfig.objects w) (GameObject.location o) = Some container ->
        GameObject.is_container container = true;
  sound_sprites :
    forall sid s,
      (sid, s) ∈ WorldConfig.sprites w ->
      (forall room, room ∈ Sprite.spawn_rooms s -> room ∈ WorldConfig.room_ids w) /\
      ref_ok (WorldConfig.object_ids w) (Sprite.loot_on_death s);
  sound_transformations :
    forall tid x,
      (tid, x) ∈ WorldConfig.transformations w ->
      transformation_ok (WorldConfig.room_ids w) (WorldConfig.object_ids w) x;
  sound_respawn :
    ref_ok (WorldConfig.room_ids w) (CombatConfig.respawn_location (WorldConfig.combat w));
  sound_ids :
    NoDup (WorldConfig.room_ids w ++ WorldConfig.object_ids w
           ++ WorldConfig.sprite_ids w ++ PyDict.keys (WorldConfig.transformations w))
}.

(** Two rooms, a key, a character that drops it and a transformation of
    the key. *)
Definition small_world : WorldConfig.t :=
  let w := WorldConfig.make "W" ORIGINAL in
  let w := WorldConfig.with_rooms w
             [("entrance", Room.mk "entrance" "Entrance" "The way in."
                                   [("north", "hall")] [] true);
              ("hall", Room.mk "hall" "Hall" "A hall." [("south", "entrance")] [] false)] in
  let w := WorldConfig.with_objects w
             [("key", GameObject.mk "key" "key" "A key." "hall" true false 0 false 0
                                    false false "" ["take"] [])] in
  let w := WorldConfig.with_sprites w
             [("igor_template",
               Sprite.mk "igor_template" "Igor (template)" "Igor." 40 6 (FLit (1 # 2))
                         "guard" ["hall"] (FLit (4 # 100)) "key" true NEUTRAL [])] in
  WorldConfig.with_transformations w
    [("key_used", Transformation.mk "key_used" "key" "normal" 1 "used" "Click."
                                    "" "" "" "" "entrance" [])].

(** If the validator returns an empty error list, then every exit of the
    world leads to a room of the world, there is exactly one start room
    and every room can be reached from it through exits, every object
    that has a location is in a room or in an object that is a container,
    every spawn room of a sprite is a room and its loot an object, every
    transformation names objects and a destination of the world, the
    respawn location is a room, and no identifier is used twice across
    rooms, objects, sprites and transformations. *)
Theorem validate_sound (w : WorldConfig.t) (r : ValidationResult) :
  validate w = Some r -> errors r = [] -> sound w.
Proof.
  intros Hv He.
  destruct (check_reachable w) as [u|] eqn:Eu;
    [|unfold validate in Hv; rewrite Eu in Hv; discriminate].
  unfold validate in Hv. rewrite Eu in Hv. injection Hv as <-. cbn [errors] in He.
  repeat (apply app_eq_nil in He as [?H He]).
  rename H into Hexits, H0 into Hstart, H1 into Hu, H3 into Hloc, H5 into Hspawn,
         H6 into Hloot, H8 into Hto, H9 into Htn, H10 into Htr, H11 into Htl,
         H12 into Hresp.
  subst u.
  assert (Hone : exists start, starts_of w = [start]).
  { unfold check_start in Hstart. destruct (starts_of w) as [|s [|s' rest]];
      [discriminate|eauto|discriminate]. }
  split.
  - intros rid room d target Hroom Hexit.
    pose proof (flat_map_nil_inv _ _ Hexits (rid, room) Hroom) as H'. cbn [fst snd] in H'.
    pose proof (flat_map_nil_inv _ _ H' (d, target) Hexit) as H''. cbn [snd] in H''.
    case_bool_decide; [assumption|discriminate].
  - exact Hone.
  - intros start rid Hs Hrid.
    destruct (decide (1 < length (WorldConfig.rooms w))) as [Hl|Hl].
    + eapply check_reachable_none; eassumption.
    + assert (Hstart_in : start ∈ WorldConfig.room_ids w).
      { apply starts_are_rooms. rewrite Hs. left. }
      unfold WorldConfig.room_ids, PyDict.keys in Hrid, Hstart_in.
      destruct (WorldConfig.rooms w) as [|kv [|kv' rest]]; simpl in *; [inversion Hrid| |lia].
      apply list_elem_of_singleton in Hrid, Hstart_in. subst. apply rtc_refl.
  - intros oid o Ho Hreal.
    pose proof (flat_map_nil_inv _ _ Hloc (oid, o) Ho) as H'. cbn [fst snd] in H'.
    rewrite Hreal in H'.
    destruct (bool_decide (GameObject.location o ∉ WorldConfig.room_ids w)
              && bool_decide (GameObject.location o ∉ WorldConfig.object_ids w)) eqn:E;
      [discriminate|].
    assert (Hin : GameObject.location o ∈ WorldConfig.room_ids w \/
                  GameObject.location o ∈ WorldConfig.object_ids w).
    { apply andb_false_iff in E as [E|E]; apply bool_decide_eq_false in E.
      - left. destruct (decide (GameObject.location o ∈ WorldConfig.room_ids w)); tauto.
      - right. destruct (decide (GameObject.location o ∈ WorldConfig.object_ids w)); tauto. }
    split; [exact Hin|]. intros container Hc.
    rewrite bool_decide_eq_true_2 in H'
      by (apply elem_of_keys; rewrite Hc; eauto).
    rewrite Hc in H'. destruct (GameObject.is_container container); [reflexivity|discriminate].
  - intros sid s Hs. split.
    + intros room Hroom.
      pose proof (flat_map_nil_inv _ _ Hspawn (sid, s) Hs) as H'. cbn [fst snd] in H'.
      pose proof (flat_map_nil_inv _ _ H' room Hroom) as H''. cbn in H''.
      case_bool_decide; [assumption|discriminate].
    + pose proof (flat_map_nil_inv _ _ Hloot (sid, s) Hs) as H'. cbn [fst snd] in H'.
      eapply not_reported, H'.
  - intros tid x Hx.
    pose proof (flat_map_nil_inv _ _ Hto (tid, x) Hx) as H1'.
    pose proof (flat_map_nil_inv _ _ Htn (tid, x) Hx) as H2'.
    pose proof (flat_map_nil_inv _ _ Htr (tid, x) Hx) as H3'.
    pose proof (flat_map_nil_inv _ _ Htl (tid, x) Hx) as H4'.
    cbn [fst snd] in *. apply app_eq_nil in H3' as [H3' H3''].
    unfold transformation_ok. split_and!.
    + case_bool_decide; [assumption|discriminate].
    + eapply not_reported, H2'.
    + eapply not_reported, H3'.
    + eapply not_reported, H3''.
    + eapply not_reported, H4'.
  - unfold check_respawn in Hresp. eapply not_reported, Hresp.
  - unfold check_duplicates in He. now apply duplicate_ids_nil in He as [He _].
Qed.

(** The small world passes the validator. *)
Lemma validate_sound_witness :
  validate small_world = Some {| errors := []; warnings := [] |} /\ sound small_world.
Proof.
  assert (H : validate small_world = Some {| errors := []; warnings := [] |})
    by (vm_compute; reflexivity).
  split; [exact H|].
  apply (validate_sound small_world {| errors := []; warnings := [] |}).
  - vm_compute; reflexivity.
  - reflexivity.
Defined.
End ValidationSound.

(* --------------------------------------------------------------------- *)
(** ** world_model.py: serialized records *)
(* --------------------------------------------------------------------- *)

Module RecordFacts.
Import WorldModel Validation PyStr PyStrFacts TextFacts.
Import PyDictFacts PyDictFacts2 PyDictFacts3 ValidationFacts PhysicsFacts.

(** *** Dictionaries *)

Lemma update_keys_nodup {V} (e d : PyDict.t V) :
  NoDup (PyDict.keys d) -> NoDup (PyDict.keys (PyDict.update d e)).
Proof.
  unfold PyDict.update. revert d. induction e as [|[k v] e IH]; intros d Hd; [exact Hd|].
  simpl. apply IH. now apply set_keys_nodup.
Qed.

Lemma elem_of_keys_set {V} (d : PyDict.t V) k v q :
  q ∈ PyDict.keys (PyDict.set d k v) -> q ∈ PyDict.keys d \/ q = k.
Proof.
  rewrite keys_set. destruct (PyDict.mem d k); [auto|].
  rewrite elem_of_app, list_elem_of_singleton. auto.
Qed.

Lemma elem_of_keys_update {V} (e d : PyDict.t V) q :
  q ∈ PyDict.keys (PyDict.update d e) -> q ∈ PyDict.keys d \/ q ∈ PyDict.keys e.
Proof.
  unfold PyDict.update. revert d. induction e as [|[k v] e IH]; intros d Hq; [auto|].
  simpl in Hq. apply IH in Hq as [Hq|Hq].
  - apply elem_of_keys_set in Hq as [Hq| ->]; [auto|]. right. simpl. left.
  - right. simpl. now right.
Qed.

Lemma elem_of_pair_keys {V} (d : PyDict.t V) k v : (k, v) ∈ d -> k ∈ PyDict.keys d.
Proof. intros H. apply elem_of_keys. eapply elem_of_get, H. Qed.

Lemma Forall_set {V} (P : string * V -> Prop) (d : PyDict.t V) k v :
  Forall P d -> P (k, v) -> Forall P (PyDict.set d k v).
Proof.
  rewrite !Forall_forall. intros Hd Hkv [k' v'] Hin.
  apply elem_of_set in Hin as [Hin|[-> ->]]; auto.
Qed.

Lemma Forall_update {V} (P : string * V -> Prop) (d e : PyDict.t V) :
  Forall P d -> Forall P e -> Forall P (PyDict.update d e).
Proof.
  rewrite !Forall_forall. intros Hd He [k v] Hin.
  apply elem_of_update in Hin as [Hin|Hin]; auto.
Qed.

(** *** Serialized sections without a bare percent sign *)

Definition clean (s : string) : bool := negb (has_bare_pct s).

(** No value of the section has a bare percent sign. *)
Definition section_clean (d : PyDict.t IniVal) : Prop :=
  Forall (fun kv => value_has_bare_pct (snd kv) = false) d.

Lemma check_pct_clean source section d :
  section_clean d -> check_pct source section d = [].
Proof.
  unfold section_clean, check_pct. intros H. apply flat_map_nil. intros kv Hkv.
  rewrite Forall_forall in H. now rewrite (H kv Hkv).
Qed.

Lemma check_pct_nil source section d :
  check_pct source section d = [] -> section_clean d.
Proof.
  unfold section_clean, check_pct. induction d as [|kv d IH]; simpl; [constructor|].
  intros H. apply app_eq_nil in H as [H1 H2]. constructor; [|now apply IH].
  now destruct (value_has_bare_pct (snd kv)).
Qed.

Lemma clean_set d k s :
  section_clean d -> has_bare_pct s = false -> section_clean (PyDict.set d k (VStr s)).
Proof. intros Hd Hs. now apply Forall_set. Qed.

Lemma clean_strings (l : PyDict.t string) :
  Forall (fun kv => has_bare_pct (snd kv) = false) l ->
  section_clean (map (fun kv => (fst kv, VStr (snd kv))) l).
Proof.
  unfold section_clean. rewrite !Forall_forall. intros H kv Hkv.
  apply list_elem_of_In, in_map_iff in Hkv as ([k v] & <- & Hin).
  apply list_elem_of_In in Hin. exact (H _ Hin).
Qed.

Lemma clean_update d e : section_clean d -> section_clean e -> section_clean (PyDict.update d e).
Proof. apply Forall_update. Qed.

Lemma clean_cons k v d :
  value_has_bare_pct v = false -> section_clean d -> section_clean ((k, v) :: d).
Proof. intros. now apply Forall_cons_2. Qed.

Lemma clean_nil : section_clean [].
Proof. apply Forall_nil_2. Qed.

Lemma str_bool_lower_clean b : has_bare_pct (str_bool_lower b) = false.
Proof. now destruct b. Qed.

Ltac clean_step :=
  lazymatch goal with
  | |- section_clean (if ?b then _ else _) => destruct b
  | |- section_clean (match ?l with [] => _ | _ :: _ => _ end) => destruct l eqn:?
  | |- section_clean (PyDict.set _ _ (VStr _)) => apply clean_set
  | |- section_clean (PyDict.update _ _) => apply clean_update
  | |- section_clean (Transformation.opt_key _ _ _) => unfold Transformation.opt_key
  | |- section_clean (_ :: _) => apply clean_cons
  | |- section_clean [] => apply clean_nil
  | |- section_clean (map _ _) => apply clean_strings
  end.

(** *** Rooms *)

Definition strings_clean (l : PyDict.t string) : Prop :=
  Forall (fun kv => has_bare_pct (snd kv) = false) l.

Lemma room_section_clean (r : Room.t) :
  has_bare_pct (Room.name r) = false ->
  has_bare_pct (Room.description r) = false ->
  strings_clean (Room.exits r) ->
  strings_clean (Room.properties r) ->
  section_clean (Room.to_ini_section r).
Proof.
  intros Hn Hd He Hp. unfold Room.to_ini_section. cbv zeta.
  repeat clean_step; cbn [snd value_has_bare_pct]; auto.
Qed.

(** *** Objects *)

(** What can be read off an object whatever its location is: name and
    description are not blank, and no text has a bare percent sign. *)
Definition object_static_ok (o : GameObject.t) : bool :=
  negb (blank (GameObject.name o)) && negb (blank (GameObject.description o))
  && clean (GameObject.name o) && clean (GameObject.description o)
  && clean (GameObject.bribe_value o)
  && clean (join ", " (GameObject.valid_verbs o))
  && forallb (fun kv => clean (snd kv)) (GameObject.properties o).

Lemma forallb_clean (l : PyDict.t string) :
  forallb (fun kv => clean (snd kv)) l = true -> strings_clean l.
Proof.
  unfold strings_clean. rewrite forallb_forall, Forall_forall. intros H kv Hkv.
  apply list_elem_of_In, H in Hkv. unfold clean in Hkv. now apply negb_true_iff in Hkv.
Qed.

Lemma object_section_clean (o : GameObject.t) :
  object_static_ok o = true ->
  has_bare_pct (GameObject.location o) = false ->
  section_clean (GameObject.to_ini_section o).
Proof.
  unfold object_static_ok, clean. rewrite !andb_true_iff, !negb_true_iff.
  intros ((((((_ & _) & Hn) & Hd) & Hb) & Hv) & Hp) Hl.
  unfold GameObject.to_ini_section. cbv zeta.
  repeat clean_step; cbn [snd value_has_bare_pct];
    try assumption; try reflexivity; try apply str_bool_lower_clean;
    try apply no_pct_no_bare, of_Z_no_pct; try (now apply forallb_clean).
Qed.

Lemma object_text_nonblank (o : GameObject.t) :
  object_static_ok o = true ->
  blank (GameObject.name o) = false /\ blank (GameObject.description o) = false.
Proof.
  unfold object_static_ok. rewrite !andb_true_iff, !negb_true_iff. tauto.
Qed.

(** *** Transformations *)

Definition transformation_static_ok (x : Transformation.t) : bool :=
  clean (Transformation.object_id x) && clean (Transformation.state x)
  && clean (Transformation.new_state x) && clean (Transformation.new_object_id x)
  && clean (Transformation.requires_object x)
  && clean (Transformation.requires_object_2 x)
  && clean (Transformation.location_property x)
  && forallb (fun kv => clean (snd kv)) (Transformation.properties x).

Lemma transformation_section_clean (x : Transformation.t) :
  transformation_static_ok x = true ->
  has_bare_pct (Transformation.message x) = false ->
  has_bare_pct (Transformation.new_location x) = false ->
  section_clean (Transformation.to_ini_section x).
Proof.
  unfold transformation_static_ok, clean. rewrite !andb_true_iff, !negb_true_iff.
  intros (((((((H1 & H2) & H3) & H4) & H5) & H6) & H7) & H8) Hm Hl.
  unfold Transformation.to_ini_section. cbv zeta.
  repeat clean_step; cbn [snd value_has_bare_pct];
    try assumption; try reflexivity; try apply str_bool_lower_clean;
    try apply no_pct_no_bare, of_Z_no_pct; try (now apply forallb_clean).
Qed.

(** *** Sprites *)

Lemma sprite_section_clean (s : Sprite.t) :
  has_bare_pct (Sprite.name s) = false ->
  has_bare_pct (Sprite.description s) = false ->
  has_bare_pct (Sprite.ai_behavior s) = false ->
  has_bare_pct (join ", " (Sprite.spawn_rooms s)) = false ->
  has_bare_pct (Sprite.loot_on_death s) = false ->
  strings_clean (Sprite.properties s) ->
  section_clean (Sprite.to_ini_section s).
Proof.
  intros Hn Hd Ha Hs Hl Hp. unfold Sprite.to_ini_section. cbv zeta.
  repeat clean_step; cbn [snd value_has_bare_pct];
    try assumption; try reflexivity; try apply str_bool_lower_clean;
    try apply no_pct_no_bare, of_Z_no_pct.
Qed.
End RecordFacts.

(* --------------------------------------------------------------------- *)
(** ** room_graph.py: where the names come from *)
(* --------------------------------------------------------------------- *)

Module RoomGraphNames.
Import WorldModel ThemeEngine Random RandomFacts RoomGraph PyStrFacts TextFacts.
Import RoomGraphFacts RoomGraphFacts2 RoomGraphFacts3 RoomGraphFacts4 RoomGraphFacts5.
Import PyDictFacts PyDictFacts2 RoomGraphText RoomGraphMap RoomGraphDefaults.

(** *** Where the names come from *)

Lemma overlay_elems names : forall custom x,
  x ∈ overlay names custom ->
  x ∈ names \/
  exists c, c ∈ custom /\ PyStr.truthy (PyStr.strip c) = true /\ x = PyStr.strip c.
Proof.
  induction names as [|n names IH]; intros [|c custom] x Hx; cbn [overlay] in Hx; auto.
  apply elem_of_cons in Hx as [->|Hx].
  - destruct (PyStr.truthy (PyStr.strip c)) eqn:E.
    + right. exists c. split; [left|auto].
    + left. left.
  - apply IH in Hx as [Hx|(c' & Hc' & Ht & ->)].
    + left. now right.
    + right. exists c'. split; [now right|auto].
Qed.

(** Every name returned by [_generate_names] is a base name, perhaps with
    a number appended; a base name is "Entrance", a name of the theme, a
    generic name or a stripped custom name. *)
Lemma generate_names_elems n td cn (B : string -> Prop) :
  B "Entrance" ->
  (forall b, b ∈ suggested_room_prefixes td -> B b) ->
  (forall b, b ∈ generic -> B b) ->
  (forall custom c, cn = Some custom -> c ∈ custom ->
     PyStr.truthy (PyStr.strip c) = true -> B (PyStr.strip c)) ->
  post (_generate_names n td cn)
       (fun names => forall x, x ∈ names -> exists b c, B b /\ x = enc b c).
Proof.
  intros HE HT HG HC. unfold _generate_names.
  eapply post_bind; [apply shuffle_spec|]. intros prefixes [_ Hperm].
  apply post_ret. intros x Hx.
  apply dedup_names_elems in Hx as (b & c & Hb & _ & ->).
  exists b, c. split; [|reflexivity].
  apply elem_of_insert_head in Hb as [->|Hb]; [exact HE|].
  assert (Hpre : forall y, y ∈ take n prefixes -> B y).
  { intros y Hy. apply elem_of_take in Hy as (i & Hy & _).
    apply list_elem_of_lookup_2 in Hy.
    apply Hperm, pad_prefixes_elems in Hy as [Hy|Hy]; auto. }
  destruct cn as [custom|]; [|auto].
  apply overlay_elems in Hb as [Hb|(c' & Hc' & Ht & ->)]; [auto|].
  apply (HC custom); [reflexivity| |exact Ht].
  apply elem_of_take in Hc' as (i & Hc' & _). eapply list_elem_of_lookup_2, Hc'.
Qed.

Lemma enc_blank b c : Validation.blank b = false -> Validation.blank (enc b c) = false.
Proof.
  intros Hb. destruct c as [|c]; [exact Hb|]. unfold enc.
  now rewrite blank_app, Hb.
Qed.

(** The names of a table are not blank. *)
Definition names_table_nonblank (table : list string) : bool :=
  forallb (fun b => negb (Validation.blank b)) table.

Lemma table_nonblank theme : names_table_nonblank (name_table (THEME_DEFAULTS theme)) = true.
Proof. destruct theme; vm_compute; reflexivity. Qed.

Lemma name_table_elem td b :
  b = "Entrance" \/ b ∈ suggested_room_prefixes td \/ b ∈ generic -> b ∈ name_table td.
Proof.
  unfold name_table. rewrite !elem_of_app, list_elem_of_singleton. tauto.
Qed.

(** No name is blank, whatever the custom names are. *)
Lemma names_nonblank n td cn :
  names_table_nonblank (name_table td) = true ->
  post (names_and_ids n td cn)
       (fun p => forall x, x ∈ fst p -> Validation.blank x = false).
Proof.
  intros Hok. unfold names_table_nonblank in Hok. rewrite forallb_forall in Hok.
  assert (Ht : forall b, b ∈ name_table td -> Validation.blank b = false).
  { intros b Hb. apply list_elem_of_In, Hok in Hb. now apply negb_true_iff in Hb. }
  unfold names_and_ids.
  eapply post_bind.
  - apply (generate_names_elems n td cn (fun b => Validation.blank b = false)).
    + reflexivity.
    + intros b Hb. apply Ht, name_table_elem. auto.
    + intros b Hb. apply Ht, name_table_elem. auto.
    + intros custom c _ _ Hc. rewrite blank_spaces, all_chars_strip.
      rewrite truthy_strip in Hc. now apply negb_true_iff in Hc.
  - intros names Hnames. apply post_ret. cbn [fst]. intros x Hx.
    destruct (Hnames x Hx) as (b & c & Hb & ->). now apply enc_blank.
Qed.

(** Without custom names, every name is a name of the table, perhaps
    with a number appended, the identifiers are the [_safe_id] of the
    names, and no identifier occurs twice. *)
Lemma names_and_ids_table n td :
  names_table_ok (name_table td) = true ->
  post (names_and_ids n td None)
       (fun p => (forall x, x ∈ fst p -> exists b c, b ∈ name_table td /\ x = enc b c) /\
                 snd p = _safe_id <$> fst p /\
                 NoDup (snd p)).
Proof.
  intros Hok. unfold names_and_ids.
  eapply post_bind.
  - apply post_and.
    + apply (generate_names_elems n td None (fun b => b ∈ name_table td)).
      * apply name_table_elem. auto.
      * intros b Hb. apply name_table_elem. auto.
      * intros b Hb. apply name_table_elem. auto.
      * intros custom c [=].
    + unfold _generate_names.
      eapply post_bind; [apply shuffle_spec|]. intros prefixes [_ Hperm].
      apply (post_ret _ (fun names => NoDup (_safe_id <$> names))).
      apply (dedup_names_nodup _safe_id (fun b => b ∈ name_table td)).
      * intros b1 c1 b2 c2. apply safe_enc_inj, Hok.
      * intros b Hb. apply name_table_elem.
        apply elem_of_insert_head in Hb as [->|Hb]; [auto|].
        apply elem_of_take in Hb as (i & Hb & _). apply list_elem_of_lookup_2 in Hb.
        apply Hperm, pad_prefixes_elems in Hb. tauto.
  - intros names [Hel Hnd]. apply post_ret. cbn [fst snd].
    rewrite dedup_ids_distinct; [auto|exact Hnd|].
    intros x _. apply lookup_empty.
Qed.
End RoomGraphNames.

(* --------------------------------------------------------------------- *)
(** ** physics_templates.py: identifiers and texts of the packages *)
(* --------------------------------------------------------------------- *)

Module PhysicsShape.
Import WorldModel ThemeEngine Random RandomFacts Physics Validation ValidationFacts.
Import PyStr PyStrFacts TextFacts RecordFacts.
Import PyDictFacts PyDictFacts2 PyDictFacts3 PhysicsFacts PhysicsBuilders PhysicsClaims.

(** *** Rooms up to their properties *)

(** The record without its properties. *)
Definition bare (r : Room.t) : Room.t :=
  Room.mk (Room.room_id r) (Room.name r) (Room.description r) (Room.exits r) []
          (Room.is_start r).

(** The map of rooms without the properties the physics packages set. *)
Definition skeleton (rooms : PyDict.t Room.t) : PyDict.t Room.t :=
  map (fun kv => (fst kv, bare (snd kv))) rooms.

Lemma skeleton_keys rooms : PyDict.keys (skeleton rooms) = PyDict.keys rooms.
Proof. unfold skeleton, PyDict.keys. rewrite map_map. reflexivity. Qed.

Lemma skeleton_set rooms k r r' :
  PyDict.get rooms k = Some r -> bare r' = bare r ->
  skeleton (PyDict.set rooms k r') = skeleton rooms.
Proof.
  intros Hget Hbare. induction rooms as [|[k0 r0] rooms IH]; [discriminate|].
  cbn [PyDict.get PyDict.set] in *. destruct (String.eqb k0 k) eqn:E.
  - injection Hget as ->. cbn. now rewrite Hbare.
  - cbn. f_equal. now apply IH.
Qed.

Lemma skeleton_elem rooms rid r :
  (rid, r) ∈ rooms -> (rid, bare r) ∈ skeleton rooms.
Proof.
  intros H. apply list_elem_of_In, in_map_iff. exists (rid, r).
  split; [reflexivity|]. now apply list_elem_of_In.
Qed.

Lemma skeleton_elem_inv rooms rid r0 :
  (rid, r0) ∈ skeleton rooms -> exists r, (rid, r) ∈ rooms /\ r0 = bare r.
Proof.
  intros H. apply list_elem_of_In, in_map_iff in H as ([k r] & [= <- <-] & Hin).
  exists r. split; [now apply list_elem_of_In|reflexivity].
Qed.

Lemma skeleton_bare rooms :
  (forall rid r, (rid, r) ∈ rooms -> Room.properties r = []) -> skeleton rooms = rooms.
Proof.
  induction rooms as [|[k r] rooms IH]; intros H; [reflexivity|].
  cbn. f_equal.
  - f_equal. specialize (H k r (list_elem_of_here _ _)).
    destruct r. cbn in H. subst. reflexivity.
  - apply IH. intros rid r' Hin. apply (H rid). now right.
Qed.

(** *** What a builder does to the world *)

(** The world is the one given, or the one given with a room property set
    to "true". *)
Definition world_step (w w' : WorldConfig.t) : Prop :=
  w' = w \/ exists room k, w' = set_room_property w room k "true".

(** All room properties of the world are "true". *)
Definition props_true (w : WorldConfig.t) : Prop :=
  forall rid r k v,
    (rid, r) ∈ WorldConfig.rooms w -> (k, v) ∈ Room.properties r -> v = "true".

Lemma set_room_property_rooms w room k v :
  skeleton (WorldConfig.rooms (set_room_property w room k v))
  = skeleton (WorldConfig.rooms w) /\
  WorldConfig.sprites (set_room_property w room k v) = WorldConfig.sprites w /\
  WorldConfig.combat (set_room_property w room k v) = WorldConfig.combat w /\
  WorldConfig.sd_config (set_room_property w room k v) = WorldConfig.sd_config w /\
  WorldConfig.physics_applied (set_room_property w room k v)
  = WorldConfig.physics_applied w /\
  WorldConfig.theme (set_room_property w room k v) = WorldConfig.theme w /\
  (props_true w -> v = "true" -> props_true (set_room_property w room k v)).
Proof.
  unfold set_room_property.
  destruct (PyDict.get (WorldConfig.rooms w) room) as [r|] eqn:E; [|auto 10].
  cbn. split_and!; try reflexivity.
  - eapply skeleton_set; [exact E|reflexivity].
  - intros Hp -> rid r' k' v' Hin Hkv.
    apply elem_of_set in Hin as [Hin|[-> ->]]; [eapply Hp; eassumption|].
    cbn in Hkv. apply elem_of_set in Hkv as [Hkv|[_ ->]]; [|reflexivity].
    apply get_Some_elem_of in E. eapply Hp; eassumption.
Qed.

(** *** The identifiers the packages use *)

Definition OBJECT_IDS : list string :=
  ["starter_weapon"; "starter_health"; "starter_key"; "starter_document";
   "water_container"; "ice_block"; "power_cell_inert"; "power_cell_charged";
   "master_key"; "ingredient_a"; "ingredient_b"; "crafted_result";
   "portal_device"; "disguise_item"; "explosive_charge"; "detonator";
   "bribe_item"; "spell_scroll"; "enchanted_item"; "medical_kit";
   "advanced_medicine"; "seed"; "grown_plant"; "alien_artifact";
   "scanner_device"; "activated_artifact"].

Definition TRANSFORM_IDS : list string :=
  ["water_freezes"; "ice_melts"; "energy_charge"; "door_unlocked"; "craft_combine";
   "teleport_activate"; "wear_disguise"; "arm_explosive"; "detonate"; "bribe_used";
   "cast_spell"; "apply_treatment"; "seed_grows"; "alien_scan"; "alien_activate"].

(** An object of a package: a known identifier, a location that is a room
    or "none", and sound texts. *)
Definition object_entry_ok (room_ids : list string) (kv : string * GameObject.t) : Prop :=
  fst kv ∈ OBJECT_IDS /\
  (GameObject.location (snd kv) = "none" \/ GameObject.location (snd kv) ∈ room_ids) /\
  GameObject.is_container (snd kv) = false /\
  object_static_ok (snd kv) = true.

(** The message has no bare percent sign unless a room name has one. *)
Definition message_ok (rooms : PyDict.t Room.t) (x : Transformation.t) : Prop :=
  (forall rid r, (rid, r) ∈ rooms -> has_bare_pct (Room.name r) = false) ->
  has_bare_pct (Transformation.message x) = false.

Definition transformation_entry_ok (rooms : PyDict.t Room.t)
    (kv : string * Transformation.t) : Prop :=
  fst kv ∈ TRANSFORM_IDS /\
  transformation_static_ok (snd kv) = true /\
  message_ok rooms (snd kv).

Definition built_texts (w : WorldConfig.t) (r : PhysicsPackage.t * WorldConfig.t) : Prop :=
  Forall (object_entry_ok (WorldConfig.room_ids w)) (PhysicsPackage.objects (fst r)) /\
  Forall (transformation_entry_ok (WorldConfig.rooms w))
         (PhysicsPackage.transformations (fst r)) /\
  world_step w (snd r).

Lemma dict_get_elem {V} (d : PyDict.t V) k :
  k ∈ PyDict.keys d -> post (dict_get d k) (fun v => (k, v) ∈ d).
Proof.
  intros Hk. apply elem_of_keys in Hk as [v Hv]. unfold dict_get. rewrite Hv.
  apply post_ret. now apply get_Some_elem_of.
Qed.

Ltac pick_room2 :=
  first [ apply random_room_ok; assumption
        | apply locked_room_ok; assumption
        | apply dest_room_ok; assumption
        | apply dict_get_elem; assumption ].

Ltac object_entry :=
  unfold object_entry_ok; cbn [fst snd GameObject.location GameObject.is_container];
  split_and!;
  [ solve [in_literal]
  | first [left; reflexivity | right; assumption]
  | reflexivity
  | vm_compute; reflexivity ].

Ltac message_entry :=
  let H := fresh in
  intros H; cbn [Transformation.message]; vm_compute; reflexivity.

Ltac transformation_entry :=
  unfold transformation_entry_ok; cbn [fst snd];
  split_and!;
  [ solve [in_literal]
  | vm_compute; reflexivity
  | unfold message_ok; message_entry ].

Ltac world_stepped :=
  first [left; reflexivity | right; eexists _, _; reflexivity].

Ltac builder2 :=
  cbv zeta;
  repeat (lazymatch goal with
          | |- post (_ ≫= _) _ => eapply post_bind; [pick_room2|intros ? ?]
          end);
  apply post_ret;
  unfold built_texts; cbn [fst snd];
  split_and!;
  [ cbn; each; try object_entry
  | cbn; each; try transformation_entry
  | try world_stepped ].

Section builders.
Variable w : WorldConfig.t.
Variable theme : ThemeDefaults.
Hypothesis Hne : WorldConfig.rooms w <> [].

Lemma build_energy_texts : post (_build_energy w theme) (built_texts w).
Proof. unfold _build_energy. builder2. Qed.

Lemma build_lock_key_texts : post (_build_lock_key w theme) (built_texts w).
Proof. unfold _build_lock_key. builder2. Qed.

Lemma build_crafting_texts : post (_build_crafting w theme) (built_texts w).
Proof. unfold _build_crafting. builder2. Qed.

Lemma build_teleportation_texts : post (_build_teleportation w theme) (built_texts w).
Proof.
  unfold _build_teleportation. builder2.
  unfold transformation_entry_ok; cbn [fst snd].
  split_and!.
  { solve [in_literal]. }
  { vm_compute; reflexivity. }
  intros Hnames. cbn [Transformation.message]. unfold has_bare_pct.
  rewrite bare_pct_app_head by (first [reflexivity | discriminate]). unfold has_bare_pct.
  rewrite bare_pct_app_head by (first [reflexivity | discriminate]). unfold has_bare_pct.
  rewrite bare_pct_app_tail by reflexivity.
  cbv beta in *. eapply Hnames; eassumption.
Qed.

Lemma build_temperature_texts : post (_build_temperature w theme) (built_texts w).
Proof. unfold _build_temperature. builder2. Qed.

Lemma build_disguise_texts : post (_build_disguise w theme) (built_texts w).
Proof. unfold _build_disguise. builder2. Qed.

Lemma build_explosives_texts : post (_build_explosives w theme) (built_texts w).
Proof. unfold _build_explosives. builder2. Qed.

Lemma build_bribery_texts : post (_build_bribery w theme) (built_texts w).
Proof. unfold _build_bribery. builder2. Qed.

Lemma build_magic_texts : post (_build_magic w theme) (built_texts w).
Proof. unfold _build_magic. builder2. Qed.

Lemma build_medical_texts : post (_build_medical w theme) (built_texts w).
Proof. unfold _build_medical. builder2. Qed.

Lemma build_growth_texts : post (_build_growth w theme) (built_texts w).
Proof. unfold _build_growth. builder2. Qed.

Lemma build_alien_tech_texts : post (_build_alien_tech w theme) (built_texts w).
Proof. unfold _build_alien_tech. builder2. Qed.
End builders.

Lemma get_package_texts t w theme :
  WorldConfig.rooms w <> [] -> post (get_package t w theme) (built_texts w).
Proof.
  intros Hne. destruct t; simpl.
  - now apply build_temperature_texts.
  - now apply build_energy_texts.
  - now apply build_lock_key_texts.
  - now apply build_crafting_texts.
  - now apply build_teleportation_texts.
  - now apply build_disguise_texts.
  - now apply build_explosives_texts.
  - now apply build_bribery_texts.
  - now apply build_magic_texts.
  - now apply build_medical_texts.
  - now apply build_growth_texts.
  - now apply build_alien_tech_texts.
Qed.
End PhysicsShape.

(* --------------------------------------------------------------------- *)
(** ** generator.py: the world between the stages *)
(* --------------------------------------------------------------------- *)

Module WorldShape.
Import WorldModel ThemeEngine Random RandomFacts Physics Validation ValidationFacts.
Import PyStr PyStrFacts TextFacts RecordFacts PhysicsShape.
Import PyDictFacts PyDictFacts2 PyDictFacts3 PhysicsFacts PhysicsBuilders PhysicsClaims.

(** *** The world between the stages *)

(** What stages 4 and 5 keep true of a world whose rooms are [rooms0] up
    to room properties. *)
Record shaped (rooms0 : PyDict.t Room.t) (w : WorldConfig.t) : Prop := {
  sh_rooms : skeleton (WorldConfig.rooms w) = rooms0;
  sh_props : props_true w;
  sh_objects_nodup : NoDup (WorldConfig.object_ids w);
  sh_objects : Forall (object_entry_ok (PyDict.keys rooms0)) (WorldConfig.objects w);
  sh_transformations_nodup : NoDup (PyDict.keys (WorldConfig.transformations w));
  sh_transformations :
    Forall (transformation_entry_ok rooms0) (WorldConfig.transformations w);
  sh_resolved : resolved w
}.

Lemma shaped_room_ids rooms0 w : shaped rooms0 w -> WorldConfig.room_ids w = PyDict.keys rooms0.
Proof.
  intros H. unfold WorldConfig.room_ids. rewrite <- (sh_rooms _ _ H). symmetry.
  apply skeleton_keys.
Qed.

Lemma message_ok_skeleton rooms x : message_ok rooms x -> message_ok (skeleton rooms) x.
Proof.
  unfold message_ok. intros H Hnames. apply H. intros rid r Hin.
  apply (Hnames rid (bare r)). now apply skeleton_elem.
Qed.

Lemma world_step_rooms w w' :
  world_step w w' ->
  skeleton (WorldConfig.rooms w') = skeleton (WorldConfig.rooms w) /\
  (props_true w -> props_true w') /\
  WorldConfig.sprites w' = WorldConfig.sprites w.
Proof.
  intros [->|(room & k & ->)]; [auto|].
  pose proof (set_room_property_rooms w room k "true") as (H1 & H3 & _ & _ & _ & _ & H2).
  auto.
Qed.

Lemma inject_sprites pkg w :
  WorldConfig.sprites (PhysicsPackage.inject pkg w) = WorldConfig.sprites w.
Proof. unfold PhysicsPackage.inject. now case_bool_decide. Qed.

(** *** Stage 5: one package *)

Lemma apply_physics_shaped td rooms0 w t :
  rooms0 <> [] -> shaped rooms0 w ->
  post (Generator.apply_physics td w t)
       (fun w' => shaped rooms0 w' /\ WorldConfig.sprites w' = WorldConfig.sprites w).
Proof.
  intros Hne Hsh. unfold Generator.apply_physics.
  assert (Hrooms : WorldConfig.rooms w <> []).
  { intros E. apply Hne. rewrite <- (sh_rooms _ _ Hsh), E. reflexivity. }
  eapply post_bind.
  { apply post_and; [apply get_package_built, Hrooms|apply get_package_texts, Hrooms]. }
  intros [pkg w'] [Hb (Hobj & Htr & Hstep)]. cbn [fst snd] in *.
  pose proof Hb as (_ & Hr & Ho & Hx). cbn [fst snd] in *.
  apply world_step_rooms in Hstep as (Hsk & Hprops & Hsprites).
  apply post_ret. split; [|now rewrite inject_sprites].
  destruct Hsh as [S1 S2 S3 S4 S5 S6 S7]. split.
  - now rewrite inject_rooms, Hsk.
  - intros rid r k v. rewrite inject_rooms. apply Hprops, S2.
  - unfold WorldConfig.object_ids. rewrite inject_objects, Ho.
    now apply update_keys_nodup.
  - rewrite inject_objects, Ho. apply Forall_update; [exact S4|].
    replace (PyDict.keys rooms0) with (WorldConfig.room_ids w); [exact Hobj|].
    unfold WorldConfig.room_ids. now rewrite <- S1, skeleton_keys.
  - rewrite inject_transformations, Hx. now apply update_keys_nodup.
  - rewrite inject_transformations, Hx. apply Forall_update; [exact S6|].
    rewrite <- S1. eapply Forall_impl; [exact Htr|].
    intros kv (H1 & H2 & H3). split_and!; auto. now apply message_ok_skeleton.
  - now apply (built_inject_resolved w (pkg, w')).
Qed.

Lemma physics_loop_shaped td rooms0 ps : forall w,
  rooms0 <> [] -> shaped rooms0 w ->
  post (for_each (Generator.apply_physics td) w ps)
       (fun w' => shaped rooms0 w' /\ WorldConfig.sprites w' = WorldConfig.sprites w).
Proof.
  intros w Hne Hsh.
  apply (post_for_each _ (fun w' => shaped rooms0 w' /\
                                     WorldConfig.sprites w' = WorldConfig.sprites w));
    [|now split].
  intros t s _ [Hs Hsp].
  eapply post_mono; [apply (apply_physics_shaped td rooms0 s t Hne Hs)|].
  intros w' [H1 H2]. split; [exact H1|congruence].
Qed.

(** *** Stage 4: the starter objects *)

Lemma lookup_mod_elem (l : list string) i :
  l <> [] -> default "" (l !! (i mod length l)) ∈ l.
Proof.
  intros Hne. destruct (lookup_lt_is_Some_2 l (i mod length l)) as [x Hx].
  - apply Nat.mod_upper_bound. destruct l; [contradiction|simpl; lia].
  - rewrite Hx. simpl. eapply list_elem_of_lookup_2, Hx.
Qed.

Lemma starter_static t room_ids i row :
  row ∈ Generator.starters (THEME_DEFAULTS t) ->
  object_static_ok (Generator.starter_object (THEME_DEFAULTS t) room_ids i row) = true /\
  GameObject.is_container (Generator.starter_object (THEME_DEFAULTS t) room_ids i row)
  = false.
Proof.
  intros Hrow. unfold Generator.starters in Hrow.
  repeat (apply elem_of_cons in Hrow as [->|Hrow];
          [destruct t; split; vm_compute; reflexivity|]).
  now apply elem_of_nil in Hrow.
Qed.

Lemma starter_location td room_ids i row :
  room_ids <> [] ->
  GameObject.location (Generator.starter_object td room_ids i row) ∈ room_ids.
Proof.
  intros Hne. destruct row as [[[[[[[oid name] wp] cons] cont] dmg] hr] verbs].
  cbn. now apply lookup_mod_elem.
Qed.

Lemma starter_key td room_ids i row :
  row ∈ Generator.starters td ->
  GameObject.object_id (Generator.starter_object td room_ids i row) ∈ OBJECT_IDS.
Proof.
  intros Hrow. unfold Generator.starters in Hrow.
  repeat (apply elem_of_cons in Hrow as [->|Hrow]; [cbn; solve [in_literal]|]).
  now apply elem_of_nil in Hrow.
Qed.

Lemma starters_fold t room_ids (rows : list (nat * _)) : forall objects,
  room_ids <> [] ->
  (forall ir, ir ∈ rows -> snd ir ∈ Generator.starters (THEME_DEFAULTS t)) ->
  NoDup (PyDict.keys objects) ->
  Forall (object_entry_ok room_ids) objects ->
  let objects' :=
    fold_left
      (fun objects ir =>
         let o := Generator.starter_object (THEME_DEFAULTS t) room_ids (fst ir) (snd ir) in
         PyDict.set objects (GameObject.object_id o) o)
      rows objects in
  NoDup (PyDict.keys objects') /\ Forall (object_entry_ok room_ids) objects'.
Proof.
  induction rows as [|ir rows IH]; intros objects Hne Hrows Hnd Hall; [now split|].
  cbn [fold_left]. apply IH.
  - exact Hne.
  - intros ir' Hin. apply Hrows. now right.
  - now apply set_keys_nodup.
  - apply Forall_set; [exact Hall|].
    assert (Hrow : snd ir ∈ Generator.starters (THEME_DEFAULTS t)) by (apply Hrows; left).
    destruct (starter_static t room_ids (fst ir) (snd ir) Hrow) as [Hs Hc].
    unfold object_entry_ok. cbn [fst snd]. split_and!; [|right| |]; auto.
    + now apply starter_key.
    + now apply starter_location.
Qed.

Lemma starter_objects_ok t w :
  WorldConfig.rooms w <> [] ->
  let objects := Generator._build_starter_objects (THEME_DEFAULTS t) w in
  NoDup (PyDict.keys objects) /\
  Forall (object_entry_ok (WorldConfig.room_ids w)) objects.
Proof.
  intros Hne. unfold Generator._build_starter_objects.
  fold (WorldConfig.room_ids w).
  assert (Hids : WorldConfig.room_ids w <> []).
  { unfold WorldConfig.room_ids, PyDict.keys. now destruct (WorldConfig.rooms w). }
  destruct (WorldConfig.room_ids w) as [|r0 ids] eqn:E; [contradiction|].
  rewrite <- E in *. apply starters_fold; [exact Hids| |constructor|constructor].
  intros [i row] Hin. cbn [snd]. eapply elem_of_zip_r, Hin.
Qed.

(** The world after stage 4. *)
Lemma starters_shaped t (w : WorldConfig.t) rooms0 :
  rooms0 <> [] ->
  (forall rid r, (rid, r) ∈ rooms0 -> Room.properties r = []) ->
  WorldConfig.transformations w = [] ->
  let w1 := WorldConfig.with_rooms w rooms0 in
  shaped rooms0
    (WorldConfig.with_objects w1 (Generator._build_starter_objects (THEME_DEFAULTS t) w1)).
Proof.
  intros Hne Hbare Htr w1.
  assert (Hr1 : WorldConfig.rooms w1 <> []) by exact Hne.
  destruct (starter_objects_ok t w1 Hr1) as [Hnd Hall].
  split; cbn.
  - now apply skeleton_bare.
  - intros rid r k v Hin Hkv. rewrite (Hbare _ _ Hin) in Hkv. now apply elem_of_nil in Hkv.
  - exact Hnd.
  - exact Hall.
  - rewrite Htr. constructor.
  - rewrite Htr. constructor.
  - split; cbn.
    + unfold PyDict.values. apply Forall_forall. intros o Ho.
      apply list_elem_of_In, in_map_iff in Ho as ([k o'] & <- & Hin).
      apply list_elem_of_In in Hin. rewrite Forall_forall in Hall.
      destruct (Hall _ Hin) as (_ & Hloc & _). cbn [snd] in *.
      intros Hreal. destruct Hloc as [Hloc|Hloc]; [|now left].
      rewrite Hloc in Hreal. discriminate.
    + rewrite Htr. constructor.
Qed.
End WorldShape.

(* --------------------------------------------------------------------- *)
(** ** sprite_factory.py: the sprites *)
(* --------------------------------------------------------------------- *)

Module SpriteShape.
Import WorldModel ThemeEngine Random RandomFacts SpriteFactory SpriteFacts.
Import PyStr PyStrFacts TextFacts RecordFacts.
Import PyDictFacts PyDictFacts2 PyDictFacts3 RoomGraphMap RoomGraphDefaults.

(** *** A loop over [enumerate(l)] *)

Lemma post_for_each_enumerate {S A} (step : S -> nat * A -> M S) (Inv : nat -> S -> Prop)
    (l : list A) : forall a st,
  (forall i x s, l !! i = Some x -> Inv (a + i) s ->
                 post (step s (a + i, x)) (Inv (Datatypes.S (a + i)))) ->
  Inv a st ->
  post (for_each step st (zip (seq a (length l)) l)) (Inv (a + length l)).
Proof.
  induction l as [|x l IH]; intros a st Hstep H0; cbn [length seq zip zip_with for_each].
  - apply post_ret. now rewrite Nat.add_0_r.
  - eapply post_bind.
    { specialize (Hstep 0 x st eq_refl). rewrite Nat.add_0_r in Hstep. now apply Hstep. }
    intros s' Hs'. replace (a + Datatypes.S (length l)) with (Datatypes.S a + length l) by lia.
    apply IH; [|exact Hs'].
    intros i y s Hy Hinv. specialize (Hstep (Datatypes.S i) y s Hy).
    replace (a + Datatypes.S i) with (Datatypes.S a + i) in Hstep by lia.
    now apply Hstep.
Qed.

(** *** Identifiers *)

(** The identifier of a name ends in "_template". *)
Definition stem (name : string) : string :=
  replace_char "-" "_" (replace_char "'" "" (replace_char " " "_" (strip (lower name)))).

Lemma make_id_stem name : _make_id name = stem name +:+ "_" +:+ "template".
Proof. reflexivity. Qed.

Lemma template_no_underscore : all_chars no_underscore "template" = true.
Proof. reflexivity. Qed.

Lemma of_nat_no_underscore k : all_chars no_underscore (of_nat k) = true.
Proof.
  eapply all_chars_impl; [apply digit_no_underscore|apply of_nat_digits].
Qed.

Lemma of_nat_not_template k : of_nat k <> "template".
Proof.
  intros H. pose proof (of_nat_digits k) as Hd. rewrite H in Hd. discriminate.
Qed.

(** A numbered identifier is no plain identifier. *)
Lemma numbered_not_plain n1 k n2 : _make_id n1 +:+ "_" +:+ of_nat k <> _make_id n2.
Proof.
  rewrite (make_id_stem n2). intros H.
  apply split_at_underscore in H as [_ H];
    [|apply of_nat_no_underscore|apply template_no_underscore].
  now apply of_nat_not_template in H.
Qed.

Lemma numbered_inj n1 k1 n2 k2 :
  _make_id n1 +:+ "_" +:+ of_nat k1 = _make_id n2 +:+ "_" +:+ of_nat k2 -> k1 = k2.
Proof.
  intros H. apply split_at_underscore in H as [_ H];
    [|apply of_nat_no_underscore..].
  now apply of_nat_inj.
Qed.

(** *** Behaviour and description *)

Definition behaviours : list string :=
  (fun kv => ov_ai_behavior (snd kv)) <$> KNOWN_CHARACTER_OVERRIDES.

Lemma classify_behaviour name td :
  no_pct (snd (fst (_classify name td))) = true.
Proof.
  unfold _classify. cbv zeta. destruct (find_override _) as [ov|] eqn:E.
  - cbn [fst snd]. unfold find_override in E.
    destruct (List.find _ KNOWN_CHARACTER_OVERRIDES) as [[k ov']|] eqn:F; [|discriminate].
    injection E as <-. apply find_some in F as [F _]. cbn in F.
    repeat (destruct F as [[= <- <-]|F]; [reflexivity|]). contradiction.
  - cbn [fst snd].
    match goal with |- no_pct (ROLE_BEHAVIOR ?b) = true => destruct b; reflexivity end.
Qed.

(** The sentence [_generate_description] appends to the name. *)
Definition role_sentence (role : SpriteRole) (td : ThemeDefaults) : string :=
  match role with
  | HERO => "A central figure in this " +:+ flavor_adjective td +:+ " world."
  | VILLAIN => "A hostile presence in this " +:+ flavor_noun td +:+ "."
  | NEUTRAL => "A resident of this " +:+ flavor_adjective td +:+ " "
               +:+ flavor_noun td +:+ "."
  | BOSS => "The most dangerous entity in this " +:+ flavor_noun td +:+ "."
  | ALLY => "A trustworthy ally in this " +:+ flavor_adjective td +:+ " world."
  | GUARD => "A patrol element in this " +:+ flavor_adjective td +:+ " "
             +:+ flavor_noun td +:+ "."
  end.

Lemma generate_description_eq name role td :
  _generate_description name role td = name +:+ ". " +:+ role_sentence role td.
Proof. reflexivity. Qed.

Lemma role_sentence_no_pct role t : no_pct (role_sentence role (THEME_DEFAULTS t)) = true.
Proof. destruct role, t; vm_compute; reflexivity. Qed.

(** *** Loot *)

(** The loot is nothing, or a takeable object of the world that lies
    somewhere. *)
Definition loot_ok (w : WorldConfig.t) (loot : string) : Prop :=
  loot = "" \/
  exists o, (loot, o) ∈ WorldConfig.objects w /\ GameObject.takeable o = true /\
            GameObject.location o <> "none".

Lemma assign_loot_elem w role : post (_assign_loot w role) (loot_ok w).
Proof.
  unfold _assign_loot. destruct (WorldConfig.objects w) as [|o objects] eqn:Eo.
  { apply post_ret. now left. }
  cbv zeta. rewrite <- Eo.
  lazymatch goal with
  | |- post (match ?c with [] => _ | _ :: _ => _ end) _ => set (candidates := c)
  end.
  assert (Hc : forall x, x ∈ candidates -> loot_ok w x).
  { intros x Hx. apply list_elem_of_fmap in Hx as ([k v] & -> & Hin).
    apply list_elem_of_filter in Hin as [[H1 H2] Hin]. right. exists v. auto. }
  destruct candidates as [|c cs] eqn:Ec; [apply post_ret; now left|].
  rewrite <- Ec in *.
  destruct (bool_decide (role = BOSS) && negb (bool_decide (_ = []))) eqn:Eb.
  - apply andb_true_iff in Eb as [_ Eb]. apply negb_true_iff in Eb.
    apply bool_decide_eq_false in Eb.
    eapply post_mono; [apply choice_ok, Eb|]. intros x Hx.
    apply list_elem_of_filter in Hx as [_ Hx]. now apply Hc.
  - eapply post_mono; [apply choice_ok; rewrite Ec; discriminate|]. exact Hc.
Qed.

(** *** The loop *)

(** What is known of the sprite stored under [sid] once the names before
    index [k] are done. *)
Definition sprite_entry (names : list string) (td : ThemeDefaults) (w : WorldConfig.t)
    (k : nat) (sid : string) (s : Sprite.t) : Prop :=
  exists i name,
    i < k /\ names !! i = Some name /\ Validation.blank name = false /\
    (sid = _make_id name \/ sid = _make_id name +:+ "_" +:+ of_nat i) /\
    Sprite.sprite_id s = sid /\
    Sprite.name s = name +:+ " (template)" /\
    Sprite.description s = name +:+ ". " +:+ role_sentence (Sprite.role s) td /\
    no_pct (Sprite.ai_behavior s) = true /\
    Sprite.properties s = [] /\
    loot_ok w (Sprite.loot_on_death s) /\
    spawn_ok (WorldConfig.room_ids w) (Sprite.spawn_rooms s).

(** The names that are not blank. *)
Definition named (names : list string) : list string :=
  filter (fun name => Validation.blank name = false) names.

Definition sprites_inv (names : list string) (td : ThemeDefaults) (w : WorldConfig.t)
    (k : nat) (sprites : PyDict.t Sprite.t) : Prop :=
  NoDup (PyDict.keys sprites) /\
  length sprites = length (named (take k names)) /\
  forall sid s, (sid, s) ∈ sprites -> sprite_entry names td w k sid s.

Lemma sprite_entry_mono names td w k sid s :
  sprite_entry names td w k sid s -> sprite_entry names td w (S k) sid s.
Proof.
  intros (i & name & Hi & H). exists i, name. split; [lia|exact H].
Qed.

Lemma named_snoc names k name :
  names !! k = Some name ->
  named (take (S k) names)
  = named (take k names) ++ (if Validation.blank name then [] else [name]).
Proof.
  intros Hk. rewrite (take_S_r _ _ _ Hk). unfold named. rewrite filter_app.
  f_equal. rewrite filter_cons, filter_nil.
  destruct (Validation.blank name); case_decide; congruence.
Qed.

Lemma length_set_fresh {V} (d : PyDict.t V) k v :
  k ∉ PyDict.keys d -> length (PyDict.set d k v) = S (length d).
Proof.
  intros Hk.
  assert (Hl : length (PyDict.keys (PyDict.set d k v)) = S (length (PyDict.keys d))).
  { rewrite keys_set. destruct (PyDict.mem d k) eqn:E.
    - exfalso. apply Hk, elem_of_keys. unfold PyDict.mem in E.
      destruct (PyDict.get d k); [eauto|discriminate].
    - rewrite length_app. simpl. lia. }
  unfold PyDict.keys in Hl. now rewrite !length_map in Hl.
Qed.

Lemma sprite_step_inv names td w k name sprites :
  WorldConfig.rooms w <> [] ->
  names !! k = Some name ->
  sprites_inv names td w k sprites ->
  post (sprite_step (length names) td w (PyDict.keys (WorldConfig.rooms w)) sprites (k, name))
       (sprites_inv names td w (S k)).
Proof.
  intros Hne Hk (Hnd & Hlen & Hall). unfold sprite_step. cbn [fst snd].
  assert (Hb : PyStr.truthy (PyStr.strip name) = negb (Validation.blank name)).
  { unfold Validation.blank. now rewrite negb_involutive. }
  rewrite Hb, negb_involutive.
  destruct (Validation.blank name) eqn:Eb.
  { apply post_ret. split_and!; [exact Hnd| |].
    - rewrite (named_snoc _ _ _ Hk), Eb, app_nil_r. exact Hlen.
    - intros sid s Hin. apply sprite_entry_mono. now apply Hall. }
  cbv zeta.
  pose proof (classify_behaviour name td) as Hbeh.
  destruct (_classify name td) as [[role behavior] aggression]. cbn [fst snd] in Hbeh.
  destruct (_calc_stats role td) as [health damage].
  eapply post_bind; [apply assign_loot_elem|]. intros loot Hloot.
  apply post_ret.
  set (sid := if PyDict.mem sprites (_make_id name)
              then _make_id name +:+ "_" +:+ of_nat k else _make_id name).
  assert (Hfresh : sid ∉ PyDict.keys sprites).
  { unfold sid. destruct (PyDict.mem sprites (_make_id name)) eqn:Em.
    - intros Hin. apply elem_of_keys in Hin as [s Hs]. apply get_Some_elem_of in Hs.
      destruct (Hall _ _ Hs) as (i & n & Hi & _ & _ & [Hid|Hid] & _).
      + now apply numbered_not_plain in Hid.
      + apply numbered_inj in Hid. lia.
    - now apply mem_false_not_key. }
  split_and!.
  - now apply set_keys_nodup.
  - rewrite (named_snoc _ _ _ Hk), Eb, length_app, length_set_fresh by exact Hfresh.
    simpl. lia.
  - intros sid' s Hin. apply elem_of_set in Hin as [Hin|[-> ->]].
    + apply sprite_entry_mono. now apply Hall.
    + exists k, name. cbn. split_and!; try reflexivity; try assumption; [lia| |].
      * unfold sid. destruct (PyDict.mem sprites (_make_id name)); auto.
      * apply assign_spawn_rooms_ok. unfold PyDict.keys.
        now destruct (WorldConfig.rooms w).
Qed.

(** What [generate_sprites] returns in a world that has rooms. *)
Lemma generate_sprites_inv names td w :
  WorldConfig.rooms w <> [] ->
  post (generate_sprites names td w) (sprites_inv names td w (length names)).
Proof.
  intros Hne. unfold generate_sprites.
  destruct names as [|n names].
  { apply post_ret. split_and!; [constructor|reflexivity|].
    intros sid s H. now apply elem_of_nil in H. }
  destruct (WorldConfig.rooms w) as [|r rooms] eqn:Er; [contradiction|].
  rewrite <- Er in *. cbv zeta.
  apply (post_for_each_enumerate _ (sprites_inv (n :: names) td w) (n :: names) 0).
  - intros i x s Hx Hinv. cbn [Nat.add]. now apply sprite_step_inv.
  - split_and!; [constructor|reflexivity|]. intros sid s H. now apply elem_of_nil in H.
Qed.
End SpriteShape.

(* --------------------------------------------------------------------- *)
(** ** sprite_factory.py: every character has its sprite and its spawn rooms *)
(* --------------------------------------------------------------------- *)

Module SpriteClaims.
Import WorldModel ThemeEngine Random RandomFacts SpriteFactory SpriteFacts.
Import PyStr PyStrFacts TextFacts RecordFacts SpriteShape.
Import PyDictFacts PyDictFacts2 PyDictFacts3.

(** The sprite made for the name at index [i]: it bears the name and has
    the spawn list [_assign_spawn_rooms] computes for [i]. *)
Definition sprite_of (names : list string) (w : WorldConfig.t) (i : nat) (name : string)
    (s : Sprite.t) : Prop :=
  Sprite.name s = name +:+ " (template)" /\
  Sprite.spawn_rooms s
  = _assign_spawn_rooms i (length names) (PyDict.keys (WorldConfig.rooms w)).

(** Every name before index [k] that is not blank has its sprite. *)
Definition covers (names : list string) (w : WorldConfig.t) (k : nat)
    (sprites : PyDict.t Sprite.t) : Prop :=
  forall i name,
    i < k -> names !! i = Some name -> PyStr.truthy (PyStr.strip name) = true ->
    exists sid s, PyDict.get sprites sid = Some s /\ sprite_of names w i name s.

(** The identifier the loop chooses is not yet a key of the map. *)
Lemma chosen_id_fresh names td w k name sprites :
  sprites_inv names td w k sprites ->
  (if PyDict.mem sprites (_make_id name)
   then _make_id name +:+ "_" +:+ of_nat k else _make_id name) ∉ PyDict.keys sprites.
Proof.
  intros (_ & _ & Hall). destruct (PyDict.mem sprites (_make_id name)) eqn:Em.
  - intros Hin. apply elem_of_keys in Hin as [s Hs]. apply get_Some_elem_of in Hs.
    destruct (Hall _ _ Hs) as (i & n & Hi & _ & _ & [Hid|Hid] & _).
    + now apply numbered_not_plain in Hid.
    + apply numbered_inj in Hid. lia.
  - now apply mem_false_not_key.
Qed.

Lemma sprite_step_covers names td w k name sprites :
  names !! k = Some name ->
  sprites_inv names td w k sprites ->
  covers names w k sprites ->
  post (sprite_step (length names) td w (PyDict.keys (WorldConfig.rooms w)) sprites (k, name))
       (covers names w (S k)).
Proof.
  intros Hk Hinv Hcov. pose proof (chosen_id_fresh names td w k name sprites Hinv) as Hfresh.
  unfold sprite_step. cbn [fst snd].
  destruct (PyStr.truthy (PyStr.strip name)) eqn:Eb; cbn [negb].
  2:{ apply post_ret. intros i n Hi Hn Hb.
      destruct (decide (i = k)) as [->|Hik]; [|apply Hcov; [lia|exact Hn|exact Hb]].
      rewrite Hk in Hn. injection Hn as <-. congruence. }
  cbv zeta.
  destruct (_classify name td) as [[role behavior] aggression].
  destruct (_calc_stats role td) as [health damage].
  eapply post_bind; [apply assign_loot_ok|]. intros loot _.
  apply post_ret.
  set (sid := if PyDict.mem sprites (_make_id name)
              then _make_id name +:+ "_" +:+ of_nat k else _make_id name) in *.
  intros i n Hi Hn Hb. destruct (decide (i = k)) as [->|Hik].
  - rewrite Hk in Hn. injection Hn as <-.
    eexists sid, _. split; [apply get_set_eq|]. split; reflexivity.
  - destruct (Hcov i n) as (sid0 & s0 & Hget & Hs0); [lia|exact Hn|exact Hb|].
    exists sid0, s0. split; [|exact Hs0].
    rewrite get_set_ne; [exact Hget|]. intros ->.
    apply Hfresh, elem_of_keys. rewrite Hget. eauto.
Qed.

(** What [generate_sprites] returns in a world that has rooms: the
    invariant of the loop, and a sprite for every name that is not blank. *)
Lemma generate_sprites_covers names td w :
  WorldConfig.rooms w <> [] ->
  post (generate_sprites names td w)
       (fun sprites => sprites_inv names td w (length names) sprites /\
                       covers names w (length names) sprites).
Proof.
  intros Hne. unfold generate_sprites.
  destruct names as [|n names].
  { apply post_ret. split.
    - split_and!; [constructor|reflexivity|]. intros sid s H. now apply elem_of_nil in H.
    - intros i name Hi. cbn in Hi. lia. }
  destruct (WorldConfig.rooms w) as [|r rooms] eqn:Er; [contradiction|].
  rewrite <- Er in *. cbv zeta.
  apply (post_for_each_enumerate _
           (fun k sprites => sprites_inv (n :: names) td w k sprites /\
                             covers (n :: names) w k sprites) (n :: names) 0).
  - intros i x s Hx [Hinv Hcov]. cbn [Nat.add]. apply post_and.
    + now apply sprite_step_inv.
    + now apply sprite_step_covers.
  - split.
    + split_and!; [constructor|reflexivity|]. intros sid s H. now apply elem_of_nil in H.
    + intros i name Hi. lia.
Qed.

(** C7: [generate_sprites] returns for every random outcome.  It returns
    the empty map when the list of names is empty or the world has no
    rooms.  In a world that has rooms it returns one sprite for every
    name that is not blank, and no other: every such name has a sprite
    in the map that bears the name, and every sprite of the map has a
    spawn list of one or two rooms, each of them a room of the world. *)
Theorem generate_sprites_every_character_spawns (names : list string)
    (theme : ThemeDefaults) (world : WorldConfig.t) :
  post (generate_sprites names theme world)
       (fun sprites =>
          (names = [] \/ WorldConfig.rooms world = [] -> sprites = []) /\
          (WorldConfig.rooms world <> [] ->
           length sprites
           = length (filter (fun name => PyStr.truthy (PyStr.strip name) = true) names) /\
           forall i name,
             names !! i = Some name -> PyStr.truthy (PyStr.strip name) = true ->
             exists sid s,
               (sid, s) ∈ sprites /\ Sprite.name s = name +:+ " (template)" /\
               Sprite.spawn_rooms s
               = _assign_spawn_rooms i (length names) (WorldConfig.room_ids world)) /\
          forall sid s,
            (sid, s) ∈ sprites ->
            1 <= length (Sprite.spawn_rooms s) <= 2 /\
            forall r, r ∈ Sprite.spawn_rooms s -> r ∈ WorldConfig.room_ids world).
Proof.
  destruct (WorldConfig.rooms world) as [|r rooms] eqn:Er.
  { unfold generate_sprites. rewrite Er.
    destruct names;
      (apply post_ret; split_and!;
       [reflexivity|congruence|intros sid sp H; now apply elem_of_nil in H]). }
  rewrite <- Er.
  assert (Hne : WorldConfig.rooms world <> []) by (rewrite Er; discriminate).
  eapply post_mono; [apply generate_sprites_covers, Hne|].
  intros sprites [(Hnd & Hlen & Hall) Hcov]. split_and!.
  - intros [->|H]; [|contradiction]. destruct sprites; [reflexivity|discriminate].
  - intros _. split.
    + rewrite Hlen, take_ge by lia. unfold named. f_equal.
      apply list_filter_iff. intros name. unfold Validation.blank.
      now rewrite negb_false_iff.
    + intros i name Hi Hb.
      destruct (Hcov i name) as (sid & s & Hget & Hname & Hspawn);
        [eapply lookup_lt_Some, Hi|exact Hi|exact Hb|].
      exists sid, s. split_and!; [now apply get_Some_elem_of|exact Hname|exact Hspawn].
  - intros sid s Hin.
    destruct (Hall _ _ Hin) as (i & name & _ & _ & _ & _ & _ & _ & _ & _ & _ & _ & Hspawn).
    exact Hspawn.
Qed.
End SpriteClaims.

(* --------------------------------------------------------------------- *)
(** ** generator.py: the world handed to the validator *)
(* --------------------------------------------------------------------- *)

Module GeneratorShape.
Import WorldModel ThemeEngine Random RandomFacts Validation ValidationFacts Generator.
Import PyStr PyStrFacts TextFacts RecordFacts PhysicsShape WorldShape SpriteShape.
Import PyDictFacts PyDictFacts2 PyDictFacts3 PhysicsFacts SpriteFacts.
Import RoomGraphFacts RoomGraphFacts2 RoomGraphFacts3 RoomGraphFacts4 RoomGraphFacts5.
Import RoomGraphMap RoomGraphDefaults RoomGraphNames.

(** *** Stage 1 *)

(** The theme the pipeline works with. *)
Definition theme_of (req : GeneratorRequest) : WorldTheme :=
  match custom_theme req with
  | Some t => t
  | None => classify (Generator.world_name req)
  end.

Lemma theme_defaults_of_table req : theme_defaults_of req = THEME_DEFAULTS (theme_of req).
Proof. unfold theme_defaults_of, theme_of. now destruct (custom_theme req). Qed.

(** [req.custom_room_names or None] *)
Definition custom_of (req : GeneratorRequest) : option (list string) :=
  match custom_room_names req with
  | [] => None
  | names => Some names
  end.

(** *** The world of stages 2 to 8 *)

(** The world handed to the validator: its rooms are, up to room
    properties, a map [rooms0] that [RoomGraphGenerator.generate] went
    through names, identifiers and an adjacency to build; [P] is what is
    known of the names and identifiers. *)
Definition built_world (req : GeneratorRequest) (P : list string * list string -> Prop)
    (w : WorldConfig.t) : Prop :=
  exists rooms0 names ids adjacency,
    P (names, ids) /\
    generated (RoomGraph.clamp_room_count (room_count req)) names ids adjacency rooms0 /\
    shaped rooms0 w /\
    sprites_inv (character_names req) (theme_defaults_of req) w
                (length (character_names req)) (WorldConfig.sprites w) /\
    CombatConfig.respawn_location (WorldConfig.combat w)
    = default "" (WorldConfig.start_room w) /\
    exists suffix negative,
      WorldConfig.sd_config w
      = SDConfig.make (Generator.sd_host req) (Generator.sd_port req) suffix negative.

Lemma shaped_ext rooms0 w w' :
  WorldConfig.rooms w' = WorldConfig.rooms w ->
  WorldConfig.objects w' = WorldConfig.objects w ->
  WorldConfig.transformations w' = WorldConfig.transformations w ->
  shaped rooms0 w -> shaped rooms0 w'.
Proof.
  intros Hr Ho Hx [S1 S2 S3 S4 S5 S6 S7]. split.
  - now rewrite Hr.
  - unfold props_true. now rewrite Hr.
  - unfold WorldConfig.object_ids. now rewrite Ho.
  - now rewrite Ho.
  - now rewrite Hx.
  - now rewrite Hx.
  - unfold resolved, WorldConfig.room_ids, WorldConfig.object_ids in *.
    now rewrite Hr, Ho, Hx.
Qed.

Lemma sprites_inv_ext names td w w' k sprites :
  WorldConfig.rooms w' = WorldConfig.rooms w ->
  WorldConfig.objects w' = WorldConfig.objects w ->
  sprites_inv names td w k sprites -> sprites_inv names td w' k sprites.
Proof.
  intros Hr Ho (H1 & H2 & H3). split_and!; [exact H1|exact H2|].
  intros sid s Hin. destruct (H3 _ _ Hin) as (i & name & H).
  exists i, name. unfold loot_ok, WorldConfig.room_ids in *. now rewrite Hr, Ho.
Qed.

Lemma generated_bare n names ids adjacency rooms0 :
  generated n names ids adjacency rooms0 ->
  forall rid r, (rid, r) ∈ rooms0 -> Room.properties r = [].
Proof.
  intros (_ & _ & _ & _ & _ & _ & _ & Hrec & Hnd) rid r Hin.
  apply (elem_of_get_nodup _ _ _ Hnd) in Hin.
  destruct (Hrec _ _ Hin) as (i & _ & _ & _ & _ & _ & _ & _ & Hp & _). exact Hp.
Qed.

Lemma generated_nonempty n names ids adjacency rooms0 :
  1 <= n -> generated n names ids adjacency rooms0 -> rooms0 <> [].
Proof.
  intros Hn Hgen ->.
  destruct (generated_start _ _ _ _ _ Hn Hgen) as (start & Hs & _). discriminate.
Qed.

(** Stages 2 to 8 return for every request and every random outcome. *)
Lemma build_world_shape (req : GeneratorRequest) (P : list string * list string -> Prop) :
  post (RoomGraph.names_and_ids (RoomGraph.clamp_room_count (room_count req))
                                (theme_defaults_of req) (custom_of req)) P ->
  post (build_world req) (built_world req P).
Proof.
  intros HP. unfold build_world. cbv zeta.
  pose proof (clamp_room_count_bounds (room_count req)) as Hb.
  eapply post_bind; [apply (generate_records _ _ _ (custom_of req) P), HP|].
  intros rooms0 (names & ids & adjacency & HPni & Hgen).
  assert (Hne : rooms0 <> []) by (eapply generated_nonempty; [|exact Hgen]; lia).
  eapply post_bind.
  { apply (physics_loop_shaped _ rooms0); [exact Hne|].
    rewrite theme_defaults_of_table.
    apply (starters_shaped (theme_of req)
             (WorldConfig.make (Generator.world_name req)
                               (theme (THEME_DEFAULTS (theme_of req)))) rooms0);
      [exact Hne|eapply generated_bare, Hgen|reflexivity]. }
  intros w [Hsh Hsprites]. cbn in Hsprites.
  assert (Hrooms : WorldConfig.rooms w <> []).
  { intros E. apply Hne. rewrite <- (sh_rooms _ _ Hsh), E. reflexivity. }
  eapply post_bind.
  { instantiate
      (1 := fun w' =>
              shaped rooms0 w' /\
              sprites_inv (character_names req) (theme_defaults_of req) w'
                          (length (character_names req)) (WorldConfig.sprites w')).
    destruct (character_names req) as [|c cs] eqn:Ec.
    - apply post_ret. split; [exact Hsh|]. rewrite Hsprites.
      split_and!; [constructor|reflexivity|]. intros sid s H. now apply elem_of_nil in H.
    - eapply post_bind; [apply (generate_sprites_inv (c :: cs) _ w Hrooms)|].
      intros sprites Hinv. apply post_ret. split.
      + now apply (shaped_ext rooms0 w).
      + now apply (sprites_inv_ext _ _ w). }
  intros w' [Hsh' Hsp]. apply post_ret.
  exists rooms0, names, ids, adjacency.
  split; [exact HPni|]. split; [exact Hgen|].
  split; [now apply (shaped_ext rooms0 w')|].
  split; [now apply (sprites_inv_ext _ _ w')|].
  split; [reflexivity|]. eexists _, _. reflexivity.
Qed.
End GeneratorShape.

(* --------------------------------------------------------------------- *)
(** ** generator.py and validation_engine.py: the checks on a generated world *)
(* --------------------------------------------------------------------- *)

Module GeneratedWorld.
Import WorldModel ThemeEngine Random RandomFacts Validation ValidationFacts Generator.
Import PyStr PyStrFacts TextFacts RecordFacts PhysicsShape WorldShape SpriteShape.
Import PyDictFacts PyDictFacts2 PyDictFacts3 PhysicsFacts SpriteFacts GeneratorShape.
Import RoomGraphFacts RoomGraphFacts2 RoomGraphFacts3 RoomGraphFacts4 RoomGraphFacts5.
Import RoomGraphMap RoomGraphDefaults RoomGraphNames ValidationSound.

(** *** Rooms of the world and rooms of the generated map *)

Definition flagged (kv : string * Room.t) : Prop := Room.is_start (snd kv) = true.

Lemma starts_skeleton (rooms : list (string * Room.t)) :
  fst <$> filter flagged rooms
  = fst <$> filter flagged (map (fun kv => (fst kv, bare (snd kv))) rooms).
Proof.
  induction rooms as [|[k r] l IH]; [reflexivity|].
  cbn [map fst snd]. rewrite !filter_cons.
  destruct (decide (flagged (k, r))) as [H|H];
    destruct (decide (flagged (k, bare r))) as [H'|H'];
    try (exfalso; unfold flagged in *; cbn in *; congruence).
  - rewrite !fmap_cons. cbn [fst]. f_equal. exact IH.
  - exact IH.
Qed.

Lemma filter_keys_nodup (P : string * Room.t -> Prop) `{forall kv, Decision (P kv)}
    (d : list (string * Room.t)) :
  NoDup (map fst d) -> NoDup (fst <$> filter P d).
Proof.
  induction d as [|[k r] d IH]; intros Hnd; [constructor|].
  cbn [map fst] in Hnd. apply NoDup_cons in Hnd as [Hk Hnd].
  rewrite filter_cons. case_decide; [|now apply IH].
  rewrite fmap_cons. cbn [fst]. apply NoDup_cons. split; [|now apply IH].
  intros Hin. apply Hk. apply list_elem_of_fmap in Hin as ([k' r'] & -> & Hin).
  apply list_elem_of_filter in Hin as [_ Hin]. cbn [fst].
  apply list_elem_of_In, in_map_iff. exists (k', r'). split; [reflexivity|].
  now apply list_elem_of_In.
Qed.

Lemma find_head (rooms : list (string * Room.t)) :
  fst <$> List.find (fun kv => Room.is_start (snd kv)) rooms
  = head (fst <$> filter flagged rooms).
Proof.
  induction rooms as [|[k r] l IH]; [reflexivity|].
  cbn [List.find snd]. rewrite filter_cons.
  destruct (decide (flagged (k, r))) as [H|H]; unfold flagged in H; cbn [snd] in H.
  - now rewrite H.
  - destruct (Room.is_start r); [congruence|exact IH].
Qed.

Section world.
Variable n : nat.
Variables names ids : list string.
Variable adjacency : RoomGraph.Adj.
Variable rooms0 : PyDict.t Room.t.
Variable w : WorldConfig.t.
Hypothesis Hn : 1 <= n.
Hypothesis Hgen : generated n names ids adjacency rooms0.
Hypothesis Hsh : shaped rooms0 w.

Lemma world_room_ids : WorldConfig.room_ids w = PyDict.keys rooms0.
Proof. now apply shaped_room_ids. Qed.

(** A room of the world is, without its properties, the record of an
    index. *)
Lemma world_room rid room :
  (rid, room) ∈ WorldConfig.rooms w ->
  exists i, i < n /\ rid = id_at ids i /\
            Room.name room = default "" (names !! i) /\
            has_bare_pct (Room.description room) = false /\
            blank (Room.description room) = false /\
            Room.exits room = exits_of ids adjacency i /\
            Room.is_start room = bool_decide (i = 0).
Proof.
  intros Hin. apply skeleton_elem in Hin. rewrite (sh_rooms _ _ Hsh) in Hin.
  destruct Hgen as (_ & _ & _ & _ & _ & _ & _ & Hrec & Hnd).
  apply (elem_of_get_nodup _ _ _ Hnd) in Hin.
  destruct (Hrec _ _ Hin) as (i & Hi & Hid & _ & H1 & H2 & H3 & H4 & _ & H5).
  exists i. cbn in *. auto 10.
Qed.

Lemma id_at_room i : i < n -> id_at ids i ∈ WorldConfig.room_ids w.
Proof.
  intros Hi. rewrite world_room_ids.
  destruct Hgen as (_ & _ & _ & _ & _ & _ & (_ & HB & _) & _).
  now apply elem_of_keys, HB.
Qed.

Lemma exits_of_values i d t :
  (d, t) ∈ exits_of ids adjacency i ->
  exists e, e ∈ adjacency !!! i /\ t = id_at ids (RoomGraph.nbr e).
Proof.
  unfold exits_of, RoomGraph.build_exits.
  assert (Hfold : forall edges acc,
            (d, t) ∈ fold_left
                       (fun exits e =>
                          if bool_decide (RoomGraph.dir_out e ∈ RoomGraph.ALL_DIRECTIONS)
                          then PyDict.set exits (RoomGraph.dir_out e)
                                          (default "" (ids !! RoomGraph.nbr e))
                          else exits) edges acc ->
            (d, t) ∈ acc \/ exists e, e ∈ edges /\ t = id_at ids (RoomGraph.nbr e)).
  { induction edges as [|e edges IH]; intros acc H; [now left|].
    cbn [fold_left] in H. apply IH in H as [H|(e' & He' & ->)].
    - case_bool_decide; [|now left].
      apply elem_of_set in H as [H|[_ ->]]; [now left|].
      right. exists e. split; [left|reflexivity].
    - right. exists e'. split; [now right|reflexivity]. }
  intros H. apply Hfold in H as [H|H]; [now apply elem_of_nil in H|exact H].
Qed.

(** Check 1 finds nothing. *)
Lemma world_exits : check_exits w = [].
Proof.
  unfold check_exits. apply flat_map_nil. intros [rid room] Hin. cbn [fst snd].
  apply flat_map_nil. intros [d t] Hdt. cbn [fst snd].
  destruct (world_room _ _ Hin) as (i & Hi & _ & _ & _ & _ & Hex & _).
  rewrite Hex in Hdt. apply exits_of_values in Hdt as (e & He & ->).
  rewrite bool_decide_eq_true_2; [reflexivity|]. apply id_at_room.
  destruct Hgen as (_ & _ & _ & _ & _ & [Hwf _] & _).
  now apply (wf_bound _ _ Hwf) in He.
Qed.

Lemma starts_of_skeleton : starts_of w = fst <$> filter flagged rooms0.
Proof.
  unfold starts_of. rewrite <- (sh_rooms _ _ Hsh). apply starts_skeleton.
Qed.

Lemma starts_entrance : starts_of w = ["entrance"].
Proof.
  rewrite starts_of_skeleton.
  destruct (generated_start n names ids adjacency rooms0 Hn Hgen)
    as (start & Hstart & Hflag & _).
  destruct Hgen as (_ & _ & _ & Hid0 & Hidx & _ & _ & Hrec & Hnd).
  set (l := fst <$> filter _ rooms0).
  assert (Hall : forall x, x ∈ l -> x = "entrance").
  { intros x Hx. apply list_elem_of_fmap in Hx as ([k r] & -> & Hin).
    apply list_elem_of_filter in Hin as [Hs Hin]. unfold flagged in Hs. cbn [fst snd] in *.
    apply (elem_of_get_nodup _ _ _ Hnd) in Hin.
    destruct (Hrec _ _ Hin) as (i & Hi & -> & _ & _ & _ & _ & _ & _ & Hsi).
    rewrite Hsi in Hs. apply bool_decide_eq_true in Hs. now subst i. }
  assert (Hin : "entrance" ∈ l).
  { apply list_elem_of_fmap. exists ("entrance", start). split; [reflexivity|].
    apply list_elem_of_filter. split; [exact Hflag|]. now apply get_Some_elem_of. }
  assert (Hndl : NoDup l) by (apply filter_keys_nodup, Hnd).
  destruct l as [|a [|b l']].
  - now apply elem_of_nil in Hin.
  - now rewrite (Hall a) by left.
  - exfalso. apply NoDup_cons in Hndl as [Hab _]. apply Hab.
    rewrite (Hall a) by left. rewrite (Hall b) by (right; left). left.
Qed.

(** Check 2 finds nothing. *)
Lemma world_start : check_start w = [].
Proof. unfold check_start. now rewrite starts_entrance. Qed.

Lemma start_room_head : WorldConfig.start_room w = head (starts_of w).
Proof.
  unfold WorldConfig.start_room, starts_of. apply find_head.
Qed.

Lemma start_room_entrance : WorldConfig.start_room w = Some "entrance".
Proof. now rewrite start_room_head, starts_entrance. Qed.

Lemma entrance_room : "entrance" ∈ WorldConfig.room_ids w.
Proof. apply starts_are_rooms. rewrite starts_entrance. left. Qed.

(** Check 4 finds nothing when no name is blank. *)
Lemma world_room_text :
  (forall x, x ∈ names -> blank x = false) -> check_room_text w = [].
Proof.
  intros Hnames. unfold check_room_text. apply flat_map_nil. intros [rid room] Hin.
  cbn [fst snd].
  destruct (world_room _ _ Hin) as (i & Hi & _ & Hname & _ & Hd & _).
  rewrite Hd, Hname.
  destruct Hgen as (Hln & _).
  destruct (lookup_lt_is_Some_2 names i) as [x Hx]; [lia|].
  rewrite Hx. change (default "" (Some x)) with x. rewrite (Hnames x); [reflexivity|].
  eapply list_elem_of_lookup_2, Hx.
Qed.

(** *** Objects *)

Lemma world_object oid o :
  (oid, o) ∈ WorldConfig.objects w ->
  oid ∈ OBJECT_IDS /\
  (GameObject.location o = "none" \/ GameObject.location o ∈ WorldConfig.room_ids w) /\
  GameObject.is_container o = false /\ object_static_ok o = true.
Proof.
  intros Hin. pose proof (sh_objects _ _ Hsh) as H. rewrite Forall_forall in H.
  rewrite world_room_ids. exact (H _ Hin).
Qed.

(** Check 5 reports at most objects found inside an object. *)
Lemma world_object_locations m :
  m ∈ check_object_locations w ->
  exists oid loc, m = ObjectLocationNotContainer oid loc /\ loc ∈ WorldConfig.object_ids w /\
                  loc ∈ WorldConfig.room_ids w.
Proof.
  unfold check_object_locations. intros Hm.
  apply elem_of_flat_map in Hm as ([oid o] & Hin & Hm). cbn [fst snd] in Hm.
  destruct (world_object _ _ Hin) as (_ & Hloc & _).
  destruct (real_location (GameObject.location o)) eqn:Hreal; [|inversion Hm].
  destruct Hloc as [Hloc|Hloc]; [rewrite Hloc in Hreal; discriminate|].
  rewrite (bool_decide_eq_false_2 (GameObject.location o ∉ WorldConfig.room_ids w)) in Hm
    by (intros H; now apply H).
  cbn [andb] in Hm. case_bool_decide as Hobj; [|inversion Hm].
  destruct (PyDict.get _ _) as [c|]; [|inversion Hm].
  destruct (GameObject.is_container c); [inversion Hm|].
  apply list_elem_of_singleton in Hm. eauto 6.
Qed.

(** Check 6 finds nothing. *)
Lemma world_object_text : check_object_text w = [].
Proof.
  unfold check_object_text. apply flat_map_nil. intros [oid o] Hin. cbn [fst snd].
  destruct (world_object _ _ Hin) as (_ & _ & _ & Hs).
  apply object_text_nonblank in Hs as [-> ->]. reflexivity.
Qed.

(** *** Sprites *)

Variable character_names : list string.
Variable td : ThemeDefaults.
Hypothesis Hsp :
  sprites_inv character_names td w (length character_names) (WorldConfig.sprites w).

Lemma world_sprite sid s :
  (sid, s) ∈ WorldConfig.sprites w ->
  sprite_entry character_names td w (length character_names) sid s.
Proof. destruct Hsp as (_ & _ & H). apply H. Qed.

(** Check 7 finds nothing and warns of nothing. *)
Lemma world_spawn_rooms : check_spawn_rooms w = [] /\ warn_spawn_rooms w = [].
Proof.
  split.
  - unfold check_spawn_rooms. apply flat_map_nil. intros [sid s] Hin. cbn [fst snd].
    destruct (world_sprite _ _ Hin) as (i & name & H).
    destruct H as (_ & _ & _ & _ & _ & _ & _ & _ & _ & _ & [_ Hrooms]).
    apply flat_map_nil. intros r Hr. now rewrite bool_decide_eq_true_2 by auto.
  - unfold warn_spawn_rooms. apply flat_map_nil. intros [sid s] Hin. cbn [fst snd].
    destruct (world_sprite _ _ Hin) as (i & name & H).
    destruct H as (_ & _ & _ & _ & _ & _ & _ & _ & _ & _ & [Hlen _]).
    destruct (Sprite.spawn_rooms s); [simpl in Hlen; lia|reflexivity].
Qed.

(** Check 8 finds nothing. *)
Lemma world_loot : check_loot w = [].
Proof.
  unfold check_loot. apply flat_map_nil. intros [sid s] Hin. cbn [fst snd].
  destruct (world_sprite _ _ Hin) as (i & name & H).
  destruct H as (_ & _ & _ & _ & _ & _ & _ & _ & _ & Hloot & _).
  rewrite not_dangling; [reflexivity|]. intros Htruthy.
  destruct Hloot as [Hloot|(o & Ho & _)]; [rewrite Hloot in Htruthy; discriminate|].
  eapply elem_of_pair_keys, Ho.
Qed.

(** Check 9 finds nothing. *)
Lemma world_sprite_name : check_sprite_name w = [].
Proof.
  unfold check_sprite_name. apply flat_map_nil. intros [sid s] Hin. cbn [fst snd].
  destruct (world_sprite _ _ Hin) as (i & name & H).
  destruct H as (_ & _ & Hb & _ & _ & Hname & _).
  now rewrite Hname, blank_app, Hb.
Qed.

(** *** Combat and image configuration *)

(** Check 14 finds nothing. *)
Lemma world_respawn :
  CombatConfig.respawn_location (WorldConfig.combat w)
  = default "" (WorldConfig.start_room w) ->
  check_respawn w = [].
Proof.
  intros Hr. unfold check_respawn. cbv zeta. rewrite Hr, start_room_entrance.
  change (default "" (Some "entrance")) with "entrance".
  rewrite not_dangling; [reflexivity|]. intros _. apply entrance_room.
Qed.

(** Checks 15 and 16 find nothing. *)
Lemma world_sd host port suffix negative :
  WorldConfig.sd_config w = SDConfig.make host port suffix negative ->
  check_sd_names w = [] /\ check_sd_host_port w = [].
Proof.
  intros Hsd. unfold check_sd_names, check_sd_host_port. rewrite Hsd. now split.
Qed.
End world.
End GeneratedWorld.

(* --------------------------------------------------------------------- *)
(** ** generator.py: what the validator can still report *)
(* --------------------------------------------------------------------- *)

Module GeneratorGuarantees.
Import WorldModel ThemeEngine Random RandomFacts Validation ValidationFacts Generator.
Import PyStr PyStrFacts TextFacts RecordFacts PhysicsShape WorldShape SpriteShape.
Import PyDictFacts PyDictFacts2 PyDictFacts3 PhysicsFacts SpriteFacts GeneratorShape.
Import RoomGraphFacts RoomGraphFacts2 RoomGraphFacts3 RoomGraphFacts4 RoomGraphFacts5.
Import RoomGraphMap RoomGraphDefaults RoomGraphNames ValidationSound GeneratedWorld.

(** The four kinds of error the validator can still report on a world
    the pipeline built. *)
Definition residual (m : Msg) : Prop :=
  match m with
  | Unreachable _ | ObjectLocationNotContainer _ _ | BarePercent _ _ _ | DuplicateId _ => True
  | _ => False
  end.

Lemma check_percent_msgs w m : m ∈ check_percent w -> residual m.
Proof.
  unfold check_percent, check_pct. intros Hm. msg_cases; subst; exact I.
Qed.

Lemma names_nonblank_req req :
  post (RoomGraph.names_and_ids (RoomGraph.clamp_room_count (room_count req))
                                (theme_defaults_of req) (custom_of req))
       (fun p => forall x, x ∈ fst p -> blank x = false).
Proof.
  apply names_nonblank. rewrite theme_defaults_of_table. apply table_nonblank.
Qed.

(** Stages 2 to 8 of the pipeline return a world for every request and
    every random outcome, and on that world the validator returns with no
    warning and with errors of four kinds only: a room that cannot be
    reached, an object located in an object that is no container, a bare
    percent sign, an identifier used twice.  Every exit, start room,
    object location, spawn room, loot object, transformation reference,
    respawn location and image-server section passes its check, and no
    name or description is blank. *)
Theorem built_world_error_kinds (req : GeneratorRequest) :
  post (build_world req)
       (fun w => exists r,
          validate w = Some r /\ warnings r = [] /\
          forall m, m ∈ errors r -> residual m).
Proof.
  eapply post_mono; [apply build_world_shape, names_nonblank_req|].
  intros w (rooms0 & names & ids & adjacency & Hnames & Hgen & Hsh & Hsp & Hresp
            & suffix & negative & Hsd).
  cbn [fst] in Hnames.
  pose proof (clamp_room_count_bounds (room_count req)) as Hb.
  set (n := RoomGraph.clamp_room_count (room_count req)) in *.
  assert (Hn : 1 <= n) by lia.
  destruct (check_reachable_total w) as [u Hu].
  unfold validate. rewrite Hu. eexists. split; [reflexivity|]. cbn [warnings errors].
  destruct (world_spawn_rooms n w Hn _ _ Hsp) as [Hspawn Hwarn].
  destruct (world_sd w _ _ _ _ Hsd) as [Hsd1 Hsd2].
  destruct (resolved_validates w (sh_resolved _ _ Hsh)) as (Ht1 & Ht2 & Ht3 & Ht4 & _).
  split; [exact Hwarn|].
  rewrite (world_exits n names ids adjacency rooms0 w) by assumption.
  rewrite (world_start n names ids adjacency rooms0 w) by assumption.
  rewrite (world_room_text n names ids adjacency rooms0 w) by assumption.
  rewrite (world_object_text rooms0 w Hsh).
  rewrite Hspawn, (world_loot w _ _ Hsp), (world_sprite_name w _ _ Hsp).
  rewrite Ht1, Ht2, Ht3, Ht4.
  rewrite (world_respawn n names ids adjacency rooms0 w) by assumption.
  rewrite Hsd1, Hsd2.
  cbn [app]. intros m Hm.
  apply elem_of_app in Hm as [Hm|Hm].
  { unfold check_reachable in Hu.
    destruct (starts_of w); [injection Hu as <-; inversion Hm|].
    destruct (1 <? _); [|injection Hu as <-; inversion Hm].
    destruct (Bfs.run _ _ _ _); [|discriminate]. injection Hu as <-.
    apply list_elem_of_fmap in Hm as (x & -> & _). exact I. }
  apply elem_of_app in Hm as [Hm|Hm].
  { apply (world_object_locations rooms0 w Hsh) in Hm as (oid & loc & -> & _). exact I. }
  apply elem_of_app in Hm as [Hm|Hm]; [now apply check_percent_msgs in Hm|].
  unfold check_duplicates in Hm. apply duplicate_ids_msgs in Hm as [x ->]. exact I.
Qed.
End GeneratorGuarantees.

(* --------------------------------------------------------------------- *)
(** ** sprite_factory.py: one sprite for every name *)
(* --------------------------------------------------------------------- *)

Module SpriteGuarantees.
Import WorldModel ThemeEngine Random RandomFacts SpriteFactory SpriteFacts.
Import PyStr PyStrFacts TextFacts RecordFacts SpriteShape.
Import PyDictFacts PyDictFacts2 PyDictFacts3.

(** In a world that has a room, [generate_sprites] returns for every
    random outcome exactly one sprite for every name that is not blank:
    no sprite overwrites another, though two names can have the same
    identifier.  Each sprite is stored under its own identifier, bears the
    name it was made for followed by " (template)", and drops nothing or
    a takeable object of the world that lies somewhere. *)
Theorem generate_sprites_one_per_name (names : list string) (td : ThemeDefaults)
    (w : WorldConfig.t) :
  WorldConfig.rooms w <> [] ->
  post (generate_sprites names td w)
       (fun sprites =>
          length sprites
          = length (filter (fun name => PyStr.truthy (PyStr.strip name) = true) names) /\
          NoDup (PyDict.keys sprites) /\
          forall sid s,
            (sid, s) ∈ sprites ->
            Sprite.sprite_id s = sid /\
            (exists name, name ∈ names /\ PyStr.truthy (PyStr.strip name) = true /\
                          Sprite.name s = name +:+ " (template)") /\
            (Sprite.loot_on_death s = "" \/
             exists o, (Sprite.loot_on_death s, o) ∈ WorldConfig.objects w /\
                       GameObject.takeable o = true /\
                       GameObject.location o <> "none")).
Proof.
  intros Hne. eapply post_mono; [apply generate_sprites_inv, Hne|].
  intros sprites (Hnd & Hlen & Hall).
  assert (Hb : forall name, Validation.blank name = false <->
                            PyStr.truthy (PyStr.strip name) = true).
  { intros name. unfold Validation.blank. now rewrite negb_false_iff. }
  split_and!.
  - rewrite Hlen, take_ge by lia. unfold named. f_equal.
    apply list_filter_iff, Hb.
  - exact Hnd.
  - intros sid s Hin.
    destruct (Hall _ _ Hin)
      as (i & name & _ & Hi & Hblank & _ & Hid & Hname & _ & _ & _ & Hloot & _).
    split_and!; [exact Hid| |exact Hloot].
    exists name. split_and!; [eapply list_elem_of_lookup_2, Hi|now apply Hb|exact Hname].
Qed.

(** One character in the world of one room. *)
Lemma generate_sprites_one_per_name_witness :
  WorldConfig.rooms PhysicsClaims.one_room_world <> [] /\
  post (generate_sprites ["Igor"] defaults_ORIGINAL PhysicsClaims.one_room_world)
       (fun sprites =>
          length sprites
          = length (filter (fun name => PyStr.truthy (PyStr.strip name) = true) ["Igor"]) /\
          NoDup (PyDict.keys sprites) /\
          forall sid s,
            (sid, s) ∈ sprites ->
            Sprite.sprite_id s = sid /\
            (exists name, name ∈ ["Igor"] /\ PyStr.truthy (PyStr.strip name) = true /\
                          Sprite.name s = name +:+ " (template)") /\
            (Sprite.loot_on_death s = "" \/
             exists o, (Sprite.loot_on_death s, o)
                         ∈ WorldConfig.objects PhysicsClaims.one_room_world /\
                       GameObject.takeable o = true /\
                       GameObject.location o <> "none")).
Proof.
  split; [simpl; discriminate|].
  apply (generate_sprites_one_per_name ["Igor"] defaults_ORIGINAL
           PhysicsClaims.one_room_world).
  simpl; discriminate.
Defined.
End SpriteGuarantees.

(* --------------------------------------------------------------------- *)
(** ** Identifiers of rooms, objects, sprites and transformations *)
(* --------------------------------------------------------------------- *)

Module IdentifierClasses.
Import WorldModel ThemeEngine Random RandomFacts Validation ValidationFacts Generator.
Import SpriteFactory.
Import PyStr PyStrFacts TextFacts RecordFacts PhysicsShape WorldShape SpriteShape.
Import PyDictFacts PyDictFacts2 PyDictFacts3 PhysicsFacts SpriteFacts GeneratorShape.
Import RoomGraphFacts RoomGraphFacts2 RoomGraphFacts3 RoomGraphFacts4 RoomGraphFacts5.
Import RoomGraphText RoomGraphMap RoomGraphDefaults RoomGraphNames.

(** *** Suffixes *)

Fixpoint ends_with (suffix s : string) : bool :=
  String.eqb s suffix ||
  match s with
  | EmptyString => false
  | String _ s' => ends_with suffix s'
  end.

Lemma ends_with_app m suffix : ends_with suffix (m +:+ suffix) = true.
Proof.
  induction m as [|c m IH].
  - rewrite append_nil_l. destruct suffix; cbn [ends_with]; now rewrite String.eqb_refl.
  - rewrite append_cons. cbn [ends_with]. rewrite IH. apply orb_true_r.
Qed.

Lemma numbered_has_digit x k : all_chars not_digit (x +:+ "_" +:+ of_nat k) = false.
Proof.
  rewrite !all_chars_app.
  rewrite (digits_not_digit_free (of_nat k)); [|apply of_nat_nonempty|apply of_nat_digits].
  now rewrite !andb_false_r.
Qed.

(** *** The identifiers of objects and transformations *)

Definition FIXED_IDS : list string := OBJECT_IDS ++ TRANSFORM_IDS.

(** A fixed identifier has no digit, no percent sign, and does not end in
    "_template". *)
Definition fixed_id_ok (x : string) : bool :=
  all_chars not_digit x && no_pct x && negb (ends_with "_template" x).

Lemma fixed_ids_ok x : x ∈ FIXED_IDS -> fixed_id_ok x = true.
Proof.
  intros Hx.
  assert (H : forallb fixed_id_ok FIXED_IDS = true) by (vm_compute; reflexivity).
  rewrite forallb_forall in H. now apply H, list_elem_of_In.
Qed.

Lemma fixed_ids_nodup : NoDup FIXED_IDS.
Proof. apply (bool_decide_unpack (NoDup FIXED_IDS)). vm_compute. exact I. Qed.

Lemma object_not_transformation x : x ∈ OBJECT_IDS -> x ∈ TRANSFORM_IDS -> False.
Proof.
  intros Ho Ht. pose proof fixed_ids_nodup as H. unfold FIXED_IDS in H.
  apply NoDup_app in H as (_ & H & _). exact (H x Ho Ht).
Qed.

(** *** The identifiers of rooms with default names *)

(** A name of the table has no percent sign, and its identifier has none,
    is no fixed identifier and does not end in "_template". *)
Definition base_name_ok (b : string) : bool :=
  no_pct b && no_pct (RoomGraph._safe_id b)
  && negb (bool_decide (RoomGraph._safe_id b ∈ FIXED_IDS))
  && negb (ends_with "_template" (RoomGraph._safe_id b)).

Definition table_clean (table : list string) : bool := forallb base_name_ok table.

Lemma table_clean_ok theme : table_clean (name_table (THEME_DEFAULTS theme)) = true.
Proof. destruct theme; vm_compute; reflexivity. Qed.

(** [rid] is the identifier of a table name, perhaps numbered. *)
Definition room_like (table : list string) (rid : string) : Prop :=
  exists b c, b ∈ table /\ rid = RoomGraph._safe_id (enc b c).

Section table.
Variable table : list string.
Hypothesis Hclean : table_clean table = true.
Hypothesis Hok : names_table_ok table = true.

Lemma base_ok b : b ∈ table -> base_name_ok b = true.
Proof.
  intros Hb. unfold table_clean in Hclean. rewrite forallb_forall in Hclean.
  now apply Hclean, list_elem_of_In.
Qed.

Lemma base_digit_free b : b ∈ table -> all_chars not_digit (RoomGraph._safe_id b) = true.
Proof.
  intros Hb. apply andb_true_iff in Hok as [Hdig _]. rewrite forallb_forall in Hdig.
  now apply Hdig, list_elem_of_In.
Qed.

Lemma enc_no_pct b c : b ∈ table -> no_pct (enc b c) = true.
Proof.
  intros Hb. apply base_ok in Hb. unfold base_name_ok in Hb.
  rewrite !andb_true_iff in Hb. destruct Hb as [[[Hb _] _] _].
  destruct c as [|c]; [exact Hb|]. unfold enc.
  rewrite !no_pct_app, Hb, of_nat_no_pct. reflexivity.
Qed.

Lemma room_like_no_pct rid : room_like table rid -> no_pct rid = true.
Proof.
  intros (b & c & Hb & ->). pose proof (base_ok b Hb) as H. unfold base_name_ok in H.
  rewrite !andb_true_iff in H. destruct H as [[[_ H] _] _].
  destruct c as [|c]; [exact H|].
  rewrite safe_id_enc, !no_pct_app, H, of_nat_no_pct. reflexivity.
Qed.

(** A room identifier is no fixed identifier. *)
Lemma room_not_fixed rid : room_like table rid -> rid ∈ FIXED_IDS -> False.
Proof.
  intros (b & c & Hb & ->) Hin. destruct c as [|c].
  - pose proof (base_ok b Hb) as H. unfold base_name_ok in H.
    rewrite !andb_true_iff in H. destruct H as [[_ H] _].
    apply negb_true_iff, bool_decide_eq_false in H. now apply H.
  - apply fixed_ids_ok in Hin. unfold fixed_id_ok in Hin.
    rewrite !andb_true_iff in Hin. destruct Hin as [[Hd _] _].
    rewrite safe_id_enc, numbered_has_digit in Hd. discriminate.
Qed.

Lemma base_not_template b m : b ∈ table -> RoomGraph._safe_id b = m +:+ "_template" -> False.
Proof.
  intros Hb Heq. pose proof (base_ok b Hb) as H. unfold base_name_ok in H.
  rewrite !andb_true_iff in H. destruct H as [_ H].
  rewrite Heq, ends_with_app in H. discriminate.
Qed.

(** A room identifier is no sprite identifier. *)
Lemma room_not_sprite rid name i :
  room_like table rid ->
  rid = _make_id name \/ rid = _make_id name +:+ "_" +:+ of_nat i -> False.
Proof.
  intros (b & c & Hb & ->) Hsid. destruct c as [|c].
  - cbn [enc] in Hsid. destruct Hsid as [H|H].
    + now apply (base_not_template b (stem name)).
    + pose proof (base_digit_free b Hb) as Hd.
      rewrite H, numbered_has_digit in Hd. discriminate.
  - rewrite safe_id_enc in Hsid. destruct Hsid as [H|H].
    + rewrite make_id_stem in H.
      apply split_at_underscore in H as [_ H];
        [|apply of_nat_no_underscore|apply template_no_underscore].
      now apply of_nat_not_template in H.
    + apply split_at_underscore in H as [H _]; [|apply of_nat_no_underscore..].
      now apply (base_not_template b (stem name)).
Qed.
End table.

(** A fixed identifier is no sprite identifier. *)
Lemma fixed_not_sprite x name i :
  x ∈ FIXED_IDS ->
  x = _make_id name \/ x = _make_id name +:+ "_" +:+ of_nat i -> False.
Proof.
  intros Hin Hsid. apply fixed_ids_ok in Hin. unfold fixed_id_ok in Hin.
  rewrite !andb_true_iff in Hin. destruct Hin as [[Hd _] Ht].
  destruct Hsid as [->| ->].
  - change (_make_id name) with (stem name +:+ "_template") in Ht.
    rewrite ends_with_app in Ht. discriminate.
  - rewrite numbered_has_digit in Hd. discriminate.
Qed.

Lemma fixed_no_pct x : x ∈ FIXED_IDS -> no_pct x = true.
Proof.
  intros Hin. apply fixed_ids_ok in Hin. unfold fixed_id_ok in Hin.
  rewrite !andb_true_iff in Hin. tauto.
Qed.

(** *** Check 18 *)

Lemma duplicate_ids_nodup ids : forall seen,
  NoDup ids -> (forall x, x ∈ ids -> x ∉ seen) -> duplicate_ids seen ids = [].
Proof.
  induction ids as [|x ids IH]; intros seen Hnd Hseen; [reflexivity|].
  apply NoDup_cons in Hnd as [Hx Hnd]. cbn [duplicate_ids].
  rewrite bool_decide_eq_false_2 by (apply Hseen; left). cbn [app].
  apply IH; [exact Hnd|]. intros y Hy Hin.
  apply elem_of_cons in Hin as [->|Hin]; [contradiction|].
  apply (Hseen y); [now right|exact Hin].
Qed.
End IdentifierClasses.

(* --------------------------------------------------------------------- *)
(** ** validation_engine.py: the checks on a world with default room names *)
(* --------------------------------------------------------------------- *)

Module DefaultWorld.
Import WorldModel ThemeEngine Random RandomFacts Validation ValidationFacts Generator.
Import SpriteFactory.
Import PyStr PyStrFacts TextFacts RecordFacts PhysicsShape WorldShape SpriteShape.
Import PyDictFacts PyDictFacts2 PyDictFacts3 PhysicsFacts SpriteFacts GeneratorShape.
Import RoomGraphFacts RoomGraphFacts2 RoomGraphFacts3 RoomGraphFacts4 RoomGraphFacts5.
Import RoomGraphText RoomGraphMap RoomGraphDefaults RoomGraphNames.
Import ValidationSound GeneratedWorld IdentifierClasses.

(** *** Reachability *)

Lemma skeleton_get rooms a r0 :
  PyDict.get (skeleton rooms) a = Some r0 ->
  exists r, PyDict.get rooms a = Some r /\ r0 = bare r.
Proof.
  induction rooms as [|[k r] rooms IH]; [discriminate|].
  cbn [skeleton map PyDict.get fst snd]. destruct (String.eqb k a).
  - intros [= <-]. eauto.
  - exact IH.
Qed.

Lemma check_reachable_nil w :
  (forall start rest rid,
     starts_of w = start :: rest -> rid ∈ WorldConfig.room_ids w ->
     rtc (leads_to w) start rid) ->
  check_reachable w = Some [].
Proof.
  intros H. destruct (check_reachable_total w) as [u Hu]. rewrite Hu. f_equal.
  destruct u as [|m u]; [reflexivity|]. exfalso.
  assert (Hm : m ∈ m :: u) by left.
  unfold check_reachable in Hu.
  destruct (starts_of w) as [|start rest] eqn:Es; [discriminate|].
  destruct (1 <? _); [|discriminate].
  destruct (Bfs.run _ _ _ _) as [reachable|] eqn:Er; [|discriminate].
  injection Hu as Hu. rewrite <- Hu in Hm.
  apply list_elem_of_fmap in Hm as (rid & _ & Hrid).
  apply list_elem_of_filter in Hrid as [Hnot Hrid]. apply Hnot.
  apply (BfsCorrect.run_reachable _ _ _ _ Er), rtc_leads.
  eapply H; [reflexivity|exact Hrid].
Qed.

(** *** A world with the default room names *)

Section world.
Variable theme : WorldTheme.
Variable n : nat.
Variables names ids : list string.
Variable adjacency : RoomGraph.Adj.
Variable rooms0 : PyDict.t Room.t.
Variable w : WorldConfig.t.
Variable character_names : list string.

Let td : ThemeDefaults := THEME_DEFAULTS theme.
Let table : list string := name_table td.

Hypothesis Hn : 1 <= n.
Hypothesis Hgen : generated n names ids adjacency rooms0.
Hypothesis Hsh : shaped rooms0 w.
Hypothesis Hsp :
  sprites_inv character_names td w (length character_names) (WorldConfig.sprites w).
Hypothesis Hnames : forall x, x ∈ names -> exists b c, b ∈ table /\ x = enc b c.
Hypothesis Hids : ids = RoomGraph._safe_id <$> names.
Hypothesis Hnd : NoDup ids.
Hypothesis Hchars : forall name, name ∈ character_names -> has_bare_pct name = false.

Lemma default_table_clean : table_clean table = true.
Proof. apply table_clean_ok. Qed.

Lemma default_table_ok : names_table_ok table = true.
Proof. apply table_ok. Qed.

Lemma name_at i : i < n -> exists b c, b ∈ table /\ names !! i = Some (enc b c).
Proof.
  intros Hi. destruct Hgen as (Hln & _).
  destruct (lookup_lt_is_Some_2 names i) as [x Hx]; [lia|].
  destruct (Hnames x) as (b & c & Hb & ->); [eapply list_elem_of_lookup_2, Hx|]. eauto.
Qed.

Lemma id_at_like i : i < n -> room_like table (id_at ids i).
Proof.
  intros Hi. destruct (name_at i Hi) as (b & c & Hb & Hx).
  exists b, c. split; [exact Hb|]. unfold id_at. now rewrite Hids, list_lookup_fmap, Hx.
Qed.

Lemma room_id_like rid : rid ∈ WorldConfig.room_ids w -> room_like table rid.
Proof.
  rewrite (world_room_ids rooms0 w Hsh). intros Hin.
  apply elem_of_keys in Hin as [room Hroom].
  destruct Hgen as (_ & _ & _ & _ & _ & _ & (HA & _) & _).
  destruct (HA _ _ Hroom) as (i & Hi & -> & _). now apply id_at_like.
Qed.

Lemma room_id_clean rid : rid ∈ WorldConfig.room_ids w -> has_bare_pct rid = false.
Proof.
  intros Hin. apply no_pct_no_bare, (room_like_no_pct table default_table_clean), room_id_like, Hin.
Qed.

Lemma room_name_clean rid room :
  (rid, room) ∈ WorldConfig.rooms w -> has_bare_pct (Room.name room) = false.
Proof.
  intros Hin.
  destruct (world_room n names ids adjacency rooms0 w Hgen Hsh _ _ Hin)
    as (i & Hi & _ & Hname & _).
  destruct (name_at i Hi) as (b & c & Hb & Hx). rewrite Hname, Hx.
  apply no_pct_no_bare, (enc_no_pct table default_table_clean), Hb.
Qed.

(** Check 3 finds nothing. *)
Lemma default_reachable : check_reachable w = Some [].
Proof.
  apply check_reachable_nil. intros start rest rid Hs Hrid.
  rewrite (starts_entrance n names ids adjacency rooms0 w Hn Hgen Hsh) in Hs.
  injection Hs as <- <-.
  pose proof Hgen as (_ & Hli & _ & Hid0 & _ & Hgraph & Hinv & _ & Hkeys).
  destruct (distinct_ids_map n ids adjacency rooms0 Hn Hli Hnd Hgraph Hinv Hkeys)
    as (_ & Hreach & _).
  rewrite (world_room_ids rooms0 w Hsh) in Hrid. specialize (Hreach rid Hrid).
  rewrite Hid0 in Hreach.
  eapply rtc_subrel; [|exact Hreach].
  intros a b (room0 & d & Ha & Hd).
  rewrite <- (sh_rooms _ _ Hsh) in Ha. apply skeleton_get in Ha as (room & Hroom & ->).
  exists room. split; [exact Hroom|]. cbn [bare Room.exits] in Hd. split.
  - eapply get_in_values, Hd.
  - apply get_Some_elem_of in Hroom.
    destruct (world_room n names ids adjacency rooms0 w Hgen Hsh _ _ Hroom)
      as (i & Hi & _ & _ & _ & _ & Hex & _).
    rewrite Hex in Hd. apply exits_of_inv in Hd as (e & He & _ & ->).
    apply (id_at_room n names ids adjacency rooms0 w Hgen Hsh).
    destruct Hgraph as [Hwf _]. now apply (wf_bound _ _ Hwf) in He.
Qed.

(** *** Identifiers *)

Lemma object_id_fixed oid : oid ∈ WorldConfig.object_ids w -> oid ∈ FIXED_IDS.
Proof.
  intros Hin. apply elem_of_keys in Hin as [o Ho]. apply get_Some_elem_of in Ho.
  destruct (world_object rooms0 w Hsh _ _ Ho) as (H & _).
  unfold FIXED_IDS. apply elem_of_app. now left.
Qed.

Lemma object_id_known oid : oid ∈ WorldConfig.object_ids w -> oid ∈ OBJECT_IDS.
Proof.
  intros Hin. apply elem_of_keys in Hin as [o Ho]. apply get_Some_elem_of in Ho.
  now destruct (world_object rooms0 w Hsh _ _ Ho) as (H & _).
Qed.

Lemma transformation_id_known tid :
  tid ∈ PyDict.keys (WorldConfig.transformations w) -> tid ∈ TRANSFORM_IDS.
Proof.
  intros Hin. apply elem_of_keys in Hin as [x Hx]. apply get_Some_elem_of in Hx.
  pose proof (sh_transformations _ _ Hsh) as H. rewrite Forall_forall in H.
  now destruct (H _ Hx) as (H1 & _).
Qed.

Lemma sprite_id_form sid :
  sid ∈ WorldConfig.sprite_ids w ->
  exists name i, sid = _make_id name \/ sid = _make_id name +:+ "_" +:+ of_nat i.
Proof.
  intros Hin. apply elem_of_keys in Hin as [s Hs]. apply get_Some_elem_of in Hs.
  destruct (world_sprite w _ _ Hsp _ _ Hs) as (i & name & _ & _ & _ & H & _). eauto.
Qed.

Lemma all_ids_nodup :
  NoDup (WorldConfig.room_ids w ++ WorldConfig.object_ids w
         ++ WorldConfig.sprite_ids w ++ PyDict.keys (WorldConfig.transformations w)).
Proof.
  apply NoDup_app. split_and!.
  - rewrite (world_room_ids rooms0 w Hsh). now destruct Hgen as (_ & _ & _ & _ & _ & _ & _ & _ & H).
  - intros rid Hrid Hin. apply room_id_like in Hrid.
    apply elem_of_app in Hin as [Hin|Hin].
    { apply (room_not_fixed table default_table_clean rid Hrid). now apply object_id_fixed. }
    apply elem_of_app in Hin as [Hin|Hin].
    { apply sprite_id_form in Hin as (name & i & Hform).
      exact (room_not_sprite table default_table_clean default_table_ok rid name i Hrid Hform). }
    apply (room_not_fixed table default_table_clean rid Hrid). unfold FIXED_IDS.
    apply elem_of_app. right. now apply transformation_id_known.
  - apply NoDup_app. split_and!.
    + exact (sh_objects_nodup _ _ Hsh).
    + intros oid Hoid Hin. apply elem_of_app in Hin as [Hin|Hin].
      * apply sprite_id_form in Hin as (name & i & Hform).
        apply (fixed_not_sprite oid name i); [now apply object_id_fixed|exact Hform].
      * apply (object_not_transformation oid);
          [now apply object_id_known|now apply transformation_id_known].
    + apply NoDup_app. split_and!.
      * now destruct Hsp as (H & _).
      * intros sid Hsid Hin. apply sprite_id_form in Hsid as (name & i & Hform).
        apply (fixed_not_sprite sid name i); [|exact Hform]. unfold FIXED_IDS.
        apply elem_of_app. right. now apply transformation_id_known.
      * exact (sh_transformations_nodup _ _ Hsh).
Qed.

(** Check 18 finds nothing. *)
Lemma default_duplicates : check_duplicates w = [].
Proof.
  unfold check_duplicates. apply duplicate_ids_nodup; [apply all_ids_nodup|].
  intros x _. apply not_elem_of_nil.
Qed.

(** Check 5 finds nothing. *)
Lemma default_object_locations : check_object_locations w = [].
Proof.
  destruct (check_object_locations w) as [|m l] eqn:E; [reflexivity|]. exfalso.
  assert (Hm : m ∈ check_object_locations w) by (rewrite E; left).
  apply (world_object_locations rooms0 w Hsh) in Hm as (oid & loc & _ & Hobj & Hroom).
  apply room_id_like in Hroom.
  apply (room_not_fixed table default_table_clean loc Hroom). now apply object_id_fixed.
Qed.

(** *** Percent signs *)

Lemma rooms_clean rid room :
  (rid, room) ∈ WorldConfig.rooms w -> section_clean (Room.to_ini_section room).
Proof.
  intros Hin.
  destruct (world_room n names ids adjacency rooms0 w Hgen Hsh _ _ Hin)
    as (i & Hi & _ & _ & Hdesc & _ & Hex & _).
  apply room_section_clean.
  - eapply room_name_clean, Hin.
  - exact Hdesc.
  - unfold strings_clean. apply Forall_forall. intros [d t] Hdt. cbn [snd].
    rewrite Hex in Hdt.
    apply (exits_of_values ids adjacency) in Hdt as (e & He & ->).
    apply room_id_clean, (id_at_room n names ids adjacency rooms0 w Hgen Hsh).
    destruct Hgen as (_ & _ & _ & _ & _ & [Hwf _] & _).
    now apply (wf_bound _ _ Hwf) in He.
  - unfold strings_clean. apply Forall_forall. intros [k v] Hkv. cbn [snd].
    now rewrite (sh_props _ _ Hsh _ _ _ _ Hin Hkv).
Qed.

Lemma objects_clean oid o :
  (oid, o) ∈ WorldConfig.objects w -> section_clean (GameObject.to_ini_section o).
Proof.
  intros Hin. destruct (world_object rooms0 w Hsh _ _ Hin) as (_ & Hloc & _ & Hs).
  apply object_section_clean; [exact Hs|].
  destruct Hloc as [->|Hloc]; [reflexivity|now apply room_id_clean].
Qed.

Lemma sprites_clean sid s :
  (sid, s) ∈ WorldConfig.sprites w -> section_clean (Sprite.to_ini_section s).
Proof.
  intros Hin.
  destruct (world_sprite w _ _ Hsp _ _ Hin)
    as (i & name & _ & Hi & _ & _ & _ & Hname & Hdesc & Hbeh & Hprops & Hloot & Hspawn).
  assert (Hc : has_bare_pct name = false)
    by (apply Hchars; eapply list_elem_of_lookup_2, Hi).
  apply sprite_section_clean.
  - rewrite Hname. unfold has_bare_pct. now rewrite bare_pct_app_tail.
  - rewrite Hdesc. unfold has_bare_pct. rewrite bare_pct_app_tail; [exact Hc|].
    rewrite no_pct_app. unfold td. now rewrite role_sentence_no_pct.
  - now apply no_pct_no_bare.
  - apply no_pct_no_bare, join_no_pct; [reflexivity|]. apply Forall_forall.
    intros r Hr. apply (room_like_no_pct table default_table_clean), room_id_like.
    destruct Hspawn as [_ Hspawn]. now apply Hspawn.
  - destruct Hloot as [->|(o & Ho & _)]; [reflexivity|].
    apply no_pct_no_bare, fixed_no_pct, object_id_fixed. eapply elem_of_pair_keys, Ho.
  - rewrite Hprops. constructor.
Qed.

Lemma transformations_clean tid x :
  (tid, x) ∈ WorldConfig.transformations w ->
  section_clean (Transformation.to_ini_section x).
Proof.
  intros Hin. pose proof (sh_transformations _ _ Hsh) as H. rewrite Forall_forall in H.
  destruct (H _ Hin) as (_ & Hs & Hmsg). cbn [snd] in *.
  apply transformation_section_clean; [exact Hs| |].
  - apply Hmsg. intros rid r0 Hr0. rewrite <- (sh_rooms _ _ Hsh) in Hr0.
    apply skeleton_elem_inv in Hr0 as (r & Hr & ->). cbn [bare Room.name].
    eapply room_name_clean, Hr.
  - destruct (resolved_transformation w (tid, x) (sh_resolved _ _ Hsh) Hin)
      as (_ & _ & _ & _ & Hloc). cbn [snd] in Hloc.
    destruct (PyStr.truthy (Transformation.new_location x)) eqn:Et.
    + apply room_id_clean, Hloc, Et.
    + apply truthy_false in Et. now rewrite Et.
Qed.

(** Check 17 finds nothing. *)
Lemma default_percent : check_percent w = [].
Proof.
  unfold check_percent.
  rewrite (flat_map_nil _ (WorldConfig.rooms w)),
          (flat_map_nil _ (WorldConfig.objects w)),
          (flat_map_nil _ (WorldConfig.sprites w)),
          (flat_map_nil _ (WorldConfig.transformations w)); [reflexivity|..].
  - intros [tid x] Hin. eapply check_pct_clean, transformations_clean, Hin.
  - intros [sid s] Hin. eapply check_pct_clean, sprites_clean, Hin.
  - intros [oid o] Hin. eapply check_pct_clean, objects_clean, Hin.
  - intros [rid room] Hin. eapply check_pct_clean, rooms_clean, Hin.
Qed.
End world.
End DefaultWorld.

(* --------------------------------------------------------------------- *)
(** ** generator.py: default room names always validate *)
(* --------------------------------------------------------------------- *)

Module DefaultNames.
Import WorldModel ThemeEngine Random RandomFacts Validation ValidationFacts Generator.
Import PyStr PyStrFacts TextFacts RecordFacts PhysicsShape WorldShape SpriteShape.
Import PyDictFacts PyDictFacts2 PyDictFacts3 PhysicsFacts SpriteFacts GeneratorShape.
Import RoomGraphFacts RoomGraphFacts2 RoomGraphFacts3 RoomGraphFacts4 RoomGraphFacts5.
Import RoomGraphMap RoomGraphDefaults RoomGraphNames ValidationSound GeneratedWorld.
Import IdentifierClasses DefaultWorld.

(** What is known of the names and identifiers of the rooms when the
    request brings no room names of its own. *)
Definition from_table (req : GeneratorRequest) (p : list string * list string) : Prop :=
  (forall x, x ∈ fst p ->
     exists b c, b ∈ name_table (THEME_DEFAULTS (theme_of req)) /\ x = enc b c) /\
  snd p = RoomGraph._safe_id <$> fst p /\
  NoDup (snd p).

Lemma default_names_from_table req :
  custom_room_names req = [] ->
  post (RoomGraph.names_and_ids (RoomGraph.clamp_room_count (room_count req))
          (theme_defaults_of req) (custom_of req))
       (from_table req).
Proof.
  intros Hcustom. unfold custom_of. rewrite Hcustom, theme_defaults_of_table.
  apply names_and_ids_table, table_ok.
Qed.

(** A request that names one character and leaves everything else to the
    defaults. *)
Definition plain_request : GeneratorRequest :=
  {| world_name := "W";
     character_names := ["Igor"];
     room_count := 5;
     physics_types := [];
     output_dir := "out";
     custom_theme := None;
     sd_host := "127.0.0.1";
     sd_port := 7860;
     sd_scene_suffix := "";
     sd_negative_prompt := "";
     custom_room_names := [];
     base_damage_override := None |}.

(** When the request brings no room names of its own and no character
    name holds a bare percent sign, stages 2 to 8 of the pipeline return,
    for every theme, room count, choice of physics and random outcome, a
    world on which the validator reports no error and no warning. *)
Theorem default_names_world_validates (req : GeneratorRequest) :
  custom_room_names req = [] ->
  (forall name, name ∈ character_names req -> has_bare_pct name = false) ->
  post (build_world req)
       (fun w => validate w = Some {| errors := []; warnings := [] |}).
Proof.
  intros Hcustom Hchars.
  eapply post_mono; [apply build_world_shape, default_names_from_table, Hcustom|].
  intros w (rooms0 & names & ids & adjacency & (Hnames & Hids & Hnd) & Hgen & Hsh & Hsp
            & Hresp & suffix & negative & Hsd).
  cbn [fst snd] in Hnames, Hids, Hnd.
  pose proof (clamp_room_count_bounds (room_count req)) as Hb.
  set (n := RoomGraph.clamp_room_count (room_count req)) in *.
  assert (Hn : 1 <= n) by lia.
  destruct (world_spawn_rooms n w Hn _ _ Hsp) as [Hspawn Hwarn].
  destruct (world_sd w _ _ _ _ Hsd) as [Hsd1 Hsd2].
  destruct (resolved_validates w (sh_resolved _ _ Hsh)) as (Ht1 & Ht2 & Ht3 & Ht4 & _).
  rewrite theme_defaults_of_table in Hsp.
  assert (Hnonblank : forall x, x ∈ names -> blank x = false).
  { intros x Hx. destruct (Hnames x Hx) as (b & c & Hin & ->). apply enc_blank.
    pose proof (table_nonblank (theme_of req)) as Ht.
    unfold names_table_nonblank in Ht. rewrite forallb_forall in Ht.
    apply list_elem_of_In, Ht in Hin. now apply negb_true_iff in Hin. }
  unfold validate.
  rewrite (default_reachable n names ids adjacency rooms0 w Hn Hgen Hsh Hnd).
  rewrite (world_exits n names ids adjacency rooms0 w) by assumption.
  rewrite (world_start n names ids adjacency rooms0 w) by assumption.
  rewrite (world_room_text n names ids adjacency rooms0 w) by assumption.
  rewrite (world_object_text rooms0 w Hsh).
  rewrite Hspawn, Hwarn, (world_loot w _ _ Hsp), (world_sprite_name w _ _ Hsp).
  rewrite Ht1, Ht2, Ht3, Ht4.
  rewrite (world_respawn n names ids adjacency rooms0 w) by assumption.
  rewrite Hsd1, Hsd2.
  rewrite (default_object_locations (theme_of req) n names ids adjacency rooms0 w
             Hn Hgen Hsh Hnames Hids).
  rewrite (default_percent (theme_of req) n names ids adjacency rooms0 w
             (character_names req) Hn Hgen Hsh Hsp Hnames Hids Hchars).
  rewrite (default_duplicates (theme_of req) n names ids adjacency rooms0 w
             (character_names req) Hn Hgen Hsh Hsp Hnames Hids).
  reflexivity.
Qed.

Lemma default_names_world_validates_witness :
  post (build_world plain_request)
       (fun w => validate w = Some {| errors := []; warnings := [] |}).
Proof.
  apply (default_names_world_validates plain_request).
  - reflexivity.
  - intros name Hin. apply list_elem_of_singleton in Hin. subst name. reflexivity.
Defined.
End DefaultNames.

(* --------------------------------------------------------------------- *)
(** ** generator.py: the outcomes of the pipeline *)
(* --------------------------------------------------------------------- *)

Module PipelineOutcomes.
Import WorldModel ThemeEngine Random RandomFacts Validation ValidationFacts Generator.
Import GeneratorShape GeneratorGuarantees.

(** Stages 2 to 8 return a world, and the validator returns on it. *)
Lemma build_world_validated req :
  post (build_world req) (fun w => exists r, validate w = Some r).
Proof.
  eapply post_mono; [apply build_world_shape, names_nonblank_req|].
  intros w _. apply validate_total.
Qed.

Section pipeline.
Variable FS : Type.
Variable write_all : WorldConfig.t -> string -> FS -> (exn + PyDict.t string) * FS.
Variable load : string -> FS -> exn + Artifacts.

(** The exception [e] came out of the writer or out of the reading of the
    written files. *)
Definition raised_after_validation (req : GeneratorRequest) (env : Env FS)
    (w : WorldConfig.t) (e : exn) : Prop :=
  fst (write_all w (output_dir req) (fs FS env)) = inl e \/
  exists written,
    fst (write_all w (output_dir req) (fs FS env)) = inr written /\
    load (output_dir req) (snd (write_all w (output_dir req) (fs FS env))) = inl e.

(** [generate] returns a result for every request, file system and random
    outcome.  A result that reports success carries a world on which the
    validator found no error, the files the writer returned and an empty
    list of round-trip errors, after exactly one call to the writer
    followed by one call to the verifier.  A result without a world
    reports the exception of the writer or of the reading of the files:
    stages 1 to 9 raise none, and the writer had been called on a world
    without validation errors. *)
Theorem generate_returns_and_success_is_verified
    (req : GeneratorRequest) (env : Env FS) (g : Rng) :
  exists res env' g',
    generate FS write_all load req env g = (Ok (res, env'), g') /\
    (success res = true ->
     exists w r written artifacts,
       world res = Some w /\
       validate w = Some r /\ errors r = [] /\
       fst (write_all w (output_dir req) (fs FS env)) = inr written /\
       written_files res = written /\
       load (output_dir req) (fs FS env') = inr artifacts /\
       errors (verify artifacts) = [] /\
       roundtrip_errors res = [] /\ validation_errors res = [] /\
       calls FS env'
       = calls FS env ++ [CallWriteAll w (output_dir req); CallVerify (output_dir req)]) /\
    (world res = None ->
     exists w r e,
       res = pipeline_failure e /\
       validate w = Some r /\ errors r = [] /\
       raised_after_validation req env w e /\
       CallWriteAll w (output_dir req) ∈ calls FS env').
Proof.
  destruct (build_world_validated req g) as (w & Hw & r & Hr).
  destruct (build_world req g) as [out g1] eqn:Hb. cbn [fst] in Hw. subst out.
  unfold generate, catch, _run_pipeline, mbind, M_bind, bind. rewrite Hb.
  unfold check_and_write, raised_after_validation. rewrite Hr.
  destruct (is_valid r) eqn:Hvalid; cbn [negb].
  2:{ eexists _, _, _. split; [reflexivity|]. cbn [success world].
      split; discriminate. }
  apply is_valid_iff in Hvalid. cbn [fs calls].
  destruct (write_all w (output_dir req) (fs FS env)) as [[e|written] fs'] eqn:Hwrite.
  { eexists _, _, _. split; [reflexivity|]. cbn [success world]. split; [discriminate|].
    intros _. exists w, r, e. split_and!; [reflexivity|exact Hr|exact Hvalid| |].
    - left. now rewrite Hwrite.
    - cbn [calls]. apply elem_of_app. right. left. }
  cbn [fs calls].
  destruct (load (output_dir req) fs') as [e|artifacts] eqn:Hload.
  { eexists _, _, _. split; [reflexivity|]. cbn [success world]. split; [discriminate|].
    intros _. exists w, r, e. split_and!; [reflexivity|exact Hr|exact Hvalid| |].
    - right. exists written. rewrite Hwrite. now split.
    - cbn [calls]. rewrite <- app_assoc. apply elem_of_app. right. left. }
  eexists _, _, _. split; [reflexivity|].
  cbn [success world written_files roundtrip_errors validation_errors fs calls].
  split; [|discriminate].
  intros Hok. apply is_valid_iff in Hok.
  exists w, r, written, artifacts. rewrite Hwrite, Hload, Hvalid, Hok, <- app_assoc.
  split_and!; first [reflexivity|exact Hr].
Qed.
End pipeline.
End PipelineOutcomes.

(* --------------------------------------------------------------------- *)
(** ** physics_templates.py and generator.py: what the packages leave in the world *)
(* --------------------------------------------------------------------- *)

Module PackageContents.
Import WorldModel ThemeEngine Random RandomFacts Physics Validation ValidationFacts Generator.
Import PyStr PyStrFacts TextFacts RecordFacts PhysicsShape WorldShape SpriteShape.
Import PyDictFacts PyDictFacts2 PyDictFacts3 PhysicsFacts PhysicsBuilders PhysicsClaims.
Import RoomGraphFacts4 RoomGraphMap RoomGraphNames GeneratorShape.

(** *** What each package holds *)

Definition package_objects (t : PhysicsType) : list string :=
  match t with
  | TEMPERATURE => ["water_container"; "ice_block"]
  | ENERGY => ["power_cell_inert"; "power_cell_charged"]
  | LOCK_KEY => ["master_key"]
  | CRAFTING => ["ingredient_a"; "ingredient_b"; "crafted_result"]
  | TELEPORTATION => ["portal_device"]
  | DISGUISE => ["disguise_item"]
  | EXPLOSIVES => ["explosive_charge"; "detonator"]
  | BRIBERY => ["bribe_item"]
  | MAGIC => ["spell_scroll"; "enchanted_item"]
  | MEDICAL => ["medical_kit"; "advanced_medicine"]
  | GROWTH => ["seed"; "grown_plant"]
  | ALIEN_TECH => ["alien_artifact"; "scanner_device"; "activated_artifact"]
  end.

Definition package_transformations (t : PhysicsType) : list string :=
  match t with
  | TEMPERATURE => ["water_freezes"; "ice_melts"]
  | ENERGY => ["energy_charge"]
  | LOCK_KEY => ["door_unlocked"]
  | CRAFTING => ["craft_combine"]
  | TELEPORTATION => ["teleport_activate"]
  | DISGUISE => ["wear_disguise"]
  | EXPLOSIVES => ["arm_explosive"; "detonate"]
  | BRIBERY => ["bribe_used"]
  | MAGIC => ["cast_spell"]
  | MEDICAL => ["apply_treatment"]
  | GROWTH => ["seed_grows"]
  | ALIEN_TECH => ["alien_scan"; "alien_activate"]
  end.

Definition STARTER_IDS : list string :=
  ["starter_weapon"; "starter_health"; "starter_key"; "starter_document"].

(** The package is the one asked for, with its objects and
    transformations under their identifiers. *)
Definition built_keys (t : PhysicsType) (r : PhysicsPackage.t * WorldConfig.t) : Prop :=
  PyDict.keys (PhysicsPackage.objects (fst r)) = package_objects t /\
  PyDict.keys (PhysicsPackage.transformations (fst r)) = package_transformations t /\
  PhysicsPackage.physics_type (fst r) = t.

Ltac builder3 :=
  cbv zeta;
  repeat (lazymatch goal with
          | |- post (_ ≫= _) _ => eapply post_bind; [pick_room2|intros ? ?]
          end);
  apply post_ret;
  unfold built_keys; cbn [fst snd];
  split_and!; reflexivity.

Section builders.
Variable w : WorldConfig.t.
Variable theme : ThemeDefaults.
Hypothesis Hne : WorldConfig.rooms w <> [].

Lemma build_energy_keys : post (_build_energy w theme) (built_keys ENERGY).
Proof. unfold _build_energy. builder3. Qed.

Lemma build_lock_key_keys : post (_build_lock_key w theme) (built_keys LOCK_KEY).
Proof. unfold _build_lock_key. builder3. Qed.

Lemma build_crafting_keys : post (_build_crafting w theme) (built_keys CRAFTING).
Proof. unfold _build_crafting. builder3. Qed.

Lemma build_teleportation_keys :
  post (_build_teleportation w theme) (built_keys TELEPORTATION).
Proof. unfold _build_teleportation. builder3. Qed.

Lemma build_temperature_keys : post (_build_temperature w theme) (built_keys TEMPERATURE).
Proof. unfold _build_temperature. builder3. Qed.

Lemma build_disguise_keys : post (_build_disguise w theme) (built_keys DISGUISE).
Proof. unfold _build_disguise. builder3. Qed.

Lemma build_explosives_keys : post (_build_explosives w theme) (built_keys EXPLOSIVES).
Proof. unfold _build_explosives. builder3. Qed.

Lemma build_bribery_keys : post (_build_bribery w theme) (built_keys BRIBERY).
Proof. unfold _build_bribery. builder3. Qed.

Lemma build_magic_keys : post (_build_magic w theme) (built_keys MAGIC).
Proof. unfold _build_magic. builder3. Qed.

Lemma build_medical_keys : post (_build_medical w theme) (built_keys MEDICAL).
Proof. unfold _build_medical. builder3. Qed.

Lemma build_growth_keys : post (_build_growth w theme) (built_keys GROWTH).
Proof. unfold _build_growth. builder3. Qed.

Lemma build_alien_tech_keys : post (_build_alien_tech w theme) (built_keys ALIEN_TECH).
Proof. unfold _build_alien_tech. builder3. Qed.
End builders.

Lemma get_package_keys t w theme :
  WorldConfig.rooms w <> [] -> post (get_package t w theme) (built_keys t).
Proof.
  intros Hne. destruct t; simpl.
  - now apply build_temperature_keys.
  - now apply build_energy_keys.
  - now apply build_lock_key_keys.
  - now apply build_crafting_keys.
  - now apply build_teleportation_keys.
  - now apply build_disguise_keys.
  - now apply build_explosives_keys.
  - now apply build_bribery_keys.
  - now apply build_magic_keys.
  - now apply build_medical_keys.
  - now apply build_growth_keys.
  - now apply build_alien_tech_keys.
Qed.

(** *** A loop that leaves a mark for every element *)

Lemma post_for_each_marks {S A} (step : S -> A -> M S) (Inv : S -> Prop)
    (mark : A -> S -> Prop) (l : list A) :
  forall st,
    (forall x s, x ∈ l -> Inv s ->
       post (step s x) (fun s' => Inv s' /\ mark x s' /\ forall y, mark y s -> mark y s')) ->
    Inv st ->
    post (for_each step st l)
         (fun s' => Inv s' /\ (forall x, x ∈ l -> mark x s') /\
                    forall y, mark y st -> mark y s').
Proof.
  induction l as [|x l IH]; intros st Hstep H0; simpl.
  - apply post_ret. split_and!; [exact H0| |auto]. intros x Hx. now apply elem_of_nil in Hx.
  - eapply post_bind; [apply Hstep; [left|exact H0]|].
    intros s' (Hinv & Hx & Hkeep).
    eapply post_mono; [apply IH; [|exact Hinv]|].
    + intros y s Hy. apply Hstep. now right.
    + intros s'' (Hinv' & Hall & Hkeep'). split_and!; [exact Hinv'| |auto].
      intros y Hy. apply elem_of_cons in Hy as [->|Hy]; [now apply Hkeep'|now apply Hall].
Qed.

(** *** Stage 5 *)

(** What the world holds while the packages of [ps] are injected: the
    starter objects and, for every type recorded so far, its package. *)
Record holds (ps : list PhysicsType) (w : WorldConfig.t) : Prop := {
  h_rooms : WorldConfig.rooms w <> [];
  h_nodup : NoDup (WorldConfig.physics_applied w);
  h_asked : forall t, t ∈ WorldConfig.physics_applied w -> t ∈ ps;
  h_objects : forall oid,
    oid ∈ WorldConfig.object_ids w <->
    oid ∈ STARTER_IDS \/
    exists t, t ∈ WorldConfig.physics_applied w /\ oid ∈ package_objects t;
  h_transformations : forall tid,
    tid ∈ PyDict.keys (WorldConfig.transformations w) <->
    exists t, t ∈ WorldConfig.physics_applied w /\ tid ∈ package_transformations t
}.

Lemma world_step_applied w w' :
  world_step w w' -> WorldConfig.physics_applied w' = WorldConfig.physics_applied w.
Proof.
  intros [->|(room & k & ->)]; [reflexivity|].
  now pose proof (set_room_property_rooms w room k "true") as (_ & _ & _ & _ & H & _).
Qed.

Lemma inject_applied pkg w :
  WorldConfig.physics_applied (PhysicsPackage.inject pkg w)
  = if bool_decide (PhysicsPackage.physics_type pkg ∈ WorldConfig.physics_applied w)
    then WorldConfig.physics_applied w
    else WorldConfig.physics_applied w ++ [PhysicsPackage.physics_type pkg].
Proof. unfold PhysicsPackage.inject. cbn. now case_bool_decide. Qed.

Lemma keys_update_iff {V} (d e : PyDict.t V) q :
  q ∈ PyDict.keys (PyDict.update d e) <-> q ∈ PyDict.keys d \/ q ∈ PyDict.keys e.
Proof.
  split; [apply elem_of_keys_update|].
  intros [H|H]; [now apply keys_update_l|now apply keys_update_r].
Qed.

Lemma apply_physics_holds td ps w t :
  t ∈ ps -> holds ps w ->
  post (apply_physics td w t)
       (fun w' => holds ps w' /\ t ∈ WorldConfig.physics_applied w' /\
                  forall y, y ∈ WorldConfig.physics_applied w ->
                            y ∈ WorldConfig.physics_applied w').
Proof.
  intros Ht [Hrooms Hnd Hasked Hobj Htr]. unfold apply_physics.
  eapply post_bind.
  { apply post_and; [apply get_package_built, Hrooms|].
    apply post_and; [apply get_package_texts, Hrooms|apply get_package_keys, Hrooms]. }
  intros [pkg w1] [(_ & Hr & Ho & Hx) [(_ & _ & Hstep) (Hko & Hkx & Hty)]].
  cbn [fst snd] in *. apply world_step_applied in Hstep.
  apply post_ret.
  assert (Happlied :
            forall y, y ∈ WorldConfig.physics_applied (PhysicsPackage.inject pkg w1) <->
                      y ∈ WorldConfig.physics_applied w \/ y = t).
  { intros y. rewrite inject_applied, Hty, Hstep. case_bool_decide as Hin.
    - split; [auto|]. intros [H| ->]; assumption.
    - rewrite elem_of_app, list_elem_of_singleton. reflexivity. }
  split_and!.
  - split.
    + rewrite inject_rooms. intros E. apply Hrooms.
      unfold WorldConfig.room_ids in Hr. rewrite E in Hr.
      destruct (WorldConfig.rooms w); [reflexivity|discriminate].
    + rewrite inject_applied, Hty, Hstep. case_bool_decide as Hin; [exact Hnd|].
      apply NoDup_app. split_and!; [exact Hnd| |apply NoDup_singleton].
      intros y Hy Hy'. apply list_elem_of_singleton in Hy'. now subst y.
    + intros y Hy. apply Happlied in Hy as [Hy| ->]; auto.
    + intros oid. unfold WorldConfig.object_ids.
      rewrite inject_objects, keys_update_iff, Ho, Hko.
      fold (WorldConfig.object_ids w). rewrite Hobj. split.
      * intros [[H|(y & Hy & H)]|H]; [now left| |].
        -- right. exists y. split; [apply Happlied; now left|exact H].
        -- right. exists t. split; [apply Happlied; now right|exact H].
      * intros [H|(y & Hy & H)]; [left; now left|].
        apply Happlied in Hy as [Hy| ->]; [left; right; eauto|now right].
    + intros tid. rewrite inject_transformations, keys_update_iff, Hx, Hkx, Htr. split.
      * intros [(y & Hy & H)|H].
        -- exists y. split; [apply Happlied; now left|exact H].
        -- exists t. split; [apply Happlied; now right|exact H].
      * intros (y & Hy & H). apply Happlied in Hy as [Hy| ->]; [left; eauto|now right].
  - apply Happlied. now right.
  - intros y Hy. apply Happlied. now left.
Qed.

(** *** Stage 4 *)

Lemma starter_object_ids td w :
  WorldConfig.rooms w <> [] ->
  PyDict.keys (_build_starter_objects td w) = STARTER_IDS.
Proof.
  intros Hne. unfold _build_starter_objects.
  destruct (WorldConfig.rooms w) as [|[rid r] rooms]; [contradiction|]. reflexivity.
Qed.

(** *** The pipeline *)

(** [req.physics_types or theme_defaults.default_physics] *)
Definition physics_to_apply (req : GeneratorRequest) : list PhysicsType :=
  match physics_types req with
  | [] => default_physics (theme_defaults_of req)
  | ps => ps
  end.

Lemma generate_nonempty rc td wn cn :
  post (RoomGraph.generate rc td wn cn) (fun rooms => rooms <> []).
Proof.
  pose proof (clamp_room_count_bounds rc) as Hb.
  eapply post_mono.
  - apply (generate_records rc td wn cn (fun _ => True)).
    eapply post_mono; [apply RoomGraphFacts4.names_and_ids_length|]. auto.
  - intros rooms (names & ids & adjacency & _ & Hgen).
    eapply generated_nonempty; [|exact Hgen]. lia.
Qed.

(** The world handed to the validator holds the four starter objects and
    the objects and transformations of exactly the physics packages
    asked for (those of the theme when the request names none), whatever
    the order and the repetitions of the request and whatever the random
    outcome; [physics_applied] lists each of these types once. *)
Theorem requested_physics_in_world (req : GeneratorRequest) :
  post (build_world req)
       (fun w =>
          NoDup (WorldConfig.physics_applied w) /\
          (forall t, t ∈ WorldConfig.physics_applied w <-> t ∈ physics_to_apply req) /\
          (forall oid,
             oid ∈ WorldConfig.object_ids w <->
             oid ∈ STARTER_IDS \/
             exists t, t ∈ physics_to_apply req /\ oid ∈ package_objects t) /\
          (forall tid,
             tid ∈ PyDict.keys (WorldConfig.transformations w) <->
             exists t, t ∈ physics_to_apply req /\ tid ∈ package_transformations t)).
Proof.
  unfold build_world. cbv zeta. fold (physics_to_apply req).
  eapply post_bind; [apply generate_nonempty|]. intros rooms0 Hne.
  eapply post_bind.
  { apply (post_for_each_marks _ (holds (physics_to_apply req))
             (fun t w => t ∈ WorldConfig.physics_applied w)).
    - intros t s Ht Hs. now apply apply_physics_holds.
    - cbv beta in Hne. split.
      + exact Hne.
      + cbn. constructor.
      + cbn. intros t Ht. now apply elem_of_nil in Ht.
      + intros oid. unfold WorldConfig.object_ids, WorldConfig.with_objects.
        cbn [WorldConfig.objects WorldConfig.physics_applied].
        rewrite starter_object_ids by exact Hne. split; [auto|].
        intros [H|(t & Ht & _)]; [exact H|]. cbn in Ht. now apply elem_of_nil in Ht.
      + intros tid. cbn. split; [intros H; now apply elem_of_nil in H|].
        intros (t & Ht & _). now apply elem_of_nil in Ht. }
  intros w ([Hrooms Hnd Hasked Hobj Htr] & Hall & _).
  assert (Hiff : forall t, t ∈ WorldConfig.physics_applied w <-> t ∈ physics_to_apply req)
    by (intros t; split; auto).
  eapply post_bind.
  { instantiate
      (1 := fun w' =>
              WorldConfig.physics_applied w' = WorldConfig.physics_applied w /\
              WorldConfig.objects w' = WorldConfig.objects w /\
              WorldConfig.transformations w' = WorldConfig.transformations w).
    destruct (character_names req) as [|c cs]; [now apply post_ret|].
    eapply post_bind; [apply (generate_sprites_inv (c :: cs) _ w Hrooms)|].
    intros sprites _. now apply post_ret. }
  intros w' (Ea & Eo & Ex). apply post_ret.
  unfold WorldConfig.object_ids in *. cbn. rewrite Ea, Eo, Ex. split_and!.
  - exact Hnd.
  - exact Hiff.
  - intros oid. rewrite Hobj. split; intros [H|(t & Ht & H)]; auto;
      right; exists t; (split; [now apply Hiff|exact H]).
  - intros tid. rewrite Htr. split; intros (t & Ht & H);
      exists t; (split; [now apply Hiff|exact H]).
Qed.
End PackageContents.

(* --------------------------------------------------------------------- *)
(** ** Strings: comma-separated lists *)
(* --------------------------------------------------------------------- *)

Module ListTexts.
Import Validation PyStr PyStrFacts TextFacts.

(** *** Splitting at a separator *)








(** *** Lists of names *)




End ListTexts.

(* --------------------------------------------------------------------- *)
(** ** create_world.py: what the repair loops achieve *)
(* --------------------------------------------------------------------- *)

Module RepairEffect.
Import Random Validation ValidationFacts Repair IniFacts RepairFacts.
Import PyDictFacts PyDictFacts2 PyDictFacts3 PhysicsFacts.
Import PyStr PyStrFacts TextFacts ListTexts.

(** *** Lookups in a parsed file *)

Lemma get_map_keys (f : string -> string) (l : list string) k :
  PyDict.get (map (fun k => (k, f k)) l) k
  = if bool_decide (k ∈ l) then Some (f k) else None.
Proof.
  induction l as [|a l IH]; cbn [map PyDict.get].
  - now rewrite bool_decide_eq_false_2 by apply not_elem_of_nil.
  - rewrite eqb_decide. destruct (decide (a = k)) as [->|Ha].
    + now rewrite !bool_decide_eq_true_2 by (reflexivity || left).
    + rewrite (bool_decide_eq_false_2 (a = k)) by exact Ha. rewrite IH.
      destruct (decide (k ∈ l)) as [Hk|Hk].
      * now rewrite !bool_decide_eq_true_2 by (assumption || now right).
      * rewrite (bool_decide_eq_false_2 (k ∈ l)) by exact Hk.
        rewrite bool_decide_eq_false_2; [reflexivity|].
        intros Hin. apply elem_of_cons in Hin as [->|Hin]; [now apply Ha|now apply Hk].
Qed.

Lemma keys_update_inv {V} (e d : PyDict.t V) q :
  q ∈ PyDict.keys (PyDict.update d e) -> q ∈ PyDict.keys d \/ q ∈ PyDict.keys e.
Proof.
  intros Hq. apply elem_of_keys in Hq as [v Hv]. apply get_Some_elem_of in Hv.
  apply elem_of_update in Hv as [Hv|Hv]; [left|right];
    eapply elem_of_keys, elem_of_get, Hv.
Qed.

(** [dict(cfg[section]).get(k)] is [cfg.get(section, k)]. *)
Lemma section_dict_get c s k : PyDict.get (Ini.section_dict c s) k = Ini.get c s k.
Proof.
  unfold Ini.section_dict, Ini.get.
  destruct (PyDict.get (Ini.sects c) s) as [opts|]; [|reflexivity].
  rewrite get_map_keys. case_bool_decide as Hk.
  - destruct (PyDict.get opts k) as [v|] eqn:Eo; [reflexivity|].
    apply keys_update_inv in Hk as [Hk|Hk]; apply elem_of_keys in Hk as [v Hv].
    + congruence.
    + now rewrite Hv.
  - destruct (PyDict.get opts k) as [v|] eqn:Eo.
    { contradiction Hk. apply keys_update_l, elem_of_keys. rewrite Eo. eauto. }
    destruct (PyDict.get (Ini.defaults c) k) as [v|] eqn:Ed; [|reflexivity].
    contradiction Hk. apply keys_update_r, elem_of_keys. rewrite Ed. eauto.
Qed.





(** *** Exits *)










(** *** Object locations *)

Definition location_ok (valid : list string) (cfg : Ini.t) (s : string) : Prop :=
  forall loc, Ini.get cfg s "location" = Some loc -> real_location loc = true ->
              loc ∈ valid.






(** *** Spawn rooms *)



Section spawns.
Variable valid : list string.
Hypothesis Hvalid : forall r, r ∈ valid -> parse_list r = [r].



End spawns.

End RepairEffect.

(* --------------------------------------------------------------------- *)
(** ** create_world.py: the second verdict *)
(* --------------------------------------------------------------------- *)

Module RepairGuarantee.
Import Random Validation ValidationFacts Repair IniFacts RepairFacts VerifierFacts.
Import PyDictFacts PyDictFacts2 PyDictFacts3 PhysicsFacts.
Import PyStr PyStrFacts TextFacts ListTexts RepairEffect.





End RepairGuarantee.

(* --------------------------------------------------------------------- *)
(** ** validation_engine.py: what the round-trip verifier passes *)
(* --------------------------------------------------------------------- *)

Module VerifierSound.
Import Random Validation ValidationFacts IniFacts VerifierFacts.
Import PyDictFacts PyDictFacts2 PyDictFacts3 PhysicsFacts.
Import PyStr PyStrFacts TextFacts ListTexts RepairEffect ValidationSound.

Lemma flat_map_nil_iff {A B} (f : A -> list B) (l : list A) :
  flat_map f l = [] <-> forall x, x ∈ l -> f x = [].
Proof. split; [apply flat_map_nil_inv|apply flat_map_nil]. Qed.

Lemma mem_get {V} (d : PyDict.t V) k : PyDict.mem d k = false <-> PyDict.get d k = None.
Proof. unfold PyDict.mem. destruct (PyDict.get d k); split; congruence. Qed.

(** *** The six checks *)

(** Every exit in an engine direction leads to a room of the file, and
    no section has an exit in another direction. *)
Definition rooms_clean (cfg : Ini.t) : Prop :=
  forall s, s ∈ Ini.sections cfg ->
    (forall dr target, dr ∈ ENGINE_DIRECTIONS -> Ini.get cfg s dr = Some target ->
                       target ∈ Ini.sections cfg) /\
    (forall dr, dr ∈ INVALID_FOR_ENGINE -> Ini.get cfg s dr = None).

Lemma verify_rooms_nil cfg : verify_rooms cfg = [] <-> rooms_clean cfg.
Proof.
  unfold verify_rooms, rooms_clean. rewrite flat_map_nil_iff. split.
  - intros H s Hs. specialize (H s Hs). apply app_nil in H as [H1 H2].
    rewrite flat_map_nil_iff in H1, H2. split.
    + intros dr target Hdr Hget. specialize (H1 dr Hdr).
      rewrite section_dict_get, Hget in H1.
      destruct (decide (target ∈ Ini.sections cfg)) as [|Hn]; [assumption|].
      now rewrite bool_decide_eq_false_2 in H1.
    + intros dr Hdr. specialize (H2 dr Hdr).
      rewrite <- section_dict_get. apply mem_get.
      now destruct (PyDict.mem _ dr).
  - intros H s Hs. destruct (H s Hs) as [H1 H2].
    apply app_nil. split; apply flat_map_nil; intros dr Hdr.
    + rewrite section_dict_get.
      destruct (Ini.get cfg s dr) as [target|] eqn:Eget; [|reflexivity].
      now rewrite bool_decide_eq_true_2 by (eapply H1; eauto).
    + rewrite (proj2 (mem_get _ _)); [reflexivity|].
      rewrite section_dict_get. now apply H2.
Qed.

(** Every object lies in a room of the rooms file, in an object of the
    objects file, or nowhere. *)
Definition objects_clean (rooms objects : list string) (cfg : Ini.t) : Prop :=
  forall s loc, s ∈ Ini.sections cfg -> Ini.get cfg s "location" = Some loc ->
                real_location loc = true -> loc ∈ rooms \/ loc ∈ objects.

Lemma verify_objects_nil rooms objects cfg :
  verify_objects rooms objects cfg = [] <-> objects_clean rooms objects cfg.
Proof.
  unfold verify_objects, objects_clean. rewrite flat_map_nil_iff. split.
  - intros H s loc Hs Hget Hreal. specialize (H s Hs).
    rewrite section_dict_get, Hget in H. change (default "" (Some loc)) with loc in H.
    rewrite Hreal in H. cbn [andb] in H.
    destruct (decide (loc ∈ rooms)) as [|Hr]; [now left|].
    destruct (decide (loc ∈ objects)) as [|Ho]; [now right|].
    now rewrite !bool_decide_eq_true_2 in H.
  - intros H s Hs. rewrite section_dict_get.
    destruct (Ini.get cfg s "location") as [loc|] eqn:Eget; [|reflexivity].
    change (default "" (Some loc)) with loc.
    destruct (real_location loc) eqn:Ereal; [|reflexivity]. cbn [andb].
    destruct (H s loc Hs Eget Ereal) as [Hin|Hin].
    + now rewrite (bool_decide_eq_false_2 (loc ∉ rooms)) by tauto.
    + rewrite (bool_decide_eq_false_2 (loc ∉ objects)) by tauto.
      now rewrite andb_false_r.
Qed.

(** Every spawn room of every sprite is a room of the rooms file. *)
Definition sprites_clean (rooms : list string) (cfg : Ini.t) : Prop :=
  forall s raw r, s ∈ Ini.sections cfg -> Ini.get cfg s "spawn_rooms" = Some raw ->
                  r ∈ parse_list raw -> r ∈ rooms.

Lemma verify_sprites_nil rooms cfg :
  verify_sprites rooms cfg = [] <-> sprites_clean rooms cfg.
Proof.
  unfold verify_sprites, sprites_clean. rewrite flat_map_nil_iff. split.
  - intros H s raw r Hs Hget Hr. specialize (H s Hs).
    rewrite section_dict_get, Hget in H. change (default "" (Some raw)) with raw in H.
    rewrite flat_map_nil_iff in H. specialize (H r Hr).
    destruct (decide (r ∈ rooms)) as [|Hn]; [assumption|].
    now rewrite bool_decide_eq_false_2 in H.
  - intros H s Hs. rewrite section_dict_get.
    destruct (Ini.get cfg s "spawn_rooms") as [raw|] eqn:Eget; [|reflexivity].
    change (default "" (Some raw)) with raw. apply flat_map_nil. intros r Hr.
    now rewrite bool_decide_eq_true_2 by (eapply H; eauto).
Qed.

Definition REFERENCE_KEYS : list string :=
  ["object_id"; "new_object_id"; "requires_object"; "requires_object_2"].

(** Every object a transformation names is an object of the objects
    file. *)
Definition transformations_clean (objects : list string) (cfg : Ini.t) : Prop :=
  forall s key val, s ∈ Ini.sections cfg -> key ∈ REFERENCE_KEYS ->
                    Ini.get cfg s key = Some val -> val <> "" -> val ∈ objects.

Lemma verify_transformations_nil objects cfg :
  verify_transformations objects cfg = [] <-> transformations_clean objects cfg.
Proof.
  unfold verify_transformations, transformations_clean. rewrite flat_map_nil_iff.
  fold REFERENCE_KEYS. split.
  - intros H s key val Hs Hkey Hget Hval. specialize (H s Hs).
    rewrite flat_map_nil_iff in H. specialize (H key Hkey).
    rewrite section_dict_get, Hget in H. change (default "" (Some val)) with val in H.
    unfold dangling in H. apply truthy_true in Hval. rewrite Hval in H. cbn [andb] in H.
    destruct (decide (val ∈ objects)) as [|Hn]; [assumption|].
    now rewrite bool_decide_eq_true_2 in H.
  - intros H s Hs. apply flat_map_nil. intros key Hkey. rewrite section_dict_get.
    destruct (Ini.get cfg s key) as [val|] eqn:Eget; [|reflexivity].
    change (default "" (Some val)) with val. unfold dangling.
    destruct (truthy val) eqn:Et; [|reflexivity]. cbn [andb].
    rewrite bool_decide_eq_false_2; [reflexivity|].
    intros Hn. apply Hn. apply (H s key val Hs Hkey Eget). now apply truthy_true.
Qed.

(** Every section of the image-server file, [settings] and
    [prompt_style] apart, has a name that starts with SD, whatever the
    case. *)
Definition sd_clean (cfg : Ini.t) : Prop :=
  forall sec, sec ∈ Ini.sections cfg -> sd_server_section sec = true ->
              startswith "SD" (upper sec) = true.

Lemma verify_sd_nil cfg : verify_sd cfg = [] <-> sd_clean cfg.
Proof.
  unfold verify_sd, sd_clean. rewrite flat_map_nil_iff. split.
  - intros H sec Hsec Hserver.
    specialize (H sec). rewrite list_elem_of_filter in H. specialize (H (conj Hserver Hsec)).
    now destruct (startswith "SD" (upper sec)).
  - intros H sec Hsec. apply list_elem_of_filter in Hsec as [Hserver Hsec].
    now rewrite (H sec Hsec Hserver).
Qed.

Lemma elem_of_zip_seq (ls : list string) : forall a line,
  line ∈ ls -> exists i, (i, line) ∈ zip (seq a (length ls)) ls.
Proof.
  induction ls as [|x ls IH]; intros a line Hin; [now apply elem_of_nil in Hin|].
  cbn [length seq zip zip_with]. apply elem_of_cons in Hin as [->|Hin].
  - exists a. left.
  - destruct (IH (S a) line Hin) as [i Hi]. exists i. now right.
Qed.

(** No line has a bare percent sign. *)
Definition lines_clean (ls : list string) : Prop :=
  forall line, line ∈ ls -> has_bare_pct line = false.

Lemma verify_lines_nil name ls : verify_lines name ls = [] <-> lines_clean ls.
Proof.
  unfold verify_lines, lines_clean. rewrite flat_map_nil_iff. split.
  - intros H line Hin. destruct (elem_of_zip_seq ls 1 line Hin) as [i Hi].
    specialize (H _ Hi). cbn [snd] in H. now destruct (has_bare_pct line).
  - intros H [i line] Hin. cbn [fst snd]. now rewrite (H line) by (eapply elem_of_zip_r, Hin).
Qed.

(** *** The verdict *)

(** What a set of files without round-trip errors is like. *)
Record clean_files (a : Artifacts) : Prop := {
  cf_exist : forall name f, (name, f) ∈ filemap a -> f <> None;
  cf_rooms : rooms_clean (Repair.read (rooms_ini a));
  cf_objects :
    objects_clean (Ini.sections (Repair.read (rooms_ini a)))
                  (Ini.sections (Repair.read (objects_ini a)))
                  (Repair.read (objects_ini a));
  cf_sprites :
    sprites_clean (Ini.sections (Repair.read (rooms_ini a))) (Repair.read (sprites_ini a));
  cf_transformations :
    transformations_clean (Ini.sections (Repair.read (objects_ini a)))
                          (Repair.read (transformations_ini a));
  cf_sd : sd_clean (Repair.read (sd_ini a));
  cf_lines : forall name f file,
    (name, f) ∈ filemap a -> f = Some file -> lines_clean (lines file)
}.

Lemma missing_files_exist a :
  missing_files a = [] <-> forall name f, (name, f) ∈ filemap a -> f <> None.
Proof.
  unfold missing_files. rewrite flat_map_nil_iff. split.
  - intros H name f Hin ->. now specialize (H _ Hin).
  - intros H [name f] Hin. cbn [fst snd]. destruct f; [reflexivity|].
    now contradiction (H _ _ Hin).
Qed.

(** [RoundTripVerifier.verify] passes a set of files exactly when the
    six files exist; every exit of rooms.ini in one of the six engine
    directions leads to a section of rooms.ini and no section has an
    exit in one of the six other directions; every object location is a
    room section, an object section, "none" or empty; every spawn room is
    a room section; every object a transformation names is an object
    section; every image-server section name starts with SD; and no line
    of any of the six files holds a bare percent sign. *)
Theorem verify_passes_exactly_clean_files (a : Artifacts) :
  is_valid (verify a) = true <-> clean_files a.
Proof.
  rewrite is_valid_iff.
  destruct (missing_files a) as [|m ms] eqn:Hmissing.
  2:{ rewrite verify_missing by (rewrite Hmissing; discriminate). rewrite Hmissing.
      split; [discriminate|]. intros [Hex _ _ _ _ _ _].
      apply (proj2 (missing_files_exist a)) in Hex. congruence. }
  pose proof (proj1 (missing_files_exist a) Hmissing) as Hex.
  apply missing_files_nil in Hmissing
    as (fr & fo & fs & ft & fc & fd & E1 & E2 & E3 & E4 & E5 & E6).
  unfold verify. rewrite E1, E2, E3, E4, E5, E6. cbn [errors].
  rewrite !app_nil, verify_rooms_nil, verify_objects_nil, verify_sprites_nil,
    verify_transformations_nil, verify_sd_nil, !verify_lines_nil.
  split.
  - intros (H1 & H2 & H3 & H4 & H5 & L1 & L2 & L3 & L4 & L5 & L6).
    split; rewrite ?E1, ?E2, ?E3, ?E4, ?E6; cbn [Repair.read]; try assumption.
    intros name f file Hin ->. unfold filemap in Hin. rewrite E1, E2, E3, E4, E5, E6 in Hin.
    repeat (apply elem_of_cons in Hin as [[= _ <-]|Hin]; [assumption|]).
    now apply elem_of_nil in Hin.
  - intros [_ H1 H2 H3 H4 H5 HL]. rewrite E1, E2, E3, E4, E6 in *.
    cbn [Repair.read] in *.
    assert (Hfile : forall name file, (name, Some file) ∈ filemap a -> lines_clean (lines file))
      by (intros name file Hin; now apply (HL name (Some file) file)).
    unfold filemap in Hfile. rewrite E1, E2, E3, E4, E5, E6 in Hfile.
    split_and!; try assumption.
    + apply (Hfile "rooms"). set_solver.
    + apply (Hfile "objects"). set_solver.
    + apply (Hfile "sprites"). set_solver.
    + apply (Hfile "transformations"). set_solver.
    + apply (Hfile "combat"). set_solver.
    + apply (Hfile "sd"). set_solver.
Qed.
End VerifierSound.

(* --------------------------------------------------------------------- *)
(** ** sprite_factory.py: roles, health, damage and loot *)
(* --------------------------------------------------------------------- *)

Module SpriteAttributes.
Import WorldModel ThemeEngine Random RandomFacts SpriteFactory.
Import PyStr PyStrFacts TextFacts RecordFacts SpriteShape.
Import PyDictFacts PyDictFacts2 PyDictFacts3 SpriteFacts.

(** *** The role *)

Lemma bump_other (k k' : SpriteRole) m n (sc : @PyScores.t SpriteRole) :
  k' <> k -> (k', n) ∈ PyScores.bump k m sc -> (k', n) ∈ sc.
Proof.
  intros Hne. induction sc as [|[k0 n0] sc IH]; cbn [PyScores.bump]; [auto|].
  case_bool_decide as Hk.
  - subst k0. intros Hin. apply elem_of_cons in Hin as [[= -> _]|Hin]; [contradiction|].
    now right.
  - intros Hin. apply elem_of_cons in Hin as [->|Hin]; [left|right; auto].
Qed.

(** No point has gone to HERO. *)
Definition hero_zero (sc : @PyScores.t SpriteRole) : Prop :=
  forall n, (HERO, n) ∈ sc -> n = 0.

Lemma score_role_row_hero name_lower row sc :
  fst row <> HERO -> hero_zero sc -> hero_zero (score_role_row name_lower sc row).
Proof.
  intros Hrow. unfold score_role_row. revert sc.
  induction (snd row) as [|kw kws IH]; intros sc Hsc; cbn [fold_left]; [exact Hsc|].
  apply IH. destruct (contains kw name_lower); [|exact Hsc].
  intros n Hn. apply Hsc. eapply bump_other; [|exact Hn]. congruence.
Qed.

Lemma role_scores_hero name_lower :
  hero_zero (fold_left (score_role_row name_lower) ROLE_KEYWORDS (PyScores.init all_roles)).
Proof.
  assert (Hrows : Forall (fun row => fst row <> HERO) ROLE_KEYWORDS)
    by (unfold ROLE_KEYWORDS; repeat constructor; discriminate).
  assert (H0 : hero_zero (PyScores.init all_roles)).
  { intros n Hn. unfold PyScores.init in Hn.
    apply list_elem_of_In, in_map_iff in Hn as (k & [= _ <-] & _). reflexivity. }
  revert H0. generalize (PyScores.init all_roles).
  induction Hrows as [|row rows Hrow _ IH]; intros sc Hsc; cbn [fold_left]; [exact Hsc|].
  apply IH. now apply score_role_row_hero.
Qed.

Lemma py_max_from_elem (rest : @PyScores.t SpriteRole) : forall best,
  PyScores.py_max_from best rest ∈ best :: rest.
Proof.
  induction rest as [|[k n] rest IH]; intros best; cbn [PyScores.py_max_from]; [left|].
  destruct (snd best <? n).
  - right. apply IH.
  - specialize (IH best). apply elem_of_cons in IH as [->|IH]; [left|right; now right].
Qed.

Lemma override_role name_lower ov :
  find_override name_lower = Some ov -> ov_role ov <> HERO.
Proof.
  unfold find_override. destruct (find _ _) as [[k o]|] eqn:E; [|discriminate].
  intros [= <-]. apply find_some in E as [Hin _]. cbn [snd].
  assert (H : forallb (fun kv => negb (bool_decide (ov_role (snd kv) = HERO)))
                      KNOWN_CHARACTER_OVERRIDES = true) by reflexivity.
  rewrite forallb_forall in H. specialize (H _ Hin). cbn [snd] in H.
  now apply negb_true_iff, bool_decide_eq_false in H.
Qed.

(** No name is given the HERO role. *)
Lemma classify_not_hero name theme : fst (fst (_classify name theme)) <> HERO.
Proof.
  unfold _classify. cbv zeta.
  destruct (find_override _) as [ov|] eqn:Eov; cbn [fst].
  - eapply override_role, Eov.
  - pose proof (role_scores_hero (strip (lower name))) as Hz.
    destruct (fold_left _ ROLE_KEYWORDS _) as [|b rest] eqn:Es; cbn [PyScores.py_max];
      [discriminate|].
    pose proof (py_max_from_elem rest b) as Hin.
    destruct (PyScores.py_max_from b rest) as [best n].
    destruct (n =? 0) eqn:En; [discriminate|].
    intros ->. apply Nat.eqb_neq in En. apply En. now apply Hz.
Qed.

(** *** Health and damage *)

Lemma calc_stats_positive t role :
  (0 < fst (_calc_stats role (THEME_DEFAULTS t)))%Z /\
  (0 < snd (_calc_stats role (THEME_DEFAULTS t)))%Z.
Proof. destruct t, role; split; reflexivity. Qed.

(** *** The loot of a boss *)

(** The object is a weapon or a consumable. *)
Definition prized (o : GameObject.t) : bool :=
  GameObject.is_weapon o || GameObject.is_consumable o.

(** The world has an object to take that lies somewhere and is prized. *)
Definition has_prize (w : WorldConfig.t) : Prop :=
  exists oid o, (oid, o) ∈ WorldConfig.objects w /\ GameObject.takeable o = true /\
                GameObject.location o <> "none" /\ prized o = true.

Definition boss_loot (w : WorldConfig.t) (role : SpriteRole) (loot : string) : Prop :=
  role = BOSS -> has_prize w ->
  exists o, (loot, o) ∈ WorldConfig.objects w /\ prized o = true.

Lemma assign_loot_boss w role :
  NoDup (WorldConfig.object_ids w) -> post (_assign_loot w role) (boss_loot w role).
Proof.
  intros Hnd. unfold _assign_loot.
  destruct (WorldConfig.objects w) as [|o0 objects] eqn:Eo.
  { apply post_ret. intros _ (oid & o & Hin & _). rewrite Eo in Hin.
    now apply elem_of_nil in Hin. }
  cbv zeta. rewrite <- Eo.
  lazymatch goal with
  | |- post (match ?c with [] => _ | _ :: _ => _ end) _ => set (candidates := c)
  end.
  assert (Hc : forall oid o, (oid, o) ∈ WorldConfig.objects w ->
                             GameObject.takeable o = true ->
                             GameObject.location o <> "none" -> oid ∈ candidates).
  { intros oid o Hin H1 H2. apply list_elem_of_fmap. exists (oid, o). split; [reflexivity|].
    apply list_elem_of_filter. split; [split; assumption|exact Hin]. }
  destruct candidates as [|c cs] eqn:Ec.
  { apply post_ret. intros _ (oid & o & Hin & H1 & H2 & _).
    specialize (Hc oid o Hin H1 H2). now apply elem_of_nil in Hc. }
  rewrite <- Ec in *.
  destruct (bool_decide (role = BOSS)) eqn:Eb; cbn [andb].
  2:{ eapply post_mono; [apply choice_ok; rewrite Ec; discriminate|].
      intros x _ Hrole. apply bool_decide_eq_false in Eb. contradiction. }
  lazymatch goal with
  | |- post (if negb (bool_decide (?b = [])) then _ else _) _ => set (best := b)
  end.
  destruct (decide (best = [])) as [Hbest|Hbest].
  - rewrite bool_decide_eq_true_2 by exact Hbest. cbn [negb].
    eapply post_mono; [apply choice_ok; rewrite Ec; discriminate|].
    intros x _ _ (oid & o & Hin & H1 & H2 & H3). exfalso.
    assert (Hoid : oid ∈ best).
    { apply list_elem_of_filter. split; [|now apply (Hc oid o)].
      unfold WorldConfig.object_ids in Hnd.
      now rewrite (elem_of_get_nodup _ _ _ Hnd Hin). }
    rewrite Hbest in Hoid. now apply elem_of_nil in Hoid.
  - rewrite bool_decide_eq_false_2 by exact Hbest. cbn [negb].
    eapply post_mono; [apply choice_ok, Hbest|].
    intros x Hx _ _. apply list_elem_of_filter in Hx as [Hx _].
    destruct (PyDict.get (WorldConfig.objects w) x) as [o|] eqn:Eg; [|discriminate].
    exists o. split; [now apply get_Some_elem_of|exact Hx].
Qed.

(** *** The sprites *)

Definition attributes_ok (t : WorldTheme) (w : WorldConfig.t) (s : Sprite.t) : Prop :=
  Sprite.role s <> HERO /\
  (Sprite.health s, Sprite.damage s) = _calc_stats (Sprite.role s) (THEME_DEFAULTS t) /\
  (0 < Sprite.health s)%Z /\ (0 < Sprite.damage s)%Z /\
  Sprite.can_pickup s = negb (bool_decide (Sprite.role s = BOSS)) /\
  boss_loot w (Sprite.role s) (Sprite.loot_on_death s).

Lemma sprite_step_attributes total t w room_ids sprites ix :
  NoDup (WorldConfig.object_ids w) ->
  Forall (fun kv => attributes_ok t w (snd kv)) sprites ->
  post (sprite_step total (THEME_DEFAULTS t) w room_ids sprites ix)
       (Forall (fun kv => attributes_ok t w (snd kv))).
Proof.
  intros Hnd Hall. unfold sprite_step.
  destruct (negb (truthy (strip (snd ix)))); [now apply post_ret|]. cbv zeta.
  pose proof (classify_not_hero (snd ix) (THEME_DEFAULTS t)) as Hrole.
  destruct (_classify (snd ix) (THEME_DEFAULTS t)) as [[role behavior] aggression].
  cbn [fst] in Hrole.
  pose proof (calc_stats_positive t role) as [Hh Hd].
  destruct (_calc_stats role (THEME_DEFAULTS t)) as [health damage] eqn:Es.
  cbn [fst snd] in Hh, Hd.
  eapply post_bind; [apply (assign_loot_boss w role Hnd)|]. intros loot Hloot.
  apply post_ret. apply Forall_set; [exact Hall|].
  cbn [snd]. unfold attributes_ok. cbn. rewrite Es. split_and!; auto.
Qed.

(** Every sprite [generate_sprites] returns in one of the eleven themes
    has a role other than HERO, the health and damage of its role, both
    positive, and can be picked up unless it is a boss; and the loot of a
    boss is a weapon or a consumable whenever the world has one that can
    be taken and lies somewhere. *)
Theorem generate_sprites_attributes (names : list string) (t : WorldTheme)
    (w : WorldConfig.t) :
  NoDup (WorldConfig.object_ids w) ->
  post (generate_sprites names (THEME_DEFAULTS t) w)
       (fun sprites =>
          forall sid s,
            (sid, s) ∈ sprites ->
            Sprite.role s <> HERO /\
            (Sprite.health s, Sprite.damage s)
            = _calc_stats (Sprite.role s) (THEME_DEFAULTS t) /\
            (0 < Sprite.health s)%Z /\ (0 < Sprite.damage s)%Z /\
            (Sprite.can_pickup s = false <-> Sprite.role s = BOSS) /\
            (Sprite.role s = BOSS -> has_prize w ->
             exists o, (Sprite.loot_on_death s, o) ∈ WorldConfig.objects w /\
                       prized o = true)).
Proof.
  intros Hnd.
  assert (Hpost : post (generate_sprites names (THEME_DEFAULTS t) w)
                       (Forall (fun kv => attributes_ok t w (snd kv)))).
  { unfold generate_sprites. destruct names as [|n names]; [now apply post_ret|].
    destruct (WorldConfig.rooms w) as [|r rooms] eqn:Er; [now apply post_ret|].
    rewrite <- Er. cbv zeta. apply post_for_each; [|constructor].
    intros ix sprites _ Hall. now apply sprite_step_attributes. }
  eapply post_mono; [exact Hpost|].
  intros sprites Hall sid s Hin. rewrite Forall_forall in Hall.
  destruct (Hall _ Hin) as (H1 & H2 & H3 & H4 & H5 & H6). cbn [snd] in *.
  split_and!; try assumption.
  rewrite H5, negb_false_iff. apply bool_decide_eq_true.
Qed.

(** The world of one room with the four starter objects. *)
Definition armed_world : WorldConfig.t :=
  WorldConfig.with_objects PhysicsClaims.one_room_world
    (Generator._build_starter_objects (THEME_DEFAULTS ORIGINAL)
                                      PhysicsClaims.one_room_world).

Lemma generate_sprites_attributes_witness :
  has_prize armed_world /\
  post (generate_sprites ["The Overlord"; "Igor"] (THEME_DEFAULTS ORIGINAL) armed_world)
       (fun sprites =>
          forall sid s,
            (sid, s) ∈ sprites ->
            Sprite.role s <> HERO /\
            (Sprite.health s, Sprite.damage s)
            = _calc_stats (Sprite.role s) (THEME_DEFAULTS ORIGINAL) /\
            (0 < Sprite.health s)%Z /\ (0 < Sprite.damage s)%Z /\
            (Sprite.can_pickup s = false <-> Sprite.role s = BOSS) /\
            (Sprite.role s = BOSS -> has_prize armed_world ->
             exists o, (Sprite.loot_on_death s, o) ∈ WorldConfig.objects armed_world /\
                       prized o = true)).
Proof.
  split.
  - eexists "starter_weapon", _. split_and!; [left|reflexivity|discriminate|reflexivity].
  - apply (generate_sprites_attributes ["The Overlord"; "Igor"] ORIGINAL armed_world).
    apply (bool_decide_unpack (NoDup (WorldConfig.object_ids armed_world))).
    vm_compute. exact I.
Defined.
End SpriteAttributes.

(* --------------------------------------------------------------------- *)
(** ** theme_engine.py: keywords are matched as whole words *)
(* --------------------------------------------------------------------- *)

Module WholeWords.
Import WorldModel ThemeEngine PyStr PyStrFacts TextFacts.

(** No word character stands at the head of [post]. *)
Definition free_after (post : string) : bool :=
  match post with
  | EmptyString => true
  | String c _ => negb (is_word_char c)
  end.

(** No word character stands at the end of [pre]; [prev_ok] tells so of
    the text before [pre]. *)
Fixpoint free_before (prev_ok : bool) (pre : string) : bool :=
  match pre with
  | EmptyString => prev_ok
  | String c pre' => free_before (negb (is_word_char c)) pre'
  end.

Lemma match_here_spec kw : forall s,
  match_here kw s = true <-> exists post, s = kw +:+ post /\ free_after post = true.
Proof.
  induction kw as [|k kw IH]; intros s; cbn [match_here].
  - split.
    + intros H. exists s. rewrite append_nil_l. split; [reflexivity|].
      destruct s; [reflexivity|exact H].
    + intros (post & -> & H). rewrite append_nil_l. destruct post; [reflexivity|exact H].
  - destruct s as [|c s].
    + split; [discriminate|]. intros (post & H & _). rewrite append_cons in H. discriminate.
    + rewrite andb_true_iff, Ascii.eqb_eq, IH. split.
      * intros (-> & post & -> & H). exists post. now rewrite append_cons.
      * intros (post & H & Hfree). rewrite append_cons in H. injection H as -> ->. eauto.
Qed.

Lemma word_search_from_spec kw s : forall prev_ok,
  word_search_from prev_ok kw s = true <->
  exists pre post,
    s = pre +:+ kw +:+ post /\ free_before prev_ok pre = true /\ free_after post = true.
Proof.
  induction s as [|c s IH]; intros prev_ok; cbn [word_search_from];
    rewrite orb_true_iff, andb_true_iff, match_here_spec.
  - split.
    + intros [(Hp & post & H & Hfree)|H]; [|discriminate].
      exists "", post. rewrite append_nil_l. auto.
    + intros (pre & post & H & Hb & Ha). left.
      destruct pre as [|x pre]; [|rewrite append_cons in H; discriminate].
      rewrite append_nil_l in H. cbn in Hb. eauto.
  - rewrite IH. split.
    + intros [(Hp & post & H & Hfree)|(pre & post & -> & Hb & Ha)].
      * exists "", post. rewrite append_nil_l. auto.
      * exists (String c pre), post. rewrite append_cons. auto.
    + intros (pre & post & H & Hb & Ha). destruct pre as [|x pre].
      * left. rewrite append_nil_l in H. cbn in Hb. eauto.
      * right. rewrite append_cons in H. injection H as -> ->. eauto.
Qed.

Lemma free_before_end pre : forall prev_ok,
  free_before prev_ok pre = true <->
  (pre = "" /\ prev_ok = true) \/
  exists p c, pre = p +:+ String c "" /\ is_word_char c = false.
Proof.
  induction pre as [|x pre IH]; intros prev_ok; cbn [free_before].
  - split; [auto|]. intros [[_ H]|(p & c & H & _)]; [exact H|].
    destruct p; [rewrite append_nil_l in H|rewrite append_cons in H]; discriminate.
  - rewrite IH. split.
    + intros [[-> H]|(p & c & -> & H)]; right.
      * exists "", x. rewrite append_nil_l. split; [reflexivity|].
        now apply negb_true_iff in H.
      * exists (String x p), c. now rewrite append_cons.
    + intros [[H _]|(p & c & H & Hc)]; [discriminate|].
      destruct p as [|y p].
      * left. rewrite append_nil_l in H. injection H as -> <-.
        split; [reflexivity|]. now apply negb_true_iff.
      * right. rewrite append_cons in H. injection H as -> ->. eauto.
Qed.

(** The search of [classify] finds a keyword in a name exactly when the
    name holds the keyword as a whole word: the keyword occurs in it
    with no lower-case letter and no digit just before it and none just
    after it. *)
Theorem word_search_whole_word (kw s : string) :
  word_search kw s = true <->
  exists pre post,
    s = pre +:+ kw +:+ post /\
    (pre = "" \/ exists p c, pre = p +:+ String c "" /\ is_word_char c = false) /\
    (post = "" \/ exists c q, post = String c q /\ is_word_char c = false).
Proof.
  unfold word_search. rewrite word_search_from_spec. split.
  - intros (pre & post & -> & Hb & Ha). exists pre, post. split_and!; [reflexivity| |].
    + apply free_before_end in Hb as [[-> _]|H]; auto.
    + destruct post as [|c q]; [now left|]. right. exists c, q.
      split; [reflexivity|]. now apply negb_true_iff in Ha.
  - intros (pre & post & -> & Hb & Ha). exists pre, post. split_and!; [reflexivity| |].
    + apply free_before_end. destruct Hb as [->|H]; auto.
    + destruct Ha as [->|(c & q & -> & H)]; [reflexivity|]. now apply negb_true_iff.
Qed.
End WholeWords.
